(* ===== verification/_CoqProject ===== *)
-Q . S2P
Prelude.v
Arrays.v
MsgHeader.v
PtcpQueue.v
PtcpQueueInv.v
PtcpQueueSpec.v
PtcpQueueProps.v
PtcpCrash.v
SpscQueue.v
SpscConcurrent.v
SpscInv.v
SpscAlloc.v
SpscProps.v
SpscCrash.v
Platform.v
PtcpConn.v
Framing.v
PtcpConnRecv.v
PtcpConnSend.v
Wire.v
Link.v
LinkInv.v
LinkOpen.v
LinkStep.v
LinkRun.v
Scripted.v
PtcpConnProps.v
TcpShmConn.v
ShmLink.v
ShmLinkProps.v
Login.v
Descriptors.v
Server.v
ServerTable.v
ServerInv.v
ServerThreads.v
ServerLogon.v
ThreadsInv.v
ServerListen.v
ThreadsAlone.v
ThreadsEnd.v
ThreadsCalls.v
ServerRun.v
ServerRunProps.v
ServerLogin.v
Client.v
ClientInv.v
Silence.v
ScriptedNet.v
ServerProps.v
ThreadsProps.v
CrashProps.v
ClientProps.v
UserMem.v
EchoServer.v
EchoClient.v
EchoLink.v
Market.v
MarketTypes.v
MarketThreads.v
MarketThreadsInv.v
MarketThreadsProps.v
ClientRun.v
ClientRunProps.v
ClientEnd.v
EchoServerRun.v
EchoServerProps.v
EchoClientRun.v
EchoClientProps.v
MarketClientRun.v
MarketClientProps.v
PairedNet.v
LinkProps.v
LinkDrain.v
LinkDrainProps.v
EchoProps.v
MarketProps.v
MarketTypesProps.v
Handshake.v
