(* ===== verification/Prelude.v ===== *)
(** * tcpshm: verification of a persistent TCP / shared-memory message queue

    ** The program

    tcpshm is a library of C++ headers.  A client and a server exchange
    messages over a connection that survives broken sockets and crashes of
    either process: every message is kept in a memory-mapped file until the
    other side has acknowledged it, and a login compares the sequence numbers
    of the two files and resumes where they agree.  Between processes of one
    machine the messages go through a queue in shared memory instead, and the
    TCP connection carries only logins and heartbeats.

    [msg_header.h] has the byte order and the 8-byte header of every message;
    [ptcp_queue.h] the persistent send queue; [spsc_varq.h] the
    single-producer single-consumer queue in shared memory; [mmap.h] the
    mapping of files; [ptcp_conn.h] the TCP connection: it sends from the
    queue, cuts the received stream into messages and passes on the acks;
    [tcpshm_conn.h] the connection of the user, which is either of the two;
    [tcpshm_server.h] and [tcpshm_client.h] accept, log in, poll and close
    connections and call the user's class.  [test/] and
    [crypto_market_example/] are two programs on top of it.

    ** The model, file by file

    Every operation is a function of the source's name that takes and returns
    the object, a record with one field per member, and the world, when it
    makes system calls.  Pointers into an array are indices.  Integers are in
    [Z]; [u16], [u32], [u64] and [i32] mark where the source stores into or
    converts to a type of that width, so wrap-around is part of the model.
    An operation returns an [outcome]: [Undef] is an access outside an array
    or through a null pointer, [NoFuel] a loop that did not end.

    - [Prelude]: outcomes, machine integers, [word_lia], [run] and hints.  [Arrays]: arrays as lists, [get], [put], [slice], [blit].
    - [MsgHeader] is [msg_header.h].
    - [PtcpQueue] is [ptcp_queue.h]; [PtcpQueueInv] its invariant and the
      effect of every operation, [PtcpQueueSpec] the abstract queue and the
      simulation, [PtcpQueueProps] the properties.  [PtcpCrash] has the stores
      of every operation one by one, and [CrashProps] what a crash between two
      of them leaves in the file.
    - [SpscQueue] is [spsc_varq.h]; [SpscConcurrent] the interleavings of the
      writing and the reading thread, one access to a shared variable at a
      time; [SpscInv], [SpscAlloc], [SpscProps] the invariant and what
      follows.  [SpscCrash] adds processes that die between two stores.
    - [Platform] is [mmap.h], the configuration and the interface [Os] to the
      operating system with its laws [OsLaws].
    - [PtcpConn] is [ptcp_conn.h] without the logins; [Framing],
      [PtcpConnRecv], [PtcpConnSend], [PtcpConnProps] receiving and sending.
    - [TcpShmConn] is [tcpshm_conn.h]; [ShmLink] and [ShmLinkProps] two of
      its connections over the same shared memory; [Login] the login messages of
      [ptcp_conn.h] and the calls that carry them; [Descriptors] which
      operations open and close a socket.
    - [Server] is [tcpshm_server.h]; [ServerTable], [ServerInv],
      [ServerLogin], [ServerProps] the invariant of its connections and its
      sockets, and logins.  [Client] is [tcpshm_client.h]; [ClientInv],
      [ClientProps].
    - [ServerThreads]: the thread that calls [PollCtl] and those that call
      [PollTcp] and [PollShm], as state machines over one [TcpShmServer];
      [ServerLogon] splits a login where the stores begin, [ThreadsInv],
      [ServerListen], [ThreadsAlone], [ThreadsProps] the invariant of the
      threads and what follows; [ThreadsEnd] counts the turns that are left
      of a call, and [ThreadsCalls] says what a turn can wait for.
    - [Link] puts two [PTCPConnection]s on two hosts together: a step is an
      operation of either end, a socket that breaks, a process that crashes
      and starts again with its file, a login, or a login whose reply is
      lost.  [Wire], [LinkInv], [LinkOpen], [LinkStep], [LinkRun] are the
      invariant of the two directions; [LinkProps] the properties.
      [LinkDrain] and [LinkDrainProps]: two hosts whose network works again.
      [Handshake]: the logins of [Server] and [Client] are those of [Link].
    - [ServerRun] and [ClientRun] are what [Run] and [main] of the server
      programs and of the client programs have in common, parametric in the
      program's threads and members; [ServerRunProps], [ClientRunProps] what
      holds of all of them.  [Silence] and [ClientEnd]: a peer that falls
      silent, and the loop of a client then.
    - [UserMem]: the memory of a message behind the pointers of [Alloc] and
      [Front].  [EchoServer] and [EchoClient] are the callbacks and handlers
      of the programs of [test/], [EchoServerRun] and [EchoClientRun] their
      processes from [main] on, [EchoServerProps] and [EchoClientProps] the
      properties of these.  [EchoLink] runs the handlers of both over a
      [link], [EchoProps] has the property.
    - [crypto_market_example/]: [MarketTypes] is [common.h] and the
      configurations, [Market] the callbacks, senders and handlers;
      [MarketThreads] the server's process with its threads from [main] on,
      an instance of [ServerRun], [MarketClientRun] the client's, one of
      [ClientRun]; [MarketProps], [MarketTypesProps],
      [MarketThreadsInv], [MarketThreadsProps], [MarketClientProps] the
      properties.
    - [Scripted], [ScriptedNet] and [PairedNet] are concrete operating
      systems: a script of results, a network with logins and mapped files,
      and pairs of connected sockets.  They satisfy the laws and run the
      instances of the theorems.

    ** What is assumed

    The operating system and the user's callbacks are type classes with named
    laws.  [OsLaws]: what the manual pages say of [send] and [readv] on a
    non-blocking stream socket.  [TcpLaws]: what is read from a socket is
    what was written at the other end, in order.  [FdLaws], [MmapFdLaws],
    [LoginFdLaws]: which calls open or close a descriptor.  [ServerUserLaws],
    [ClientUserLaws]: a callback uses the connection it is given only through
    its public operations.  [ProcessLaws]: storing into the client object of
    a program opens no socket.  The theorems on liveness say what the network
    does from then on: [Silent] and [QuietProcess], nothing comes in any more;
    [Cooperative] and [FreshSockets], sockets take and return what they are
    given, and there are new ones.  Each class has an instance in [Scripted],
    [ScriptedNet], [PairedNet], [ClientRunProps] or beside the theorem; [EchoServer_laws] shows that the echo
    server is such a user.  [Conf_ok] collects the static asserts of the
    source; the one bound that the source does not state is that a receive
    buffer is below a gigabyte, which the [int] indices need.

    ** What is shown

    - Two hosts: each user gets a prefix of what the other pushed, once and in
      order, whatever breaks, and what is missing is still queued
      ([link_delivery]); the numbers of the two files always pass the check of
      the login ([link_login_agrees]); no operation is undefined and every
      loop ends ([link_total]). [HandleLogin] and [Connect] open the two ends
      as the login steps of this model do ([login_handshake]). When the
      network works, a connection that is open delivers all that was pushed,
      in as many rounds as there are bytes and messages left ([link_drains]),
      and from every state there is a run to such a connection and to the end
      of delivery ([link_recovers]).
    - A crash inside an operation of the send queue: most are atomic
      ([ptcp_crash_safe]); [Ack] is not ([ptcp_Ack_crash]), and a crash in it
      can lose a message ([ptcp_Ack_crash_loses]).
    - The send queue refines an abstract queue of unacknowledged messages
      ([ptcp_queue_refines]), and each operation does what it should on every
      branch ([ptcp_Alloc_correct] and the like); the check of a stored file
      returns, and accepts only whole messages, when the indices of the file
      are inside the array ([ptcp_SanityCheck_fuel],
      [ptcp_SanityCheck_sound]), which it does not look at
      ([ptcp_SanityCheck_beyond]).
    - The shared-memory queue is a FIFO under every interleaving
      ([spsc_linearizable]), without races on the words of a message
      ([spsc_race_free]), on every lap of its 32-bit indices. When processes
      die it stays one ([spsc_crash_fifo]) and the reader can empty it
      ([spsc_drains]), but a message that a writer died with may stay unseen,
      for ever when it fills the queue ([spsc_crash_stuck]). Two connections
      over shared memory deliver in both directions from their first login on
      ([shm_delivery]); what the server pushes during that login is lost
      ([shm_first_login_loses]).
    - A connection cuts the stream into messages, loses none and never leaves
      its buffer ([conn_Front_correct], [conn_DoRecv_correct]), sends the
      queue in order ([conn_SendPending_correct]) and heartbeats only between
      messages ([conn_SendHB_correct]).
    - In every state the server can reach, whatever the peers send and the
      calls return, it leaks no socket and closes none twice, its groups are
      in order and no client is logged on twice ([server_sockets_owned],
      [server_live_prefix], [server_names_unique]); a login that is rejected
      leaves the groups and the descriptors alone and touches at most one
      connection, which is not live, and one that is accepted makes one
      connection live ([server_HandleLogin_correct]), and two sides whose
      numbers pass the check resume ([login_agreement]). The same for the
      sockets of the client ([client_sockets_owned]).
    - The threads of a server: under every interleaving of their stores the
      sockets are in order ([threads_sockets_owned]) and a polling thread
      works on connections of its own group ([threads_visit_own]); a thread
      that runs alone runs the functions of the source ([threads_alone]).
      Every call ends whatever the other threads do, after a number of turns
      that the configuration gives, unless [HandleLogin], [TcpFront],
      [ShmFront] or a callback that a thread calls does not return
      ([threads_calls_end]). A connection that is visited when it is closed is
      left alone ([closed_visit_harmless]), but a message that is still held
      is popped in the next session ([threads_stale_pop]), and a queue that
      was never mapped may be read ([threads_ShmFront_null]).
    - The echo client never gets a number other than the next one, when no
      process ends inside a handler ([echo_exact]). When [main] of the echo
      programs returns no socket is open ([echo_server_main],
      [echo_client_main]). The server's [Run] returns after the signal, with
      the same exception as above ([echo_server_returns]), and the client's
      loop ends when the server is silent ([echo_client_times_out]). A send of
      the market data server is accepted by the client exactly when their
      counters agree ([market_send_step]), and puts an object of the structure
      of its type into the queue ([market_messages_typed]). With its threads
      the server lists the connections that are live, but for one whose login
      or logout it is at ([market_active_live]) and leaves nothing open
      ([market_main_stops]), nor does the client ([market_client_main]), which
      measures no latency ([market_no_latency]).
    - Limits of the code: a message or a stored header of size 0 hangs a loop
      ([conn_Front_hangs], [ptcp_SanityCheck_hangs]), sizes from 65528 on wrap
      ([ptcp_Alloc_size_wraps], [spsc_Alloc_size_wraps]), an empty
      shared-memory queue may refuse a message for ever
      ([spsc_Alloc_starves]), a short message makes the echo server copy out
      of bounds ([OnClientMsg_short]), two clients of the market data server
      end ([market_two_clients]).

    ** Fuel

    [Ack] runs its loop once per acknowledged message, as many times as the
    difference of the sequence numbers. The loops of [SanityCheckAndGetSeq],
    [SendPending] and [Front] advance by at least one block of the array or
    one byte of the buffer, so their length is enough fuel, unless a size of 0
    stands in the way: the hypotheses exclude it, and the theorems on hanging
    show that then no fuel is enough. The theorems on an operation say that it
    returns, not only what it returns when it does. The loops of the server
    and the client are counted by the groups and their connections.

    ** How fine the interleavings are

    [SpscConcurrent] interleaves the accesses to shared variables one at a
    time, that is under sequential consistency; the acquire and release orders
    of the source, which it needs on weaker processors, are not modelled, but
    [spsc_race_free] shows that the accesses to the words of a message, which
    are not atomic, never meet. [SpscCrash] and [ShmLink] add the death of a
    process at any of these points. [Server] and [Client] are one call at a
    time. [ServerThreads] splits the calls: a turn is a store into a group, a
    load from it, or one call on a connection, which is taken to be whole, as
    is the handling of a new connection up to its stores; two threads on the
    same connection at the same time are so ordered, which for the calls of
    two polling threads [threads_visit_own] shows to be enough. The sending
    thread of the market data server, which calls [Alloc] and [Push] on
    connections of other threads, has one turn for such a pair. In [ClientRun]
    a turn of the two threads of a client is one iteration of its loop. [Link]
    and [EchoLink] interleave whole operations of two hosts; there a crash
    falls between two of them. [PtcpCrash] has the crashes between two stores
    into the mapped file, where the order of the source is taken for the order
    of the stores and a [memmove] for one store.

    ** Not modelled

    The layout the compiler gives to the login messages; printing and
    logging; the clock and pinning ([timestamp.h], [cpupin.h]), the time being
    a parameter; the creation of threads, which are all there when [Run] has
    started, and signals other than the one that stops a server; the
    computation of the prices, which are bytes chosen by a parameter, as is
    what the generator of the market data server draws; the weak memory
    orders of the processor. *)

From stdpp Require Export base tactics list numbers option.
From Stdlib Require Export ZArith Lia.

Create HintDb tcpshm.
Create Rewrite HintDb tcpshm.
Declare Scope tcpshm_scope.
Delimit Scope tcpshm_scope with tcpshm.
#[global] Open Scope Z_scope.

(** ** Outcomes of a C++ operation *)

(** [Ret a]: the operation returns [a].  [Undef]: it reads or writes outside
    an array (undefined behaviour).  [NoFuel]: a loop has not ended within
    the fuel of the model. *)
Inductive outcome (A : Type) : Type :=
  | Ret (a : A)
  | Undef
  | NoFuel.
Arguments Ret {A} a.
Arguments Undef {A}.
Arguments NoFuel {A}.

#[export] Instance outcome_ret : MRet outcome := fun A a => Ret a.
#[export] Instance outcome_bind : MBind outcome := fun A B f m =>
  match m with Ret a => f a | Undef => Undef | NoFuel => NoFuel end.

#[export] Instance outcome_eq_dec `{EqDecision A} : EqDecision (outcome A).
Proof. solve_decision. Defined.

Lemma outcome_bind_Ret {A B} (f : A → outcome B) a : (Ret a ≫= f) = f a.
Proof. done. Qed.

Lemma outcome_bind_inv {A B} (m : outcome A) (f : A → outcome B) b :
  (m ≫= f) = Ret b → ∃ a, m = Ret a ∧ f a = Ret b.
Proof. destruct m as [a| |]; simpl; intros H; [by exists a|done..]. Qed.

(** Splits [H : (m ≫= f) = Ret b] into the runs of its parts. *)
Ltac run H :=
  cbv zeta in H;
  lazymatch type of H with
  | Ret _ = Ret _ => injection H as H; subst
  | Undef = Ret _ => discriminate H
  | NoFuel = Ret _ => discriminate H
  | (_ ≫= _) = Ret _ =>
      let a := fresh "r" in let Ha := fresh "Hrun" in
      apply outcome_bind_inv in H as (a & Ha & H)
  end.

(** ** Machine integers *)

Definition u16 (x : Z) : Z := x mod 65536.
Definition u32 (x : Z) : Z := x mod 4294967296.
Definition u64 (x : Z) : Z := x mod 18446744073709551616.
(** [static_cast<int>] of an unsigned 32-bit value. *)
Definition i32 (x : Z) : Z := (x + 2147483648) mod 4294967296 - 2147483648.

Ltac word_lia :=
  unfold u16, u32, u64, i32 in *; Z.to_euclidean_division_equations; lia.

Lemma u32_range x : 0 ≤ u32 x < 4294967296.
Proof. word_lia. Qed.
Lemma u16_range x : 0 ≤ u16 x < 65536.
Proof. word_lia. Qed.
Lemma u32_small x : 0 ≤ x < 4294967296 → u32 x = x.
Proof. word_lia. Qed.
(** Removes the wrap-around of the sums that [lia] sees in range. *)
Ltac u32_simpl :=
  repeat match goal with
    | |- context [u32 ?x] => rewrite (u32_small x) by lia
    end.

Lemma u16_small x : 0 ≤ x < 65536 → u16 x = x.
Proof. word_lia. Qed.
Lemma u64_small x : 0 ≤ x < 18446744073709551616 → u64 x = x.
Proof. word_lia. Qed.
Lemma u32_idemp x : u32 (u32 x) = u32 x.
Proof. word_lia. Qed.
Lemma u32_add_l x y : u32 (u32 x + y) = u32 (x + y).
Proof. unfold u32. apply Zplus_mod_idemp_l. Qed.
Lemma u32_add_r x y : u32 (x + u32 y) = u32 (x + y).
Proof. unfold u32. apply Zplus_mod_idemp_r. Qed.
Lemma u32_sub_l x y : u32 (u32 x - y) = u32 (x - y).
Proof. unfold u32. apply Zminus_mod_idemp_l. Qed.
Lemma u32_sub_r x y : u32 (x - u32 y) = u32 (x - y).
Proof. unfold u32. apply Zminus_mod_idemp_r. Qed.
#[export] Hint Rewrite u32_idemp u32_add_l u32_add_r u32_sub_l u32_sub_r : tcpshm.
#[export] Hint Resolve u32_range u16_range : tcpshm.

(** The signed reading of a 32-bit difference is the real difference as long
    as the two numbers are less than half the number circle apart. *)
Lemma i32_u32 x : -2147483648 ≤ x < 2147483648 → i32 (u32 x) = x.
Proof. word_lia. Qed.
Lemma i32_small x : -2147483648 ≤ x < 2147483648 → i32 x = x.
Proof. word_lia. Qed.
Lemma i32_serial x y :
  -2147483648 ≤ x - y < 2147483648 → i32 (u32 (u32 x - u32 y)) = x - y.
Proof. intros. rewrite u32_sub_l, u32_sub_r. by apply i32_u32. Qed.

(** Two values less than a full turn apart are equal when their 32-bit
    images are. *)
Lemma u32_inj_near x y :
  u32 x = u32 y → -4294967296 < x - y < 4294967296 → x = y.
Proof. intros H ?. unfold u32 in H. word_lia. Qed.

(** A power of two below [2^32] divides the number circle. *)
Lemma u32_mod_divide x n : 0 < n → (n | 4294967296) → u32 x mod n = x mod n.
Proof. intros ? [k Hk]. unfold u32. rewrite Hk, (Z.mul_comm k n).
  rewrite Z.rem_mul_r by nia. rewrite Z.mul_comm, Z.mod_add by lia.
  apply Z.mod_mod. lia. Qed.

(** [(s + n - 1) / n] of the source. *)
Definition div_up (s n : Z) : Z := (s + n - 1) / n.
