(* ===== verification/Arrays.v ===== *)
(** * Fixed-size arrays of the source as lists

    The queues live in C arrays ([blk_], [blk], [recvbuf_]).  An array is a
    list; an index is an integer, as in the source.  [get] and [put] are
    [Undef] outside the array, [slice lo hi l] is the segment [lo..hi) and
    [blit] is what [memcpy] and [memmove] leave behind. *)

From S2P Require Import Prelude.

Section arrays.
Context {A : Type}.
Implicit Types (l xs : list A) (i lo hi : Z).

Definition zlen l : Z := Z.of_nat (length l).

Definition slice lo hi l : list A :=
  take (Z.to_nat (hi - lo)) (drop (Z.to_nat lo) l).

Definition blit dst xs l : list A :=
  take (Z.to_nat dst) l ++ xs ++ drop (Z.to_nat dst + length xs) l.

Definition get l i : outcome A :=
  if decide (0 ≤ i) then
    match l !! Z.to_nat i with Some x => Ret x | None => Undef end
  else Undef.

Definition put l i (x : A) : outcome (list A) :=
  if decide (0 ≤ i < zlen l) then Ret (<[Z.to_nat i := x]> l) else Undef.

(** Copying [xs] to [l + dst]. *)
Definition memcpy l dst xs : outcome (list A) :=
  if decide (0 ≤ dst ∧ dst + zlen xs ≤ zlen l) then Ret (blit dst xs l) else Undef.

(** Moving [n] elements inside [l]; the regions may overlap. *)
Definition memmove l dst src n : outcome (list A) :=
  if decide (0 ≤ src ∧ 0 ≤ n ∧ src + n ≤ zlen l ∧ 0 ≤ dst ∧ dst + n ≤ zlen l)
  then Ret (blit dst (slice src (src + n) l) l) else Undef.

Lemma zlen_nonneg l : 0 ≤ zlen l.
Proof. unfold zlen. lia. Qed.
Lemma zlen_app l xs : zlen (l ++ xs) = zlen l + zlen xs.
Proof. unfold zlen. rewrite length_app. lia. Qed.
Lemma zlen_cons x l : zlen (x :: l) = 1 + zlen l.
Proof. unfold zlen. simpl. lia. Qed.
Lemma zlen_nil : zlen [] = 0.
Proof. done. Qed.
Lemma zlen_nil_inv l : zlen l = 0 → l = [].
Proof. destruct l; [done|]. rewrite zlen_cons. pose proof (zlen_nonneg l). lia. Qed.
Lemma zlen_repeat n (x : A) : zlen (repeat x n) = Z.of_nat n.
Proof. unfold zlen. by rewrite repeat_length. Qed.

Lemma app_inj_zlen (k1 k2 l1 l2 : list A) :
  k1 ++ k2 = l1 ++ l2 → zlen k1 = zlen l1 → k1 = l1 ∧ k2 = l2.
Proof. intros Heq Hl. apply app_inj_1; [|done]. unfold zlen in Hl. lia. Qed.

Lemma get_Ret l i x : get l i = Ret x ↔ 0 ≤ i ∧ l !! Z.to_nat i = Some x.
Proof.
  unfold get. case_decide; [|by split; [|intros [? _]; lia]].
  destruct (l !! Z.to_nat i) as [y|]; split; intros Hx; try by simplify_eq.
  - by destruct Hx as [_ [= ->]].
  - by destruct Hx.
Qed.
Lemma get_in_range l i : 0 ≤ i < zlen l → ∃ x, get l i = Ret x.
Proof.
  intros [? ?]. destruct (lookup_lt_is_Some_2 l (Z.to_nat i)) as [x Hx];
    [unfold zlen in *; lia|]. exists x. by apply get_Ret.
Qed.
Lemma get_range l i x : get l i = Ret x → 0 ≤ i < zlen l.
Proof. intros [? ?%lookup_lt_Some]%get_Ret. unfold zlen. lia. Qed.
Lemma get_out l i : ¬ (0 ≤ i < zlen l) → get l i = Undef.
Proof.
  intros. unfold get. case_decide; [|done].
  rewrite lookup_ge_None_2; [done|]. unfold zlen in *. lia.
Qed.

Lemma slice_lookup lo hi l k :
  slice lo hi l !! k =
    if decide (k < Z.to_nat (hi - lo))%nat then l !! (Z.to_nat lo + k)%nat else None.
Proof.
  unfold slice. rewrite lookup_take. case_decide; [|done]. by rewrite lookup_drop.
Qed.
Lemma slice_zlen lo hi l : 0 ≤ lo ≤ hi → hi ≤ zlen l → zlen (slice lo hi l) = hi - lo.
Proof. unfold zlen, slice. rewrite length_take, length_drop. lia. Qed.
Lemma slice_nil lo hi l : hi ≤ lo → slice lo hi l = [].
Proof. intros. unfold slice. by replace (Z.to_nat (hi - lo)) with 0%nat by lia. Qed.
Lemma slice_full l : slice 0 (zlen l) l = l.
Proof. unfold slice, zlen. rewrite drop_0. apply take_ge. lia. Qed.
Lemma slice_app lo mid hi l :
  0 ≤ lo ≤ mid → mid ≤ hi → slice lo hi l = slice lo mid l ++ slice mid hi l.
Proof.
  intros. unfold slice.
  replace (Z.to_nat (hi - lo)) with (Z.to_nat (mid - lo) + Z.to_nat (hi - mid))%nat by lia.
  rewrite <-take_take_drop, drop_drop.
  by replace (Z.to_nat lo + Z.to_nat (mid - lo))%nat with (Z.to_nat mid) by lia.
Qed.
Lemma slice_cons lo hi l x :
  lo < hi → get l lo = Ret x → slice lo hi l = x :: slice (lo + 1) hi l.
Proof.
  intros ? [? Hx]%get_Ret. unfold slice.
  replace (Z.to_nat (hi - lo)) with (S (Z.to_nat (hi - (lo + 1)))) by lia.
  rewrite (drop_S _ _ _ Hx). simpl.
  by replace (Z.to_nat (lo + 1)) with (S (Z.to_nat lo)) by lia.
Qed.
Lemma slice_slice a b lo hi l :
  0 ≤ lo → 0 ≤ a → lo + b ≤ hi → slice a b (slice lo hi l) = slice (lo + a) (lo + b) l.
Proof.
  intros. apply list_eq. intros k. rewrite !slice_lookup.
  repeat case_decide; try lia; [|done]. f_equal. lia.
Qed.
Lemma slice_app_l lo hi l xs : 0 ≤ lo → hi ≤ zlen l → slice lo hi (l ++ xs) = slice lo hi l.
Proof.
  intros. apply list_eq. intros k. rewrite !slice_lookup. case_decide; [|done].
  apply lookup_app_l. unfold zlen in *. lia.
Qed.
Lemma slice_app_r lo hi l xs :
  zlen l ≤ lo → slice lo hi (l ++ xs) = slice (lo - zlen l) (hi - zlen l) xs.
Proof.
  intros. apply list_eq. intros k. rewrite !slice_lookup. unfold zlen in *.
  repeat case_decide; try lia; [|done].
  rewrite lookup_app_r by lia. f_equal. lia.
Qed.
Lemma slice_app_full l xs : slice (zlen l) (zlen l + zlen xs) (l ++ xs) = xs.
Proof.
  rewrite slice_app_r by lia. rewrite Z.sub_diag, Z.add_simpl_l. apply slice_full.
Qed.
Lemma slice_zlen_le lo hi l : 0 ≤ lo ≤ hi → zlen (slice lo hi l) ≤ hi - lo.
Proof. unfold zlen, slice. rewrite length_take, length_drop. lia. Qed.
Lemma slice_get lo hi l k x :
  0 ≤ lo → lo + k < hi → get (slice lo hi l) k = Ret x → get l (lo + k) = Ret x.
Proof.
  intros ? ? [? Hk]%get_Ret. rewrite slice_lookup in Hk. case_decide; [|done].
  apply get_Ret. split; [lia|]. by replace (Z.to_nat (lo + k)) with (Z.to_nat lo + Z.to_nat k)%nat by lia.
Qed.
Lemma get_slice lo hi l k :
  0 ≤ lo → 0 ≤ k → lo + k < hi → get (slice lo hi l) k = get l (lo + k).
Proof.
  intros. unfold get. rewrite !decide_True by lia. rewrite slice_lookup.
  rewrite decide_True by lia.
  by replace (Z.to_nat (lo + k)) with (Z.to_nat lo + Z.to_nat k)%nat by lia.
Qed.
Lemma get_app_l l xs i : i < zlen l → get (l ++ xs) i = get l i.
Proof.
  intros. unfold get. case_decide; [|done].
  rewrite lookup_app_l; [done|]. unfold zlen in *. lia.
Qed.

Lemma blit_zlen dst xs l :
  0 ≤ dst → dst + zlen xs ≤ zlen l → zlen (blit dst xs l) = zlen l.
Proof. unfold zlen, blit. rewrite !length_app, length_take, length_drop. lia. Qed.
Lemma blit_slice_same dst xs l :
  0 ≤ dst ≤ zlen l → slice dst (dst + zlen xs) (blit dst xs l) = xs.
Proof.
  intros. unfold blit, slice, zlen in *.
  rewrite drop_app_length' by (rewrite length_take; lia).
  apply take_app_length'. lia.
Qed.
Lemma blit_slice_before dst xs l lo hi :
  0 ≤ lo → hi ≤ dst ≤ zlen l → slice lo hi (blit dst xs l) = slice lo hi l.
Proof.
  intros. unfold blit. apply list_eq. intros k. rewrite !slice_lookup.
  case_decide; [|done]. unfold zlen in *. rewrite lookup_app_l by (rewrite length_take; lia).
  apply lookup_take_lt. lia.
Qed.
Lemma blit_slice_after dst xs l lo hi :
  0 ≤ dst → dst + zlen xs ≤ lo → dst + zlen xs ≤ zlen l →
  slice lo hi (blit dst xs l) = slice lo hi l.
Proof.
  intros. unfold blit. apply list_eq. intros k. rewrite !slice_lookup.
  case_decide; [|done]. unfold zlen in *.
  rewrite lookup_app_r by (rewrite length_take; lia). rewrite length_take.
  rewrite lookup_app_r by lia. rewrite lookup_drop. f_equal. lia.
Qed.

Lemma blit_blit i xs ys l :
  0 ≤ i → i + zlen xs + zlen ys ≤ zlen l →
  blit (i + zlen xs) ys (blit i xs l) = blit i (xs ++ ys) l.
Proof.
  intros. unfold blit, zlen in *. rewrite <-app_assoc.
  replace (Z.to_nat (i + Z.of_nat (length xs))) with (Z.to_nat i + length xs)%nat by lia.
  rewrite take_app_add' by (rewrite length_take; lia).
  rewrite take_app_length, <-app_assoc. do 2 f_equal.
  rewrite <-Nat.add_assoc, drop_app_add' by (rewrite length_take; lia).
  rewrite drop_app_add, drop_drop, length_app. f_equal. f_equal. lia.
Qed.

Lemma blit_cons i x ys l :
  0 ≤ i → i + 1 + zlen ys ≤ zlen l →
  blit (i + 1) ys (blit i [x] l) = blit i (x :: ys) l.
Proof. intros. apply (blit_blit i [x]); rewrite ?zlen_cons, ?zlen_nil; lia. Qed.

Lemma put_Ret l i x l' :
  put l i x = Ret l' ↔ 0 ≤ i < zlen l ∧ l' = blit i [x] l.
Proof.
  unfold put. case_decide as Hi; [|by split; [|intros [? _]]].
  assert (<[Z.to_nat i := x]> l = blit i [x] l) as ->.
  { unfold blit, zlen in *. simpl. rewrite insert_take_drop by lia.
    do 3 f_equal. lia. }
  split; [by intros [= <-]|by intros [_ ->]].
Qed.
Lemma put_in_range l i x : 0 ≤ i < zlen l → put l i x = Ret (blit i [x] l).
Proof. intros. by apply put_Ret. Qed.
Lemma memcpy_in_range l dst xs :
  0 ≤ dst → dst + zlen xs ≤ zlen l → memcpy l dst xs = Ret (blit dst xs l).
Proof. intros. unfold memcpy. by rewrite decide_True. Qed.
Lemma memmove_in_range l dst src n :
  0 ≤ src → 0 ≤ n → src + n ≤ zlen l → 0 ≤ dst → dst + n ≤ zlen l →
  memmove l dst src n = Ret (blit dst (slice src (src + n) l) l).
Proof. intros. unfold memmove. by rewrite decide_True. Qed.
Lemma get_blit_head i x xs l :
  0 ≤ i < zlen l → get (blit i (x :: xs) l) i = Ret x.
Proof.
  intros. apply get_Ret. split; [lia|]. unfold blit, zlen in *.
  rewrite lookup_app_r by (rewrite length_take; lia).
  rewrite length_take. by replace (Z.to_nat i - _)%nat with 0%nat by lia.
Qed.
Lemma get_slice_eq l l' lo hi i :
  0 ≤ lo ≤ i → i < hi → slice lo hi l = slice lo hi l' → get l i = get l' i.
Proof.
  intros ? ? Heq. unfold get. case_decide; [|done].
  assert (slice lo hi l !! Z.to_nat (i - lo) = slice lo hi l' !! Z.to_nat (i - lo)) as Hk
    by by rewrite Heq.
  rewrite !slice_lookup in Hk. case_decide; [|lia].
  replace (Z.to_nat lo + Z.to_nat (i - lo))%nat with (Z.to_nat i) in Hk by lia.
  by rewrite Hk.
Qed.
Lemma split_slice lo hi l :
  0 ≤ lo ≤ hi → hi ≤ zlen l → l = slice 0 lo l ++ slice lo hi l ++ slice hi (zlen l) l.
Proof. intros. rewrite <-!slice_app by lia. symmetry. apply slice_full. Qed.

End arrays.

#[export] Hint Resolve zlen_nonneg : tcpshm.
#[export] Hint Rewrite @zlen_app @zlen_cons @zlen_nil : tcpshm.
