(* ===== verification/MsgHeader.v ===== *)
(** * Message headers and byte order ([msg_header.h])

    [Convert] is [Endian<ToLittle>::Convert] at the unsigned types, with the
    byte swaps as the source writes them.  [is_little_endian] is the host
    ([std::endian::native == std::endian::little]).  [store_uint] and
    [load_uint] are the object representation of an unsigned integer on a
    host of the given byte order; with them the wire format is stated. *)

From S2P Require Import Prelude.
From S2P Require Import Arrays.

(** ** The byte swaps *)

Definition bswap16 (x : Z) : Z :=
  u16 (Z.lor (Z.shiftl (Z.land x 0xFF) 8) (Z.shiftr (Z.land x 0xFF00) 8)).

Definition bswap32 (x : Z) : Z :=
  u32 (Z.lor (Z.lor (Z.lor
    (Z.shiftl (Z.land x 0x000000FF) 24)
    (Z.shiftl (Z.land x 0x0000FF00) 8))
    (Z.shiftr (Z.land x 0x00FF0000) 8))
    (Z.shiftr (Z.land x 0xFF000000) 24)).

Definition bswap64 (x : Z) : Z :=
  u64 (Z.lor (Z.lor (Z.lor (Z.lor (Z.lor (Z.lor (Z.lor
    (Z.shiftl (Z.land x 0x00000000000000FF) 56)
    (Z.shiftl (Z.land x 0x000000000000FF00) 40))
    (Z.shiftl (Z.land x 0x0000000000FF0000) 24))
    (Z.shiftl (Z.land x 0x00000000FF000000) 8))
    (Z.shiftr (Z.land x 0x000000FF00000000) 8))
    (Z.shiftr (Z.land x 0x0000FF0000000000) 24))
    (Z.shiftr (Z.land x 0x00FF000000000000) 40))
    (Z.shiftr (Z.land x 0xFF00000000000000) 56)).

(** ** [Endian<ToLittle>] on a host *)

Section Endian.
Context (is_little_endian ToLittle : bool).

(** [Convert] at an unsigned type of [sizeof_T] bytes. *)
Definition Convert (sizeof_T : Z) (v : Z) : Z :=
  if eqb ToLittle is_little_endian then v
  else if sizeof_T =? 2 then bswap16 v
  else if sizeof_T =? 4 then bswap32 v
  else if sizeof_T =? 8 then bswap64 v
  else v.

(** [Convert] at a signed type: through the unsigned type of the same
    width ([static_cast] to it and back, both modulo the width). *)
Definition Convert_signed (sizeof_T : Z) (v : Z) : Z :=
  let width := 2 ^ (8 * sizeof_T) in
  let u := Convert sizeof_T (v mod width) in
  (u + width / 2) mod width - width / 2.

(** [Convert] at a floating point type: through the unsigned type of the
    same width by a [union].  A [float] or [double] is the unsigned number
    that represents it. *)
Definition Convert_float (sizeof_T : Z) (v : Z) : Z :=
  if sizeof_T =? 4 then Convert 4 v
  else if sizeof_T =? 8 then Convert 8 v
  else v.
End Endian.

(** ** [struct MsgHeader] *)

Record MsgHeader := mkMsgHeader {
  mh_size : Z;      (* uint16_t size: of the whole message, header included *)
  mh_msg_type : Z;  (* uint16_t msg_type *)
  mh_ack_seq : Z    (* uint32_t ack_seq *)
}.

#[export] Instance MsgHeader_eq_dec : EqDecision MsgHeader.
Proof. solve_decision. Defined.

Definition sizeof_MsgHeader : Z := 8.

Definition ConvertByteOrder (is_little_endian ToLittle : bool) (h : MsgHeader) : MsgHeader :=
  {| mh_size := Convert is_little_endian ToLittle 2 (mh_size h);
     mh_msg_type := Convert is_little_endian ToLittle 2 (mh_msg_type h);
     mh_ack_seq := Convert is_little_endian ToLittle 4 (mh_ack_seq h) |}.

(** The widths of the fields. *)
Definition MsgHeader_ok (h : MsgHeader) : Prop :=
  0 ≤ mh_size h < 65536 ∧ 0 ≤ mh_msg_type h < 65536 ∧ 0 ≤ mh_ack_seq h < 4294967296.

#[export] Instance MsgHeader_ok_dec h : Decision (MsgHeader_ok h).
Proof. unfold MsgHeader_ok. apply _. Defined.

(** Eight zero bytes. *)
Definition zero_header : MsgHeader := mkMsgHeader 0 0 0.

(** ** Object representation *)

Fixpoint store_le (n : nat) (v : Z) : list Z :=
  match n with O => [] | S n => v mod 256 :: store_le n (v / 256) end.

Fixpoint load_le (bs : list Z) : Z :=
  match bs with [] => 0 | b :: bs => b + 256 * load_le bs end.

Definition store_uint (little : bool) (n : nat) (v : Z) : list Z :=
  if little then store_le n v else rev (store_le n v).
Definition load_uint (little : bool) (bs : list Z) : Z :=
  load_le (if little then bs else rev bs).

(** [ConvertInPlace] on an object of [n] bytes in the memory of the host. *)
Definition ConvertInPlace (is_little_endian : bool) (convert : Z → Z → Z) (n : nat) (bs : list Z) : list Z :=
  store_uint is_little_endian n (convert (Z.of_nat n) (load_uint is_little_endian bs)).

(** The 8 bytes of a header at offsets 0, 2 and 4. *)
Definition header_bytes (little : bool) (h : MsgHeader) : list Z :=
  store_uint little 2 (mh_size h) ++ store_uint little 2 (mh_msg_type h)
  ++ store_uint little 4 (mh_ack_seq h).
Definition bytes_header (little : bool) (bs : list Z) : MsgHeader :=
  {| mh_size := load_uint little (slice 0 2 bs);
     mh_msg_type := load_uint little (slice 2 4 bs);
     mh_ack_seq := load_uint little (slice 4 8 bs) |}.

Definition byte_ok (b : Z) : Prop := 0 ≤ b < 256.

(** ** Lemmas on the object representation *)

Lemma store_le_length n v : length (store_le n v) = n.
Proof. revert v. induction n; intros; simpl; auto. Qed.
Lemma store_le_bytes n v : Forall byte_ok (store_le n v).
Proof.
  revert v. induction n; intros v; simpl; constructor; auto.
  unfold byte_ok. apply Z.mod_pos_bound. lia.
Qed.
Lemma load_store_le n v : 0 ≤ v < 256 ^ Z.of_nat n → load_le (store_le n v) = v.
Proof.
  revert v. induction n as [|n IH]; intros v Hv; simpl; [lia|].
  rewrite Nat2Z.inj_succ, Z.pow_succ_r in Hv by lia. rewrite IH.
  - rewrite (Z.div_mod v 256) at 3 by lia. lia.
  - split; [apply Z.div_pos; lia|]. apply Z.div_lt_upper_bound; lia.
Qed.
Lemma store_load_le bs : Forall byte_ok bs → store_le (length bs) (load_le bs) = bs.
Proof.
  induction 1 as [|b bs Hb _ IH]; simpl; [done|]. unfold byte_ok in Hb.
  rewrite (Z.add_comm b), (Z.mul_comm 256), Z.div_add_l, Z.div_small, Z.add_0_r by lia.
  rewrite Z.add_comm, Z.mod_add, Z.mod_small, IH by lia. done.
Qed.
Lemma load_le_bound bs : Forall byte_ok bs → 0 ≤ load_le bs < 256 ^ zlen bs.
Proof.
  induction 1 as [|b bs Hb _ IH]; simpl; [done|].
  rewrite zlen_cons, Z.pow_add_r by (pose proof (zlen_nonneg bs); lia).
  unfold byte_ok in *. lia.
Qed.
Lemma store_uint_length little n v : length (store_uint little n v) = n.
Proof. unfold store_uint. destruct little; rewrite ?length_rev; apply store_le_length. Qed.
Lemma store_uint_bytes little n v : Forall byte_ok (store_uint little n v).
Proof.
  unfold store_uint. destruct little; [apply store_le_bytes|].
  apply Forall_rev, store_le_bytes.
Qed.
Lemma load_store_uint little n v :
  0 ≤ v < 256 ^ Z.of_nat n → load_uint little (store_uint little n v) = v.
Proof.
  intros. unfold load_uint, store_uint. destruct little; rewrite ?rev_involutive;
    by apply load_store_le.
Qed.

(** ** The byte swaps reverse the bytes *)

Lemma land_byte x k :
  0 ≤ k → Z.land x (255 * 2 ^ k) = (x / 2 ^ k) mod 256 * 2 ^ k.
Proof.
  intros. rewrite <-!Z.shiftl_mul_pow2, <-Z.shiftr_div_pow2 by lia.
  change 256 with (2 ^ 8). rewrite <-Z.land_ones by lia. change (Z.ones 8) with 255.
  apply Z.bits_inj'. intros i ?. rewrite Z.land_spec, !Z.shiftl_spec by lia.
  destruct (decide (i < k)).
  - rewrite (Z.testbit_neg_r _ (i - k)) by lia. rewrite (Z.testbit_neg_r _ (i - k)) by lia.
    apply andb_false_r.
  - rewrite Z.land_spec, Z.shiftr_spec by lia. by replace (i - k + k) with i by lia.
Qed.

Lemma lor_horner h b c c' n :
  0 ≤ n → 0 ≤ b < 256 → c = 2 ^ n → c' = 2 ^ (n + 8) →
  Z.lor (h * c') (b * c) = (h * 256 + b) * c.
Proof.
  intros ? Hb -> ->. rewrite Z.pow_add_r, (Z.mul_comm (2 ^ n)), Z.mul_assoc by lia.
  change (2 ^ 8) with 256. rewrite <-!(Z.shiftl_mul_pow2 _ n), <-Z.shiftl_lor by lia. f_equal.
  rewrite <-Z.lxor_lor; [symmetry; apply Z.add_nocarry_lxor|];
    apply Z.bits_inj'; intros i ?; rewrite Z.land_spec, Z.bits_0;
    change 256 with (2 ^ 8) in *; rewrite <-Z.shiftl_mul_pow2, Z.shiftl_spec by lia;
    (destruct (decide (i < 8)); [by rewrite Z.testbit_neg_r by lia|]);
    rewrite <-(Z.mod_small b (2 ^ 8)), Z.mod_pow2_bits_high by lia; apply andb_false_r.
Qed.

(** Byte [k] of [x], moved up or down: one operand of a byte swap. *)
Definition byte_at (x k : Z) : Z := (x / 2 ^ k) mod 256.

Arguments byte_at : simpl never.

Lemma byte_at_ok x k : 0 ≤ byte_at x k < 256.
Proof. apply Z.mod_pos_bound. lia. Qed.
Lemma land_shiftl x m k j c :
  0 ≤ k → 0 ≤ j → m = 255 * 2 ^ k → c = 2 ^ (k + j) →
  Z.shiftl (Z.land x m) j = byte_at x k * c.
Proof.
  intros ? ? -> ->. rewrite land_byte, Z.shiftl_mul_pow2 by lia.
  by rewrite <-Z.mul_assoc, <-Z.pow_add_r by lia.
Qed.
Lemma land_shiftr x m k j c :
  0 ≤ j ≤ k → m = 255 * 2 ^ k → c = 2 ^ (k - j) →
  Z.shiftr (Z.land x m) j = byte_at x k * c.
Proof.
  intros ? -> ->. rewrite land_byte, Z.shiftr_div_pow2 by lia.
  replace (2 ^ k) with (2 ^ (k - j) * 2 ^ j) at 2
    by (rewrite <-Z.pow_add_r by lia; f_equal; lia).
  by rewrite Z.mul_assoc, Z.div_mul by lia.
Qed.
Lemma store_le_byte_at n x i :
  (i < n)%nat → store_le n x !! i = Some (byte_at x (8 * Z.of_nat i)).
Proof.
  revert x i. induction n as [|n IH]; intros x i ?; [lia|].
  destruct i as [|i]; simpl.
  - unfold byte_at. by rewrite Z.div_1_r.
  - rewrite IH by lia. unfold byte_at. rewrite Z.div_div by lia.
    change 256 with (2 ^ 8) at 1. rewrite <-Z.pow_add_r by lia. do 4 f_equal. lia.
Qed.

(** Turns the operands of a byte swap into bytes and joins them. *)
Ltac bswap_operands :=
  repeat first
    [ erewrite (land_shiftl _ _ 0) by (try reflexivity; lia)
    | erewrite (land_shiftl _ _ 8) by (try reflexivity; lia)
    | erewrite (land_shiftl _ _ 16) by (try reflexivity; lia)
    | erewrite (land_shiftl _ _ 24) by (try reflexivity; lia)
    | erewrite (land_shiftr _ _ 8) by (try reflexivity; lia)
    | erewrite (land_shiftr _ _ 16) by (try reflexivity; lia)
    | erewrite (land_shiftr _ _ 24) by (try reflexivity; lia)
    | erewrite (land_shiftr _ _ 32) by (try reflexivity; lia)
    | erewrite (land_shiftr _ _ 40) by (try reflexivity; lia)
    | erewrite (land_shiftr _ _ 48) by (try reflexivity; lia)
    | erewrite (land_shiftr _ _ 56) by (try reflexivity; lia) ].

(** Evaluates the positions that remain symbolic. *)
Ltac bswap_eval :=
  repeat match goal with
    | |- context [8 * Z.of_nat ?k] =>
        let v := eval vm_compute in (8 * Z.of_nat k) in change (8 * Z.of_nat k) with v
    | |- context [2 ^ (?a - ?b)] =>
        let v := eval vm_compute in (2 ^ (a - b)) in change (2 ^ (a - b)) with v
    end.

Lemma bswap16_bytes x : bswap16 x = load_le (rev (store_le 2 x)).
Proof.
  unfold bswap16. bswap_operands.
  rewrite (lor_horner _ _ _ _ 0) by (try apply byte_at_ok; try reflexivity; lia).
  pose proof (byte_at_ok x 0). pose proof (byte_at_ok x 8).
  unfold u16. rewrite Z.mod_small by lia.
  assert (store_le 2 x = [byte_at x 0; byte_at x 8]) as ->.
  { apply list_eq. intros [|[|i]]; [by rewrite store_le_byte_at by lia..|done]. }
  simpl. lia.
Qed.

Ltac bswap_join n :=
  rewrite (lor_horner _ _ _ _ n) by (try apply byte_at_ok; try reflexivity; lia).

(** The bytes of [x] one by one. *)
Lemma store_le_bytes_at n x :
  store_le n x = (λ i, byte_at x (8 * Z.of_nat i)) <$> seq 0 n.
Proof.
  apply list_eq. intros i. rewrite list_lookup_fmap.
  destruct (decide (i < n)%nat).
  - rewrite store_le_byte_at by lia. by rewrite lookup_seq_lt by lia.
  - rewrite lookup_ge_None_2 by (rewrite store_le_length; lia).
    by rewrite lookup_seq_ge by lia.
Qed.

Lemma bswap32_bytes x : bswap32 x = load_le (rev (store_le 4 x)).
Proof.
  unfold bswap32. bswap_operands. bswap_join 16. bswap_join 8. bswap_join 0.
  rewrite store_le_bytes_at. cbn. bswap_eval.
  pose proof (byte_at_ok x 0). pose proof (byte_at_ok x 8).
  pose proof (byte_at_ok x 16). pose proof (byte_at_ok x 24).
  unfold u32. rewrite Z.mod_small by lia. lia.
Qed.

Lemma bswap64_bytes x : bswap64 x = load_le (rev (store_le 8 x)).
Proof.
  unfold bswap64. bswap_operands.
  bswap_join 48. bswap_join 40. bswap_join 32. bswap_join 24.
  bswap_join 16. bswap_join 8. bswap_join 0.
  rewrite store_le_bytes_at. cbn. bswap_eval.
  pose proof (byte_at_ok x 0). pose proof (byte_at_ok x 8).
  pose proof (byte_at_ok x 16). pose proof (byte_at_ok x 24).
  pose proof (byte_at_ok x 32). pose proof (byte_at_ok x 40).
  pose proof (byte_at_ok x 48). pose proof (byte_at_ok x 56).
  unfold u64. rewrite Z.mod_small by lia. lia.
Qed.

(** ** [Convert] *)

Section Convert_lemmas.
Context (is_little_endian ToLittle : bool).
Abbreviation Convert := (Convert is_little_endian ToLittle).

(** The widths at which [Convert] swaps. *)
Definition swapped_width (n : nat) : Prop := n = 2%nat ∨ n = 4%nat ∨ n = 8%nat.

Lemma Convert_bytes n v :
  swapped_width n → 0 ≤ v < 256 ^ Z.of_nat n →
  Convert (Z.of_nat n) v =
    load_le (if eqb ToLittle is_little_endian then store_le n v else rev (store_le n v)).
Proof.
  intros Hn Hv. unfold MsgHeader.Convert. destruct (eqb _ _); [by rewrite load_store_le|].
  destruct Hn as [->|[->| ->]]; simpl Z.of_nat;
    [apply bswap16_bytes|apply bswap32_bytes|apply bswap64_bytes].
Qed.

Lemma Convert_range n v :
  swapped_width n → 0 ≤ v < 256 ^ Z.of_nat n →
  0 ≤ Convert (Z.of_nat n) v < 256 ^ Z.of_nat n.
Proof.
  intros Hn Hv. rewrite Convert_bytes by done.
  pose proof (load_le_bound (if eqb ToLittle is_little_endian
    then store_le n v else rev (store_le n v))) as Hb.
  unfold zlen in Hb. destruct (eqb _ _); rewrite ?length_rev, store_le_length in Hb;
    apply Hb; try apply Forall_rev; apply store_le_bytes.
Qed.

(** What a host stores after [Convert] is the value in the byte order
    [ToLittle], whatever the host's own. *)
Lemma store_Convert n v :
  swapped_width n → 0 ≤ v < 256 ^ Z.of_nat n →
  store_uint is_little_endian n (Convert (Z.of_nat n) v) = store_uint ToLittle n v.
Proof.
  intros Hn Hv. rewrite Convert_bytes by done.
  assert (∀ bs, Forall byte_ok bs → length bs = n → store_le n (load_le bs) = bs) as Hs.
  { intros bs ? <-. by apply store_load_le. }
  pose proof (store_le_bytes n v). pose proof (store_le_length n v).
  unfold store_uint. destruct ToLittle, is_little_endian; simpl;
    rewrite Hs; rewrite ?rev_involutive, ?length_rev; auto using Forall_rev.
Qed.

Lemma load_Convert n v :
  swapped_width n → 0 ≤ v < 256 ^ Z.of_nat n →
  Convert (Z.of_nat n) (load_uint is_little_endian (store_uint ToLittle n v)) = v.
Proof.
  intros Hn Hv. pose proof (store_le_bytes n v). pose proof (store_le_length n v).
  assert (load_uint is_little_endian (store_uint ToLittle n v) =
          load_le (if eqb ToLittle is_little_endian then store_le n v else rev (store_le n v))) as ->.
  { unfold load_uint, store_uint.
    by destruct ToLittle, is_little_endian; simpl; rewrite ?rev_involutive. }
  rewrite Convert_bytes.
  - destruct (eqb ToLittle is_little_endian).
    + by rewrite !load_store_le by (rewrite ?load_store_le; done).
    + rewrite <-(length_rev (store_le n v)) in H0. rewrite <-H0 at 1.
      rewrite store_load_le by auto using Forall_rev.
      rewrite rev_involutive. by apply load_store_le.
  - done.
  - pose proof (load_le_bound (if eqb ToLittle is_little_endian
      then store_le n v else rev (store_le n v))) as Hb.
    unfold zlen in Hb. destruct (eqb _ _); rewrite ?length_rev, store_le_length in Hb;
      apply Hb; auto using Forall_rev.
Qed.

Lemma Convert_involutive n v :
  swapped_width n → 0 ≤ v < 256 ^ Z.of_nat n →
  Convert (Z.of_nat n) (Convert (Z.of_nat n) v) = v.
Proof.
  intros Hn Hv. pose proof (store_Convert n v Hn Hv) as Hs.
  rewrite <-(load_store_uint is_little_endian n (Convert (Z.of_nat n) v))
    by by apply Convert_range.
  rewrite Hs. by apply load_Convert.
Qed.
End Convert_lemmas.

(** ** [ConvertInPlace] *)

Section in_place.
Context (is_little_endian ToLittle : bool).

Lemma load_uint_range little bs : Forall byte_ok bs → 0 ≤ load_uint little bs < 256 ^ zlen bs.
Proof.
  intros Hb. unfold load_uint. destruct little; [by apply load_le_bound|].
  replace (zlen bs) with (zlen (rev bs)) by (unfold zlen; by rewrite length_rev). by apply load_le_bound, Forall_rev.
Qed.

Lemma store_uint_load little bs : Forall byte_ok bs → store_uint little (length bs) (load_uint little bs) = bs.
Proof.
  intros Hb. unfold store_uint, load_uint. destruct little; [by apply store_load_le|].
  rewrite <-(length_rev bs), store_load_le by by apply Forall_rev. apply rev_involutive.
Qed.

(** An object of the host is reversed when the byte orders differ. *)
Lemma ConvertInPlace_reverses n bs :
  swapped_width n → Forall byte_ok bs → length bs = n →
  ConvertInPlace is_little_endian (Convert is_little_endian ToLittle) n bs =
    if eqb ToLittle is_little_endian then bs else rev bs.
Proof.
  intros Hn Hb <-. unfold ConvertInPlace. pose proof (load_uint_range is_little_endian bs Hb).
  rewrite store_Convert by done. destruct (eqb _ _) eqn:E.
  - apply eqb_prop in E as ->. by apply store_uint_load.
  - apply eqb_false_iff in E.
    assert (load_uint is_little_endian bs = load_uint ToLittle (rev bs)) as ->.
    { unfold load_uint. destruct ToLittle, is_little_endian; rewrite ?rev_involutive; done. }
    rewrite <-(length_rev bs). by apply store_uint_load, Forall_rev.
Qed.

(** So it is for a floating point number, whatever it is. *)
Lemma ConvertInPlace_float n bs :
  n = 4%nat ∨ n = 8%nat → Forall byte_ok bs → length bs = n →
  ConvertInPlace is_little_endian (Convert_float is_little_endian ToLittle) n bs =
    if eqb ToLittle is_little_endian then bs else rev bs.
Proof.
  intros Hn Hb Hl. rewrite <-(ConvertInPlace_reverses n) by (try done; by right).
  by destruct Hn as [->| ->].
Qed.
End in_place.

(** ** Headers as bytes *)

Lemma swapped_2 : swapped_width 2.
Proof. by left. Qed.
Lemma swapped_4 : swapped_width 4.
Proof. right. by left. Qed.
Lemma swapped_8 : swapped_width 8.
Proof. right. by right. Qed.
#[export] Hint Resolve swapped_2 swapped_4 swapped_8 : tcpshm.

Lemma header_bytes_length little h : length (header_bytes little h) = 8%nat.
Proof. unfold header_bytes. by rewrite !length_app, !store_uint_length. Qed.
Lemma header_bytes_zlen little h : zlen (header_bytes little h) = 8.
Proof. unfold zlen. by rewrite header_bytes_length. Qed.
Lemma header_bytes_bytes little h : Forall byte_ok (header_bytes little h).
Proof. unfold header_bytes. rewrite !Forall_app. auto using store_uint_bytes. Qed.

(** The fields inside the eight bytes. *)
Lemma header_bytes_fields little h :
  slice 0 2 (header_bytes little h) = store_uint little 2 (mh_size h) ∧
  slice 2 4 (header_bytes little h) = store_uint little 2 (mh_msg_type h) ∧
  slice 4 8 (header_bytes little h) = store_uint little 4 (mh_ack_seq h).
Proof.
  unfold header_bytes.
  pose proof (store_uint_length little 2 (mh_size h)) as Hs.
  pose proof (store_uint_length little 2 (mh_msg_type h)) as Ht.
  pose proof (store_uint_length little 4 (mh_ack_seq h)) as Ha.
  destruct (store_uint little 2 (mh_size h)) as [|? [|? []]]; try done.
  destruct (store_uint little 2 (mh_msg_type h)) as [|? [|? []]]; try done.
  by destruct (store_uint little 4 (mh_ack_seq h)) as [|? [|? [|? [|? []]]]].
Qed.

Lemma bytes_header_bytes little h :
  MsgHeader_ok h → bytes_header little (header_bytes little h) = h.
Proof.
  intros (? & ? & ?). destruct (header_bytes_fields little h) as (Hs & Ht & Ha).
  unfold bytes_header. rewrite Hs, Ht, Ha.
  rewrite !load_store_uint by done. by destruct h.
Qed.

Section header_lemmas.
Context (is_little_endian ToLittle : bool).
Abbreviation ConvertByteOrder := (ConvertByteOrder is_little_endian ToLittle).

Lemma ConvertByteOrder_ok h : MsgHeader_ok h → MsgHeader_ok (ConvertByteOrder h).
Proof.
  intros (? & ? & ?). unfold MsgHeader_ok. simpl.
  pose proof (Convert_range is_little_endian ToLittle 2 (mh_size h) swapped_2).
  pose proof (Convert_range is_little_endian ToLittle 2 (mh_msg_type h) swapped_2).
  pose proof (Convert_range is_little_endian ToLittle 4 (mh_ack_seq h) swapped_4).
  auto.
Qed.

Lemma ConvertByteOrder_involutive h :
  MsgHeader_ok h → ConvertByteOrder (ConvertByteOrder h) = h.
Proof.
  intros (? & ? & ?). unfold MsgHeader.ConvertByteOrder. simpl.
  rewrite (Convert_involutive _ _ 2) by auto with tcpshm.
  rewrite (Convert_involutive _ _ 2) by auto with tcpshm.
  rewrite (Convert_involutive _ _ 4) by auto with tcpshm.
  by destruct h.
Qed.

Lemma header_bytes_ConvertByteOrder h :
  MsgHeader_ok h →
  header_bytes is_little_endian (ConvertByteOrder h) = header_bytes ToLittle h.
Proof.
  intros (? & ? & ?). unfold header_bytes. simpl.
  rewrite (store_Convert _ _ 2) by auto with tcpshm.
  rewrite (store_Convert _ _ 2) by auto with tcpshm.
  by rewrite (store_Convert _ _ 4) by auto with tcpshm.
Qed.

Lemma ConvertByteOrder_bytes_header h :
  MsgHeader_ok h →
  ConvertByteOrder (bytes_header is_little_endian (header_bytes ToLittle h)) = h.
Proof.
  intros Hok. rewrite <-header_bytes_ConvertByteOrder by done.
  rewrite bytes_header_bytes by by apply ConvertByteOrder_ok.
  by apply ConvertByteOrder_involutive.
Qed.
End header_lemmas.

#[export] Hint Resolve ConvertByteOrder_ok : tcpshm.

(** ** Properties *)

(** What [Convert] leaves in memory is the value in the configured byte
    order, whatever the host's own: for the widths the source swaps, the
    bytes of [Convert(v)] on the host are the bytes of [v] on a host of the
    order [ToLittle]. *)
Theorem Convert_wire_order (is_little_endian ToLittle : bool) n v :
  swapped_width n → 0 ≤ v < 256 ^ Z.of_nat n →
  store_uint is_little_endian n (Convert is_little_endian ToLittle (Z.of_nat n) v) =
    store_uint ToLittle n v.
Proof. apply store_Convert. Qed.

Lemma Convert_wire_order_witness :
  store_uint true 4 (Convert true false 4 0x01020304) = [1; 2; 3; 4].
Proof.
  assert (store_uint false 4 0x01020304 = [1; 2; 3; 4]) as <- by reflexivity.
  apply (Convert_wire_order true false 4); [apply swapped_4|simpl; lia].
Defined.

(** C39: a header sent by a host of one byte order is read correctly by a host
    of any byte order: the sender converts its header and sends the bytes as
    they lie in its memory, the receiver reads them in its own order and
    converts. *)
Theorem header_across_hosts (sender_little receiver_little ToLittle : bool) h :
  MsgHeader_ok h →
  ConvertByteOrder receiver_little ToLittle
    (bytes_header receiver_little
       (header_bytes sender_little (ConvertByteOrder sender_little ToLittle h))) = h.
Proof.
  intros Hok. rewrite header_bytes_ConvertByteOrder by done.
  by apply ConvertByteOrder_bytes_header.
Qed.

Lemma header_across_hosts_witness :
  header_bytes false (ConvertByteOrder false true (mkMsgHeader 0x0102 3 4)) =
    [2; 1; 3; 0; 4; 0; 0; 0] ∧
  ConvertByteOrder true true
    (bytes_header true (header_bytes false (ConvertByteOrder false true (mkMsgHeader 0x0102 3 4)))) =
    mkMsgHeader 0x0102 3 4.
Proof.
  split; [reflexivity|]. apply (header_across_hosts false true true).
  by apply (bool_decide_unpack _).
Defined.

(** [Convert] at a signed type of 2, 4 or 8 bytes undoes itself on every
    value of the type, negative ones included. *)
Theorem Convert_signed_involutive (is_little_endian ToLittle : bool) n v :
  swapped_width n → - (256 ^ Z.of_nat n / 2) ≤ v < 256 ^ Z.of_nat n / 2 →
  Convert_signed is_little_endian ToLittle (Z.of_nat n)
    (Convert_signed is_little_endian ToLittle (Z.of_nat n) v) = v.
Proof.
  intros Hn Hv. unfold Convert_signed.
  assert (2 ^ (8 * Z.of_nat n) = 256 ^ Z.of_nat n) as ->
    by (change 256 with (2 ^ 8); rewrite <-Z.pow_mul_r by lia; done).
  set (w := 256 ^ Z.of_nat n) in *.
  assert (0 < w ∧ w = 2 * (w / 2)) as [Hw Hw2] by (destruct Hn as [->|[->| ->]]; by vm_compute).
  set (u := Convert is_little_endian ToLittle (Z.of_nat n) (v mod w)).
  assert (0 ≤ u < w) as Hu.
  { apply Convert_range; [done|]. by apply Z.mod_pos_bound. }
  assert (((u + w / 2) mod w - w / 2) mod w = u) as ->.
  { rewrite Zminus_mod_idemp_l. replace (u + w / 2 - w / 2) with u by lia. by apply Z.mod_small. }
  unfold u. rewrite Convert_involutive by (try apply Z.mod_pos_bound; done).
  rewrite Zplus_mod_idemp_l. rewrite Z.mod_small; lia.
Qed.

Lemma Convert_signed_involutive_witness :
  Convert_signed true false 4 (Convert_signed true false 4 (-2)) = -2.
Proof. apply (Convert_signed_involutive true false 4); [apply swapped_4|by vm_compute]. Defined.
