(* ===== verification/PtcpQueue.v ===== *)
(** * The persistent send queue ([ptcp_queue.h])

    [PTCPQueue] is the class of the same name, one field per member; [blk_]
    is the array of 8-byte blocks, each read as a [MsgHeader] exactly as the
    source does.  A pointer into [blk_] is its index.  Every operation is
    [Undef] when it touches [blk_] out of bounds.  Indices and sequence
    numbers are [uint32_t] and wrap. *)

From S2P Require Import Prelude.
From S2P Require Import Arrays.
From S2P Require Import MsgHeader.

Record PTCPQueue := mkPTCPQueue {
  blk_ : list MsgHeader;
  write_idx_ : Z;
  read_idx_ : Z;
  send_idx_ : Z;
  read_seq_num_ : Z;
  ack_seq_num_ : Z
}.

Definition set_blk (q : PTCPQueue) (b : list MsgHeader) : PTCPQueue :=
  mkPTCPQueue b (write_idx_ q) (read_idx_ q) (send_idx_ q) (read_seq_num_ q) (ack_seq_num_ q).
Definition set_write_idx (q : PTCPQueue) (i : Z) : PTCPQueue :=
  mkPTCPQueue (blk_ q) i (read_idx_ q) (send_idx_ q) (read_seq_num_ q) (ack_seq_num_ q).
Definition set_send_idx (q : PTCPQueue) (i : Z) : PTCPQueue :=
  mkPTCPQueue (blk_ q) (write_idx_ q) (read_idx_ q) i (read_seq_num_ q) (ack_seq_num_ q).

Section PTCPQueue.
(** The template parameters and the host's byte order. *)
Context (Bytes : Z) (ToLittleEndian is_little_endian : bool).

Definition BLK_CNT : Z := Bytes / sizeof_MsgHeader.

(** [PTCPQ()], and what a freshly created file of zeros holds. *)
Definition new_PTCPQueue : PTCPQueue :=
  mkPTCPQueue (repeat zero_header (Z.to_nat BLK_CNT)) 0 0 0 0 0.

(** The number of blocks of a message of [size] bytes. *)
Definition blocks (size : Z) : Z := div_up size sizeof_MsgHeader.

(** The end of [Alloc]: [header.size = size; return &header]. *)
Definition Alloc_header (q : PTCPQueue) (size : Z) : outcome (option Z * PTCPQueue) :=
  header ← get (blk_ q) (write_idx_ q);
  blk ← put (blk_ q) (write_idx_ q)
          (mkMsgHeader size (mh_msg_type header) (mh_ack_seq header));
  Ret (Some (write_idx_ q), set_blk q blk).

Definition Alloc (q : PTCPQueue) (size : Z) : outcome (option Z * PTCPQueue) :=
  let size := u16 (size + sizeof_MsgHeader) in
  let blk_sz := u32 (blocks size) in
  let avail_sz := u32 (BLK_CNT - write_idx_ q) in
  if avail_sz <? blk_sz then
    if u32 (avail_sz + read_idx_ q) <? blk_sz then Ret (None, q)
    else
      blk ← memmove (blk_ q) 0 (read_idx_ q) (u32 (write_idx_ q - read_idx_ q));
      Alloc_header
        (mkPTCPQueue blk (u32 (write_idx_ q - read_idx_ q)) 0
           (u32 (send_idx_ q - read_idx_ q)) (read_seq_num_ q) (ack_seq_num_ q)) size
  else Alloc_header q size.

Definition Push (q : PTCPQueue) : outcome PTCPQueue :=
  header ← get (blk_ q) (write_idx_ q);
  let blk_sz := u32 (blocks (mh_size header)) in
  let header := mkMsgHeader (mh_size header) (mh_msg_type header) (ack_seq_num_ q) in
  blk ← put (blk_ q) (write_idx_ q) (ConvertByteOrder is_little_endian ToLittleEndian header);
  Ret (set_write_idx (set_blk q blk) (u32 (write_idx_ q + blk_sz))).

(** The address [blk_ + send_idx_] and the [int] [blk_sz]. *)
Definition GetSendable (q : PTCPQueue) : Z * Z :=
  (send_idx_ q, i32 (u32 (write_idx_ q - send_idx_ q))).

Definition Sendout (q : PTCPQueue) (blk_sz : Z) : PTCPQueue :=
  set_send_idx q (u32 (send_idx_ q + blk_sz)).

(** The size field of a stored header, in host order. *)
Definition wire_size (w : MsgHeader) : Z :=
  Convert is_little_endian ToLittleEndian 2 (mh_size w).

(** The [do ... while] of [Ack]. *)
Fixpoint Ack_loop (fuel : nat) (ack_seq : Z) (q : PTCPQueue) : outcome PTCPQueue :=
  match fuel with
  | O => NoFuel
  | S fuel =>
      w ← get (blk_ q) (read_idx_ q);
      let q := mkPTCPQueue (blk_ q) (write_idx_ q)
                 (u32 (read_idx_ q + blocks (wire_size w))) (send_idx_ q)
                 (u32 (read_seq_num_ q + 1)) (ack_seq_num_ q) in
      if read_seq_num_ q =? ack_seq then Ret q else Ack_loop fuel ack_seq q
  end.

Definition Ack (q : PTCPQueue) (ack_seq : Z) : outcome PTCPQueue :=
  if i32 (u32 (ack_seq - read_seq_num_ q)) <=? 0 then Ret q
  else
    q ← Ack_loop (Z.to_nat (u32 (ack_seq - read_seq_num_ q))) ack_seq q;
    if read_idx_ q =? write_idx_ q
    then Ret (mkPTCPQueue (blk_ q) 0 0 0 (read_seq_num_ q) (ack_seq_num_ q))
    else Ret q.

Definition LoginAck (q : PTCPQueue) (ack_seq : Z) : outcome PTCPQueue :=
  q ← Ack q ack_seq;
  Ret (set_send_idx q (read_idx_ q)).

(** [MyAck()] is a reference: reading it, and incrementing through it. *)
Definition MyAck (q : PTCPQueue) : Z := ack_seq_num_ q.
Definition MyAck_incr (q : PTCPQueue) : PTCPQueue :=
  mkPTCPQueue (blk_ q) (write_idx_ q) (read_idx_ q) (send_idx_ q) (read_seq_num_ q)
    (u32 (ack_seq_num_ q + 1)).

(** The [while] of [SanityCheckAndGetSeq]: [None] for [return false],
    otherwise [idx] and [end] at its exit. *)
Fixpoint SanityCheck_loop (fuel : nat) (q : PTCPQueue) (idx end_ : Z)
    : outcome (option (Z * Z)) :=
  match fuel with
  | O => NoFuel
  | S fuel =>
      if idx <? write_idx_ q then
        w ← get (blk_ q) idx;
        let header := ConvertByteOrder is_little_endian ToLittleEndian w in
        if i32 (u32 (ack_seq_num_ q - mh_ack_seq header)) <? 0 then Ret None
        else SanityCheck_loop fuel q (u32 (idx + blocks (mh_size header))) (u32 (end_ + 1))
      else Ret (Some (idx, end_))
  end.

(** [None]: [false]; [Some (seq_start, seq_end)]: [true]. *)
Definition SanityCheckAndGetSeq_fuel (fuel : nat) (q : PTCPQueue) : outcome (option (Z * Z)) :=
  r ← SanityCheck_loop fuel q (read_idx_ q) (read_seq_num_ q);
  match r with
  | None => Ret None
  | Some (idx, end_) =>
      if idx =? write_idx_ q then Ret (Some (read_seq_num_ q, end_)) else Ret None
  end.

(** One iteration per block is enough whenever the loop ends at all. *)
Definition SanityCheckAndGetSeq (q : PTCPQueue) : outcome (option (Z * Z)) :=
  SanityCheckAndGetSeq_fuel (S (Z.to_nat (write_idx_ q - read_idx_ q))) q.
End PTCPQueue.

Lemma blocks_range s : 0 ≤ s < 65536 → 0 ≤ blocks s ≤ 8192.
Proof. unfold blocks, div_up, sizeof_MsgHeader. word_lia. Qed.
Lemma blocks_pos s : 0 < s → 0 < blocks s.
Proof. unfold blocks, div_up, sizeof_MsgHeader. word_lia. Qed.
Lemma blocks_bytes s : 0 ≤ s → s ≤ 8 * blocks s < s + 8.
Proof. unfold blocks, div_up, sizeof_MsgHeader. word_lia. Qed.

(** The [static_assert] of the class and the range of [uint32_t Bytes]. *)
Definition Bytes_ok (Bytes : Z) : Prop := 0 < Bytes < 4294967296 ∧ Bytes mod 8 = 0.
