(* ===== verification/PtcpQueueInv.v ===== *)
(** * Invariant and functional behaviour of the send queue

    A queue represents the list of messages between [read_idx_] and
    [write_idx_], each a header in the configured byte order followed by its
    body blocks ([stored_msg]).  [live_rep] is the representation without the
    send index, [queue_rep] adds [read_idx_ <= send_idx_ <= write_idx_], the
    invariant the source states in a comment.  The lemmas give the effect of
    every operation on the represented messages. *)

From S2P Require Import Prelude.
From S2P Require Import Arrays.
From S2P Require Import MsgHeader.
From S2P Require Import PtcpQueue.

Section inv.
Context (Bytes : Z) (ToLE IsLE : bool).
Context (HB : Bytes_ok Bytes).

Abbreviation BLK_CNT := (BLK_CNT Bytes).
Abbreviation wire_size := (wire_size ToLE IsLE).
Abbreviation Alloc := (Alloc Bytes).
Abbreviation Push := (Push ToLE IsLE).
Abbreviation Convert_h := (ConvertByteOrder IsLE ToLE).
Abbreviation Ack := (Ack ToLE IsLE).
Abbreviation LoginAck := (LoginAck ToLE IsLE).

Definition stored_msg (m : list MsgHeader) : Prop :=
  match m with
  | [] => False
  | w :: _ => MsgHeader_ok w ∧ 0 < wire_size w ∧ zlen m = blocks (wire_size w)
  end.

Record live_rep (q : PTCPQueue) (msgs : list (list MsgHeader)) : Prop := {
  rep_len : zlen (blk_ q) = BLK_CNT;
  rep_read : 0 ≤ read_idx_ q ≤ write_idx_ q;
  rep_write : write_idx_ q ≤ BLK_CNT;
  rep_seq : 0 ≤ read_seq_num_ q < 4294967296;
  rep_ack : 0 ≤ ack_seq_num_ q < 4294967296;
  rep_live : slice (read_idx_ q) (write_idx_ q) (blk_ q) = concat msgs;
  rep_msgs : Forall stored_msg msgs
}.

Definition queue_rep (q : PTCPQueue) (msgs : list (list MsgHeader)) : Prop :=
  live_rep q msgs ∧ read_idx_ q ≤ send_idx_ q ≤ write_idx_ q.

(** The blocks not sent yet. *)
Definition unsent (q : PTCPQueue) : list MsgHeader :=
  slice (send_idx_ q) (write_idx_ q) (blk_ q).

Lemma BLK_CNT_range : 0 ≤ BLK_CNT < 536870912.
Proof. destruct HB. unfold PtcpQueue.BLK_CNT, sizeof_MsgHeader. word_lia. Qed.

Lemma wire_size_range w : MsgHeader_ok w → 0 ≤ wire_size w < 65536.
Proof.
  intros (? & _ & _). apply (Convert_range IsLE ToLE 2); [apply swapped_2|done].
Qed.

Lemma stored_msg_zlen m : stored_msg m → 0 < zlen m ≤ 8192.
Proof.
  destruct m as [|w b]; [done|]. intros (Hok & Hpos & ->).
  apply wire_size_range in Hok. pose proof (blocks_pos _ Hpos).
  pose proof (blocks_range (wire_size w)). lia.
Qed.

Lemma concat_zlen_app (ms ms' : list (list MsgHeader)) :
  zlen (concat (ms ++ ms')) = zlen (concat ms) + zlen (concat ms').
Proof. by rewrite concat_app, zlen_app. Qed.

Lemma stored_concat_len msgs :
  Forall stored_msg msgs → Z.of_nat (length msgs) ≤ zlen (concat msgs).
Proof.
  induction 1 as [|m ms Hm _ IH]; simpl; [done|].
  rewrite zlen_app. apply stored_msg_zlen in Hm. lia.
Qed.

(** The represented messages are determined by the blocks. *)
Lemma stored_concat_inj ms ms' :
  Forall stored_msg ms → Forall stored_msg ms' → concat ms = concat ms' → ms = ms'.
Proof.
  intros Hms. revert ms'. induction Hms as [|m ms Hm Hms IH]; intros ms' Hms' Heq.
  - destruct Hms' as [|m' ms' Hm' _]; [done|]. destruct m'; [done|]. done.
  - destruct m as [|w b]; [done|]. destruct Hms' as [|m' ms' Hm' Hms']; [done|].
    destruct m' as [|w' b']; [done|]. simpl in Heq. injection Heq as -> Heq.
    destruct Hm as (_ & _ & Hl). destruct Hm' as (_ & _ & Hl').
    rewrite <-Hl', !zlen_cons in Hl. unfold zlen in Hl.
    apply app_inj_1 in Heq as [-> Heq]; [|lia]. f_equal. by apply IH.
Qed.

Lemma live_rep_unique q ms ms' : live_rep q ms → live_rep q ms' → ms = ms'.
Proof.
  intros H H'. apply stored_concat_inj; [apply H|apply H'|].
  by rewrite <-(rep_live _ _ H), <-(rep_live _ _ H').
Qed.

Lemma live_rep_zlen q ms :
  live_rep q ms → zlen (concat ms) = write_idx_ q - read_idx_ q.
Proof.
  intros []. rewrite <-rep_live0. apply slice_zlen; lia.
Qed.

Lemma live_rep_count q ms :
  live_rep q ms → Z.of_nat (length ms) ≤ write_idx_ q - read_idx_ q < 536870912.
Proof.
  intros H. rewrite <-(live_rep_zlen _ _ H). split.
  - apply stored_concat_len, H.
  - rewrite (live_rep_zlen _ _ H). pose proof BLK_CNT_range. destruct H. lia.
Qed.

Lemma live_rep_set_send q ms i : live_rep q ms → live_rep (set_send_idx q i) ms.
Proof. intros []. constructor; assumption. Qed.

(** *** The initial queue *)
Lemma new_PTCPQueue_rep : queue_rep (new_PTCPQueue Bytes) [].
Proof.
  pose proof BLK_CNT_range. split; [|simpl; lia].
  constructor; simpl; try lia; [|by rewrite slice_nil|constructor].
  rewrite zlen_repeat. lia.
Qed.

(** *** [Alloc] *)

(** The size check of [Alloc], on unbounded integers. *)
Definition fits (q : PTCPQueue) (size : Z) : Prop :=
  blocks (size + 8) ≤ BLK_CNT - (write_idx_ q - read_idx_ q).

(** Writing a fresh header at [write_idx_] keeps the representation. *)
Lemma set_blk_rep q ms xs :
  queue_rep q ms → write_idx_ q + zlen xs ≤ BLK_CNT →
  queue_rep (set_blk q (blit (write_idx_ q) xs (blk_ q))) ms ∧
  unsent (set_blk q (blit (write_idx_ q) xs (blk_ q))) = unsent q.
Proof.
  intros [[] Hs] Hx. pose proof (zlen_nonneg xs). unfold unsent. simpl. split.
  - split; [|simpl; lia]. constructor; simpl; try done.
    + rewrite blit_zlen; lia.
    + rewrite blit_slice_before by lia. done.
  - rewrite blit_slice_before by lia. done.
Qed.

(** What [Alloc] guarantees when it returns a message of [size] bytes. *)
Record alloc_ok (q : PTCPQueue) (ms : list (list MsgHeader)) (size : Z)
    (idx : Z) (q' : PTCPQueue) : Prop := {
  ao_rep : queue_rep q' ms;
  ao_idx : idx = write_idx_ q';
  ao_room : idx + blocks (size + 8) ≤ BLK_CNT;
  ao_header : ∃ t a, get (blk_ q') idx = Ret (mkMsgHeader (size + 8) t a);
  ao_unsent : unsent q' = unsent q;
  ao_sent : send_idx_ q' - read_idx_ q' = send_idx_ q - read_idx_ q;
  ao_read_seq : read_seq_num_ q' = read_seq_num_ q;
  ao_ack_seq : ack_seq_num_ q' = ack_seq_num_ q
}.

Lemma Alloc_header_ok q ms size :
  queue_rep q ms → 0 ≤ size → write_idx_ q + blocks (size + 8) ≤ BLK_CNT →
  ∃ q', Alloc_header q (size + 8) = Ret (Some (write_idx_ q), q') ∧
        alloc_ok q ms size (write_idx_ q) q'.
Proof.
  intros Hq ? Hroom. pose proof (blocks_pos (size + 8) ltac:(lia)) as Hb.
  assert (0 ≤ write_idx_ q < zlen (blk_ q)) as Hw
    by (destruct Hq as [[] ?]; lia).
  destruct (get_in_range _ _ Hw) as [h Hh].
  unfold Alloc_header. rewrite Hh, outcome_bind_Ret.
  rewrite put_in_range by done. rewrite outcome_bind_Ret.
  eexists. split; [done|].
  edestruct (set_blk_rep q ms [mkMsgHeader (size + 8) (mh_msg_type h) (mh_ack_seq h)])
    as [Hrep Hun]; [done|rewrite zlen_cons, zlen_nil; lia|].
  constructor; try done. simpl. do 2 eexists. by apply get_blit_head.
Qed.

(** The compaction of [Alloc]. *)
Definition compacted (q : PTCPQueue) (blk : list MsgHeader) : PTCPQueue :=
  mkPTCPQueue blk (u32 (write_idx_ q - read_idx_ q)) 0
    (u32 (send_idx_ q - read_idx_ q)) (read_seq_num_ q) (ack_seq_num_ q).

Lemma compact_rep q ms :
  queue_rep q ms →
  ∃ blk, memmove (blk_ q) 0 (read_idx_ q) (u32 (write_idx_ q - read_idx_ q)) = Ret blk ∧
    queue_rep (compacted q blk) ms ∧ unsent (compacted q blk) = unsent q.
Proof.
  intros [Hl Hs]. pose proof (live_rep_count _ _ Hl). pose proof BLK_CNT_range.
  destruct Hl. eexists.
  assert (zlen (slice (read_idx_ q) (write_idx_ q) (blk_ q)) =
          write_idx_ q - read_idx_ q) as Hz by (apply slice_zlen; lia).
  rewrite memmove_in_range by (rewrite ?u32_small; lia).
  split; [done|]. rewrite u32_small by lia.
  replace (read_idx_ q + _) with (write_idx_ q) by lia.
  pose proof (blit_slice_same 0 (slice (read_idx_ q) (write_idx_ q) (blk_ q)) (blk_ q)
    ltac:(lia)) as Hsame. rewrite Hz, Z.add_0_l in Hsame.
  unfold compacted, unsent. simpl. rewrite !u32_small by lia. split.
  - split; [|simpl; lia]. constructor; simpl; try lia; [..|by rewrite Hsame|done].
    rewrite blit_zlen; lia.
  - rewrite <-(Z.add_0_l (send_idx_ q - _)), <-(Z.add_0_l (write_idx_ q - read_idx_ q)).
    rewrite <-(slice_slice _ _ _ (write_idx_ q - read_idx_ q)) by lia.
    rewrite Hsame, slice_slice by lia. f_equal; lia.
Qed.

Lemma Alloc_correct q ms size :
  queue_rep q ms → 0 ≤ size ≤ 65527 →
  (fits q size → ∃ idx q', Alloc q size = Ret (Some idx, q') ∧ alloc_ok q ms size idx q') ∧
  (¬ fits q size → Alloc q size = Ret (None, q)).
Proof.
  intros Hq Hsize. pose proof (blocks_range (size + 8) ltac:(lia)).
  pose proof BLK_CNT_range. destruct (Hq) as [Hl Hs]. destruct (Hl).
  unfold PtcpQueue.Alloc, fits. simpl. unfold sizeof_MsgHeader.
  rewrite (u16_small (size + 8)), (u32_small (blocks _)) by lia.
  rewrite (u32_small (BLK_CNT - _)), (u32_small (_ + read_idx_ q)) by lia.
  destruct (Z.ltb_spec (BLK_CNT - write_idx_ q) (blocks (size + 8))) as [Hlt|Hge].
  - destruct (Z.ltb_spec (BLK_CNT - write_idx_ q + read_idx_ q) (blocks (size + 8))).
    { split; [lia|done]. }
    split; [intros _|lia]. destruct (compact_rep q ms Hq) as (blk & -> & Hrep & Hun).
    rewrite outcome_bind_Ret. fold (compacted q blk).
    destruct (Alloc_header_ok (compacted q blk) ms size) as (q' & -> & Hok);
      [done|lia|simpl; rewrite u32_small by lia; lia|].
    do 2 eexists. split; [done|]. destruct Hok. constructor; try done.
    + by rewrite ao_unsent0.
    + rewrite ao_sent0. simpl. rewrite u32_small by lia. lia.
  - split; [intros _|lia].
    destruct (Alloc_header_ok q ms size) as (q' & -> & Hok); [done|lia|lia|]. eauto.
Qed.

(** *** [Push] *)

(** The header [Push] stores for the message written at [h]. *)
Definition pushed_header (q : PTCPQueue) (h : MsgHeader) : MsgHeader :=
  Convert_h (mkMsgHeader (mh_size h) (mh_msg_type h) (ack_seq_num_ q)).

Lemma wire_size_Convert h : MsgHeader_ok h → wire_size (Convert_h h) = mh_size h.
Proof.
  intros Hok. apply (f_equal mh_size (x := Convert_h (Convert_h h))).
  by apply ConvertByteOrder_involutive.
Qed.

Lemma Push_correct q ms h :
  queue_rep q ms → get (blk_ q) (write_idx_ q) = Ret h →
  0 < mh_size h < 65536 → 0 ≤ mh_msg_type h < 65536 →
  write_idx_ q + blocks (mh_size h) ≤ BLK_CNT →
  let m := pushed_header q h ::
           slice (write_idx_ q + 1) (write_idx_ q + blocks (mh_size h)) (blk_ q) in
  ∃ q', Push q = Ret q' ∧ queue_rep q' (ms ++ [m]) ∧ stored_msg m ∧
        unsent q' = unsent q ++ m ∧
        read_seq_num_ q' = read_seq_num_ q ∧ ack_seq_num_ q' = ack_seq_num_ q ∧
        read_idx_ q' = read_idx_ q ∧ send_idx_ q' = send_idx_ q.
Proof.
  intros Hq Hh Hsize Htype Hroom m. destruct (Hq) as [[] Hs].
  pose proof (get_range _ _ _ Hh). pose proof (blocks_pos _ (proj1 Hsize)).
  pose proof (blocks_range (mh_size h) ltac:(lia)). pose proof BLK_CNT_range.
  assert (MsgHeader_ok (mkMsgHeader (mh_size h) (mh_msg_type h) (ack_seq_num_ q))) as Hok'.
  { unfold MsgHeader_ok. simpl. lia. }
  assert (zlen m = blocks (mh_size h)) as Hm.
  { unfold m. rewrite zlen_cons, slice_zlen by lia. lia. }
  assert (stored_msg m) as Hst.
  { split; [by apply ConvertByteOrder_ok|].
    unfold pushed_header. rewrite wire_size_Convert by done. split; [apply Hsize|done]. }
  set (blk' := blit (write_idx_ q) [pushed_header q h] (blk_ q)).
  assert (slice (write_idx_ q) (write_idx_ q + blocks (mh_size h)) blk' = m) as Hnew.
  { unfold m, blk'. rewrite (slice_cons _ _ _ (pushed_header q h));
      [|lia|apply get_blit_head; lia].
    f_equal. apply blit_slice_after; rewrite ?zlen_cons, ?zlen_nil; lia. }
  assert (∀ lo, 0 ≤ lo ≤ write_idx_ q →
    slice lo (write_idx_ q + blocks (mh_size h)) blk' = slice lo (write_idx_ q) (blk_ q) ++ m) as Happ.
  { intros lo ?. rewrite (slice_app lo (write_idx_ q)) by lia. rewrite Hnew. f_equal.
    apply blit_slice_before; lia. }
  unfold PtcpQueue.Push. rewrite Hh, outcome_bind_Ret, put_in_range by lia.
  rewrite outcome_bind_Ret. fold (pushed_header q h). fold blk'.
  rewrite (u32_small (blocks _)), (u32_small (_ + _)) by lia.
  eexists. split; [done|]. unfold unsent. simpl.
  split; [|split; [done|split; [apply Happ; lia|done]]].
  split; [|simpl; lia]. constructor; simpl; try lia.
  - unfold blk'. rewrite blit_zlen; rewrite ?zlen_cons, ?zlen_nil; lia.
  - rewrite Happ by lia. by rewrite rep_live0, concat_app; simpl; rewrite app_nil_r.
  - rewrite Forall_app. by auto.
Qed.

(** *** [GetSendable] and [Sendout] *)

Lemma GetSendable_correct q ms :
  queue_rep q ms →
  GetSendable q = (send_idx_ q, zlen (unsent q)) ∧ 0 ≤ zlen (unsent q) ∧
  (∀ n, 0 ≤ n ≤ zlen (unsent q) →
     slice (send_idx_ q) (send_idx_ q + n) (blk_ q) = slice 0 n (unsent q)).
Proof.
  intros [[] Hs]. pose proof BLK_CNT_range. unfold unsent, GetSendable.
  rewrite slice_zlen by lia. split_and!; [|lia|].
  - f_equal. apply i32_u32. lia.
  - intros n Hn. rewrite slice_slice by lia. f_equal; lia.
Qed.

Lemma Sendout_correct q ms n :
  queue_rep q ms → 0 ≤ n ≤ zlen (unsent q) →
  queue_rep (Sendout q n) ms ∧ unsent q = slice 0 n (unsent q) ++ unsent (Sendout q n).
Proof.
  intros [[] Hs] Hn. pose proof BLK_CNT_range. unfold unsent in *.
  rewrite slice_zlen in Hn by lia. unfold Sendout. simpl.
  rewrite u32_small by lia. split.
  - split; [by constructor|simpl; lia].
  - rewrite slice_slice by lia. rewrite Z.add_0_r. apply slice_app; lia.
Qed.

Lemma MyAck_incr_correct q ms :
  queue_rep q ms → queue_rep (MyAck_incr q) ms ∧ unsent (MyAck_incr q) = unsent q ∧
  ack_seq_num_ (MyAck_incr q) = u32 (ack_seq_num_ q + 1).
Proof.
  intros [[] Hs]. split_and!; try done. split; [|done].
  constructor; try done. apply u32_range.
Qed.

(** *** [Ack] *)

(** [q] after the first messages, of [n] blocks in all, are dropped. *)
Definition advanced (q : PTCPQueue) (n seq : Z) : PTCPQueue :=
  mkPTCPQueue (blk_ q) (write_idx_ q) (read_idx_ q + n) (send_idx_ q) seq (ack_seq_num_ q).

(** One round of the loop, and what it leaves represented. *)
Lemma live_rep_cons q m ms :
  live_rep q (m :: ms) →
  (∃ w, get (blk_ q) (read_idx_ q) = Ret w ∧ zlen m = blocks (wire_size w)) ∧
  live_rep (advanced q (zlen m) (u32 (read_seq_num_ q + 1))) ms ∧
  read_idx_ q + zlen m ≤ write_idx_ q.
Proof.
  intros Hl. pose proof (live_rep_zlen _ _ Hl) as Hz. destruct Hl. simpl in *.
  rewrite zlen_app in Hz. pose proof (zlen_nonneg (concat ms)).
  apply Forall_cons_1 in rep_msgs0 as [Hm Hms]. pose proof (stored_msg_zlen _ Hm).
  destruct m as [|w b]; [done|]. split_and!; [..|lia].
  - exists w. split; [|apply Hm].
    destruct (get_in_range (blk_ q) (read_idx_ q)) as [w' Hw']; [lia|].
    rewrite (slice_cons _ _ _ w') in rep_live0 by (try done; lia).
    simpl in rep_live0. by injection rep_live0 as -> _.
  - constructor; simpl; try done; [lia|apply u32_range|].
    rewrite (slice_app _ (read_idx_ q + zlen (w :: b))) in rep_live0 by lia.
    change (concat ((w :: b) :: ms)) with ((w :: b) ++ concat ms) in rep_live0.
    apply app_inj_zlen in rep_live0 as [_ ?]; [done|]. rewrite slice_zlen; lia.
Qed.

Lemma Ack_loop_correct ms1 : ∀ q ms2 fuel ack,
  live_rep q (ms1 ++ ms2) → ms1 ≠ [] → (length ms1 ≤ fuel)%nat →
  ack = u32 (read_seq_num_ q + Z.of_nat (length ms1)) →
  Ack_loop ToLE IsLE fuel ack q = Ret (advanced q (zlen (concat ms1)) ack).
Proof.
  induction ms1 as [|m ms1 IH]; intros q ms2 fuel ack Hl Hne Hfuel Hack; [done|].
  destruct fuel as [|fuel]; simpl in Hfuel; [lia|]. simpl in Hl.
  pose proof (live_rep_count _ _ Hl) as Hcnt. simpl in Hcnt. rewrite length_app in Hcnt.
  pose proof BLK_CNT_range.
  destruct (live_rep_cons _ _ _ Hl) as ((w & Hw & Hz) & Hl' & Hle).
  simpl. rewrite Hw, outcome_bind_Ret, <-Hz. pose proof (zlen_nonneg m).
  destruct (Hl). rewrite (u32_small (read_idx_ q + _)) by lia.
  fold (advanced q (zlen m) (u32 (read_seq_num_ q + 1))). rewrite zlen_app.
  destruct ms1 as [|m' ms1].
  - simpl in *. rewrite Hack, Z.eqb_refl, Z.add_0_r. done.
  - destruct (Z.eqb_spec (u32 (read_seq_num_ q + 1)) ack) as [Heq|Hneq].
    + rewrite Hack in Heq. apply u32_inj_near in Heq; simpl in *; lia.
    + rewrite (IH _ ms2); try done; simpl in *; [|lia|].
      * unfold advanced. simpl. do 2 f_equal. lia.
      * rewrite Hack, u32_add_l. f_equal. lia.
Qed.

(** The newest prefix acknowledged by [ack], as a signed distance. *)
Definition ack_dist (q : PTCPQueue) (ack : Z) : Z := i32 (u32 (ack - read_seq_num_ q)).

Lemma Ack_stale q ack : ack_dist q ack ≤ 0 → Ack q ack = Ret q.
Proof. intros. unfold PtcpQueue.Ack, ack_dist in *. by rewrite (proj2 (Z.leb_le _ _)). Qed.

Lemma live_rep_split q ms1 ms2 :
  live_rep q (ms1 ++ ms2) →
  slice (read_idx_ q + zlen (concat ms1)) (write_idx_ q) (blk_ q) = concat ms2 ∧
  read_idx_ q + zlen (concat ms1) ≤ write_idx_ q.
Proof.
  intros Hl. pose proof (live_rep_zlen _ _ Hl) as Hz. rewrite concat_zlen_app in Hz.
  pose proof (zlen_nonneg (concat ms1)). pose proof (zlen_nonneg (concat ms2)).
  destruct Hl. split; [|lia].
  rewrite concat_app, (slice_app _ (read_idx_ q + zlen (concat ms1))) in rep_live0 by lia.
  apply app_inj_zlen in rep_live0 as [_ ?]; [done|]. rewrite slice_zlen; lia.
Qed.

(** What an effective [Ack] of the messages [ms1] leaves. *)
Record ack_ok (q : PTCPQueue) (ms1 ms2 : list (list MsgHeader)) (ack : Z)
    (q' : PTCPQueue) : Prop := {
  ak_rep : live_rep q' ms2;
  ak_read_seq : read_seq_num_ q' = ack;
  ak_ack_seq : ack_seq_num_ q' = ack_seq_num_ q;
  ak_sent : zlen (concat ms1) ≤ send_idx_ q - read_idx_ q → send_idx_ q ≤ write_idx_ q →
    queue_rep q' ms2 ∧ unsent q' = unsent q ∧
    send_idx_ q' - read_idx_ q' = send_idx_ q - read_idx_ q - zlen (concat ms1)
}.

Lemma Ack_fresh q ms1 ms2 ack :
  live_rep q (ms1 ++ ms2) → 0 ≤ ack < 4294967296 →
  ack_dist q ack = Z.of_nat (length ms1) → ms1 ≠ [] →
  ∃ q', Ack q ack = Ret q' ∧ ack_ok q ms1 ms2 ack q'.
Proof.
  intros Hl Hr Hd Hne. pose proof (live_rep_count _ _ Hl) as Hcnt.
  pose proof (live_rep_split _ _ _ Hl) as [Hrest Hle].
  pose proof (zlen_nonneg (concat ms1)). pose proof BLK_CNT_range.
  rewrite length_app in Hcnt.
  assert (0 < length ms1)%nat by (destruct ms1; simpl; [done|lia]).
  unfold ack_dist in Hd. destruct (Hl).
  assert (u32 (ack - read_seq_num_ q) = Z.of_nat (length ms1)) as Hu by word_lia.
  unfold PtcpQueue.Ack. rewrite (proj2 (Z.leb_gt _ _)) by lia. rewrite Hu, Nat2Z.id.
  rewrite (Ack_loop_correct ms1 q ms2 _ ack) by (try done; word_lia).
  rewrite outcome_bind_Ret. simpl. apply Forall_app in rep_msgs0 as [_ Hms2].
  assert (live_rep (advanced q (zlen (concat ms1)) ack) ms2) as Hadv.
  { constructor; simpl; try done. lia. }
  destruct (Z.eqb_spec (read_idx_ q + zlen (concat ms1)) (write_idx_ q)) as [Heq|Hneq].
  - eexists. split; [done|].
    assert (ms2 = []) as ->.
    { rewrite slice_nil in Hrest by lia. destruct ms2 as [|m ms2]; [done|].
      apply Forall_cons_1 in Hms2 as [Hm _]. destruct m; [done|]. done. }
    assert (live_rep (mkPTCPQueue (blk_ q) 0 0 0 ack (ack_seq_num_ q)) []) as Hzero.
    { constructor; simpl; try done. lia. }
    constructor; simpl; try done. intros. split; [by split|]. split; [|lia].
    unfold unsent. simpl. rewrite !slice_nil by lia. done.
  - eexists. split; [done|]. constructor; simpl; try done. intros.
    split; [split; [done|simpl; lia]|]. split; [done|lia].
Qed.

Lemma LoginAck_correct q ms1 ms2 ack :
  live_rep q (ms1 ++ ms2) → 0 ≤ ack < 4294967296 →
  ack_dist q ack = Z.of_nat (length ms1) →
  ∃ q', LoginAck q ack = Ret q' ∧ queue_rep q' ms2 ∧ unsent q' = concat ms2 ∧
        send_idx_ q' = read_idx_ q' ∧ read_seq_num_ q' = ack ∧
        ack_seq_num_ q' = ack_seq_num_ q.
Proof.
  intros Hl Hr Hd. unfold PtcpQueue.LoginAck.
  assert (∃ q', Ack q ack = Ret q' ∧ live_rep q' ms2 ∧ read_seq_num_ q' = ack ∧
            ack_seq_num_ q' = ack_seq_num_ q) as (q' & -> & Hl' & Hs & Ha).
  { destruct ms1 as [|m ms1].
    - rewrite Ack_stale by (rewrite Hd; simpl; lia). exists q. split_and!; try done.
      unfold ack_dist in Hd. simpl in Hd. destruct Hl. word_lia.
    - destruct (Ack_fresh _ _ _ _ Hl Hr Hd) as (q' & -> & []); [done|].
      by exists q'. }
  rewrite outcome_bind_Ret. eexists. split; [done|]. unfold unsent. simpl.
  destruct Hl'. split_and!; try done. split; [by constructor|simpl; lia].
Qed.

(** *** [SanityCheckAndGetSeq] *)

(** The ack in a stored header is not newer than our own. *)
Definition ack_fresh (q : PTCPQueue) (w : MsgHeader) : bool :=
  0 <=? i32 (u32 (ack_seq_num_ q - mh_ack_seq (Convert_h w))).
Definition msg_fresh (q : PTCPQueue) (m : list MsgHeader) : bool :=
  match m with [] => false | w :: _ => ack_fresh q w end.

Abbreviation loop := (SanityCheck_loop ToLE IsLE).

(** One iteration inside the live region. *)
Lemma SanityCheck_loop_step fuel q idx end_ w :
  idx < write_idx_ q → get (blk_ q) idx = Ret w →
  loop (S fuel) q idx end_ =
    if ack_fresh q w then loop fuel q (u32 (idx + blocks (wire_size w))) (u32 (end_ + 1))
    else Ret None.
Proof.
  intros Hlt Hw. simpl. rewrite (proj2 (Z.ltb_lt _ _)) by done.
  rewrite Hw, outcome_bind_Ret. unfold ack_fresh. simpl.
  by destruct (Z.ltb_spec (i32 (u32 (ack_seq_num_ q - Convert IsLE ToLE 4 (mh_ack_seq w)))) 0),
    (Z.leb_spec 0 (i32 (u32 (ack_seq_num_ q - Convert IsLE ToLE 4 (mh_ack_seq w))))); try lia.
Qed.

Lemma SanityCheck_loop_exit fuel q idx end_ :
  write_idx_ q ≤ idx → loop (S fuel) q idx end_ = Ret (Some (idx, end_)).
Proof. intros. simpl. by rewrite (proj2 (Z.ltb_ge _ _)). Qed.

Lemma SanityCheck_loop_correct q ms : ∀ idx end_ fuel,
  zlen (blk_ q) = BLK_CNT → 0 ≤ idx ≤ write_idx_ q → write_idx_ q ≤ BLK_CNT →
  slice idx (write_idx_ q) (blk_ q) = concat ms → Forall stored_msg ms →
  (length ms < fuel)%nat → 0 ≤ end_ < 4294967296 →
  loop fuel q idx end_ =
    Ret (if forallb (msg_fresh q) ms
         then Some (write_idx_ q, u32 (end_ + Z.of_nat (length ms))) else None).
Proof.
  induction ms as [|m ms IH]; intros idx end_ fuel Hlen Hidx Hw Hsl Hst Hfuel Hend;
    (destruct fuel as [|fuel]; [simpl in Hfuel; lia|]); simpl in Hfuel.
  - assert (idx = write_idx_ q) as ->.
    { pose proof (f_equal zlen Hsl) as Hz. rewrite slice_zlen in Hz by lia.
      change (zlen (concat [])) with 0 in Hz. lia. }
    rewrite SanityCheck_loop_exit by lia. simpl. by rewrite Z.add_0_r, u32_small.
  - pose proof (f_equal zlen Hsl) as Hz. rewrite slice_zlen in Hz by lia. simpl in Hz.
    rewrite zlen_app in Hz. pose proof (zlen_nonneg (concat ms)). pose proof BLK_CNT_range.
    apply Forall_cons_1 in Hst as [Hm Hst]. pose proof (stored_msg_zlen _ Hm).
    destruct m as [|w b]; [done|]. destruct Hm as (Hok & Hpos & Hmz).
    destruct (get_in_range (blk_ q) idx) as [w' Hw']; [lia|].
    assert (w' = w) as ->.
    { rewrite (slice_cons _ _ _ w') in Hsl by (try done; lia). by injection Hsl. }
    rewrite (SanityCheck_loop_step _ _ _ _ w) by (try done; lia).
    rewrite <-Hmz. simpl. destruct (ack_fresh q w); simpl; [|done].
    rewrite (slice_app _ (idx + zlen (w :: b))) in Hsl by lia.
    change (concat ((w :: b) :: ms)) with ((w :: b) ++ concat ms) in Hsl.
    apply app_inj_zlen in Hsl as [_ Hsl]; [|rewrite slice_zlen; lia].
    rewrite (u32_small (idx + _)) by lia.
    rewrite IH; try done; try lia; [|apply u32_range].
    rewrite u32_add_l. do 3 f_equal. by replace (end_ + 1 + Z.of_nat (length ms)) with
      (end_ + Z.of_nat (S (length ms))) by lia.
Qed.

Lemma SanityCheck_correct q ms :
  live_rep q ms →
  SanityCheckAndGetSeq ToLE IsLE q =
    Ret (if forallb (msg_fresh q) ms
         then Some (read_seq_num_ q, u32 (read_seq_num_ q + Z.of_nat (length ms))) else None).
Proof.
  intros Hl. pose proof (live_rep_count _ _ Hl). destruct Hl.
  unfold SanityCheckAndGetSeq, SanityCheckAndGetSeq_fuel.
  rewrite (SanityCheck_loop_correct q ms) by (done || lia).
  rewrite outcome_bind_Ret. destruct (forallb _ ms); [|done]. by rewrite Z.eqb_refl.
Qed.

(** A header of size 0 stops the index: the loop never ends. *)
Lemma SanityCheck_loop_stuck q idx w : ∀ fuel end_,
  0 ≤ idx < write_idx_ q → write_idx_ q ≤ BLK_CNT → get (blk_ q) idx = Ret w →
  wire_size w = 0 → ack_fresh q w = true → loop fuel q idx end_ = NoFuel.
Proof.
  intros fuel. induction fuel as [|fuel IH]; intros end_ Hidx Hle Hw Hz Hf; [done|].
  rewrite (SanityCheck_loop_step _ _ _ _ w) by (done || lia). rewrite Hf, Hz.
  change (blocks 0) with 0. rewrite Z.add_0_r, u32_small by (pose proof BLK_CNT_range; lia).
  by apply IH.
Qed.

(** What a file of the right length holds, whatever wrote it. *)
Record file_ok (q : PTCPQueue) : Prop := {
  fo_len : zlen (blk_ q) = BLK_CNT;
  fo_write : 0 ≤ read_idx_ q ∧ write_idx_ q ≤ BLK_CNT;
  fo_seq : 0 ≤ read_seq_num_ q < 4294967296;
  fo_ack : 0 ≤ ack_seq_num_ q < 4294967296;
  fo_cells : Forall MsgHeader_ok (blk_ q)
}.

Lemma file_ok_get q i w : file_ok q → get (blk_ q) i = Ret w → MsgHeader_ok w.
Proof.
  intros [] [_ Hw]%get_Ret. by eapply Forall_lookup_1 in fo_cells0.
Qed.

(** A loop that reached [write_idx_] walked over whole messages. *)
Lemma SanityCheck_loop_sound q : file_ok q → ∀ fuel idx end_ end',
  0 ≤ idx → loop fuel q idx end_ = Ret (Some (write_idx_ q, end')) →
  0 ≤ end_ < 4294967296 →
  ∃ ms, slice idx (write_idx_ q) (blk_ q) = concat ms ∧ Forall stored_msg ms ∧
        end' = u32 (end_ + Z.of_nat (length ms)) ∧ idx ≤ write_idx_ q ∧
        forallb (msg_fresh q) ms = true.
Proof.
  intros Hf fuel. pose proof BLK_CNT_range. destruct (Hf) as [? [_ ?] _ _ _].
  induction fuel as [|fuel IH]; intros idx end_ end' Hidx Hr Hend; [done|].
  destruct (decide (write_idx_ q ≤ idx)) as [Hge|Hlt].
  { rewrite SanityCheck_loop_exit in Hr by done. injection Hr as -> ->.
    exists []. rewrite slice_nil, Z.add_0_r, u32_small by lia. split_and!; auto with lia. }
  destruct (get_in_range (blk_ q) idx) as [w Hw]; [lia|].
  rewrite (SanityCheck_loop_step _ _ _ _ w) in Hr by (done || lia).
  destruct (ack_fresh q w) eqn:Hfr; [|done].
  pose proof (file_ok_get _ _ _ Hf Hw) as Hok. pose proof (wire_size_range w Hok).
  pose proof (blocks_range (wire_size w) ltac:(lia)).
  rewrite (u32_small (idx + _)) in Hr by lia.
  destruct (decide (wire_size w = 0)) as [Hz|Hnz].
  { rewrite Hz in Hr. change (blocks 0) with 0 in Hr. rewrite Z.add_0_r in Hr.
    by rewrite (SanityCheck_loop_stuck q idx w) in Hr by (done || lia). }
  pose proof (blocks_pos (wire_size w) ltac:(lia)).
  destruct (IH (idx + blocks (wire_size w)) _ _ ltac:(lia) Hr (u32_range _)) as (ms & Hms & Hst & -> & Hle & Hfrs).
  exists (slice idx (idx + blocks (wire_size w)) (blk_ q) :: ms).
  assert (stored_msg (slice idx (idx + blocks (wire_size w)) (blk_ q))) as Hm.
  { rewrite (slice_cons _ _ _ w) by (done || lia). split; [done|]. split; [lia|].
    rewrite zlen_cons, slice_zlen by lia. lia. }
  split_and!; [..|lia|].
  - rewrite (slice_app _ (idx + blocks (wire_size w))) by lia. by rewrite Hms.
  - by constructor.
  - rewrite u32_add_l. f_equal. simpl length. lia.
  - simpl. rewrite Hfrs, (slice_cons _ _ _ w) by (done || lia). simpl. by rewrite Hfr.
Qed.

Lemma SanityCheck_sound q fuel s e :
  file_ok q → SanityCheckAndGetSeq_fuel ToLE IsLE fuel q = Ret (Some (s, e)) →
  ∃ ms, live_rep q ms ∧ s = read_seq_num_ q ∧
        e = u32 (read_seq_num_ q + Z.of_nat (length ms)) ∧ forallb (msg_fresh q) ms = true.
Proof.
  intros Hf. unfold SanityCheckAndGetSeq_fuel.
  intros (r & Hr & Hs)%outcome_bind_inv. destruct r as [[idx end_]|]; [|done].
  destruct (Z.eqb_spec idx (write_idx_ q)) as [->|]; [|done]. injection Hs as <- <-.
  destruct (Hf) as [? [? ?] ? ? ?].
  destruct (SanityCheck_loop_sound _ Hf _ (read_idx_ q) _ _ ltac:(lia) Hr ltac:(lia))
    as (ms & ? & ? & ? & ? & ?).
  exists ms. split_and!; done.
Qed.

(** *** The fuel of the model is enough whenever any fuel is *)

Lemma SanityCheck_loop_fuel q : file_ok q → ∀ fuel idx end_,
  0 ≤ idx → (Z.to_nat (write_idx_ q - idx) < fuel)%nat →
  loop fuel q idx end_ = NoFuel → ∀ fuel', loop fuel' q idx end_ = NoFuel.
Proof.
  intros Hf fuel. pose proof BLK_CNT_range. destruct (Hf) as [? [_ ?] _ _ _].
  induction fuel as [|fuel IH]; intros idx end_ Hidx Hfuel Hr [|fuel']; try done.
  { lia. }
  destruct (decide (write_idx_ q ≤ idx)) as [Hge|Hlt].
  { by rewrite SanityCheck_loop_exit in Hr by done. }
  destruct (get_in_range (blk_ q) idx) as [w Hw]; [lia|].
  rewrite (SanityCheck_loop_step _ _ _ _ w) in Hr by (done || lia).
  rewrite (SanityCheck_loop_step _ _ _ _ w) by (done || lia).
  destruct (ack_fresh q w) eqn:Hfr; [|done].
  pose proof (file_ok_get _ _ _ Hf Hw) as Hok. pose proof (wire_size_range w Hok).
  pose proof (blocks_range (wire_size w) ltac:(lia)).
  rewrite (u32_small (idx + _)) in * by lia.
  destruct (decide (wire_size w = 0)) as [Hz|Hnz].
  { rewrite Hz. change (blocks 0) with 0. rewrite Z.add_0_r. apply (SanityCheck_loop_stuck q idx w); (done || lia). }
  pose proof (blocks_pos (wire_size w) ltac:(lia)). apply IH; (done || lia).
Qed.

(** More fuel does not change a result. *)
Lemma SanityCheck_loop_mono q fuel : ∀ fuel' idx end_ r,
  loop fuel q idx end_ = Ret r → (fuel ≤ fuel')%nat → loop fuel' q idx end_ = Ret r.
Proof.
  induction fuel as [|fuel IH]; intros [|fuel'] idx end_ r Hr Hle; try done; [lia|].
  simpl in *. destruct (idx <? write_idx_ q); [|done].
  destruct (get (blk_ q) idx) as [w| |]; simpl in *; [|done..].
  destruct (_ <? 0); [done|]. apply IH; [done|lia].
Qed.

Lemma SanityCheck_loop_not_undef q : file_ok q → ∀ fuel idx end_,
  0 ≤ idx → loop fuel q idx end_ ≠ Undef.
Proof.
  intros Hf fuel. pose proof BLK_CNT_range. destruct (Hf) as [? [_ ?] _ _ _].
  induction fuel as [|fuel IH]; intros idx end_ Hidx; [done|].
  destruct (decide (write_idx_ q ≤ idx)) as [Hge|Hlt].
  { by rewrite SanityCheck_loop_exit by done. }
  destruct (get_in_range (blk_ q) idx) as [w Hw]; [lia|].
  rewrite (SanityCheck_loop_step _ _ _ _ w) by (done || lia).
  destruct (ack_fresh q w); [|done]. apply IH, u32_range.
Qed.
End inv.
