(* ===== verification/PtcpQueueSpec.v ===== *)
(** * The contract of the send queue and its refinement

    [spec_queue] is what [PTCPQueue] promises: a sequence of unacknowledged
    messages of which the first [sq_sent] blocks are on the wire, the sequence
    number of the first one and our own ack.  [run_op] is what the library
    and its user do with the C++ queue (the user fills the message between
    [Alloc] and [Push]); [spec_op] is its meaning.  The refinement is a
    simulation step by step, lifted to every sequence of valid operations. *)

From S2P Require Import Prelude.
From S2P Require Import Arrays.
From S2P Require Import MsgHeader.
From S2P Require Import PtcpQueue.
From S2P Require Import PtcpQueueInv.

(** ** Operations and their outputs *)

Inductive queue_op : Type :=
  | OpSend (msg_type size : Z) (body : list MsgHeader)  (* Alloc, fill, Push *)
  | OpSendout (n : Z)                                   (* GetSendable, send, Sendout *)
  | OpAck (ack_seq : Z)
  | OpLoginAck (ack_seq : Z)
  | OpMyAck.                                            (* MyAck()++ *)

Inductive queue_out : Type :=
  | OutSend (accepted : bool)
  | OutData (data : list MsgHeader)
  | OutNone.

#[export] Instance queue_out_eq_dec : EqDecision queue_out.
Proof. solve_decision. Defined.

(** The user's part of a send: [header->msg_type = t] and the body copied to
    [header + 1]. *)
Definition fill (blk : list MsgHeader) (idx t : Z) (body : list MsgHeader)
    : outcome (list MsgHeader) :=
  h ← get blk idx;
  blk ← put blk idx (mkMsgHeader (mh_size h) t (mh_ack_seq h));
  memcpy blk (idx + 1) body.

Record spec_queue := mkSpecQueue {
  sq_msgs : list (list MsgHeader);
  sq_sent : Z;
  sq_seq : Z;
  sq_ack : Z
}.

Section spec.
Context (Bytes : Z) (ToLE IsLE : bool).

Definition run_op (q : PTCPQueue) (op : queue_op) : outcome (queue_out * PTCPQueue) :=
  match op with
  | OpSend t size body =>
      '(p, q) ← Alloc Bytes q size;
      match p with
      | None => Ret (OutSend false, q)
      | Some idx =>
          blk ← fill (blk_ q) idx t body;
          q ← Push ToLE IsLE (set_blk q blk);
          Ret (OutSend true, q)
      end
  | OpSendout n =>
      let '(p, blk_sz) := GetSendable q in
      Ret (OutData (slice p (p + n) (blk_ q)), Sendout q n)
  | OpAck ack => q ← Ack ToLE IsLE q ack; Ret (OutNone, q)
  | OpLoginAck ack => q ← LoginAck ToLE IsLE q ack; Ret (OutNone, q)
  | OpMyAck => Ret (OutNone, MyAck_incr q)
  end.

Fixpoint run_ops (q : PTCPQueue) (ops : list queue_op)
    : outcome (list queue_out * PTCPQueue) :=
  match ops with
  | [] => Ret ([], q)
  | op :: ops =>
      '(o, q) ← run_op q op;
      '(os, q) ← run_ops q ops;
      Ret (o :: os, q)
  end.

(** ** The specification *)

Definition sq_blocks (s : spec_queue) : Z := zlen (concat (sq_msgs s)).
Definition sq_dist (s : spec_queue) (ack : Z) : Z := i32 (u32 (ack - sq_seq s)).

(** The message on the wire: header in the wire byte order, then the body. *)
Definition wire_msg (ack t size : Z) (body : list MsgHeader) : list MsgHeader :=
  ConvertByteOrder IsLE ToLE (mkMsgHeader (size + 8) t ack) :: body.

Definition spec_ack (s : spec_queue) (ack : Z) : spec_queue :=
  if sq_dist s ack <=? 0 then s
  else
    let n := Z.to_nat (sq_dist s ack) in
    mkSpecQueue (drop n (sq_msgs s))
      (sq_sent s - zlen (concat (take n (sq_msgs s)))) ack (sq_ack s).

Definition spec_op (s : spec_queue) (op : queue_op) : queue_out * spec_queue :=
  match op with
  | OpSend t size body =>
      if blocks (size + 8) <=? BLK_CNT Bytes - sq_blocks s then
        (OutSend true,
         mkSpecQueue (sq_msgs s ++ [wire_msg (sq_ack s) t size body])
           (sq_sent s) (sq_seq s) (sq_ack s))
      else (OutSend false, s)
  | OpSendout n =>
      (OutData (slice (sq_sent s) (sq_sent s + n) (concat (sq_msgs s))),
       mkSpecQueue (sq_msgs s) (sq_sent s + n) (sq_seq s) (sq_ack s))
  | OpAck ack => (OutNone, spec_ack s ack)
  | OpLoginAck ack =>
      let s := spec_ack s ack in
      (OutNone, mkSpecQueue (sq_msgs s) 0 (sq_seq s) (sq_ack s))
  | OpMyAck => (OutNone, mkSpecQueue (sq_msgs s) (sq_sent s) (sq_seq s) (u32 (sq_ack s + 1)))
  end.

Fixpoint spec_ops (s : spec_queue) (ops : list queue_op) : list queue_out * spec_queue :=
  match ops with
  | [] => ([], s)
  | op :: ops =>
      let '(o, s) := spec_op s op in
      let '(os, s) := spec_ops s ops in
      (o :: os, s)
  end.

(** What the callers guarantee: message sizes that fit [uint16_t] with the
    header, no more blocks sent than there are, acks of sent messages. *)
Definition valid_op (s : spec_queue) (op : queue_op) : Prop :=
  match op with
  | OpSend t size body =>
      0 ≤ size ≤ 65527 ∧ 0 ≤ t < 65536 ∧ zlen body = blocks (size + 8) - 1
  | OpSendout n => 0 ≤ n ≤ sq_blocks s - sq_sent s
  | OpAck ack =>
      0 ≤ ack < 4294967296 ∧ sq_dist s ack ≤ Z.of_nat (length (sq_msgs s)) ∧
      zlen (concat (take (Z.to_nat (sq_dist s ack)) (sq_msgs s))) ≤ sq_sent s
  | OpLoginAck ack =>
      0 ≤ ack < 4294967296 ∧ sq_dist s ack ≤ Z.of_nat (length (sq_msgs s))
  | OpMyAck => True
  end.

Fixpoint valid_ops (s : spec_queue) (ops : list queue_op) : Prop :=
  match ops with
  | [] => True
  | op :: ops => valid_op s op ∧ valid_ops (spec_op s op).2 ops
  end.

#[export] Instance valid_op_dec s op : Decision (valid_op s op).
Proof. destruct op; simpl; apply _. Defined.
#[export] Instance valid_ops_dec s ops : Decision (valid_ops s ops).
Proof. revert s. induction ops; intros; simpl; apply _. Defined.

(** *** The data stream *)

(** The blocks not sent yet. *)
Definition sq_unsent (s : spec_queue) : list MsgHeader :=
  slice (sq_sent s) (sq_blocks s) (concat (sq_msgs s)).

(** The messages a sequence of operations adds. *)
Definition pushed_by (s : spec_queue) (op : queue_op) : list (list MsgHeader) :=
  match op with
  | OpSend t size body =>
      if blocks (size + 8) <=? BLK_CNT Bytes - sq_blocks s
      then [wire_msg (sq_ack s) t size body] else []
  | _ => []
  end.
Fixpoint pushed (s : spec_queue) (ops : list queue_op) : list (list MsgHeader) :=
  match ops with
  | [] => []
  | op :: ops => pushed_by s op ++ pushed (spec_op s op).2 ops
  end.

Definition sent_by (o : queue_out) : list MsgHeader :=
  match o with OutData d => d | _ => [] end.
Definition sent_data (os : list queue_out) : list MsgHeader := concat (sent_by <$> os).

(** Operations inside one TCP connection: no login. *)
Definition in_connection (op : queue_op) : bool :=
  match op with OpLoginAck _ => false | _ => true end.

Definition new_spec : spec_queue := mkSpecQueue [] 0 0 0.

(** ** The simulation *)

Definition simulates (q : PTCPQueue) (s : spec_queue) : Prop :=
  queue_rep Bytes ToLE IsLE q (sq_msgs s) ∧ sq_sent s = send_idx_ q - read_idx_ q ∧
  sq_seq s = read_seq_num_ q ∧ sq_ack s = ack_seq_num_ q.
End spec.

Section refinement.
Context (Bytes : Z) (ToLE IsLE : bool).
Context (HB : Bytes_ok Bytes).

Abbreviation queue_rep := (queue_rep Bytes ToLE IsLE).
Abbreviation wire_msg := (wire_msg ToLE IsLE).
Abbreviation simulates := (simulates Bytes ToLE IsLE).
Abbreviation run_op := (run_op Bytes ToLE IsLE).
Abbreviation spec_op := (spec_op Bytes ToLE IsLE).

Lemma fill_correct blk idx t body size t0 a0 :
  get blk idx = Ret (mkMsgHeader size t0 a0) → idx + 1 + zlen body ≤ zlen blk →
  fill blk idx t body = Ret (blit idx (mkMsgHeader size t a0 :: body) blk).
Proof.
  intros Hh Hroom. pose proof (get_range _ _ _ Hh). unfold fill.
  rewrite Hh, outcome_bind_Ret, put_in_range, outcome_bind_Ret by lia. simpl.
  rewrite memcpy_in_range; [|lia|rewrite blit_zlen; rewrite ?zlen_cons, ?zlen_nil; lia].
  f_equal. apply blit_cons; lia.
Qed.

(** A send that [Alloc] accepted. *)
Lemma fill_Push_correct q ms size idx q' t body :
  alloc_ok Bytes ToLE IsLE q ms size idx q' →
  0 ≤ size ≤ 65527 → 0 ≤ t < 65536 → zlen body = blocks (size + 8) - 1 →
  ∃ blk q'', fill (blk_ q') idx t body = Ret blk ∧ Push ToLE IsLE (set_blk q' blk) = Ret q'' ∧
    queue_rep q'' (ms ++ [wire_msg (ack_seq_num_ q) t size body]) ∧
    unsent q'' = unsent q ++ wire_msg (ack_seq_num_ q) t size body ∧
    send_idx_ q'' - read_idx_ q'' = send_idx_ q - read_idx_ q ∧
    read_seq_num_ q'' = read_seq_num_ q ∧ ack_seq_num_ q'' = ack_seq_num_ q.
Proof.
  intros [Hq -> Hroom (t0 & a0 & Hh) Hun Hsent Hrs Has] Hsize Ht Hb.
  pose proof (blocks_pos (size + 8) ltac:(lia)).
  pose proof (zlen_nonneg body).
  assert (zlen (blk_ q') = BLK_CNT Bytes) as Hlen by (destruct Hq as [[] _]; done).
  assert (0 ≤ write_idx_ q') as Hw by (destruct Hq as [[] _]; lia).
  rewrite (fill_correct _ _ t body _ _ _ Hh) by lia.
  set (h := mkMsgHeader (size + 8) t a0).
  destruct (set_blk_rep Bytes ToLE IsLE q' ms (h :: body) Hq) as [Hq' Hun'];
    [rewrite zlen_cons; lia|].
  destruct (Push_correct Bytes ToLE IsLE HB _ ms h Hq')
    as (q'' & HP & Hq'' & _ & Hu & Hrs' & Has' & Hr' & Hs'); simpl in *; try lia.
  { apply get_blit_head. lia. }
  assert (slice (write_idx_ q' + 1) (write_idx_ q' + blocks (size + 8))
            (blit (write_idx_ q') (h :: body) (blk_ q')) = body) as Hbody.
  { replace (write_idx_ q' + blocks (size + 8)) with (write_idx_ q' + 1 + zlen body) by lia.
    rewrite <-blit_cons by lia.
    apply blit_slice_same. rewrite blit_zlen; rewrite ?zlen_cons, ?zlen_nil; lia. }
  unfold pushed_header in *. simpl in *. rewrite Hbody, Has in *.
  do 2 eexists. split; [done|]. split; [exact HP|]. split; [exact Hq''|].
  split_and!; [by rewrite Hu, Hun', Hun|lia|congruence|congruence].
Qed.

Lemma sim_sq_blocks q s :
  simulates q s → sq_blocks s = write_idx_ q - read_idx_ q.
Proof. intros [[Hl _] _]. by apply (live_rep_zlen Bytes ToLE IsLE). Qed.

Lemma sim_unsent q s :
  simulates q s → unsent q = slice (sq_sent s) (sq_blocks s) (concat (sq_msgs s)).
Proof.
  intros Hsim. rewrite (sim_sq_blocks _ _ Hsim). destruct Hsim as ([[] Hs] & -> & _).
  rewrite <-rep_live, slice_slice by lia. unfold unsent. f_equal; lia.
Qed.

(** *** One lemma per operation *)

Lemma sim_send q s t size body :
  simulates q s → valid_op s (OpSend t size body) →
  ∃ q', run_op q (OpSend t size body) = Ret ((spec_op s (OpSend t size body)).1, q') ∧
        simulates q' (spec_op s (OpSend t size body)).2.
Proof.
  intros Hsim (Hsize & Ht & Hb). pose proof (sim_sq_blocks _ _ Hsim) as Hbl.
  destruct Hsim as (Hq & Hse & Hseq & Hack).
  destruct (Alloc_correct Bytes ToLE IsLE HB _ _ _ Hq Hsize) as [Hfit Hno].
  unfold fits in *. simpl. rewrite Hbl.
  destruct (Z.leb_spec (blocks (size + 8)) (BLK_CNT Bytes - (write_idx_ q - read_idx_ q)))
    as [Hle|Hgt].
  - destruct (Hfit Hle) as (idx & q1 & -> & Hok). rewrite outcome_bind_Ret.
    destruct (fill_Push_correct _ _ _ _ _ t body Hok Hsize Ht Hb)
      as (blk & q2 & -> & HP & Hq2 & _ & Hs2 & Hrs & Has).
    rewrite outcome_bind_Ret, HP, outcome_bind_Ret. exists q2. split; [done|].
    split_and!; simpl; congruence.
  - rewrite Hno by lia. exists q. by split.
Qed.

Lemma sim_sendout q s n :
  simulates q s → valid_op s (OpSendout n) →
  ∃ q', run_op q (OpSendout n) = Ret ((spec_op s (OpSendout n)).1, q') ∧
        simulates q' (spec_op s (OpSendout n)).2.
Proof.
  intros Hsim Hn. pose proof (sim_sq_blocks _ _ Hsim) as Hbl. simpl in Hn.
  pose proof (sim_unsent _ _ Hsim) as Hun. destruct Hsim as (Hq & Hse & Hseq & Hack).
  destruct (GetSendable_correct Bytes ToLE IsLE HB _ _ Hq) as (Hg & _ & Hdata).
  assert (0 ≤ n ≤ zlen (unsent q)) as Hn'.
  { rewrite Hun, slice_zlen; unfold sq_blocks in *; destruct Hq as [[] ?]; lia. }
  destruct (Sendout_correct Bytes ToLE IsLE HB _ _ n Hq Hn') as [Hq' _].
  unfold PtcpQueueSpec.run_op. rewrite Hg. eexists. split.
  - simpl. do 3 f_equal. rewrite Hdata, Hun by lia.
    unfold sq_blocks. rewrite slice_slice; [f_equal; lia|destruct Hq as [[] ?]; lia|lia|].
    rewrite Hun in Hn'. unfold sq_blocks in *. destruct Hq as [[] ?]. lia.
  - pose proof (BLK_CNT_range Bytes HB). split_and!; try done. simpl.
    rewrite u32_small; destruct Hq as [[] ?]; lia.
Qed.

(** The messages an ack drops, and the distance in both models. *)
Lemma sim_dist q s ack :
  simulates q s → ack_dist q ack = sq_dist s ack.
Proof. intros (_ & _ & Hseq & _). unfold ack_dist, sq_dist. by rewrite Hseq. Qed.

Lemma sim_ack q s ack :
  simulates q s → valid_op s (OpAck ack) →
  ∃ q', run_op q (OpAck ack) = Ret (OutNone, q') ∧ simulates q' (spec_ack s ack).
Proof.
  intros Hsim (Hr & Hle & Hsent). pose proof (sim_dist _ _ ack Hsim) as Hd.
  simpl. unfold spec_ack. destruct (Z.leb_spec (sq_dist s ack) 0) as [Hst|Hfr].
  - rewrite Ack_stale by lia. exists q. by split.
  - destruct Hsim as ([Hl Hs] & Hse & Hseq & Hack).
    set (n := Z.to_nat (sq_dist s ack)) in *.
    rewrite <-(take_drop n (sq_msgs s)) in Hl.
    destruct (Ack_fresh Bytes ToLE IsLE HB _ _ _ ack Hl Hr)
      as (q' & -> & [Hl' Hrs Has Hsent']).
    + rewrite Hd, length_take. lia.
    + intros Hn%(f_equal length). rewrite length_take in Hn. simpl in Hn. lia.
    + rewrite outcome_bind_Ret. exists q'. split; [done|].
      destruct Hsent' as (Hq' & _ & Hdiff); [lia|lia|]. split_and!; simpl; first [congruence|lia].
Qed.

Lemma sim_login_ack q s ack :
  simulates q s → valid_op s (OpLoginAck ack) →
  ∃ q', run_op q (OpLoginAck ack) = Ret (OutNone, q') ∧
        simulates q' (spec_op s (OpLoginAck ack)).2.
Proof.
  intros Hsim (Hr & Hle). pose proof (sim_dist _ _ ack Hsim) as Hd.
  simpl. unfold spec_ack. destruct (Z.leb_spec (sq_dist s ack) 0) as [Hst|Hfr].
  - unfold PtcpQueue.LoginAck. rewrite Ack_stale by lia. rewrite !outcome_bind_Ret.
    eexists. split; [reflexivity|]. destruct Hsim as ([Hl Hs] & Hse & Hseq & Hack).
    split; [split|split; [|split]]; simpl; [by apply live_rep_set_send|..]; auto with lia.
  - destruct Hsim as ([Hl Hs] & Hse & Hseq & Hack).
    set (n := Z.to_nat (sq_dist s ack)) in *.
    rewrite <-(take_drop n (sq_msgs s)) in Hl.
    destruct (LoginAck_correct Bytes ToLE IsLE HB _ _ _ ack Hl Hr)
      as (q' & -> & Hq' & _ & Hsr & Hrs & Has).
    + rewrite Hd, length_take. lia.
    + rewrite outcome_bind_Ret. exists q'. split; [done|].
      split_and!; simpl; first [congruence|lia].
Qed.

Lemma sim_op q s op :
  simulates q s → valid_op s op →
  ∃ q', run_op q op = Ret ((spec_op s op).1, q') ∧ simulates q' (spec_op s op).2.
Proof.
  intros Hsim Hv. destruct op.
  - by apply sim_send.
  - by apply sim_sendout.
  - by apply sim_ack.
  - by apply sim_login_ack.
  - simpl. eexists. split; [done|]. destruct Hsim as (Hq & Hse & Hseq & Hack).
    destruct (MyAck_incr_correct Bytes ToLE IsLE _ _ Hq) as (Hq' & _ & Ha).
    split_and!; try done. simpl in *. congruence.
Qed.

Lemma sim_ops ops : ∀ q s,
  simulates q s → valid_ops Bytes ToLE IsLE s ops →
  ∃ q', run_ops Bytes ToLE IsLE q ops = Ret ((spec_ops Bytes ToLE IsLE s ops).1, q') ∧
        simulates q' (spec_ops Bytes ToLE IsLE s ops).2.
Proof.
  induction ops as [|op ops IH]; intros q s Hsim Hv; [by exists q|].
  destruct Hv as [Hv Hvs]. destruct (sim_op _ _ _ Hsim Hv) as (q1 & Hop & Hsim1).
  destruct (IH _ _ Hsim1 Hvs) as (q2 & Hops & Hsim2). exists q2.
  simpl. rewrite Hop, outcome_bind_Ret, Hops, outcome_bind_Ret.
  destruct (spec_op s op) as [o s1]. simpl in *.
  destruct (spec_ops Bytes ToLE IsLE s1 ops) as [os s2]. by split.
Qed.

Lemma new_simulates : simulates (new_PTCPQueue Bytes) new_spec.
Proof.
  split; [by apply new_PTCPQueue_rep|]. done.
Qed.

(** *** What is sent, and what remains to be sent *)

Lemma sim_ranges q s : simulates q s → 0 ≤ sq_sent s ≤ sq_blocks s.
Proof.
  intros Hsim. rewrite (sim_sq_blocks _ _ Hsim). destruct Hsim as ([[] Hs] & -> & _). lia.
Qed.

Lemma conserve_op s op :
  0 ≤ sq_sent s ≤ sq_blocks s → valid_op s op → in_connection op = true →
  sq_unsent s ++ concat (pushed_by Bytes ToLE IsLE s op) =
    sent_by (spec_op s op).1 ++ sq_unsent (spec_op s op).2.
Proof.
  intros Hr Hv Hin. unfold sq_unsent, sq_blocks in *. destruct op as [t size body|n|ack| |]; simpl in *.
  - unfold sq_blocks. case_match; simpl; [|by rewrite app_nil_r].
    rewrite app_nil_r, concat_app. simpl. rewrite app_nil_r.
    change (ConvertByteOrder _ _ _ :: body) with (wire_msg (sq_ack s) t size body).
    set (m := wire_msg (sq_ack s) t size body). set (l := concat (sq_msgs s)) in *.
    pose proof (zlen_nonneg m). rewrite zlen_app.
    rewrite (slice_app (sq_sent s) (zlen l) (zlen l + zlen m) (l ++ m)) by lia.
    by rewrite slice_app_l, slice_app_full by lia.
  - rewrite app_nil_r. unfold sq_blocks in Hv. apply slice_app; lia.
  - rewrite app_nil_r. unfold spec_ack. destruct (sq_dist s ack <=? 0); simpl; [done|].
    set (n := Z.to_nat (sq_dist s ack)) in *. destruct Hv as (_ & _ & Hs).
    assert (concat (sq_msgs s) = concat (take n (sq_msgs s)) ++ concat (drop n (sq_msgs s)))
      as Hcat by by rewrite <-concat_app, take_drop.
    pose proof (zlen_nonneg (concat (take n (sq_msgs s)))).
    rewrite Hcat, zlen_app, slice_app_r by lia. f_equal. lia.
  - done.
  - by rewrite app_nil_r.
Qed.

Lemma conserve_ops ops : ∀ q s,
  simulates q s → valid_ops Bytes ToLE IsLE s ops → forallb in_connection ops = true →
  sq_unsent s ++ concat (pushed Bytes ToLE IsLE s ops) =
    sent_data (spec_ops Bytes ToLE IsLE s ops).1 ++
    sq_unsent (spec_ops Bytes ToLE IsLE s ops).2.
Proof.
  induction ops as [|op ops IH]; intros q s Hsim Hv Hin; simpl; [by rewrite app_nil_r|].
  destruct Hv as [Hv Hvs]. apply andb_prop in Hin as [Hop Hin].
  destruct (sim_op _ _ _ Hsim Hv) as (q1 & _ & Hsim1).
  pose proof (conserve_op s op (sim_ranges _ _ Hsim) Hv Hop) as Hc.
  specialize (IH _ _ Hsim1 Hvs Hin). rewrite concat_app, app_assoc, Hc.
  destruct (spec_op s op) as [o s1]. simpl in *.
  destruct (spec_ops Bytes ToLE IsLE s1 ops) as [os s2]. simpl in *.
  unfold sent_data in *. simpl. by rewrite <-!app_assoc, IH.
Qed.
End refinement.
