(* ===== verification/PtcpQueueProps.v ===== *)
(** * Properties of the send queue

    The theorems about [PTCPQueue], each with a concrete instance where it
    has hypotheses.  The instances run on a queue of 64 bytes (8 blocks) that
    holds two messages. *)

From S2P Require Import Prelude.
From S2P Require Import Arrays.
From S2P Require Import MsgHeader.
From S2P Require Import PtcpQueue.
From S2P Require Import PtcpQueueInv.
From S2P Require Import PtcpQueueSpec.

(** ** The concrete queue of the instances *)

Definition ex_body : list MsgHeader := [mkMsgHeader 11 12 13].
Definition ex_ops : list queue_op :=
  [OpSend 5 8 ex_body; OpSend 6 3 ex_body; OpSendout 3].
Definition ex_queue : PTCPQueue :=
  match run_ops 64 true true (new_PTCPQueue 64) ex_ops with
  | Ret (_, q) => q
  | _ => new_PTCPQueue 64
  end.
Definition ex_msgs : list (list MsgHeader) :=
  [wire_msg true true 0 5 8 ex_body; wire_msg true true 0 6 3 ex_body].

Lemma Bytes_ok_64 : Bytes_ok 64.
Proof. by split. Qed.

Lemma run_ops_simulates Bytes ToLE IsLE ops outs q :
  Bytes_ok Bytes → valid_ops Bytes ToLE IsLE new_spec ops →
  run_ops Bytes ToLE IsLE (new_PTCPQueue Bytes) ops = Ret (outs, q) →
  simulates Bytes ToLE IsLE q (spec_ops Bytes ToLE IsLE new_spec ops).2.
Proof.
  intros HB Hv Hrun.
  destruct (sim_ops Bytes ToLE IsLE HB ops _ _ (new_simulates _ _ _ HB) Hv)
    as (q' & Hrun' & Hsim).
  rewrite Hrun in Hrun'. by injection Hrun' as _ <-.
Qed.

Lemma ex_simulates : simulates 64 true true ex_queue (mkSpecQueue ex_msgs 3 0 0).
Proof.
  apply (run_ops_simulates 64 true true ex_ops [OutSend true; OutSend true; OutData (take 3 (concat ex_msgs))]).
  - apply Bytes_ok_64.
  - by apply (bool_decide_unpack _).
  - by vm_compute.
Qed.

Lemma ex_rep : queue_rep 64 true true ex_queue ex_msgs.
Proof. apply ex_simulates. Qed.

(** ** Refinement *)

(** C2: every sequence of valid operations on a new queue runs without
    touching memory outside [blk_] and without an endless loop, returns
    exactly what the specification returns, and ends in a queue that
    represents the specification's state. *)
Theorem ptcp_queue_refines Bytes ToLE IsLE ops :
  Bytes_ok Bytes → valid_ops Bytes ToLE IsLE new_spec ops →
  ∃ q, run_ops Bytes ToLE IsLE (new_PTCPQueue Bytes) ops =
         Ret ((spec_ops Bytes ToLE IsLE new_spec ops).1, q) ∧
       simulates Bytes ToLE IsLE q (spec_ops Bytes ToLE IsLE new_spec ops).2.
Proof. intros HB Hv. apply sim_ops; auto using new_simulates. Qed.

(** Sends until the queue is full, an ack, and a send that compacts. *)
Definition ex_ops_full : list queue_op :=
  ex_ops ++ [OpSendout 1; OpSend 7 24 [zero_header; zero_header; zero_header];
             OpSend 7 1 ex_body; OpAck 1; OpSend 7 1 ex_body; OpMyAck; OpLoginAck 2].

Lemma ptcp_queue_refines_witness :
  Bytes_ok 64 ∧
  ∃ q, run_ops 64 true false (new_PTCPQueue 64) ex_ops_full =
         Ret ((spec_ops 64 true false new_spec ex_ops_full).1, q) ∧
       simulates 64 true false q (spec_ops 64 true false new_spec ex_ops_full).2.
Proof.
  split; [apply Bytes_ok_64|].
  apply (ptcp_queue_refines 64 true false ex_ops_full).
  - apply Bytes_ok_64.
  - by apply (bool_decide_unpack _).
Defined.

(** ** The byte stream *)

(** During one TCP connection nothing is lost, duplicated or reordered on
    the sending side: what was unsent when the connection began, followed by
    the messages pushed since, is what has been handed to the socket followed
    by what is still unsent. *)
Theorem ptcp_stream_conserved Bytes ToLE IsLE q s ops :
  Bytes_ok Bytes → simulates Bytes ToLE IsLE q s → valid_ops Bytes ToLE IsLE s ops →
  forallb in_connection ops = true →
  ∃ outs q', run_ops Bytes ToLE IsLE q ops = Ret (outs, q') ∧
    unsent q ++ concat (pushed Bytes ToLE IsLE s ops) = sent_data outs ++ unsent q'.
Proof.
  intros HB Hsim Hv Hin.
  destruct (sim_ops Bytes ToLE IsLE HB ops _ _ Hsim Hv) as (q' & Hrun & Hsim').
  do 2 eexists. split; [exact Hrun|].
  rewrite (sim_unsent _ _ _ _ _ Hsim), (sim_unsent _ _ _ _ _ Hsim').
  by apply (conserve_ops Bytes ToLE IsLE HB ops q s).
Qed.

Lemma ptcp_stream_conserved_witness :
  let ops := [OpSendout 1; OpAck 2; OpSend 9 0 []; OpSendout 1] in
  ∃ outs q', run_ops 64 true true ex_queue ops = Ret (outs, q') ∧
    unsent ex_queue ++ concat (pushed 64 true true (mkSpecQueue ex_msgs 3 0 0) ops) =
      sent_data outs ++ unsent q'.
Proof.
  intros ops.
  apply (ptcp_stream_conserved 64 true true ex_queue (mkSpecQueue ex_msgs 3 0 0) ops).
  - apply Bytes_ok_64.
  - apply ex_simulates.
  - by apply (bool_decide_unpack _).
  - reflexivity.
Defined.

(** ** The operations one by one *)

(** [Alloc] of a message that fits [uint16_t] with its header succeeds
    exactly when the blocks not occupied by unacknowledged messages suffice,
    wherever they are (it compacts when needed); the returned place has room
    for the whole message, carries its size, and no stored or unsent block
    changes.  On failure nothing changes at all. *)
Theorem ptcp_Alloc_correct Bytes ToLE IsLE q ms size :
  Bytes_ok Bytes → queue_rep Bytes ToLE IsLE q ms → 0 ≤ size ≤ 65527 →
  (blocks (size + 8) ≤ BLK_CNT Bytes - zlen (concat ms) ∧
     ∃ idx q', Alloc Bytes q size = Ret (Some idx, q') ∧ alloc_ok Bytes ToLE IsLE q ms size idx q') ∨
  (blocks (size + 8) > BLK_CNT Bytes - zlen (concat ms) ∧ Alloc Bytes q size = Ret (None, q)).
Proof.
  intros HB Hq Hsize. rewrite (live_rep_zlen _ _ _ _ _ (proj1 Hq)).
  destruct (Alloc_correct Bytes ToLE IsLE HB q ms size Hq Hsize) as [Hfit Hno].
  unfold fits in *.
  destruct (Z.le_gt_cases (blocks (size + 8)) (BLK_CNT Bytes - (write_idx_ q - read_idx_ q)));
    [left; auto|right]. split; [lia|]. apply Hno. lia.
Qed.

Lemma ptcp_Alloc_correct_witness :
  (blocks (17 + 8) ≤ BLK_CNT 64 - zlen (concat ex_msgs) ∧
     ∃ idx q', Alloc 64 ex_queue 17 = Ret (Some idx, q') ∧
               alloc_ok 64 true true ex_queue ex_msgs 17 idx q') ∨
  (blocks (17 + 8) > BLK_CNT 64 - zlen (concat ex_msgs) ∧ Alloc 64 ex_queue 17 = Ret (None, ex_queue)).
Proof.
  apply ptcp_Alloc_correct; [apply Bytes_ok_64|apply ex_rep|lia].
Defined.

(** [Push] appends exactly one message, the header at [write_idx_] with
    the current ack in the wire byte order followed by the blocks the user
    wrote, and adds it to the unsent data; nothing else changes. *)
Theorem ptcp_Push_correct Bytes ToLE IsLE q ms h :
  Bytes_ok Bytes → queue_rep Bytes ToLE IsLE q ms →
  get (blk_ q) (write_idx_ q) = Ret h → 0 < mh_size h < 65536 → 0 ≤ mh_msg_type h < 65536 →
  write_idx_ q + blocks (mh_size h) ≤ BLK_CNT Bytes →
  let m := ConvertByteOrder IsLE ToLE (mkMsgHeader (mh_size h) (mh_msg_type h) (ack_seq_num_ q))
           :: slice (write_idx_ q + 1) (write_idx_ q + blocks (mh_size h)) (blk_ q) in
  ∃ q', Push ToLE IsLE q = Ret q' ∧ queue_rep Bytes ToLE IsLE q' (ms ++ [m]) ∧
        unsent q' = unsent q ++ m ∧
        read_seq_num_ q' = read_seq_num_ q ∧ ack_seq_num_ q' = ack_seq_num_ q.
Proof.
  intros HB Hq Hh Hs Ht Hroom m.
  destruct (Push_correct Bytes ToLE IsLE HB q ms h Hq Hh Hs Ht Hroom)
    as (q' & ? & ? & _ & ? & ? & ? & _). by exists q'.
Qed.

(** The queue of the instances with a third message allocated and filled. *)
Definition ex_filled : PTCPQueue :=
  set_blk ex_queue (blit 4 [mkMsgHeader 12 9 77; mkMsgHeader 1 2 3] (blk_ ex_queue)).

Lemma ex_filled_rep : queue_rep 64 true true ex_filled ex_msgs.
Proof. apply (set_blk_rep 64 true true ex_queue ex_msgs); [apply ex_rep|by vm_compute]. Qed.

Lemma ptcp_Push_correct_witness :
  ∃ q', Push true true ex_filled = Ret q' ∧
        queue_rep 64 true true q' (ex_msgs ++ [[mkMsgHeader 12 9 0; mkMsgHeader 1 2 3]]) ∧
        unsent q' = unsent ex_filled ++ [mkMsgHeader 12 9 0; mkMsgHeader 1 2 3] ∧
        read_seq_num_ q' = 0 ∧ ack_seq_num_ q' = 0.
Proof.
  apply (ptcp_Push_correct 64 true true ex_filled ex_msgs (mkMsgHeader 12 9 77)).
  - apply Bytes_ok_64.
  - apply ex_filled_rep.
  - reflexivity.
  - simpl; lia.
  - simpl; lia.
  - by vm_compute.
Defined.

(** An ack that is not newer than the first unacknowledged message changes
    nothing; an ack [k] messages ahead drops exactly the first [k] messages
    and, when they had been sent, keeps the unsent data as it is, also when
    it empties the queue and rewinds the indices. *)
Theorem ptcp_Ack_correct Bytes ToLE IsLE q ms ack k :
  Bytes_ok Bytes → queue_rep Bytes ToLE IsLE q ms → 0 ≤ ack < 4294967296 →
  i32 (u32 (ack - read_seq_num_ q)) = k → k ≤ Z.of_nat (length ms) →
  (k ≤ 0 → Ack ToLE IsLE q ack = Ret q) ∧
  (0 < k → zlen (concat (take (Z.to_nat k) ms)) ≤ send_idx_ q - read_idx_ q →
   ∃ q', Ack ToLE IsLE q ack = Ret q' ∧
         queue_rep Bytes ToLE IsLE q' (drop (Z.to_nat k) ms) ∧
         read_seq_num_ q' = ack ∧ ack_seq_num_ q' = ack_seq_num_ q ∧ unsent q' = unsent q).
Proof.
  intros HB [Hl Hs] Hack Hk Hle. split; [intros; apply Ack_stale; unfold ack_dist; lia|].
  intros Hpos Hsent. rewrite <-(take_drop (Z.to_nat k) ms) in Hl.
  destruct (Ack_fresh Bytes ToLE IsLE HB _ _ _ ack Hl Hack)
    as (q' & HA & [_ Hrs Has Hun]).
  - unfold ack_dist. rewrite Hk, length_take. lia.
  - intros Hn%(f_equal length). rewrite length_take in Hn. simpl in Hn. lia.
  - exists q'. destruct (Hun Hsent) as (? & ? & _); [lia|]. by split_and!.
Qed.

Lemma ptcp_Ack_correct_witness :
  (1 ≤ 0 → Ack true true ex_queue 1 = Ret ex_queue) ∧
  (0 < 1 → zlen (concat (take (Z.to_nat 1) ex_msgs)) ≤ send_idx_ ex_queue - read_idx_ ex_queue →
   ∃ q', Ack true true ex_queue 1 = Ret q' ∧
         queue_rep 64 true true q' (drop (Z.to_nat 1) ex_msgs) ∧
         read_seq_num_ q' = 1 ∧ ack_seq_num_ q' = ack_seq_num_ ex_queue ∧
         unsent q' = unsent ex_queue).
Proof.
  apply (ptcp_Ack_correct 64 true true ex_queue ex_msgs 1 1);
    [apply Bytes_ok_64|apply ex_rep|lia|reflexivity|by vm_compute].
Defined.

(** [LoginAck] with the peer's ack [k] messages ahead drops those [k]
    messages, sent or not, and makes every block of the others unsent: the
    new connection starts with the first message the peer has not handled. *)
Theorem ptcp_LoginAck_correct Bytes ToLE IsLE q ms ack :
  Bytes_ok Bytes → queue_rep Bytes ToLE IsLE q ms → 0 ≤ ack < 4294967296 →
  0 ≤ i32 (u32 (ack - read_seq_num_ q)) ≤ Z.of_nat (length ms) →
  let k := Z.to_nat (i32 (u32 (ack - read_seq_num_ q))) in
  ∃ q', LoginAck ToLE IsLE q ack = Ret q' ∧
        queue_rep Bytes ToLE IsLE q' (drop k ms) ∧ unsent q' = concat (drop k ms) ∧
        read_seq_num_ q' = ack ∧ ack_seq_num_ q' = ack_seq_num_ q.
Proof.
  intros HB [Hl _] Hack Hle k. rewrite <-(take_drop k ms) in Hl.
  destruct (LoginAck_correct Bytes ToLE IsLE HB _ _ _ ack Hl Hack)
    as (q' & ? & ? & ? & _ & ? & ?); [|by exists q'].
  unfold ack_dist. rewrite length_take. lia.
Qed.

Lemma ptcp_LoginAck_correct_witness :
  ∃ q', LoginAck true true ex_queue 1 = Ret q' ∧
        queue_rep 64 true true q' (drop 1 ex_msgs) ∧ unsent q' = concat (drop 1 ex_msgs) ∧
        read_seq_num_ q' = 1 ∧ ack_seq_num_ q' = 0.
Proof.
  apply (ptcp_LoginAck_correct 64 true true ex_queue ex_msgs 1);
    [apply Bytes_ok_64|apply ex_rep|lia|by vm_compute].
Defined.

(** ** The check of a queue file *)

(** On a well-formed queue [SanityCheckAndGetSeq] terminates and returns
    the sequence numbers of the first and one past the last message, modulo
    [2^32], unless a stored header acknowledges more than the queue's own
    ack, in which case it returns false. *)
Theorem ptcp_SanityCheck_correct Bytes ToLE IsLE q ms :
  Bytes_ok Bytes → queue_rep Bytes ToLE IsLE q ms →
  SanityCheckAndGetSeq ToLE IsLE q =
    Ret (if forallb (msg_fresh ToLE IsLE q) ms
         then Some (read_seq_num_ q, u32 (read_seq_num_ q + Z.of_nat (length ms))) else None).
Proof. intros HB [Hl _]. by apply (SanityCheck_correct Bytes). Qed.

Lemma ptcp_SanityCheck_correct_witness :
  queue_rep 64 true true ex_queue ex_msgs ∧
  SanityCheckAndGetSeq true true ex_queue =
    Ret (if forallb (msg_fresh true true ex_queue) ex_msgs
         then Some (read_seq_num_ ex_queue, u32 (read_seq_num_ ex_queue + Z.of_nat (length ex_msgs)))
         else None).
Proof.
  split; [apply ex_rep|].
  apply (ptcp_SanityCheck_correct 64); [apply Bytes_ok_64|apply ex_rep].
Defined.

(** C38: whatever bytes a file of the right size holds, if its indices are
    inside the array, which the check itself does not look at
    ([ptcp_SanityCheck_beyond]), and [SanityCheckAndGetSeq] accepts it, with any fuel,
    then the live region is a sequence of whole messages, none with a newer
    ack than our own, and the returned numbers count them. *)
Theorem ptcp_SanityCheck_sound Bytes ToLE IsLE q fuel s e :
  Bytes_ok Bytes → file_ok Bytes q →
  SanityCheckAndGetSeq_fuel ToLE IsLE fuel q = Ret (Some (s, e)) →
  ∃ ms, live_rep Bytes ToLE IsLE q ms ∧ s = read_seq_num_ q ∧
        e = u32 (read_seq_num_ q + Z.of_nat (length ms)) ∧
        forallb (msg_fresh ToLE IsLE q) ms = true.
Proof. intros HB. by apply SanityCheck_sound. Qed.

Definition MsgHeader_okb (h : MsgHeader) : bool := bool_decide (MsgHeader_ok h).

Lemma Forall_MsgHeader_okb l : forallb MsgHeader_okb l = true → Forall MsgHeader_ok l.
Proof.
  intros H. apply List.Forall_forall. intros x Hx.
  apply (bool_decide_eq_true_1 _). by apply (proj1 (forallb_forall _ _) H).
Qed.

Lemma ex_file_ok : file_ok 64 ex_queue.
Proof.
  constructor; [reflexivity|by vm_compute..|].
  apply Forall_MsgHeader_okb. reflexivity.
Qed.

Lemma ptcp_SanityCheck_sound_witness :
  ∃ ms, live_rep 64 true true ex_queue ms ∧ 0 = read_seq_num_ ex_queue ∧
        2 = u32 (read_seq_num_ ex_queue + Z.of_nat (length ms)) ∧
        forallb (msg_fresh true true ex_queue) ms = true.
Proof.
  apply (ptcp_SanityCheck_sound 64 true true ex_queue 10 0 2);
    [apply Bytes_ok_64|apply ex_file_ok|reflexivity].
Defined.

(** That the indices are inside the array is not checked: a file whose
    [write_idx_] lies beyond it is accepted, when the sizes lead there, and
    holds no sequence of whole messages. *)
Lemma ptcp_SanityCheck_beyond Bytes ToLE IsLE q w :
  Bytes_ok Bytes → read_idx_ q = 0 → get (blk_ q) 0 = Ret w → BLK_CNT Bytes < write_idx_ q < 4294967296 →
  blocks (mh_size (ConvertByteOrder IsLE ToLE w)) = write_idx_ q →
  mh_ack_seq (ConvertByteOrder IsLE ToLE w) = ack_seq_num_ q →
  SanityCheckAndGetSeq ToLE IsLE q = Ret (Some (read_seq_num_ q, u32 (read_seq_num_ q + 1))) ∧
  ∀ ms, ¬ live_rep Bytes ToLE IsLE q ms.
Proof.
  intros [[HB _] _] Hr Hw Hidx Hsize Hack. split; [|by intros ms []; lia].
  assert (0 < write_idx_ q) by (pose proof (Z.div_pos Bytes sizeof_MsgHeader); unfold BLK_CNT, sizeof_MsgHeader in *; lia).
  unfold SanityCheckAndGetSeq, SanityCheckAndGetSeq_fuel. rewrite Hr, Z.sub_0_r.
  destruct (Z.to_nat (write_idx_ q)) as [|n] eqn:Hn; [lia|]. cbn [SanityCheck_loop].
  rewrite (proj2 (Z.ltb_lt _ _)), Hw, outcome_bind_Ret by lia. cbv zeta.
  rewrite Hack, Z.sub_diag, Hsize, Z.add_0_l. change (i32 (u32 0) <? 0) with false. cbv iota.
  rewrite (u32_small (write_idx_ q)), Z.ltb_irrefl by lia. simpl. by rewrite Z.eqb_refl.
Qed.

(** Eight blocks, and a message of ten in front. *)
Example ex_SanityCheck_beyond :
  SanityCheckAndGetSeq true true (mkPTCPQueue (mkMsgHeader 80 5 0 :: repeat (mkMsgHeader 0 0 0) 7) 10 0 0 0 0) = Ret (Some (0, 1)).
Proof. reflexivity. Qed.

(** On any file whose indices are inside the array the check never reads
    out of bounds, and one iteration per block decides it: if the loop ends
    with some fuel it ends with the model's, with the same result. *)
Theorem ptcp_SanityCheck_fuel Bytes ToLE IsLE q :
  Bytes_ok Bytes → file_ok Bytes q →
  SanityCheckAndGetSeq ToLE IsLE q ≠ Undef ∧
  ∀ fuel r, SanityCheckAndGetSeq_fuel ToLE IsLE fuel q = Ret r →
            SanityCheckAndGetSeq ToLE IsLE q = Ret r.
Proof.
  intros HB Hf. destruct (Hf) as [_ [? _] _ _ _].
  unfold SanityCheckAndGetSeq, SanityCheckAndGetSeq_fuel. set (n := S _).
  pose proof (SanityCheck_loop_not_undef Bytes ToLE IsLE HB q Hf n (read_idx_ q)
    (read_seq_num_ q) ltac:(lia)) as Hnu.
  destruct (SanityCheck_loop ToLE IsLE n q (read_idx_ q) (read_seq_num_ q))
    as [x| |] eqn:Hn; [|done|].
  - split; [by destruct x as [[? ?]|]; simpl; [case_match|]|].
    intros fuel r (x' & Hx' & Hrr)%outcome_bind_inv. rewrite outcome_bind_Ret, <-Hrr.
    assert (x' = x) as ->; [|done].
    apply (SanityCheck_loop_mono ToLE IsLE q _ (max fuel n)) in Hx'; [|lia].
    apply (SanityCheck_loop_mono ToLE IsLE q _ (max fuel n)) in Hn; [|lia]. congruence.
  - split; [done|]. intros fuel r (x' & Hx' & _)%outcome_bind_inv.
    by rewrite (SanityCheck_loop_fuel Bytes ToLE IsLE HB q Hf n) in Hx' by (done || lia).
Qed.

Lemma ptcp_SanityCheck_fuel_witness :
  SanityCheckAndGetSeq true true ex_queue ≠ Undef ∧
  ∀ fuel r, SanityCheckAndGetSeq_fuel true true fuel ex_queue = Ret r →
            SanityCheckAndGetSeq true true ex_queue = Ret r.
Proof. apply (ptcp_SanityCheck_fuel 64); [apply Bytes_ok_64|apply ex_file_ok]. Defined.

(** A corrupt file in which the header at [read_idx_] has size 0 (and an
    ack that is not newer than ours) is not rejected: the loop of
    [SanityCheckAndGetSeq] never ends, whatever the fuel. *)
Theorem ptcp_SanityCheck_hangs Bytes ToLE IsLE q w fuel :
  Bytes_ok Bytes → 0 ≤ read_idx_ q < write_idx_ q → write_idx_ q ≤ BLK_CNT Bytes →
  get (blk_ q) (read_idx_ q) = Ret w → wire_size ToLE IsLE w = 0 →
  ack_fresh ToLE IsLE q w = true →
  SanityCheckAndGetSeq_fuel ToLE IsLE fuel q = NoFuel.
Proof.
  intros HB Hi Hle Hw Hz Hf. unfold SanityCheckAndGetSeq_fuel.
  by rewrite (SanityCheck_loop_stuck Bytes ToLE IsLE HB q (read_idx_ q) w).
Qed.

Lemma ptcp_SanityCheck_hangs_witness :
  let q := mkPTCPQueue (repeat zero_header 8) 2 0 0 0 0 in
  SanityCheckAndGetSeq true true q = NoFuel.
Proof.
  intros q. apply (ptcp_SanityCheck_hangs 64 true true q zero_header 3);
    [apply Bytes_ok_64|by vm_compute|by vm_compute|reflexivity|reflexivity|reflexivity].
Defined.

(** ** Message sizes that do not fit *)

(** C40: for the 8 largest values of its [uint16_t] parameter [Alloc] wraps:
    whenever one block is free it returns a message whose size field is
    [size - 65528], below the size of a header, instead of [nullptr]. *)
Theorem ptcp_Alloc_size_wraps Bytes ToLE IsLE q ms size :
  Bytes_ok Bytes → queue_rep Bytes ToLE IsLE q ms → 65528 ≤ size < 65536 →
  write_idx_ q < BLK_CNT Bytes →
  ∃ q' t a, Alloc Bytes q size = Ret (Some (write_idx_ q), q') ∧
            get (blk_ q') (write_idx_ q) = Ret (mkMsgHeader (size - 65528) t a).
Proof.
  intros HB [[] Hs] Hsize Hroom. pose proof (BLK_CNT_range Bytes HB).
  assert (u16 (size + sizeof_MsgHeader) = size - 65528) as Hu
    by (unfold sizeof_MsgHeader; word_lia).
  assert (0 ≤ blocks (size - 65528) ≤ 1) as Hb
    by (unfold blocks, div_up, sizeof_MsgHeader; word_lia).
  unfold Alloc. rewrite Hu, (u32_small (blocks _)), (u32_small (BLK_CNT Bytes - _)) by lia.
  rewrite (proj2 (Z.ltb_ge _ _)) by lia.
  destruct (get_in_range (blk_ q) (write_idx_ q)) as [h Hh]; [lia|].
  unfold Alloc_header. rewrite Hh, outcome_bind_Ret, put_in_range, outcome_bind_Ret by lia.
  do 3 eexists. split; [done|]. simpl. apply get_blit_head. lia.
Qed.

Lemma ptcp_Alloc_size_wraps_witness :
  ∃ q' t a, Alloc 64 ex_queue 65530 = Ret (Some 4, q') ∧
            get (blk_ q') 4 = Ret (mkMsgHeader 2 t a).
Proof.
  apply (ptcp_Alloc_size_wraps 64 true true ex_queue ex_msgs 65530);
    [apply Bytes_ok_64|apply ex_rep|lia|by vm_compute].
Defined.
