(* ===== verification/PtcpCrash.v ===== *)
(** * The stores of the send queue, one by one

    The queue lies in a mapped file, so a process that ends inside an
    operation leaves what it has stored so far.  [Push_stores], [Ack_stores]
    and the like are the stores of an operation in the order of the source;
    [run_stores] of a prefix of them is what a crash leaves ([crashed]), and
    of all of them the operation itself ([stores_of_run]).  A [memmove] is
    one store here; that the compiler keeps the order is assumed. *)

From S2P Require Import Prelude.
From S2P Require Import Arrays.
From S2P Require Import MsgHeader.
From S2P Require Import PtcpQueue.
From S2P Require Import PtcpQueueInv.

Inductive store :=
  | StBlk (i : Z) (h : MsgHeader)
  | StMove (dst src n : Z)
  | StWriteIdx (v : Z)
  | StReadIdx (v : Z)
  | StSendIdx (v : Z)
  | StReadSeq (v : Z)
  | StAckSeq (v : Z).

Definition run_store (q : PTCPQueue) (s : store) : outcome PTCPQueue :=
  match s with
  | StBlk i h => blk ← put (blk_ q) i h; Ret (set_blk q blk)
  | StMove dst src n => blk ← memmove (blk_ q) dst src n; Ret (set_blk q blk)
  | StWriteIdx v => Ret (set_write_idx q v)
  | StReadIdx v => Ret (mkPTCPQueue (blk_ q) (write_idx_ q) v (send_idx_ q) (read_seq_num_ q) (ack_seq_num_ q))
  | StSendIdx v => Ret (set_send_idx q v)
  | StReadSeq v => Ret (mkPTCPQueue (blk_ q) (write_idx_ q) (read_idx_ q) (send_idx_ q) v (ack_seq_num_ q))
  | StAckSeq v => Ret (mkPTCPQueue (blk_ q) (write_idx_ q) (read_idx_ q) (send_idx_ q) (read_seq_num_ q) v)
  end.

Fixpoint run_stores (q : PTCPQueue) (l : list store) : outcome PTCPQueue :=
  match l with
  | [] => Ret q
  | s :: l => q ← run_store q s; run_stores q l
  end.

(** What a crash inside the stores [l] leaves. *)
Definition crashed (q : PTCPQueue) (l : list store) (q' : PTCPQueue) : Prop :=
  ∃ k, run_stores q (take k l) = Ret q'.

Section stores.
Context (Bytes : Z) (ToLittleEndian is_little_endian : bool).

Definition Alloc_header_stores (q : PTCPQueue) (write_idx size : Z) : outcome (list store) :=
  header ← get (blk_ q) write_idx;
  Ret [StBlk write_idx (mkMsgHeader size (mh_msg_type header) (mh_ack_seq header))].

Definition Alloc_stores (q : PTCPQueue) (size : Z) : outcome (list store) :=
  let size := u16 (size + sizeof_MsgHeader) in
  let blk_sz := u32 (blocks size) in
  let avail_sz := u32 (BLK_CNT Bytes - write_idx_ q) in
  if avail_sz <? blk_sz then
    if u32 (avail_sz + read_idx_ q) <? blk_sz then Ret []
    else
      let write_idx := u32 (write_idx_ q - read_idx_ q) in
      blk ← memmove (blk_ q) 0 (read_idx_ q) write_idx;
      l ← Alloc_header_stores (set_blk q blk) write_idx size;
      Ret (StMove 0 (read_idx_ q) write_idx :: StWriteIdx write_idx ::
           StSendIdx (u32 (send_idx_ q - read_idx_ q)) :: StReadIdx 0 :: l)
  else Alloc_header_stores q (write_idx_ q) size.

(** [header.ack_seq = ...], the three conversions in place, and the index. *)
Definition Push_stores (q : PTCPQueue) : outcome (list store) :=
  header ← get (blk_ q) (write_idx_ q);
  let cv := Convert is_little_endian ToLittleEndian in
  let i := write_idx_ q in
  let '(mkMsgHeader size t _) := header in
  Ret [StBlk i (mkMsgHeader size t (ack_seq_num_ q));
       StBlk i (mkMsgHeader (cv 2 size) t (ack_seq_num_ q));
       StBlk i (mkMsgHeader (cv 2 size) (cv 2 t) (ack_seq_num_ q));
       StBlk i (mkMsgHeader (cv 2 size) (cv 2 t) (cv 4 (ack_seq_num_ q)));
       StWriteIdx (u32 (i + u32 (blocks size)))].

Definition Sendout_stores (q : PTCPQueue) (blk_sz : Z) : list store := [StSendIdx (u32 (send_idx_ q + blk_sz))].

Definition MyAck_incr_stores (q : PTCPQueue) : list store := [StAckSeq (u32 (ack_seq_num_ q + 1))].

(** The [do ... while]: its stores, and the two members it leaves. *)
Fixpoint Ack_loop_stores (fuel : nat) (ack_seq : Z) (blk : list MsgHeader) (read_idx read_seq : Z)
    : outcome (list store * Z) :=
  match fuel with
  | O => NoFuel
  | S fuel =>
      w ← get blk read_idx;
      let read_idx := u32 (read_idx + blocks (wire_size ToLittleEndian is_little_endian w)) in
      let read_seq := u32 (read_seq + 1) in
      '(l, r) ← (if read_seq =? ack_seq then Ret ([], read_idx)
                 else Ack_loop_stores fuel ack_seq blk read_idx read_seq);
      Ret (StReadIdx read_idx :: StReadSeq read_seq :: l, r)
  end.

(** [read_idx_ = write_idx_ = send_idx_ = 0] stores from right to left. *)
Definition Ack_stores (q : PTCPQueue) (ack_seq : Z) : outcome (list store) :=
  if i32 (u32 (ack_seq - read_seq_num_ q)) <=? 0 then Ret []
  else
    '(l, read_idx) ← Ack_loop_stores (Z.to_nat (u32 (ack_seq - read_seq_num_ q))) ack_seq (blk_ q)
                       (read_idx_ q) (read_seq_num_ q);
    Ret (l ++ if read_idx =? write_idx_ q then [StSendIdx 0; StWriteIdx 0; StReadIdx 0] else []).

Definition LoginAck_stores (q : PTCPQueue) (ack_seq : Z) : outcome (list store) :=
  l ← Ack_stores q ack_seq;
  q' ← run_stores q l;
  Ret (l ++ [StSendIdx (read_idx_ q')]).
End stores.

(** ** What the operations store *)

Lemma run_stores_app q l1 l2 : run_stores q (l1 ++ l2) = q ← run_stores q l1; run_stores q l2.
Proof.
  revert q. induction l1 as [|s l1 IH]; intros q; [done|]. simpl. destruct (run_store q s); [apply IH|done..].
Qed.

Lemma crashed_nil q q' : crashed q [] q' → q' = q.
Proof. intros [k H]. rewrite take_nil in H. by injection H. Qed.

(** Before the first store, or after it. *)
Lemma crashed_cons q s l q' : crashed q (s :: l) q' → q' = q ∨ ∃ q1, run_store q s = Ret q1 ∧ crashed q1 l q'.
Proof.
  intros [[|k] H]; simpl in H; [left; by injection H|right].
  destruct (run_store q s) as [q1| |]; [|done..]. exists q1. split; [done|]. by exists k.
Qed.

Lemma crashed_one q s q1 q' : run_store q s = Ret q1 → crashed q [s] q' → q' = q ∨ q' = q1.
Proof.
  intros H [->|(q2 & H2 & ->%crashed_nil)]%crashed_cons; [by left|right]. rewrite H in H2. by injection H2.
Qed.

Lemma crashed_app q l1 l2 q' :
  crashed q (l1 ++ l2) q' → crashed q l1 q' ∨ ∃ q1, run_stores q l1 = Ret q1 ∧ crashed q1 l2 q'.
Proof.
  revert q. induction l1 as [|s l1 IH]; intros q H; [right; by exists q|].
  apply crashed_cons in H as [->|(q1 & Hs & H)]; [left; by exists 0%nat|].
  destruct (IH _ H) as [[k Hk]|(q2 & H2 & Hc)].
  - left. exists (S k). simpl. by rewrite Hs.
  - right. exists q2. split; [|done]. simpl. by rewrite Hs.
Qed.

Lemma put_put {A} (l l' : list A) i x y : put l i x = Ret l' → put l' i y = put l i y.
Proof.
  unfold put. destruct (decide _) as [Hi|]; [|done]. intros [= <-]. unfold zlen in *.
  by rewrite length_insert, decide_True, list_insert_insert_eq by done.
Qed.

(** ** The stores of an operation are the operation *)

Section agree.
Context (Bytes : Z) (ToLE IsLE : bool).
Abbreviation Ack_loop_stores := (Ack_loop_stores ToLE IsLE).

Lemma Alloc_header_stores_run q size :
  (l ← Alloc_header_stores q (write_idx_ q) size; run_stores q l) =
    ('(_, q') ← Alloc_header q size; Ret q').
Proof.
  unfold Alloc_header_stores, Alloc_header. destruct (get _ _); simpl; [|done..].
  by destruct (put _ _ _).
Qed.

Lemma Alloc_stores_run q size :
  (l ← Alloc_stores Bytes q size; run_stores q l) = ('(_, q') ← Alloc Bytes q size; Ret q').
Proof.
  unfold Alloc_stores, Alloc. destruct (_ <? _); [|apply Alloc_header_stores_run].
  destruct (_ <? _); [done|]. destruct (memmove _ _ _ _) as [blk| |] eqn:Hm; simpl; [|done..].
  set (q1 := mkPTCPQueue blk _ _ _ _ _). transitivity (l ← Alloc_header_stores q1 (write_idx_ q1) (u16 (size + sizeof_MsgHeader)); run_stores q1 l);
    [|apply Alloc_header_stores_run].
  unfold Alloc_header_stores. simpl. destruct (get _ _); simpl; [|done..]. by rewrite Hm.
Qed.

Lemma Push_stores_run q : (l ← Push_stores ToLE IsLE q; run_stores q l) = Push ToLE IsLE q.
Proof.
  unfold Push_stores, Push. destruct (get _ _) as [[size t a]| |] eqn:Hg; simpl; [|done..].
  rewrite put_in_range by by eapply get_range. simpl.
  do 3 (erewrite put_put by (apply put_in_range; by eapply get_range);
        rewrite put_in_range by (by eapply get_range); simpl).
  by rewrite put_in_range by (by eapply get_range).
Qed.

Lemma Ack_loop_stores_run ack fuel : ∀ q,
  ('(l, r) ← Ack_loop_stores fuel ack (blk_ q) (read_idx_ q) (read_seq_num_ q); q' ← run_stores q l; Ret (q', r)) =
    (q' ← Ack_loop ToLE IsLE fuel ack q; Ret (q', read_idx_ q')).
Proof.
  induction fuel as [|fuel IH]; intros q; [done|]. simpl.
  destruct (get _ _) as [w| |]; simpl; [|done..]. destruct (_ =? _); [done|].
  set (q1 := mkPTCPQueue _ _ _ _ _ _). specialize (IH q1). simpl in IH. rewrite <-IH.
  destruct (PtcpCrash.Ack_loop_stores _ _ _ _ _ _ _) as [[l r]| |]; done.
Qed.

Lemma Ack_loop_write_idx ack fuel : ∀ q q', Ack_loop ToLE IsLE fuel ack q = Ret q' → write_idx_ q' = write_idx_ q.
Proof.
  induction fuel as [|fuel IH]; intros q q' H; [done|]. simpl in H.
  destruct (get _ _) as [w| |]; simpl in H; [|done..]. destruct (_ =? _); [by injection H as <-|].
  by apply IH in H.
Qed.

Lemma Ack_stores_run q ack : (l ← Ack_stores ToLE IsLE q ack; run_stores q l) = Ack ToLE IsLE q ack.
Proof.
  unfold Ack_stores, Ack. destruct (_ <=? 0); [done|]. set (n := Z.to_nat _).
  pose proof (Ack_loop_stores_run ack n q) as H. pose proof (Ack_loop_write_idx ack n q) as Hw.
  destruct (PtcpCrash.Ack_loop_stores _ _ _ _ _ _ _) as [[l r]| |]; simpl in *;
    destruct (Ack_loop _ _ _ _ _) as [q'| |]; simpl in *; try done.
  - rewrite run_stores_app. destruct (run_stores q l) as [q1| |]; simpl in *; [|done..].
    injection H as -> ->. rewrite (Hw _ eq_refl). by destruct (_ =? _).
  - rewrite run_stores_app. by destruct (run_stores q l).
  - rewrite run_stores_app. by destruct (run_stores q l).
Qed.

Lemma LoginAck_stores_run q ack : (l ← LoginAck_stores ToLE IsLE q ack; run_stores q l) = LoginAck ToLE IsLE q ack.
Proof.
  unfold LoginAck_stores, LoginAck. rewrite <-Ack_stores_run.
  destruct (Ack_stores _ _ _ _) as [l| |]; simpl; [|done..].
  destruct (run_stores q l) as [q'| |] eqn:Hl; simpl; [|done..]. by rewrite run_stores_app, Hl.
Qed.
End agree.

(** ** Updates *)

(** What changes the queue: an operation of [PTCPQueue]. *)
Inductive update :=
  | UpAlloc (size : Z)
  | UpPush
  | UpSendout (blk_sz : Z)
  | UpMyAck
  | UpAck (ack_seq : Z)
  | UpLoginAck (ack_seq : Z).

Definition stores_of (Bytes : Z) (ToLE IsLE : bool) (q : PTCPQueue) (u : update) : outcome (list store) :=
  match u with
  | UpAlloc size => Alloc_stores Bytes q size
  | UpPush => Push_stores ToLE IsLE q
  | UpSendout n => Ret (Sendout_stores q n)
  | UpMyAck => Ret (MyAck_incr_stores q)
  | UpAck ack => Ack_stores ToLE IsLE q ack
  | UpLoginAck ack => LoginAck_stores ToLE IsLE q ack
  end.

Definition updated (Bytes : Z) (ToLE IsLE : bool) (q : PTCPQueue) (u : update) : outcome PTCPQueue :=
  match u with
  | UpAlloc size => '(_, q') ← Alloc Bytes q size; Ret q'
  | UpPush => Push ToLE IsLE q
  | UpSendout n => Ret (Sendout q n)
  | UpMyAck => Ret (MyAck_incr q)
  | UpAck ack => Ack ToLE IsLE q ack
  | UpLoginAck ack => LoginAck ToLE IsLE q ack
  end.

Lemma stores_of_run Bytes ToLE IsLE q u :
  (l ← stores_of Bytes ToLE IsLE q u; run_stores q l) = updated Bytes ToLE IsLE q u.
Proof.
  destruct u; simpl; try done; auto using Alloc_stores_run, Push_stores_run, Ack_stores_run, LoginAck_stores_run.
Qed.

(** ** What a crash leaves *)

Section crash.
Context (Bytes : Z) (ToLE IsLE : bool) (HB : Bytes_ok Bytes).
Abbreviation live_rep := (live_rep Bytes ToLE IsLE).
Abbreviation queue_rep := (queue_rep Bytes ToLE IsLE).
Abbreviation BLK_CNT := (BLK_CNT Bytes).

(** The messages and the two numbers of the file. *)
Definition file_at (q : PTCPQueue) (ms : list (list MsgHeader)) (seq ack : Z) : Prop :=
  live_rep q ms ∧ read_seq_num_ q = seq ∧ ack_seq_num_ q = ack.

(** The updates that leave the queue where it is in the array, and drop
    nothing. *)
Definition in_place (q : PTCPQueue) (u : update) : Prop :=
  match u with
  | UpAlloc size => blocks (u16 (size + sizeof_MsgHeader)) ≤ BLK_CNT - write_idx_ q
  | UpPush | UpSendout _ | UpMyAck => True
  | UpAck _ | UpLoginAck _ => False
  end.

Lemma run_store_blk q h q' :
  run_store q (StBlk (write_idx_ q) h) = Ret q' → q' = set_blk q (blit (write_idx_ q) [h] (blk_ q)).
Proof.
  simpl. destruct (put _ _ _) as [b| |] eqn:Hp; simpl; [|done..]. apply put_Ret in Hp as [_ ->]. by intros [= <-].
Qed.

(** Several stores to the header behind the messages. *)
Lemma crashed_header ms hs q' : ∀ q,
  queue_rep q ms → write_idx_ q < BLK_CNT → crashed q (StBlk (write_idx_ q) <$> hs) q' →
  file_at q' ms (read_seq_num_ q) (ack_seq_num_ q).
Proof.
  induction hs as [|h hs IH]; intros q Hq Hw Hc.
  - apply crashed_nil in Hc as ->. by split; [apply Hq|].
  - apply crashed_cons in Hc as [->|(q1 & ->%run_store_blk & Hc)]; [by split; [apply Hq|]|].
    assert (queue_rep (set_blk q (blit (write_idx_ q) [h] (blk_ q))) ms) as Hq1.
    { apply (set_blk_rep _ _ _ _ _ [h] Hq). rewrite zlen_cons, zlen_nil. lia. }
    exact (IH _ Hq1 Hw Hc).
Qed.

(** The file is as before the update, or as after it. *)
Lemma in_place_crash q ms u l q' :
  queue_rep q ms → in_place q u → stores_of Bytes ToLE IsLE q u = Ret l → crashed q l q' →
  updated Bytes ToLE IsLE q u = Ret q' ∨ file_at q' ms (read_seq_num_ q) (ack_seq_num_ q).
Proof.
  intros Hq Hu Hl Hc. rewrite <-stores_of_run, Hl, outcome_bind_Ret.
  assert (file_at q ms (read_seq_num_ q) (ack_seq_num_ q)) as Hsame by by split; [apply Hq|].
  destruct u as [size| |n| |?|?]; simpl in Hu, Hl; [..|done|done].
  - pose proof (BLK_CNT_range Bytes HB). destruct Hq as [[] ?] eqn:E. clear E.
    unfold Alloc_stores in Hl.
    rewrite (u32_small (BLK_CNT - _)), (u32_small (blocks _)) in Hl.
    + rewrite (proj2 (Z.ltb_ge _ _)) in Hl by done. unfold Alloc_header_stores in Hl.
      destruct (get _ _) eqn:Hg; simpl in Hl; [|done..]. injection Hl as <-.
      apply crashed_cons in Hc as [->|(q1 & Hr & ->%crashed_nil)]; [by right|left]. simpl in *. by rewrite Hr.
    + pose proof (blocks_range (u16 (size + sizeof_MsgHeader)) (u16_range _)). lia.
    + lia.
  - unfold Push_stores in Hl. destruct (get _ _) as [[size t a]| |] eqn:Hg; simpl in Hl; [|done..].
    apply get_range in Hg. destruct (Hq) as [[] _]. injection Hl as <-.
    match goal with |- context [StBlk _ ?a :: StBlk _ ?b :: StBlk _ ?c :: StBlk _ ?d :: ?r] =>
      pose proof (λ q', crashed_header ms [a; b; c; d] q' q Hq ltac:(lia)) as Hh;
      change (StBlk _ a :: _) with ((StBlk (write_idx_ q) <$> [a; b; c; d]) ++ r) in * end.
    apply crashed_app in Hc as [Hc|(q1 & H1 & Hc)]; [right; by apply Hh|].
    rewrite run_stores_app, H1, outcome_bind_Ret.
    apply crashed_cons in Hc as [->|(q2 & H2 & ->%crashed_nil)]; [right|left; simpl in *; by rewrite H2].
    apply Hh. exists 4%nat. by rewrite take_ge.
  - injection Hl as <-. apply crashed_cons in Hc as [->|(q1 & Hr & ->%crashed_nil)]; [by right|by left].
  - injection Hl as <-. apply crashed_cons in Hc as [->|(q1 & Hr & ->%crashed_nil)]; [by right|by left].
Qed.

(** *** [Ack] *)

(** Between two rounds of the loop, inside one (the index has moved on, the
    number has not), or while an emptied queue is rewound. *)
Inductive ack_stopped (q : PTCPQueue) (ms : list (list MsgHeader)) (n : nat) (q' : PTCPQueue) : Prop :=
  | stopped_between j :
      (j ≤ n)%nat → file_at q' (drop j ms) (u32 (read_seq_num_ q + Z.of_nat j)) (ack_seq_num_ q) →
      ack_stopped q ms n q'
  | stopped_inside j :
      (j < n)%nat → file_at q' (drop (S j) ms) (u32 (read_seq_num_ q + Z.of_nat j)) (ack_seq_num_ q) →
      ack_stopped q ms n q'
  | stopped_rewinding :
      n = length ms → write_idx_ q' = 0 → 0 < read_idx_ q' →
      SanityCheckAndGetSeq ToLE IsLE q' = Ret None → ack_stopped q ms n q'.

Definition read_stored (q : PTCPQueue) (v : Z) : PTCPQueue :=
  mkPTCPQueue (blk_ q) (write_idx_ q) v (send_idx_ q) (read_seq_num_ q) (ack_seq_num_ q).

(** A crash in the first round. *)
Lemma live_rep_inside q m ms : live_rep q (m :: ms) → live_rep (read_stored q (read_idx_ q + zlen m)) ms.
Proof.
  intros Hl. pose proof (rep_seq _ _ _ _ _ Hl) as Hs. destruct (live_rep_cons _ _ _ _ _ _ Hl) as (_ & Hl' & _).
  destruct Hl'. by constructor.
Qed.

(** Stopped after the first round. *)
Lemma ack_stopped_next q q1 m ms n q' :
  read_seq_num_ q1 = u32 (read_seq_num_ q + 1) → ack_seq_num_ q1 = ack_seq_num_ q →
  ack_stopped q1 ms n q' → ack_stopped q (m :: ms) (S n) q'.
Proof.
  intros Hs Ha [j Hj Hf|j Hj Hf|Hn ? ? ?]; [| |apply stopped_rewinding; simpl; congruence];
    rewrite Hs, Ha, u32_add_l in Hf;
    replace (read_seq_num_ q + 1 + Z.of_nat j) with (read_seq_num_ q + Z.of_nat (S j)) in Hf by lia.
  - by apply (stopped_between _ _ _ _ (S j)); [lia|].
  - by apply (stopped_inside _ _ _ _ (S j)); [lia|].
Qed.

Lemma Ack_loop_crash ms1 : ∀ q ms2 fuel ack,
  live_rep q (ms1 ++ ms2) → ms1 ≠ [] → (length ms1 ≤ fuel)%nat →
  ack = u32 (read_seq_num_ q + Z.of_nat (length ms1)) →
  ∃ l, Ack_loop_stores ToLE IsLE fuel ack (blk_ q) (read_idx_ q) (read_seq_num_ q) =
         Ret (l, read_idx_ q + zlen (concat ms1)) ∧
    run_stores q l = Ret (advanced q (zlen (concat ms1)) ack) ∧
    ∀ q', crashed q l q' → ack_stopped q (ms1 ++ ms2) (length ms1) q'.
Proof.
  induction ms1 as [|m ms1 IH]; intros q ms2 fuel ack Hl Hne Hfuel Hack; [done|].
  destruct fuel as [|fuel]; simpl in Hfuel; [lia|]. simpl in Hl.
  pose proof (live_rep_count _ _ _ HB _ _ Hl) as Hcnt. simpl in Hcnt. rewrite length_app in Hcnt.
  pose proof (BLK_CNT_range _ HB).
  destruct (live_rep_cons _ _ _ _ _ _ Hl) as ((w & Hw & Hz) & Hl' & Hle).
  simpl. rewrite Hw, outcome_bind_Ret, <-Hz. pose proof (zlen_nonneg m). destruct (Hl).
  rewrite (u32_small (read_idx_ q + _)) by lia. rewrite zlen_app.
  set (q1 := advanced q (zlen m) (u32 (read_seq_num_ q + 1))) in *.
  assert (ack_stopped q (m :: ms1 ++ ms2) (S (length ms1)) q) as Hq.
  { apply (stopped_between _ _ _ _ 0); [lia|]. by rewrite Z.add_0_r, u32_small by lia. }
  assert (ack_stopped q (m :: ms1 ++ ms2) (S (length ms1)) (read_stored q (read_idx_ q + zlen m))) as Hin.
  { apply (stopped_inside _ _ _ _ 0); [lia|]. rewrite Z.add_0_r, u32_small by lia.
    split; [by apply live_rep_inside|done]. }
  destruct ms1 as [|m' ms1].
  - simpl in *. rewrite Hack, Z.eqb_refl, Z.add_0_r. eexists. do 2 (split; [done|]).
    intros q' [->|(q2 & [= <-] & Hc)]%crashed_cons; [done|].
    apply crashed_cons in Hc as [->|(q3 & [= <-] & ->%crashed_nil)]; [done|].
    apply (stopped_between _ _ _ _ 1); [lia|]. by split.
  - destruct (Z.eqb_spec (u32 (read_seq_num_ q + 1)) ack) as [Heq|Hneq].
    { rewrite Hack in Heq. apply u32_inj_near in Heq; simpl in *; lia. }
    destruct (IH q1 ms2 fuel ack Hl') as (l & Hl1 & Hrun & Hc); [done|simpl in *; lia| |].
    { rewrite Hack. simpl. rewrite u32_add_l. f_equal. lia. }
    simpl in Hl1 |- *. rewrite Hl1. eexists. split; [|split]; [by rewrite <-Z.add_assoc| |].
    + simpl. fold (read_stored q (read_idx_ q + zlen m)). etransitivity; [exact Hrun|].
      unfold advanced. simpl. do 2 f_equal. lia.
    + intros q' [->|(q2 & [= <-] & Hc2)]%crashed_cons; [done|].
      apply crashed_cons in Hc2 as [->|(q3 & [= <-] & Hc3)]; [done|].
      by apply (ack_stopped_next q q1), Hc.
Qed.

(** A file whose read index is behind its write index is refused. *)
Lemma SanityCheck_behind q : write_idx_ q < read_idx_ q → SanityCheckAndGetSeq ToLE IsLE q = Ret None.
Proof.
  intros H. unfold SanityCheckAndGetSeq, SanityCheckAndGetSeq_fuel. rewrite SanityCheck_loop_exit by lia. simpl.
  by rewrite (proj2 (Z.eqb_neq _ _)) by lia.
Qed.

Lemma rewind_crash q seq ack q' :
  file_at q [] seq ack → 0 < read_idx_ q → crashed q [StSendIdx 0; StWriteIdx 0; StReadIdx 0] q' →
  file_at q' [] seq ack ∨
  write_idx_ q' = 0 ∧ 0 < read_idx_ q' ∧ SanityCheckAndGetSeq ToLE IsLE q' = Ret None.
Proof.
  intros [Hl Hn] Hr [->|(q1 & [= <-] & Hc)]%crashed_cons; [by left|].
  assert (file_at (set_send_idx q 0) [] seq ack) as Hsend by (split; [by apply live_rep_set_send|done]).
  apply crashed_cons in Hc as [->|(q2 & [= <-] & Hc)]; [by left|].
  apply crashed_cons in Hc as [->|(q3 & [= <-] & ->%crashed_nil)]; [right|left].
  - split_and!; [done..|]. by apply SanityCheck_behind.
  - destruct Hl. pose proof (BLK_CNT_range _ HB). split; [|done]. constructor; simpl; try done; lia.
Qed.

Lemma Ack_crash q ms1 ms2 ack l q' :
  live_rep q (ms1 ++ ms2) → 0 ≤ ack < 4294967296 → ack_dist q ack = Z.of_nat (length ms1) →
  Ack_stores ToLE IsLE q ack = Ret l → crashed q l q' → ack_stopped q (ms1 ++ ms2) (length ms1) q'.
Proof.
  intros Hl Hr Hd Hs Hc. unfold Ack_stores, ack_dist in *. destruct (Hl).
  assert (file_at q (ms1 ++ ms2) (read_seq_num_ q) (ack_seq_num_ q)) as Hq by done.
  destruct (decide (ms1 = [])) as [->|Hne].
  { simpl in Hd. rewrite (proj2 (Z.leb_le _ _)) in Hs by lia. injection Hs as <-. apply crashed_nil in Hc as ->.
    apply (stopped_between _ _ _ _ 0); [lia|]. by rewrite Z.add_0_r, u32_small by lia. }
  assert (0 < length ms1)%nat by (destruct ms1; simpl; [done|lia]).
  pose proof (live_rep_count _ _ _ HB _ _ Hl) as Hcnt. rewrite length_app in Hcnt. pose proof (BLK_CNT_range _ HB).
  assert (u32 (ack - read_seq_num_ q) = Z.of_nat (length ms1)) as Hu by word_lia.
  rewrite (proj2 (Z.leb_gt _ _)), Hu, Nat2Z.id in Hs by lia.
  destruct (Ack_loop_crash ms1 q ms2 _ ack Hl Hne (le_n _) ltac:(word_lia)) as (l1 & Hl1 & Hrun & Hcr).
  rewrite Hl1, outcome_bind_Ret in Hs. injection Hs as <-.
  apply crashed_app in Hc as [Hc|(q1 & Hq1 & Hc)]; [by apply Hcr|].
  rewrite Hrun in Hq1. injection Hq1 as <-.
  assert (file_at (advanced q (zlen (concat ms1)) ack) ms2 ack (ack_seq_num_ q)) as Hadv.
  { split; [|done]. pose proof (live_rep_split _ _ _ _ _ _ Hl) as [Hrest Hle].
    pose proof (zlen_nonneg (concat ms1)). apply Forall_app in rep_msgs as [_ Hms2].
    constructor; simpl; try done; lia. }
  assert (ack_stopped q (ms1 ++ ms2) (length ms1) (advanced q (zlen (concat ms1)) ack)) as Hend.
  { apply Hcr. exists (length l1). by rewrite take_ge. }
  destruct (Z.eqb_spec (read_idx_ q + zlen (concat ms1)) (write_idx_ q)) as [Heq|_];
    [|by apply crashed_nil in Hc as ->].
  destruct Hadv as [Hadv Hnum]. pose proof (live_rep_zlen _ _ _ _ _ Hadv) as Hz. simpl in Hz.
  pose proof (zlen_nonneg (concat ms2)). assert (zlen (concat ms2) = 0) as Hz2 by lia.
  assert (ms2 = []) as ->.
  { apply Forall_app in rep_msgs as [_ Hms2]. pose proof (stored_concat_len _ _ _ Hms2).
    destruct ms2; [done|]. simpl in *; lia. }
  rewrite app_nil_r in *. pose proof (stored_concat_len _ _ _ rep_msgs).
  apply (rewind_crash _ ack (ack_seq_num_ q)) in Hc as [Hc|(? & ? & ?)]; [|by apply stopped_rewinding|done|simpl; lia].
  apply (stopped_between _ _ _ _ (length ms1)); [done|]. rewrite drop_all.
  replace (u32 (read_seq_num_ q + Z.of_nat (length ms1))) with ack by word_lia. done.
Qed.
End crash.
