(* ===== verification/SpscQueue.v ===== *)
(** * The shared-memory queue ([spsc_varq.h])

    [SPSCVarQueue] is the class of the same name.  A [Block] of 64 bytes is 8
    words, each read as a [MsgHeader]; [blk] is the array as one list of
    words, the header of [blk[i]] being word [8 * i].  A returned pointer is
    the number of its block.

    [Alloc] and [Front] are cut at their accesses to shared memory
    ([Alloc_check]: the cached index; [Alloc_load]: the load of [read_idx];
    [Alloc_rewind], [Alloc_header]: the writes; [Front_load]: the two loads;
    [Front_check]: the header): the whole functions compose the pieces, and
    the concurrent model interleaves them. *)

From S2P Require Import Prelude.
From S2P Require Import Arrays.
From S2P Require Import MsgHeader.

Record SPSCVarQueue := mkSPSCVarQueue {
  blk : list MsgHeader;
  write_idx : Z;
  write_idx_atom : Z;
  read_idx_cach : Z;
  read_idx : Z
}.

Definition set_blk (q : SPSCVarQueue) (b : list MsgHeader) : SPSCVarQueue :=
  mkSPSCVarQueue b (write_idx q) (write_idx_atom q) (read_idx_cach q) (read_idx q).
Definition set_write_idx (q : SPSCVarQueue) (i : Z) : SPSCVarQueue :=
  mkSPSCVarQueue (blk q) i (write_idx_atom q) (read_idx_cach q) (read_idx q).
Definition set_read_idx_cach (q : SPSCVarQueue) (i : Z) : SPSCVarQueue :=
  mkSPSCVarQueue (blk q) (write_idx q) (write_idx_atom q) i (read_idx q).
Definition set_read_idx (q : SPSCVarQueue) (i : Z) : SPSCVarQueue :=
  mkSPSCVarQueue (blk q) (write_idx q) (write_idx_atom q) (read_idx_cach q) i.

(** [sizeof(Block)], and the words of one block. *)
Definition sizeof_Block : Z := 64.
Definition block_words : Z := sizeof_Block / sizeof_MsgHeader.

(** [(size + sizeof(Block) - 1) / sizeof(Block)] *)
Definition blk_count (size : Z) : Z := div_up size sizeof_Block.

Section SPSCVarQueue.
Context (Bytes : Z).

Definition BLK_CNT : Z := Bytes / sizeof_Block.

(** [SPSCVarQueue()], and a freshly created shared-memory file. *)
Definition new_SPSCVarQueue : SPSCVarQueue :=
  mkSPSCVarQueue (repeat zero_header (Z.to_nat (block_words * BLK_CNT))) 0 0 0 0.

(** [blk[i % BLK_CNT].header]: its word, its value and [.size = s]. *)
Definition header_at (i : Z) : Z := block_words * (i mod BLK_CNT).
Definition get_header (b : list MsgHeader) (i : Z) : outcome MsgHeader := get b (header_at i).
Definition put_size (b : list MsgHeader) (i s : Z) : outcome (list MsgHeader) :=
  h ← get_header b i;
  put b (header_at i) (mkMsgHeader s (mh_msg_type h) (mh_ack_seq h)).

(** The locals [Alloc] computes from [size]. *)
Record alloc_vars := mkAllocVars {
  av_size : Z;         (* size, the header added *)
  av_blk_sz : Z;
  av_padding_sz : Z;
  av_rewind : bool;
  av_min_read_idx : Z
}.

Definition Alloc_vars (q : SPSCVarQueue) (size : Z) : alloc_vars :=
  let size := u16 (size + sizeof_MsgHeader) in
  let blk_sz := u32 (blk_count size) in
  let padding_sz := u32 (BLK_CNT - write_idx q mod BLK_CNT) in
  let rewind := padding_sz <? blk_sz in
  let min_read_idx :=
    u32 (write_idx q + blk_sz + (if rewind then padding_sz else 0) - BLK_CNT) in
  mkAllocVars size blk_sz padding_sz rewind min_read_idx.

(** [static_cast<int>(read_idx_cach - min_read_idx) < 0] *)
Definition Alloc_check (q : SPSCVarQueue) (v : alloc_vars) : bool :=
  i32 (u32 (read_idx_cach q - av_min_read_idx v)) <? 0.

(** [read_idx_cach = read_idx.load(acquire)] *)
Definition Alloc_load (q : SPSCVarQueue) : SPSCVarQueue :=
  set_read_idx_cach q (read_idx q).

Definition Alloc_rewind (q : SPSCVarQueue) (v : alloc_vars) : outcome SPSCVarQueue :=
  if av_rewind v then
    b ← put_size (blk q) (write_idx q) 0;
    Ret (set_write_idx (set_blk q b) (u32 (write_idx q + av_padding_sz v)))
  else Ret q.

Definition Alloc_header (q : SPSCVarQueue) (v : alloc_vars) : outcome SPSCVarQueue :=
  b ← put_size (blk q) (write_idx q) (av_size v);
  Ret (set_blk q b).

Definition Alloc_write (q : SPSCVarQueue) (v : alloc_vars)
    : outcome (option Z * SPSCVarQueue) :=
  q ← Alloc_rewind q v;
  q ← Alloc_header q v;
  Ret (Some (write_idx q mod BLK_CNT), q).

Definition Alloc (q : SPSCVarQueue) (size : Z) : outcome (option Z * SPSCVarQueue) :=
  let v := Alloc_vars q size in
  if Alloc_check q v then
    let q := Alloc_load q in
    if Alloc_check q v then Ret (None, q) else Alloc_write q v
  else Alloc_write q v.

Definition Push (q : SPSCVarQueue) : outcome SPSCVarQueue :=
  h ← get_header (blk q) (write_idx q);
  let write_idx' := u32 (write_idx q + u32 (blk_count (mh_size h))) in
  Ret (mkSPSCVarQueue (blk q) write_idx' write_idx' (read_idx_cach q) (read_idx q)).

(** The two loads of [Front]: [None] for [return nullptr], otherwise
    [curr_write_idx] and [curr_read_idx]. *)
Definition Front_load (q : SPSCVarQueue) : option (Z * Z) :=
  let curr_write_idx := write_idx_atom q in
  let curr_read_idx := read_idx q in
  if curr_read_idx =? curr_write_idx then None else Some (curr_write_idx, curr_read_idx).

Definition Front_check (q : SPSCVarQueue) (curr_write_idx curr_read_idx : Z)
    : outcome (option Z * SPSCVarQueue) :=
  h ← get_header (blk q) curr_read_idx;
  if mh_size h =? 0 then
    let curr_read_idx := u32 (curr_read_idx + u32 (BLK_CNT - curr_read_idx mod BLK_CNT)) in
    let q := set_read_idx q curr_read_idx in
    if curr_read_idx =? curr_write_idx then Ret (None, q)
    else Ret (Some (curr_read_idx mod BLK_CNT), q)
  else Ret (Some (curr_read_idx mod BLK_CNT), q).

Definition Front (q : SPSCVarQueue) : outcome (option Z * SPSCVarQueue) :=
  match Front_load q with
  | None => Ret (None, q)
  | Some (curr_write_idx, curr_read_idx) => Front_check q curr_write_idx curr_read_idx
  end.

Definition Pop (q : SPSCVarQueue) : outcome SPSCVarQueue :=
  h ← get_header (blk q) (read_idx q);
  Ret (set_read_idx q (u32 (read_idx q + u32 (blk_count (mh_size h))))).
End SPSCVarQueue.

(** The [static_assert] of the class and the range of [uint32_t Bytes]. *)
Definition Bytes_ok (Bytes : Z) : Prop :=
  0 < Bytes < 4294967296 ∧ ∃ k, 0 ≤ k ∧ BLK_CNT Bytes = 2 ^ k.
