(* ===== verification/SpscConcurrent.v ===== *)
(** * The shared-memory queue under two threads

    One thread writes ([Alloc], the user's stores, [Push]), one reads
    ([Front], the user's loads, [Pop]).  A step is one access to shared
    memory together with the private computation around it, and the steps of
    the two threads interleave freely ([do_action], [run]).  Each step is the
    piece of the whole function it comes from, so a thread running alone runs
    the functions of [SpscQueue].

    [fifo_step] is the contract: a FIFO of messages whose front the reader
    sees and pops.  The invariant [inv] relates a system to the messages in
    flight through unbounded indices [R <= A <= W] of which the machine keeps
    the 32-bit images. *)

From S2P Require Import Prelude.
From S2P Require Import Arrays.
From S2P Require Import MsgHeader.
From S2P Require Import SpscQueue.

(** ** The system *)

Inductive writer : Type :=
  | WIdle
  | WLoad (v : alloc_vars)     (* in Alloc, the cached index was too old *)
  | WRewind (v : alloc_vars)   (* in Alloc, there is room: mark the padding *)
  | WHeader (v : alloc_vars)   (* in Alloc: write the size *)
  | WFill.                     (* Alloc returned a message, Push not called yet *)

Inductive reader : Type :=
  | RIdle
  | RLoaded (curr_write_idx curr_read_idx : Z)  (* in Front, indices loaded *)
  | RHold (i : Z).                              (* Front returned block i *)

Record sys := mkSys { queue : SPSCVarQueue; wr : writer; rd : reader }.

Inductive action : Type :=
  | AStart (size : Z)          (* Alloc(size) up to its load or its writes *)
  | ALoad                      (* the load of read_idx, and the second check *)
  | ARewind                    (* the marker of the padding *)
  | AHeader                    (* the size of the new message *)
  | AType (t : Z)              (* the user: header->msg_type = t *)
  | ACell (j : Z) (w : MsgHeader)  (* the user: one word of the body *)
  | APush                      (* Push: the store of write_idx_atom *)
  | RLoad                      (* Front: the loads of the indices *)
  | RCheck                     (* Front: the header, the store of read_idx *)
  | RRead (j : Z)              (* the user: reads one word *)
  | RPop.                      (* Pop: the store of read_idx *)

(** What an action shows. *)
Inductive event : Type :=
  | ENone
  | EAlloc (accepted : bool)
  | EPush (m : list MsgHeader)
  | EFront (m : option (list MsgHeader))
  | ERead (j : Z) (w : MsgHeader)
  | EPop (m : list MsgHeader).

(** The words of a message of [size] bytes. *)
Definition words (size : Z) : Z := div_up size sizeof_MsgHeader.

Section system.
Context (Bytes : Z).
Abbreviation B := (BLK_CNT Bytes).

(** The message whose header is in block [i]. *)
Definition message_at (b : list MsgHeader) (i : Z) : outcome (list MsgHeader) :=
  h ← get_header Bytes b i;
  Ret (slice (header_at Bytes i) (header_at Bytes i + words (mh_size h)) b).

(** Where the writer goes once there is room. *)
Definition granted (v : alloc_vars) : writer :=
  if av_rewind v then WRewind v else WHeader v.

(** [None]: the action is not the next one of its thread, or the user may
    not do it ([Alloc] of a size that fits, stores and loads inside the
    message). *)
Definition do_action (s : sys) (a : action) : option (outcome (event * sys)) :=
  let q := queue s in
  match a, wr s, rd s with
  | AStart size, (WIdle | WFill), _ =>
      if decide (0 ≤ size ≤ 65527) then
        let v := Alloc_vars Bytes q size in
        Some (Ret (ENone, mkSys q (if Alloc_check q v then WLoad v else granted v) (rd s)))
      else None
  | ALoad, WLoad v, _ =>
      let q := Alloc_load q in
      Some (Ret (if Alloc_check q v then (EAlloc false, mkSys q WIdle (rd s))
                 else (ENone, mkSys q (granted v) (rd s))))
  | ARewind, WRewind v, _ =>
      Some (q ← Alloc_rewind Bytes q v; Ret (ENone, mkSys q (WHeader v) (rd s)))
  | AHeader, WHeader v, _ =>
      Some (q ← Alloc_header Bytes q v; Ret (EAlloc true, mkSys q WFill (rd s)))
  | AType t, WFill, _ =>
      Some (h ← get_header Bytes (blk q) (write_idx q);
            b ← put (blk q) (header_at Bytes (write_idx q))
                  (mkMsgHeader (mh_size h) t (mh_ack_seq h));
            Ret (ENone, mkSys (set_blk q b) WFill (rd s)))
  | ACell j w, WFill, _ =>
      match get_header Bytes (blk q) (write_idx q) with
      | Ret h =>
          if decide (1 ≤ j < words (mh_size h)) then
            Some (b ← put (blk q) (header_at Bytes (write_idx q) + j) w;
                  Ret (ENone, mkSys (set_blk q b) WFill (rd s)))
          else None
      | _ => Some Undef
      end
  | APush, WFill, _ =>
      Some (m ← message_at (blk q) (write_idx q);
            q ← Push Bytes q; Ret (EPush m, mkSys q WIdle (rd s)))
  | RLoad, _, (RIdle | RHold _) =>
      Some (Ret (match Front_load q with
                 | None => (EFront None, mkSys q (wr s) RIdle)
                 | Some (cw, cr) => (ENone, mkSys q (wr s) (RLoaded cw cr))
                 end))
  | RCheck, _, RLoaded cw cr =>
      Some ('(p, q) ← Front_check Bytes q cw cr;
            match p with
            | None => Ret (EFront None, mkSys q (wr s) RIdle)
            | Some i => m ← message_at (blk q) i;
                        Ret (EFront (Some m), mkSys q (wr s) (RHold i))
            end)
  | RRead j, _, RHold i =>
      match get_header Bytes (blk q) i with
      | Ret h =>
          if decide (0 ≤ j < words (mh_size h)) then
            Some (w ← get (blk q) (header_at Bytes i + j); Ret (ERead j w, s))
          else None
      | _ => Some Undef
      end
  | RPop, _, RHold i =>
      Some (m ← message_at (blk q) i;
            q ← Pop Bytes q; Ret (EPop m, mkSys q (wr s) RIdle))
  | _, _, _ => None
  end.

Fixpoint run (s : sys) (acts : list action) : option (outcome (list event * sys)) :=
  match acts with
  | [] => Some (Ret ([], s))
  | a :: acts =>
      match do_action s a with
      | Some (Ret (e, s)) =>
          match run s acts with
          | Some (Ret (es, s)) => Some (Ret (e :: es, s))
          | r => r
          end
      | Some Undef => Some Undef
      | Some NoFuel => Some NoFuel
      | None => None
      end
  end.

(** A new queue whose indices have run to [i]: [i] a multiple of the number
    of blocks, the machine's view of any later lap. *)
Definition start (i : Z) : sys :=
  mkSys (mkSPSCVarQueue (blk (new_SPSCVarQueue Bytes)) (u32 i) (u32 i) (u32 i) (u32 i))
    WIdle RIdle.
End system.

(** ** The contract *)

(** The messages in flight before and after an event; [None]: the event
    breaks the FIFO. *)
Definition fifo_step (pending : list (list MsgHeader)) (e : event)
    : option (list (list MsgHeader)) :=
  match e with
  | EPush m => Some (pending ++ [m])
  | EFront None => if decide (pending = []) then Some pending else None
  | EFront (Some m) => if decide (head pending = Some m) then Some pending else None
  | ERead j w =>
      match pending with
      | m :: _ => if decide (get m j = Ret w) then Some pending else None
      | [] => None
      end
  | EPop m => if decide (head pending = Some m) then Some (tail pending) else None
  | ENone | EAlloc _ => Some pending
  end.

Fixpoint fifo_run (pending : list (list MsgHeader)) (es : list event)
    : option (list (list MsgHeader)) :=
  match es with
  | [] => Some pending
  | e :: es => match fifo_step pending e with Some p => fifo_run p es | None => None end
  end.

(** The contract when a thread may have died in the middle of [Push]: [late]
    are the messages it had written without storing [write_idx_atom].  The
    next message that is pushed publishes them as well. *)
Definition late_step (pending late : list (list MsgHeader)) (e : event)
    : option (list (list MsgHeader) * list (list MsgHeader)) :=
  match e with
  | EPush m => Some (pending ++ late ++ [m], [])
  | _ => match fifo_step pending e with Some p => Some (p, late) | None => None end
  end.

(** When none has died, it is the FIFO. *)
Lemma late_step_nil pending e p l :
  late_step pending [] e = Some (p, l) → fifo_step pending e = Some p ∧ l = [].
Proof. unfold late_step. destruct e; simpl; intros; repeat case_match; by simplify_eq. Qed.
