(* ===== verification/SpscInv.v ===== *)
(** * The invariant of the shared-memory queue

    [chain b p ms e]: walking the blocks from the unbounded index [p] to [e]
    one meets exactly the messages [ms], each contiguous, with at most one
    padding marker in front of a message.  [core] is what the shared memory
    satisfies, [winv] what the writer knows, [rinv] what the reader knows.
    The blocks hold, from [R] to [A], the messages that the reader may see,
    and from [A] to [E] the [late] ones, which a writer that died had written
    without publishing them; without a crash [A = E]. *)

From S2P Require Import Prelude.
From S2P Require Import Arrays.
From S2P Require Import MsgHeader.
From S2P Require Import SpscQueue.
From S2P Require Import SpscConcurrent.

Lemma blk_count_range s : 0 < s < 65536 → 0 < blk_count s ≤ 1024.
Proof. unfold blk_count, div_up, sizeof_Block. word_lia. Qed.
Lemma words_range s : 0 < s < 65536 → 0 < words s ≤ 8 * blk_count s.
Proof. unfold words, blk_count, div_up, sizeof_Block, sizeof_MsgHeader. word_lia. Qed.

Section inv.
Context (Bytes : Z) (HB : Bytes_ok Bytes).
Abbreviation B := (BLK_CNT Bytes).
Abbreviation header_at := (header_at Bytes).
Abbreviation get_header := (get_header Bytes).
Implicit Types (b : list MsgHeader) (p e R A E W C x n j c : Z) (ms late : list (list MsgHeader)).

Lemma B_range : 0 < B < 67108864.
Proof.
  destruct HB as [? (k & ? & Hk)]. assert (0 < B) by (rewrite Hk; apply Z.pow_pos_nonneg; lia).
  unfold BLK_CNT, sizeof_Block in *. word_lia.
Qed.

Lemma B_divide : (B | 4294967296).
Proof.
  pose proof B_range. destruct HB as [? (k & ? & Hk)]. rewrite Hk in *.
  assert (k < 32) by (apply (Z.pow_lt_mono_r_iff 2); lia).
  exists (2 ^ (32 - k)). rewrite <-Z.pow_add_r by lia. by replace (32 - k + k) with 32 by lia.
Qed.

Lemma mod_B p : 0 ≤ p mod B < B.
Proof. apply Z.mod_pos_bound. pose proof B_range. lia. Qed.

Lemma u32_mod_B p : u32 p mod B = p mod B.
Proof. apply u32_mod_divide; [apply B_range|apply B_divide]. Qed.

Lemma header_at_u32 p : header_at (u32 p) = header_at p.
Proof. unfold SpscQueue.header_at. by rewrite u32_mod_B. Qed.
Lemma get_header_u32 b p : get_header b (u32 p) = get_header b p.
Proof. unfold SpscQueue.get_header. by rewrite header_at_u32. Qed.
Lemma header_at_mod p : header_at (p mod B) = header_at p.
Proof. unfold SpscQueue.header_at. rewrite Z.mod_mod; [done|]. pose proof B_range. lia. Qed.

Lemma header_at_eq p : header_at p = 8 * (p mod B).
Proof. done. Qed.

(** The start of the next lap. *)
Definition next_lap p : Z := p + (B - p mod B).

Lemma next_lap_mod p : next_lap p mod B = 0.
Proof.
  unfold next_lap. pose proof B_range. rewrite (Z.div_mod p B) at 1 by lia.
  replace (B * (p / B) + p mod B + (B - p mod B)) with ((p / B + 1) * B) by lia.
  apply Z.mod_mul. lia.
Qed.

(** *** Messages and chains *)

Definition msg_blocks (m : list MsgHeader) : Z :=
  match m with [] => 0 | h :: _ => blk_count (mh_size h) end.

Definition msg_at b p (m : list MsgHeader) : Prop :=
  ∃ h, get_header b p = Ret h ∧ 0 < mh_size h < 65536 ∧
       p mod B + blk_count (mh_size h) ≤ B ∧
       m = slice (header_at p) (header_at p + words (mh_size h)) b.

Definition pad_at b p : Prop := ∃ h, get_header b p = Ret h ∧ mh_size h = 0.

Inductive chain b : Z → list (list MsgHeader) → Z → Prop :=
  | chain_nil p : chain b p [] p
  | chain_msg p m ms e :
      msg_at b p m → chain b (p + msg_blocks m) ms e → chain b p (m :: ms) e
  | chain_pad p m ms e :
      pad_at b p → msg_at b (next_lap p) m →
      chain b (next_lap p + msg_blocks m) ms e → chain b p (m :: ms) e.

Lemma msg_at_head b p m :
  msg_at b p m →
  ∃ h m', m = h :: m' ∧ get_header b p = Ret h ∧ 0 < mh_size h < 65536 ∧
          msg_blocks m = blk_count (mh_size h) ∧ p mod B + blk_count (mh_size h) ≤ B.
Proof.
  intros (h & Hh & Hs & Hroom & ->). pose proof (words_range _ Hs).
  rewrite (slice_cons _ _ _ h) by (done || lia). by do 2 eexists.
Qed.

Lemma msg_at_blocks b p m : msg_at b p m → 0 < msg_blocks m ≤ 1024.
Proof.
  intros (h & m' & -> & _ & Hs & _)%msg_at_head. by apply blk_count_range.
Qed.

Lemma message_at_msg b p m : msg_at b p m → message_at Bytes b p = Ret m.
Proof. intros (h & Hh & _ & _ & ->). unfold message_at. by rewrite Hh. Qed.
Lemma message_at_mod b p : message_at Bytes b (p mod B) = message_at Bytes b p.
Proof. unfold message_at, SpscQueue.get_header. by rewrite header_at_mod. Qed.
Lemma message_at_u32 b p : message_at Bytes b (u32 p) = message_at Bytes b p.
Proof. unfold message_at. by rewrite get_header_u32, header_at_u32. Qed.

Lemma chain_le b p ms e : chain b p ms e → p ≤ e ∧ (ms ≠ [] → p < e).
Proof.
  induction 1 as [p|p m ms e Hm _ IH|p m ms e _ Hm _ IH]; [by split; [lia|]|..];
    apply msg_at_blocks in Hm; unfold next_lap in *; pose proof (mod_B p); split; lia.
Qed.

Lemma chain_app b p ms e ms' e' :
  chain b p ms e → chain b e ms' e' → chain b p (ms ++ ms') e'.
Proof. induction 1; simpl; eauto using chain. Qed.

(** *** Stores outside a region do not change it *)

(** A word of a region of [n'] blocks at [x] is not in the [n] blocks at
    [p] when both lie inside one lap that starts at [p]. *)
Lemma region_apart p n x n' j :
  p + n ≤ x → x + n' ≤ p + B → 0 < n → 0 ≤ j < 8 * n' →
  p mod B + n ≤ B → x mod B + n' ≤ B →
  header_at x + j < header_at p ∨ header_at p + 8 * n ≤ header_at x + j.
Proof.
  intros. pose proof B_range. rewrite !header_at_eq.
  pose proof (Z.div_mod p B ltac:(lia)). pose proof (Z.div_mod x B ltac:(lia)).
  pose proof (mod_B p). pose proof (mod_B x).
  assert (x / B = p / B ∨ x / B = p / B + 1) as [Hq|Hq] by nia; rewrite Hq in *; nia.
Qed.

(** [b'] is [b] after a store at word [c]. *)
Definition store b c (w : MsgHeader) : list MsgHeader := blit c [w] b.

Lemma store_zlen b c w : 0 ≤ c < zlen b → zlen (store b c w) = zlen b.
Proof. intros. unfold store. apply blit_zlen; rewrite ?zlen_cons, ?zlen_nil; lia. Qed.

Lemma store_slice b c w lo hi :
  0 ≤ c < zlen b → 0 ≤ lo → c < lo ∨ hi ≤ c → slice lo hi (store b c w) = slice lo hi b.
Proof.
  intros ? ? [?|?]; unfold store.
  - apply blit_slice_after; rewrite ?zlen_cons, ?zlen_nil; lia.
  - apply blit_slice_before; lia.
Qed.

Lemma store_get b c w i : 0 ≤ c < zlen b → 0 ≤ i → i ≠ c → get (store b c w) i = get b i.
Proof.
  intros. apply (get_slice_eq _ _ i (i + 1)); [lia|lia|]. apply store_slice; lia.
Qed.

Lemma msg_at_store b p m c w :
  msg_at b p m → 0 ≤ c < zlen b →
  c < header_at p ∨ header_at p + 8 * msg_blocks m ≤ c → msg_at (store b c w) p m.
Proof.
  intros Hm Hc Hap. destruct (msg_at_head _ _ _ Hm) as (h & m' & Heq & Hh & Hs & Hb & Hr).
  rewrite Hb in Hap. destruct Hm as (h' & Hh' & _ & _ & Hm).
  rewrite Hh in Hh'. injection Hh' as <-.
  pose proof (words_range _ Hs). pose proof (blk_count_range _ Hs). pose proof (mod_B p).
  exists h. rewrite Hm. split; [|split; [done|split; [done|]]].
  - unfold SpscQueue.get_header. rewrite store_get; [done|done|rewrite header_at_eq; lia|lia].
  - symmetry. apply store_slice; [done|rewrite header_at_eq; lia|lia].
Qed.

Lemma pad_at_store b p c w :
  pad_at b p → 0 ≤ c < zlen b → c ≠ header_at p → pad_at (store b c w) p.
Proof.
  intros (h & Hh & Hs) Hc Hne. exists h. split; [|done].
  unfold SpscQueue.get_header. rewrite store_get; try done.
  rewrite header_at_eq. pose proof (mod_B p). lia.
Qed.

Lemma chain_store b p ms e x n j w :
  chain b p ms e → zlen b = 8 * B →
  e ≤ x → x + n ≤ p + B → x mod B + n ≤ B → 0 ≤ j < 8 * n →
  chain (store b (header_at x + j) w) p ms e.
Proof.
  intros Hch Hlen Hex Hroom Hxn Hj. pose proof (mod_B x).
  assert (0 ≤ header_at x + j < zlen b) as Hc by (rewrite header_at_eq; lia).
  induction Hch as [p|p m ms e Hm Hch IH|p m ms e Hp Hm Hch IH]; [constructor|..].
  - pose proof (chain_le _ _ _ _ Hch) as [? _]. pose proof (msg_at_blocks _ _ _ Hm).
    destruct (msg_at_head _ _ _ Hm) as (h & m' & _ & _ & _ & Hb & Hr).
    apply chain_msg; [|apply IH; lia].
    apply msg_at_store; [done|done|].
    destruct (region_apart p (msg_blocks m) x n j); lia.
  - pose proof (chain_le _ _ _ _ Hch) as [? _]. pose proof (msg_at_blocks _ _ _ Hm).
    destruct (msg_at_head _ _ _ Hm) as (h & m' & _ & _ & _ & Hb & Hr).
    assert (p < next_lap p) by (unfold next_lap; pose proof (mod_B p); lia).
    apply chain_pad; [..|apply IH; lia].
    + apply pad_at_store; [done|done|]. pose proof (mod_B p).
      destruct (region_apart p 1 x n j); lia.
    + apply msg_at_store; [done|done|].
      destruct (region_apart (next_lap p) (msg_blocks m) x n j); lia.
Qed.

(** *** The invariant *)

Definition rinv b (r : reader) (pending : list (list MsgHeader)) R A : Prop :=
  match r with
  | RIdle => True
  | RLoaded cw cr =>
      cr = u32 R ∧ ∃ ms0 ms1 A0, pending = ms0 ++ ms1 ∧ ms0 ≠ [] ∧
        chain b R ms0 A0 ∧ chain b A0 ms1 A ∧ cw = u32 A0
  | RHold i =>
      i = R mod B ∧ ∃ m ms, pending = m :: ms ∧ msg_at b R m ∧
        chain b (R + msg_blocks m) ms A
  end.

Record core b (r : reader) (pending late : list (list MsgHeader)) R A E W C : Prop := {
  c_len : zlen b = 8 * B;
  c_order : C ≤ R ≤ A ∧ A ≤ E ≤ W ∧ W ≤ C + B;
  c_chain : chain b R pending A;
  c_late : chain b A late E;
  c_tail : W = E ∨ (pad_at b E ∧ W = next_lap E);
  c_rinv : rinv b r pending R A
}.

(** The locals of [Alloc] on unbounded integers. *)
Definition vars_ok (v : alloc_vars) W : Prop :=
  8 ≤ av_size v < 65536 ∧ av_blk_sz v = blk_count (av_size v) ∧
  av_padding_sz v = B - W mod B ∧
  av_rewind v = (B - W mod B <? blk_count (av_size v)) ∧
  av_min_read_idx v =
    u32 (W + blk_count (av_size v) + (if av_rewind v then B - W mod B else 0) - B).

Definition winv b (w : writer) W C : Prop :=
  match w with
  | WIdle => True
  | WLoad v => vars_ok v W
  | WRewind v =>
      vars_ok v W ∧ av_rewind v = true ∧ W + (B - W mod B) + blk_count (av_size v) ≤ C + B
  | WHeader v =>
      8 ≤ av_size v < 65536 ∧ W mod B + blk_count (av_size v) ≤ B ∧
      W + blk_count (av_size v) ≤ C + B
  | WFill =>
      ∃ h, get_header b W = Ret h ∧ 8 ≤ mh_size h < 65536 ∧
           W mod B + blk_count (mh_size h) ≤ B ∧ W + blk_count (mh_size h) ≤ C + B
  end.

Record inv (s : sys) (pending late : list (list MsgHeader)) R A E W C : Prop := {
  i_core : core (blk (queue s)) (rd s) pending late R A E W C;
  i_winv : winv (blk (queue s)) (wr s) W C;
  i_read : read_idx (queue s) = u32 R;
  i_atom : write_idx_atom (queue s) = u32 A;
  i_write : write_idx (queue s) = u32 W;
  i_cach : read_idx_cach (queue s) = u32 C
}.

Definition Inv (s : sys) (pending late : list (list MsgHeader)) : Prop :=
  ∃ R A E W C, inv s pending late R A E W C.

Lemma start_inv i : Inv (start Bytes i) [] [].
Proof.
  pose proof B_range. exists i, i, i, i, i. constructor; try done; simpl.
  constructor; simpl; [|lia|constructor|constructor|by left|done].
  rewrite zlen_repeat. unfold block_words, sizeof_Block, sizeof_MsgHeader.
  change (64 / 8) with 8. lia.
Qed.

(** *** The writer's stores *)

Lemma core_store b r pending late R A E W C n j w :
  core b r pending late R A E W C → W + n ≤ C + B → W mod B + n ≤ B → 0 ≤ j < 8 * n →
  core (store b (header_at W + j) w) r pending late R A E W C.
Proof.
  intros [Hlen Hord Hch Hla Htail Hr] Hroom Hlap Hj. pose proof (mod_B W).
  assert (0 ≤ header_at W + j < zlen b) as Hc by (rewrite header_at_eq; lia).
  constructor; [by rewrite store_zlen|done|..].
  - apply (chain_store _ _ _ _ _ n); (done || lia).
  - apply (chain_store _ _ _ _ _ n); (done || lia).
  - destruct Htail as [?|[Hp HW]]; [by left|right]. split; [|done].
    apply pad_at_store; [done|done|]. pose proof (mod_B E).
    assert (E < W) by (unfold next_lap in HW; lia).
    destruct (region_apart E 1 W n j); lia.
  - destruct r as [|cw cr|i]; simpl in *; [done|..].
    + destruct Hr as (-> & ms0 & ms1 & A0 & -> & Hne & Hc0 & Hc1 & ->).
      split; [done|]. exists ms0, ms1, A0.
      pose proof (chain_le _ _ _ _ Hc0). pose proof (chain_le _ _ _ _ Hc1).
      split_and!; try done; apply (chain_store _ _ _ _ _ n); (done || lia).
    + destruct Hr as (-> & m & ms & -> & Hm & Hc1). split; [done|]. exists m, ms.
      pose proof (chain_le _ _ _ _ Hc1) as [? _]. pose proof (msg_at_blocks _ _ _ Hm).
      destruct (msg_at_head _ _ _ Hm) as (h & m' & _ & _ & _ & Hb & Hrm).
      split; [done|split].
      * apply msg_at_store; [done|done|].
        destruct (region_apart R (msg_blocks m) W n j); lia.
      * apply (chain_store _ _ _ _ _ n); (done || lia).
Qed.

(** [put_size] is a store when the block is in the array, which it always is. *)
Lemma put_size_store b p sz :
  zlen b = 8 * B →
  ∃ h, get_header b p = Ret h ∧
       put_size Bytes b p sz =
         Ret (store b (header_at p + 0) (mkMsgHeader sz (mh_msg_type h) (mh_ack_seq h))).
Proof.
  intros Hlen. pose proof (mod_B p). unfold put_size, SpscQueue.get_header.
  destruct (get_in_range b (header_at p)) as [h Hh]; [rewrite header_at_eq; lia|].
  exists h. split; [done|]. rewrite Hh, outcome_bind_Ret, Z.add_0_r.
  apply put_in_range. rewrite header_at_eq. lia.
Qed.

Lemma store_header b p w :
  zlen b = 8 * B → get_header (store b (header_at p + 0) w) p = Ret w.
Proof.
  intros Hlen. pose proof (mod_B p). unfold SpscQueue.get_header, store. rewrite Z.add_0_r.
  apply get_blit_head. rewrite header_at_eq. lia.
Qed.

Lemma put_size_u32 b p sz : put_size Bytes b (u32 p) sz = put_size Bytes b p sz.
Proof. unfold put_size. by rewrite get_header_u32, header_at_u32. Qed.

(** *** The arithmetic of [Alloc] *)

Lemma Alloc_vars_ok q size W :
  write_idx q = u32 W → 0 ≤ size ≤ 65527 → vars_ok (Alloc_vars Bytes q size) W.
Proof.
  intros HW Hs. pose proof B_range. pose proof (mod_B W).
  unfold Alloc_vars. rewrite HW, u32_mod_B. unfold sizeof_MsgHeader.
  rewrite (u16_small (size + 8)) by lia. pose proof (blk_count_range (size + 8) ltac:(lia)).
  rewrite (u32_small (blk_count _)), (u32_small (B - _)) by lia.
  split; [simpl; lia|]. split; [done|]. split; [done|]. split; [done|]. simpl.
  set (x := if B - W mod B <? blk_count (size + 8) then B - W mod B else 0).
  replace (u32 W + blk_count (size + 8) + x - B) with (u32 W + (blk_count (size + 8) + x - B)) by lia.
  rewrite u32_add_l. f_equal. lia.
Qed.

(** The last index [Alloc] needs to have been read, unbounded. *)
Definition need v W : Z :=
  W + blk_count (av_size v) + (if av_rewind v then B - W mod B else 0) - B.

Lemma Alloc_check_ok q v W C :
  vars_ok v W → read_idx_cach q = u32 C → C ≤ W ≤ C + B →
  Alloc_check q v = (C <? need v W).
Proof.
  intros (Hs & _ & _ & _ & Hmin) HC Hord. pose proof B_range. pose proof (mod_B W).
  pose proof (blk_count_range (av_size v) ltac:(lia)).
  unfold Alloc_check. rewrite HC, Hmin. fold (need v W).
  rewrite i32_serial by (unfold need; destruct (av_rewind v); lia).
  destruct (Z.ltb_spec (C - need v W) 0), (Z.ltb_spec C (need v W)); lia.
Qed.

Lemma granted_winv b v W C :
  vars_ok v W → need v W ≤ C → winv b (granted v) W C.
Proof.
  intros Hv Hneed. destruct (Hv) as (Hs & Hn & Hp & Hrw & Hmin). unfold granted, need in *.
  destruct (av_rewind v) eqn:Hr; simpl.
  - split; [done|]. split; [done|lia].
  - symmetry in Hrw. apply Z.ltb_ge in Hrw. split_and!; lia.
Qed.

Lemma winv_writer_load b v W C : winv b (WLoad v) W C → vars_ok v W.
Proof. done. Qed.

(** *** The writer's steps *)

(** What a step must achieve. *)
Definition step_ok (o : outcome (event * sys)) (pending late : list (list MsgHeader)) : Prop :=
  ∃ ev s' pending' late', o = Ret (ev, s') ∧
    late_step pending late ev = Some (pending', late') ∧ Inv s' pending' late'.

Lemma step_AStart s pending late R A E W C size :
  inv s pending late R A E W C → 0 ≤ size ≤ 65527 →
  let v := Alloc_vars Bytes (queue s) size in
  step_ok (Ret (ENone, mkSys (queue s)
    (if Alloc_check (queue s) v then WLoad v else granted v) (rd s))) pending late.
Proof.
  intros [Hc Hw Hr Ha HW HC] Hs v.
  pose proof (Alloc_vars_ok _ _ _ HW Hs) as Hv. fold v in Hv.
  do 4 eexists. split; [done|]. split; [done|].
  exists R, A, E, W, C. constructor; simpl; try done.
  rewrite (Alloc_check_ok _ _ W C) by (try done; destruct Hc; lia).
  destruct (Z.ltb_spec C (need v W)); [done|]. by apply granted_winv.
Qed.

Lemma step_ALoad s pending late R A E W C v :
  inv s pending late R A E W C → wr s = WLoad v →
  let q := Alloc_load (queue s) in
  step_ok (Ret (if Alloc_check q v then (EAlloc false, mkSys q WIdle (rd s))
                else (ENone, mkSys q (granted v) (rd s)))) pending late.
Proof.
  intros [Hc Hw Hr Ha HW HC] Hv q. rewrite Hv in Hw. destruct Hc as [Hlen Hord Hch Hla Ht Hrd].
  assert (core (blk q) (rd s) pending late R A E W R) as Hc' by (constructor; try done; lia).
  rewrite (Alloc_check_ok _ _ W R) by (done || lia).
  destruct (Z.ltb_spec R (need v W)).
  - do 4 eexists. split; [done|]. split; [done|].
    exists R, A, E, W, R. by constructor.
  - do 4 eexists. split; [done|]. split; [done|].
    exists R, A, E, W, R. constructor; try done. by apply granted_winv.
Qed.

Lemma step_ARewind s pending late R A E W C v :
  inv s pending late R A E W C → wr s = WRewind v →
  step_ok (q ← Alloc_rewind Bytes (queue s) v; Ret (ENone, mkSys q (WHeader v) (rd s))) pending late.
Proof.
  intros [Hc Hw Hr Ha HW HC] Hv. rewrite Hv in Hw. destruct Hw as ((Hs & _ & Hp & Hrw & _) & Hrew & Hroom).
  pose proof (blk_count_range (av_size v) ltac:(lia)). pose proof (mod_B W).
  assert (W = E) as ->.
  { destruct Hc as [_ ? _ _ [?|[_ HW']] _]; [done|]. pose proof (next_lap_mod E) as Hm.
    rewrite <-HW' in Hm. lia. }
  destruct (put_size_store (blk (queue s)) E 0) as (h & Hh & Hput); [by destruct Hc|].
  unfold Alloc_rewind. rewrite Hrew, HW, put_size_u32, Hput, outcome_bind_Ret, outcome_bind_Ret.
  do 4 eexists. split; [done|]. split; [done|].
  exists R, A, E, (next_lap E), C. constructor; simpl; try done.
  - destruct (core_store _ _ _ _ _ _ _ _ _ 1 0 (mkMsgHeader 0 (mh_msg_type h) (mh_ack_seq h)) Hc)
      as [Hlen Hord Hch Hla Ht Hrd]; [lia..|].
    constructor; try done; [unfold next_lap; lia|]. right. split; [|done].
    eexists. split; [apply store_header; by destruct Hc|done].
  - rewrite next_lap_mod. unfold next_lap.
    rewrite Hrew in Hrw. split; [done|]. destruct Hc. split; lia.
  - rewrite Hp. unfold next_lap. by rewrite u32_add_l.
Qed.

Lemma step_AHeader s pending late R A E W C v :
  inv s pending late R A E W C → wr s = WHeader v →
  step_ok (q ← Alloc_header Bytes (queue s) v; Ret (EAlloc true, mkSys q WFill (rd s))) pending late.
Proof.
  intros [Hc Hw Hr Ha HW HC] Hv. rewrite Hv in Hw. destruct Hw as (Hs & Hlap & Hroom).
  pose proof (blk_count_range (av_size v) ltac:(lia)).
  destruct (put_size_store (blk (queue s)) W (av_size v)) as (h & Hh & Hput); [by destruct Hc|].
  unfold Alloc_header. rewrite HW, put_size_u32, Hput, !outcome_bind_Ret.
  do 4 eexists. split; [done|]. split; [done|].
  exists R, A, E, W, C. constructor; simpl; try done.
  - eapply core_store; (done || lia).
  - eexists. split; [apply store_header; by destruct Hc|done].
Qed.

Lemma step_AType s pending late R A E W C t :
  inv s pending late R A E W C → wr s = WFill →
  step_ok (h ← get_header (blk (queue s)) (write_idx (queue s));
           b ← put (blk (queue s)) (header_at (write_idx (queue s)))
                 (mkMsgHeader (mh_size h) t (mh_ack_seq h));
           Ret (ENone, mkSys (set_blk (queue s) b) WFill (rd s))) pending late.
Proof.
  intros [Hc Hw Hr Ha HW HC] Hv. rewrite Hv in Hw. destruct Hw as (h & Hh & Hs & Hlap & Hroom).
  pose proof (blk_count_range (mh_size h) ltac:(lia)). pose proof (mod_B W).
  pose proof (c_len _ _ _ _ _ _ _ _ _ Hc) as Hlen.
  rewrite HW, get_header_u32, header_at_u32, Hh, outcome_bind_Ret.
  rewrite put_in_range by (rewrite header_at_eq; lia). rewrite outcome_bind_Ret.
  rewrite <-(Z.add_0_r (header_at W)).
  do 4 eexists. split; [done|]. split; [done|].
  exists R, A, E, W, C. constructor; simpl; try done.
  - apply (core_store _ _ _ _ _ _ _ _ _ (blk_count (mh_size h)) 0); (done || lia).
  - eexists. split; [by apply store_header|done].
Qed.

Lemma step_ACell s pending late R A E W C j w :
  inv s pending late R A E W C → wr s = WFill → ∀ o,
  match get_header (blk (queue s)) (write_idx (queue s)) with
  | Ret h =>
      if decide (1 ≤ j < words (mh_size h)) then
        Some (b ← put (blk (queue s)) (header_at (write_idx (queue s)) + j) w;
              Ret (ENone, mkSys (set_blk (queue s) b) WFill (rd s)))
      else None
  | _ => Some Undef
  end = Some o → step_ok o pending late.
Proof.
  intros [Hc Hw Hr Ha HW HC] Hv o. rewrite Hv in Hw. destruct Hw as (h & Hh & Hs & Hlap & Hroom).
  pose proof (words_range (mh_size h) ltac:(lia)). pose proof (mod_B W).
  pose proof (c_len _ _ _ _ _ _ _ _ _ Hc) as Hlen.
  rewrite HW, get_header_u32, header_at_u32, Hh.
  case_decide as Hj; [|done]. intros [= <-].
  rewrite put_in_range by (rewrite header_at_eq; lia). rewrite outcome_bind_Ret.
  do 4 eexists. split; [done|]. split; [done|].
  exists R, A, E, W, C. constructor; simpl; try done.
  - apply (core_store _ _ _ _ _ _ _ _ _ (blk_count (mh_size h)) j); (done || lia).
  - exists h. split; [|done]. unfold SpscQueue.get_header.
    rewrite header_at_eq in *. fold (store (blk (queue s)) (8 * (W mod B) + j) w).
    rewrite store_get; [done|lia..].
Qed.

(** Publishing the message at [W]. *)
Lemma core_push b r pending late R A E W C m :
  core b r pending late R A E W C → msg_at b W m → W + msg_blocks m ≤ C + B →
  core b r (pending ++ late ++ [m]) [] R (W + msg_blocks m) (W + msg_blocks m) (W + msg_blocks m) C.
Proof.
  intros [Hlen Hord Hch Hla Htail Hr] Hm Hroom. pose proof (msg_at_blocks _ _ _ Hm).
  assert (chain b A (late ++ [m]) (W + msg_blocks m)) as Hlast.
  { eapply chain_app; [exact Hla|]. destruct Htail as [->|[Hp ->]]; [apply chain_msg|apply chain_pad]; auto using chain. }
  constructor; [done|lia|by eapply chain_app|constructor|by left|].
  destruct r as [|cw cr|i]; simpl in *; [done|..].
  - destruct Hr as (-> & ms0 & ms1 & A0 & -> & Hne & Hc0 & Hc1 & ->). split; [done|].
    exists ms0, (ms1 ++ late ++ [m]), A0. rewrite <-app_assoc. split_and!; eauto using chain_app.
  - destruct Hr as (-> & m' & ms & -> & Hm' & Hc'). split; [done|].
    exists m', (ms ++ late ++ [m]). split_and!; eauto using chain_app.
Qed.

(** The message that the writer fills. *)
Lemma winv_message b W h :
  get_header b W = Ret h → 8 ≤ mh_size h < 65536 → W mod B + blk_count (mh_size h) ≤ B →
  ∃ m, msg_at b W m ∧ msg_blocks m = blk_count (mh_size h).
Proof.
  intros Hh Hs Hlap.
  assert (msg_at b W (slice (header_at W) (header_at W + words (mh_size h)) b)) as Hm.
  { exists h. split; [done|]. split; [lia|]. by split. }
  eexists. split; [exact Hm|].
  destruct (msg_at_head _ _ _ Hm) as (h' & m' & _ & Hh' & _ & Hb & _).
  rewrite Hh in Hh'. by injection Hh' as <-.
Qed.

Lemma step_APush s pending late R A E W C :
  inv s pending late R A E W C → wr s = WFill →
  step_ok (m ← message_at Bytes (blk (queue s)) (write_idx (queue s));
           q ← Push Bytes (queue s); Ret (EPush m, mkSys q WIdle (rd s))) pending late.
Proof.
  intros [Hc Hw Hr Ha HW HC] Hv. rewrite Hv in Hw. destruct Hw as (h & Hh & Hs & Hlap & Hroom).
  destruct (winv_message _ _ _ Hh Hs Hlap) as (m & Hm & Hb).
  rewrite HW, message_at_u32, (message_at_msg _ _ _ Hm), outcome_bind_Ret.
  unfold Push. rewrite HW, get_header_u32, Hh, outcome_bind_Ret, outcome_bind_Ret.
  do 4 eexists. split; [done|]. split; [done|].
  exists R, (W + msg_blocks m), (W + msg_blocks m), (W + msg_blocks m), C.
  rewrite u32_add_r, u32_add_l, <-Hb.
  constructor; simpl; try done. apply (core_push _ _ _ _ _ A E); (done || lia).
Qed.

(** *** The reader's steps *)

Lemma core_rd b r r' pending late R A E W C :
  core b r pending late R A E W C → rinv b r' pending R A → core b r' pending late R A E W C.
Proof. intros [] ?. by constructor. Qed.

Lemma step_RLoad s pending late R A E W C :
  inv s pending late R A E W C →
  step_ok (Ret (match Front_load (queue s) with
                | None => (EFront None, mkSys (queue s) (wr s) RIdle)
                | Some (cw, cr) => (ENone, mkSys (queue s) (wr s) (RLoaded cw cr))
                end)) pending late.
Proof.
  intros [Hc Hw Hr Ha HW HC]. pose proof B_range.
  destruct (Hc) as [Hlen Hord Hch Hla Htail Hrd]. pose proof (chain_le _ _ _ _ Hch) as [_ Hlt].
  unfold Front_load. rewrite Hr, Ha. destruct (Z.eqb_spec (u32 R) (u32 A)) as [Heq|Hne].
  - apply u32_inj_near in Heq as ->; [|lia].
    assert (pending = []) as ->.
    { destruct pending as [|m ms]; [done|]. specialize (Hlt ltac:(done)). lia. }
    do 4 eexists. split; [done|]. split; [done|].
    exists A, A, E, W, C. constructor; simpl; done.
  - assert (pending ≠ []).
    { intros ->. inversion Hch; subst. done. }
    do 4 eexists. split; [done|]. split; [done|].
    exists R, A, E, W, C. constructor; simpl; try done. apply (core_rd _ (rd s)); [done|].
    split; [done|]. exists pending, [], A. rewrite app_nil_r. auto using chain.
Qed.

(** A word of a message as the reader reads it. *)
Lemma msg_at_get b p m j h :
  zlen b = 8 * B → msg_at b p m → get_header b p = Ret h → 0 ≤ j < words (mh_size h) →
  ∃ w, get b (header_at p + j) = Ret w ∧ get m j = Ret w.
Proof.
  intros Hlen Hm Hh Hj. destruct Hm as (h' & Hh' & Hs & Hr & ->).
  rewrite Hh in Hh'. injection Hh' as <-. pose proof (mod_B p).
  pose proof (words_range _ Hs).
  rewrite get_slice by (rewrite ?header_at_eq; lia).
  destruct (get_in_range b (header_at p + j)) as [w Hw]; [rewrite header_at_eq; lia|].
  by exists w.
Qed.

Lemma step_RCheck s pending late R A E W C cw cr :
  inv s pending late R A E W C → rd s = RLoaded cw cr →
  step_ok ('(p, q) ← Front_check Bytes (queue s) cw cr;
           match p with
           | None => Ret (EFront None, mkSys q (wr s) RIdle)
           | Some i => m ← message_at Bytes (blk q) i;
                       Ret (EFront (Some m), mkSys q (wr s) (RHold i))
           end) pending late.
Proof.
  intros [Hc Hw Hr Ha HW HC] Hrd. pose proof B_range. pose proof (mod_B R).
  pose proof (c_rinv _ _ _ _ _ _ _ _ _ Hc) as Hri. rewrite Hrd in Hri.
  destruct Hri as (-> & ms0 & ms1 & A0 & -> & Hne & Hc0 & Hc1 & ->).
  pose proof (chain_le _ _ _ _ Hc1) as [HA0 _].
  unfold Front_check. rewrite get_header_u32. destruct Hc0 as [p|p m ms A0 Hm Hc0|p m ms A0 Hp Hm Hc0];
    [done|..].
  - destruct (msg_at_head _ _ _ Hm) as (h & m' & _ & Hh & Hs & Hb & _).
    rewrite Hh, outcome_bind_Ret, (proj2 (Z.eqb_neq _ _)) by lia.
    rewrite u32_mod_B, outcome_bind_Ret, message_at_mod, (message_at_msg _ _ _ Hm), outcome_bind_Ret.
    do 4 eexists. split; [done|]. split; [by simpl; rewrite decide_True|].
    exists p, A, E, W, C. constructor; simpl; try done. apply (core_rd _ (rd s)); [done|].
    split; [done|]. exists m, (ms ++ ms1). split_and!; eauto using chain_app.
  - destruct Hp as (h & Hh & Hz). rewrite Hh, outcome_bind_Ret, Hz, Z.eqb_refl, u32_mod_B.
    rewrite (u32_small (B - _)) by lia. rewrite u32_add_l. fold (next_lap p).
    pose proof (chain_le _ _ _ _ Hc0) as [? _]. pose proof (msg_at_blocks _ _ _ Hm).
    destruct Hc as [Hlen Hord Hch Hla Htail _].
    assert (p < next_lap p) by (unfold next_lap; lia).
    destruct (Z.eqb_spec (u32 (next_lap p)) (u32 A0)) as [Heq|_].
    { apply u32_inj_near in Heq; lia. }
    rewrite outcome_bind_Ret, u32_mod_B, message_at_mod. simpl blk.
    rewrite (message_at_msg _ _ _ Hm), outcome_bind_Ret.
    do 4 eexists. split; [done|]. split; [by simpl; rewrite decide_True|].
    exists (next_lap p), A, E, W, C. constructor; simpl; try done.
    constructor; try done; [lia|..].
    + apply chain_msg; eauto using chain_app.
    + split; [done|]. exists m, (ms ++ ms1). split_and!; eauto using chain_app.
Qed.

Lemma step_RRead s pending late R A E W C i j :
  inv s pending late R A E W C → rd s = RHold i → ∀ o,
  match get_header (blk (queue s)) i with
  | Ret h =>
      if decide (0 ≤ j < words (mh_size h)) then
        Some (w ← get (blk (queue s)) (header_at i + j); Ret (ERead j w, s))
      else None
  | _ => Some Undef
  end = Some o → step_ok o pending late.
Proof.
  intros Hinv Hrd o. pose proof (c_rinv _ _ _ _ _ _ _ _ _ (i_core _ _ _ _ _ _ _ _ Hinv)) as Hri.
  rewrite Hrd in Hri. destruct Hri as (-> & m & ms & -> & Hm & Hc1).
  destruct (msg_at_head _ _ _ Hm) as (h & m' & _ & Hh & Hs & _).
  unfold SpscQueue.get_header in *. rewrite header_at_mod, Hh.
  case_decide as Hj; [|done]. intros [= <-].
  destruct (msg_at_get _ _ _ _ _ (c_len _ _ _ _ _ _ _ _ _ (i_core _ _ _ _ _ _ _ _ Hinv)) Hm Hh Hj) as (w & -> & Hmw).
  do 4 eexists. split; [done|]. split; [simpl; by rewrite decide_True|].
  by exists R, A, E, W, C.
Qed.

Lemma step_RPop s pending late R A E W C i :
  inv s pending late R A E W C → rd s = RHold i →
  step_ok (m ← message_at Bytes (blk (queue s)) i;
           q ← Pop Bytes (queue s); Ret (EPop m, mkSys q (wr s) RIdle)) pending late.
Proof.
  intros [Hc Hw Hr Ha HW HC] Hrd. pose proof (c_rinv _ _ _ _ _ _ _ _ _ Hc) as Hri.
  rewrite Hrd in Hri. destruct Hri as (-> & m & ms & -> & Hm & Hc1).
  destruct (msg_at_head _ _ _ Hm) as (h & m' & _ & Hh & Hs & Hb & _).
  pose proof (blk_count_range _ Hs). pose proof (chain_le _ _ _ _ Hc1) as [? _].
  rewrite message_at_mod, (message_at_msg _ _ _ Hm), outcome_bind_Ret.
  unfold Pop. rewrite Hr, get_header_u32, Hh, !outcome_bind_Ret, u32_add_r, u32_add_l.
  do 4 eexists. split; [done|]. split; [simpl; by rewrite decide_True|].
  exists (R + msg_blocks m), A, E, W, C. rewrite <-Hb. destruct Hc as [Hlen Hord Hch Hla Htail _].
  constructor; simpl; try done. constructor; try done. lia.
Qed.

(** *** Every step, every run *)

Lemma do_action_ok s pending late a o :
  Inv s pending late → do_action Bytes s a = Some o → step_ok o pending late.
Proof.
  intros (R & A & E & W & C & Hinv) Ho. unfold do_action in Ho.
  destruct a.
  - destruct (wr s) eqn:Hw; try done; case_decide; try done; injection Ho as <-;
      by apply (step_AStart _ _ _ R A E W C).
  - destruct (wr s) eqn:Hw; try done. injection Ho as <-. by apply (step_ALoad _ _ _ R A E W C).
  - destruct (wr s) eqn:Hw; try done. injection Ho as <-. by apply (step_ARewind _ _ _ R A E W C).
  - destruct (wr s) eqn:Hw; try done. injection Ho as <-. by apply (step_AHeader _ _ _ R A E W C).
  - destruct (wr s) eqn:Hw; try done. injection Ho as <-. by apply (step_AType _ _ _ R A E W C).
  - destruct (wr s) eqn:Hw; try done. by eapply (step_ACell _ _ _ R A E W C).
  - destruct (wr s) eqn:Hw; try done. injection Ho as <-. by apply (step_APush _ _ _ R A E W C).
  - destruct (wr s) eqn:Hw, (rd s) eqn:Hr; try done; injection Ho as <-; rewrite <-Hw;
      by apply (step_RLoad _ _ _ R A E W C).
  - destruct (wr s) eqn:Hw, (rd s) eqn:Hr; try done; injection Ho as <-; rewrite <-Hw;
      by apply (step_RCheck _ _ _ R A E W C).
  - destruct (wr s) eqn:Hw, (rd s) eqn:Hr; try done; by eapply (step_RRead _ _ _ R A E W C).
  - destruct (wr s) eqn:Hw, (rd s) eqn:Hr; try done; injection Ho as <-; rewrite <-Hw;
      by apply (step_RPop _ _ _ R A E W C).
Qed.

(** Without a crash nothing is late. *)
Lemma run_ok acts : ∀ s pending o,
  Inv s pending [] → run Bytes s acts = Some o →
  ∃ es s' pending', o = Ret (es, s') ∧ fifo_run pending es = Some pending' ∧ Inv s' pending' [].
Proof.
  induction acts as [|a acts IH]; intros s pending o Hinv Ho; simpl in Ho.
  - injection Ho as <-. by exists [], s, pending.
  - destruct (do_action Bytes s a) as [o1|] eqn:Ha; [|done].
    destruct (do_action_ok _ _ _ _ _ Hinv Ha) as (ev & s1 & p1 & l1 & -> & [Hf ->]%late_step_nil & Hinv1).
    destruct (run Bytes s1 acts) as [o2|] eqn:Hr; [|done].
    destruct (IH _ _ _ Hinv1 Hr) as (es & s2 & p2 & -> & Hf2 & Hinv2).
    injection Ho as <-. exists (ev :: es), s2, p2. simpl. by rewrite Hf.
Qed.
End inv.
