(* ===== verification/SpscAlloc.v ===== *)
(** * The whole functions of the shared-memory queue, and races

    What [Alloc] decides in terms of the indices the machine holds
    ([Alloc_spec]), and which words the next accesses of the two threads
    touch ([writes], [reads]). *)

From S2P Require Import Prelude.
From S2P Require Import Arrays.
From S2P Require Import MsgHeader.
From S2P Require Import SpscQueue.
From S2P Require Import SpscConcurrent.
From S2P Require Import SpscInv.

Section alloc.
Context (Bytes : Z) (HB : Bytes_ok Bytes).
Abbreviation B := (BLK_CNT Bytes).

(** *** Room *)

(** The blocks between [read_idx] and [write_idx]. *)
Definition used (q : SPSCVarQueue) : Z := u32 (write_idx q - read_idx q).
(** The blocks [Alloc] skips at the end of the lap for a message of [n] blocks. *)
Definition padding (q : SPSCVarQueue) (n : Z) : Z :=
  if B - write_idx q mod B <? n then B - write_idx q mod B else 0.
(** The blocks of a message of [size] bytes and its header. *)
Definition msg_blk_sz (size : Z) : Z := blk_count (size + sizeof_MsgHeader).
Definition has_room (q : SPSCVarQueue) (size : Z) : bool :=
  used q + padding q (msg_blk_sz size) + msg_blk_sz size <=? B.

(** The queue after a granted [Alloc]: the padding is skipped and the header
    of the new message carries its size. *)
Record alloc_granted (q q' : SPSCVarQueue) (size p : Z) : Prop := {
  ag_write : write_idx q' = u32 (write_idx q + padding q (msg_blk_sz size));
  ag_block : p = write_idx q' mod B;
  ag_fits : p + msg_blk_sz size ≤ B;
  ag_size : ∃ h, get_header Bytes (blk q') (write_idx q') = Ret h ∧
                 mh_size h = size + sizeof_MsgHeader;
  ag_atom : write_idx_atom q' = write_idx_atom q;
  ag_read : read_idx q' = read_idx q
}.

Lemma used_inv s pending late R A E W C : inv Bytes s pending late R A E W C → used (queue s) = W - R.
Proof.
  intros [Hc _ Hr _ HW _]. pose proof (B_range _ HB). destruct Hc as [_ Hord _ _ _ _].
  unfold used. rewrite Hr, HW, u32_sub_l, u32_sub_r. apply u32_small. lia.
Qed.

Lemma need_room v s pending late R A E W C size :
  inv Bytes s pending late R A E W C → 0 ≤ size ≤ 65527 →
  v = Alloc_vars Bytes (queue s) size →
  (need Bytes v W <=? R) = has_room (queue s) size.
Proof.
  intros Hinv Hs ->. pose proof (used_inv _ _ _ _ _ _ _ _ Hinv) as Hu.
  pose proof (i_write _ _ _ _ _ _ _ _ _ Hinv) as HW.
  pose proof (Alloc_vars_ok _ HB _ _ _ HW Hs) as (_ & _ & _ & Hrw & _).
  unfold need, has_room, padding. rewrite Hrw, Hu, HW, (u32_mod_B _ HB).
  assert (av_size (Alloc_vars Bytes (queue s) size) = size + sizeof_MsgHeader) as ->.
  { simpl. unfold sizeof_MsgHeader. apply u16_small. lia. }
  fold (msg_blk_sz size). apply eq_true_iff_eq. rewrite !Z.leb_le.
  destruct (B - W mod B <? msg_blk_sz size); lia.
Qed.

(** *** Alloc *)

Lemma Alloc_header_spec q v W :
  zlen (blk q) = 8 * B → write_idx q = u32 W → W mod B + blk_count (av_size v) ≤ B →
  ∃ b h, Alloc_header Bytes q v = Ret (set_blk q b) ∧ get_header Bytes b (u32 W) = Ret h ∧
         mh_size h = av_size v.
Proof.
  intros Hlen HW Hlap. destruct (put_size_store _ HB (blk q) W (av_size v) Hlen) as (h & _ & Hput).
  unfold Alloc_header. rewrite HW, (put_size_u32 _ HB), Hput, outcome_bind_Ret.
  do 2 eexists. split; [done|]. rewrite (get_header_u32 _ HB), store_header by done. done.
Qed.

Lemma Alloc_write_spec q v W size :
  zlen (blk q) = 8 * B → write_idx q = u32 W → 0 ≤ size ≤ 65527 →
  v = Alloc_vars Bytes q size → has_room q size = true →
  ∃ p q', Alloc_write Bytes q v = Ret (Some p, q') ∧ alloc_granted q q' size p.
Proof.
  intros Hlen HW Hs Hv Hroom. pose proof (B_range _ HB). pose proof (mod_B _ HB W).
  destruct (Alloc_vars_ok _ HB _ _ _ HW Hs) as (_ & _ & Hp & Hrw & _). rewrite <-Hv in *.
  assert (av_size v = size + sizeof_MsgHeader) as Hsz.
  { subst v. simpl. unfold sizeof_MsgHeader. apply u16_small. lia. }
  pose proof (blk_count_range (size + sizeof_MsgHeader) ltac:(unfold sizeof_MsgHeader; lia)).
  rewrite Hsz in *. fold (msg_blk_sz size) in *.
  assert (padding q (msg_blk_sz size) = if av_rewind v then B - W mod B else 0) as Hpad.
  { unfold padding. by rewrite HW, (u32_mod_B _ HB), Hrw. }
  assert (msg_blk_sz size ≤ B).
  { unfold has_room, used in Hroom. rewrite Hpad in Hroom. apply Z.leb_le in Hroom.
    pose proof (u32_range (write_idx q - read_idx q)). destruct (av_rewind v); lia. }
  unfold Alloc_write, Alloc_rewind. destruct (av_rewind v) eqn:Hr.
  - destruct (put_size_store _ HB (blk q) W 0 Hlen) as (h & _ & Hput).
    rewrite HW, (put_size_u32 _ HB), Hput, !outcome_bind_Ret, Hp, u32_add_l.
    fold (next_lap Bytes W). pose proof (next_lap_mod _ HB W) as Hmod.
    set (b0 := store _ _ _).
    destruct (Alloc_header_spec (set_write_idx (set_blk q b0) (u32 (next_lap Bytes W))) v
      (next_lap Bytes W)) as (b & h' & Hq & Hh & Hh'); [|done|rewrite Hsz; fold (msg_blk_sz size); lia|].
    { simpl. unfold b0. rewrite store_zlen; [done|]. rewrite header_at_eq. lia. }
    rewrite Hq, outcome_bind_Ret. do 2 eexists. split; [done|].
    constructor; simpl; rewrite ?HW, ?(u32_mod_B _ HB), ?Hpad; try done.
    + rewrite u32_add_l. done.
    + lia.
    + exists h'. split; [done|]. lia.
  - destruct (Alloc_header_spec q v W Hlen HW) as (b & h' & Hq & Hh & Hh').
    { rewrite Hsz. fold (msg_blk_sz size). symmetry in Hrw. apply Z.ltb_ge in Hrw. lia. }
    rewrite outcome_bind_Ret, Hq, outcome_bind_Ret. do 2 eexists. split; [done|].
    symmetry in Hrw. apply Z.ltb_ge in Hrw.
    constructor; simpl; rewrite ?HW, ?(u32_mod_B _ HB), ?Hpad; try done.
    + rewrite Z.add_0_r. by rewrite (u32_small (u32 W)) by apply u32_range.
    + lia.
    + exists h'. split; [done|]. lia.
Qed.

(** [Alloc] answers by the room there is, whatever the cached index. *)
Lemma Alloc_spec s pending late size :
  Inv Bytes s pending late → 0 ≤ size ≤ 65527 →
  if has_room (queue s) size
  then ∃ p q', Alloc Bytes (queue s) size = Ret (Some p, q') ∧ alloc_granted (queue s) q' size p
  else Alloc Bytes (queue s) size = Ret (None, Alloc_load (queue s)).
Proof.
  intros (R & A & E & W & C & Hinv) Hs. set (q := queue s) in *. pose proof (i_write _ _ _ _ _ _ _ _ _ Hinv) as HW.
  pose proof (Alloc_vars_ok _ HB _ _ _ HW Hs) as Hv.
  pose proof (need_room _ _ _ _ _ _ _ _ _ _ Hinv Hs eq_refl) as Hneed. fold q in Hneed, Hv.
  destruct (Hinv) as [Hc _ Hr _ _ HC]. destruct Hc as [Hlen Hord _ _ _ _].
  unfold Alloc. rewrite (Alloc_check_ok _ HB q _ W C) by (done || lia).
  rewrite (Alloc_check_ok _ HB (Alloc_load q) _ W R) by (done || lia).
  destruct (has_room q size) eqn:Hroom; [apply Z.leb_le in Hneed|apply Z.leb_gt in Hneed].
  - destruct (Alloc_write_spec q _ W size Hlen HW Hs eq_refl Hroom) as (p & q' & Hq & Hg).
    destruct (Z.ltb_spec C (need Bytes (Alloc_vars Bytes q size) W)).
    + rewrite (proj2 (Z.ltb_ge _ _)) by lia.
      destruct (Alloc_write_spec (Alloc_load q) _ W size Hlen HW Hs eq_refl Hroom)
        as (p' & q'' & Hq' & []). do 2 eexists. split; [exact Hq'|]. by constructor.
    + by exists p, q'.
  - rewrite !(proj2 (Z.ltb_lt _ _)) by lia. done.
Qed.

(** *** The words the next steps touch *)

Definition writes (s : sys) (a : action) : list Z :=
  match a with
  | ARewind | AHeader | AType _ => [header_at Bytes (write_idx (queue s))]
  | ACell j _ => [header_at Bytes (write_idx (queue s)) + j]
  | _ => []
  end.

Definition reads (s : sys) (a : action) : list Z :=
  match a, rd s with
  | RCheck, RLoaded _ cr => [header_at Bytes cr]
  | RRead j, RHold i => [header_at Bytes i + j]
  | RPop, _ => [header_at Bytes (read_idx (queue s))]
  | _, _ => []
  end.

Lemma writes_region s pending late R A E W C a x o :
  inv Bytes s pending late R A E W C → do_action Bytes s a = Some o → x ∈ writes s a →
  ∃ n j, W + n ≤ C + B ∧ W mod B + n ≤ B ∧ 0 ≤ j < 8 * n ∧ x = header_at Bytes W + j.
Proof.
  intros [Hc Hw Hr Ha HW HC] Ho Hx. pose proof (mod_B _ HB W). unfold do_action in Ho.
  destruct a; try by apply not_elem_of_nil in Hx.
  all: apply list_elem_of_singleton in Hx as ->; rewrite HW, (header_at_u32 _ HB).
  all: destruct (wr s) as [|v|v|v|] eqn:Hwr; try done; simpl in Hw.
  - destruct Hw as ((Hs & _) & _ & Hroom). pose proof (blk_count_range (av_size v) ltac:(lia)).
    exists 1, 0. lia.
  - destruct Hw as (Hs & Hlap & Hroom). pose proof (blk_count_range (av_size v) ltac:(lia)).
    exists (blk_count (av_size v)), 0. lia.
  - destruct Hw as (h & Hh & Hs & Hlap & Hroom).
    pose proof (blk_count_range (mh_size h) ltac:(lia)). exists (blk_count (mh_size h)), 0. lia.
  - destruct Hw as (h & Hh & Hs & Hlap & Hroom).
    pose proof (words_range (mh_size h) ltac:(lia)).
    rewrite HW, (get_header_u32 _ HB), Hh in Ho. case_decide; [|done].
    exists (blk_count (mh_size h)), j. lia.
Qed.

Lemma reads_region s pending late R A E W C a x o :
  inv Bytes s pending late R A E W C → do_action Bytes s a = Some o → x ∈ reads s a →
  ∃ n j, R + n ≤ A ∧ R mod B + n ≤ B ∧ 0 ≤ j < 8 * n ∧ x = header_at Bytes R + j.
Proof.
  intros [Hc Hw Hr Ha HW HC] Ho Hx. pose proof (mod_B _ HB R). pose proof (B_range _ HB).
  destruct Hc as [Hlen Hord Hch _ _ Hri]. unfold do_action in Ho. unfold reads in Hx.
  destruct a; try (by apply not_elem_of_nil in Hx).
  all: destruct (wr s), (rd s) as [|cw cr|i] eqn:Hrd; try done; simpl in Hri;
    apply list_elem_of_singleton in Hx as ->; try rewrite Hr; rewrite ?(header_at_u32 _ HB).
  all: try (destruct Hri as (-> & ms0 & ms1 & A0 & -> & Hne & Hc0 & Hc1 & ->);
    pose proof (chain_le _ HB _ _ _ _ Hc0) as [_ Hlt]; specialize (Hlt Hne);
    pose proof (chain_le _ HB _ _ _ _ Hc1) as [? _]; rewrite (header_at_u32 _ HB);
    exists 1, 0; lia).
  all: destruct Hri as (-> & m & ms & -> & Hm & Hc1);
    destruct (msg_at_head _ _ _ _ Hm) as (h & m' & _ & Hh & Hs & Hb & Hlap);
    pose proof (words_range _ Hs); pose proof (blk_count_range _ Hs);
    pose proof (chain_le _ HB _ _ _ _ Hc1) as [? _].
  all: try (exists (blk_count (mh_size h)), 0; lia).
  all: unfold get_header in *; rewrite (header_at_mod _ HB), Hh in Ho; case_decide; [|done];
    rewrite (header_at_mod _ HB); exists (blk_count (mh_size h)), j; lia.
Qed.

Lemma no_race s pending late a a' o o' x :
  Inv Bytes s pending late → do_action Bytes s a = Some o → do_action Bytes s a' = Some o' →
  x ∈ writes s a → x ∈ reads s a' → False.
Proof.
  intros (R & A & E & W & C & Hinv) Ho Ho' Hx Hy.
  destruct (writes_region _ _ _ _ _ _ _ _ _ _ _ Hinv Ho Hx) as (n & j & ? & ? & ? & ->).
  destruct (reads_region _ _ _ _ _ _ _ _ _ _ _ Hinv Ho' Hy) as (n' & j' & ? & ? & ? & Heq).
  pose proof (c_order _ _ _ _ _ _ _ _ _ _ (i_core _ _ _ _ _ _ _ _ _ Hinv)) as (? & ? & ?).
  destruct (region_apart _ HB R n' W n j); lia.
Qed.
End alloc.
