(* ===== verification/SpscProps.v ===== *)
(** * Properties of the shared-memory queue

    The instances run on a queue of 512 bytes (8 blocks) whose indices start
    at [2^32 - 2], so that they wrap during the run. *)

From S2P Require Import Prelude.
From S2P Require Import Arrays.
From S2P Require Import MsgHeader.
From S2P Require Import SpscQueue.
From S2P Require Import SpscConcurrent.
From S2P Require Import SpscInv.
From S2P Require Import SpscAlloc.

(** ** What a FIFO trace means *)

Definition pushes (es : list event) : list (list MsgHeader) :=
  omap (λ e, match e with EPush m => Some m | _ => None end) es.
Definition pops (es : list event) : list (list MsgHeader) :=
  omap (λ e, match e with EPop m => Some m | _ => None end) es.

Lemma fifo_run_order es : ∀ pending pending',
  fifo_run pending es = Some pending' → pending ++ pushes es = pops es ++ pending'.
Proof.
  induction es as [|e es IH]; intros pending pending' H; simpl in H.
  { injection H as ->. by rewrite app_nil_r. }
  unfold pushes, pops in *. destruct e as [|b|m|[m|]|j w|m]; simpl in *.
  - by apply IH.
  - by apply IH.
  - apply IH in H. by rewrite <-app_assoc in H.
  - case_decide; [by apply IH|done].
  - case_decide; [by apply IH|done].
  - destruct pending as [|m' p]; [done|]. case_decide; [by apply IH|done].
  - destruct pending as [|m' p]; [by rewrite decide_False in H|]. simpl in H.
    case_decide as Hm; [|done]. injection Hm as ->. simpl. f_equal. by apply IH.
Qed.

(** ** Linearizability *)

(** C3: however the steps of the writing and of the reading thread
    interleave, on whatever lap of the 32-bit indices the queue is, no step
    accesses memory outside the blocks, and what the threads see is a FIFO:
    [Front] returns null only when no message is in flight and otherwise the
    oldest one, every word the reader reads is a word of that message, and
    [Pop] removes it; so the popped messages followed by those in flight are
    the pushed ones, in order. *)
Theorem spsc_linearizable Bytes i acts o :
  Bytes_ok Bytes → run Bytes (start Bytes i) acts = Some o →
  ∃ es s pending, o = Ret (es, s) ∧ fifo_run [] es = Some pending ∧
                  pushes es = pops es ++ pending.
Proof.
  intros HB Hr. destruct (run_ok Bytes HB acts _ _ _ (start_inv Bytes HB i) Hr)
    as (es & s & pending & -> & Hf & _).
  exists es, s, pending. split; [done|]. split; [done|]. by apply (fifo_run_order es []).
Qed.

(** A message of one block at the end of a lap, one of two blocks that needs
    padding, one of five that needs a fresh [read_idx]; the reader looks
    between the steps of the writer. *)
Definition ex_acts : list action :=
  [RLoad; AStart 16; AHeader; AType 7; ACell 1 (mkMsgHeader 1 1 1); RLoad;
   ACell 2 (mkMsgHeader 2 2 2); APush; RLoad; RCheck; RRead 1;
   AStart 100; ARewind; RLoad; AHeader; RCheck; AType 8; APush; RRead 0; RPop;
   AStart 300; ALoad; RLoad; AHeader; RCheck; AType 9; RRead 0; APush; RPop; RLoad; RCheck;
   AStart 8; ALoad; RPop; RLoad].

Lemma Bytes_ok_512 : Bytes_ok 512.
Proof. split; [lia|]. by exists 3. Qed.

Lemma spsc_linearizable_witness :
  ∃ o, run 512 (start 512 4294967294) ex_acts = Some o ∧
  ∃ es s pending, o = Ret (es, s) ∧ fifo_run [] es = Some pending ∧
                  pushes es = pops es ++ pending.
Proof.
  destruct (run 512 (start 512 4294967294) ex_acts) as [o|] eqn:Hr.
  - exists o. split; [reflexivity|].
    apply (spsc_linearizable 512 4294967294 ex_acts o Bytes_ok_512 Hr).
  - exfalso. revert Hr. vm_compute. discriminate.
Defined.

(** ** Data races *)

Lemma reachable_inv Bytes i acts es s :
  Bytes_ok Bytes → run Bytes (start Bytes i) acts = Some (Ret (es, s)) →
  ∃ pending, Inv Bytes s pending [].
Proof.
  intros HB Hr. destruct (run_ok Bytes HB acts _ _ _ (start_inv Bytes HB i) Hr)
    as (es' & s' & pending & [= <- <-] & _ & Hinv). by exists pending.
Qed.

(** C29: in every reachable state, the words that the next step of the writing
    thread may store are not among the words the next step of the reading
    thread may load: the array is free of data races, and only the indices
    (which are atomic) are shared. *)
Theorem spsc_race_free Bytes i acts es s a a' o o' x :
  Bytes_ok Bytes → run Bytes (start Bytes i) acts = Some (Ret (es, s)) →
  do_action Bytes s a = Some o → do_action Bytes s a' = Some o' →
  x ∈ writes Bytes s a → x ∉ reads Bytes s a'.
Proof.
  intros HB Hr Ho Ho' Hx Hy. destruct (reachable_inv _ _ _ _ _ HB Hr) as [pending Hinv].
  by apply (no_race Bytes HB s pending [] a a' o o' x).
Qed.

(** A reader holds a message of five blocks while the writer fills another. *)
Definition ex_race_acts : list action :=
  [AStart 300; ARewind; AHeader; AType 9; APush; RLoad; RCheck; AStart 48; AHeader].

Definition ex_state (acts : list action) : sys :=
  match run 512 (start 512 4294967294) acts with Some (Ret (_, s)) => s | _ => start 512 0 end.

Lemma spsc_race_free_witness :
  46 ∈ writes 512 (ex_state ex_race_acts) (ACell 6 zero_header) ∧
  (∃ o, do_action 512 (ex_state ex_race_acts) (RRead 38) = Some o) ∧
  46 ∉ reads 512 (ex_state ex_race_acts) (RRead 38).
Proof.
  split; [vm_compute; by left|]. split; [eexists; vm_compute; reflexivity|].
  eapply (spsc_race_free 512 4294967294 ex_race_acts _ _ (ACell 6 zero_header));
    [exact Bytes_ok_512|vm_compute; reflexivity|vm_compute; reflexivity|
     vm_compute; reflexivity|vm_compute; by left].
Defined.

(** ** Alloc *)

(** In every reachable state [Alloc] answers by the blocks that are free
    now, whatever index it has cached: it refuses exactly when the blocks in
    use, the padding and the message exceed the array, and then changes
    nothing but the cached index; otherwise it returns a block where the
    message lies in one piece, with the size in its header, and neither
    publishes nor consumes anything. *)
Theorem spsc_Alloc_correct Bytes i acts es s size :
  Bytes_ok Bytes → run Bytes (start Bytes i) acts = Some (Ret (es, s)) → 0 ≤ size ≤ 65527 →
  if has_room Bytes (queue s) size
  then ∃ p q', Alloc Bytes (queue s) size = Ret (Some p, q') ∧
               alloc_granted Bytes (queue s) q' size p
  else Alloc Bytes (queue s) size = Ret (None, Alloc_load (queue s)).
Proof.
  intros HB Hr Hs. destruct (reachable_inv _ _ _ _ _ HB Hr) as [pending Hinv].
  by apply (Alloc_spec Bytes HB s pending [] size).
Qed.

(** With five blocks held, the last three are free. *)
Definition ex_three_free : sys := ex_state (take 7 ex_race_acts).

Lemma ex_three_free_run :
  ∃ es, run 512 (start 512 4294967294) (take 7 ex_race_acts) = Some (Ret (es, ex_three_free)).
Proof. eexists. vm_compute. reflexivity. Qed.

Lemma spsc_Alloc_correct_witness :
  Alloc 512 (queue ex_three_free) 185 = Ret (None, Alloc_load (queue ex_three_free)) ∧
  (∃ p q', Alloc 512 (queue ex_three_free) 184 = Ret (Some p, q') ∧
           alloc_granted 512 (queue ex_three_free) q' 184 p).
Proof.
  destruct ex_three_free_run as [es Hr]. split.
  - pose proof (spsc_Alloc_correct 512 _ _ _ _ 185 Bytes_ok_512 Hr ltac:(lia)) as H.
    assert (has_room 512 (queue ex_three_free) 185 = false) as Hf by (vm_compute; reflexivity).
    rewrite Hf in H. exact H.
  - pose proof (spsc_Alloc_correct 512 _ _ _ _ 184 Bytes_ok_512 Hr ltac:(lia)) as H.
    assert (has_room 512 (queue ex_three_free) 184 = true) as Hf by (vm_compute; reflexivity).
    rewrite Hf in H. exact H.
Defined.

Lemma msg_blk_sz_pos size : 0 ≤ size ≤ 65527 → 0 < msg_blk_sz size.
Proof.
  intros. apply (blk_count_range (size + sizeof_MsgHeader)). unfold sizeof_MsgHeader. lia.
Qed.

Lemma empty_used q : read_idx q = write_idx q → used q = 0.
Proof. unfold used. intros ->. by rewrite Z.sub_diag. Qed.

(** An empty queue accepts every message of at most half of its blocks,
    wherever the indices stand. *)
Theorem spsc_empty_accepts Bytes i acts es s size :
  Bytes_ok Bytes → run Bytes (start Bytes i) acts = Some (Ret (es, s)) → 0 ≤ size ≤ 65527 →
  read_idx (queue s) = write_idx (queue s) → 2 * msg_blk_sz size ≤ BLK_CNT Bytes →
  ∃ p q', Alloc Bytes (queue s) size = Ret (Some p, q') ∧
          alloc_granted Bytes (queue s) q' size p.
Proof.
  intros HB Hr Hs He Hhalf. destruct (reachable_inv _ _ _ _ _ HB Hr) as [pending Hinv].
  pose proof (Alloc_spec Bytes HB s pending [] size Hinv Hs) as H.
  pose proof (msg_blk_sz_pos size Hs).
  replace (has_room Bytes (queue s) size) with true in H; [exact H|].
  symmetry. apply Z.leb_le. rewrite empty_used by done. unfold padding.
  destruct (Z.ltb_spec (BLK_CNT Bytes - write_idx (queue s) mod BLK_CNT Bytes) (msg_blk_sz size)); lia.
Qed.

(** [Alloc], [n] times, as a writer that waits for room calls it. *)
Fixpoint retry (Bytes : Z) (n : nat) (q : SPSCVarQueue) (size : Z) : outcome (option Z * SPSCVarQueue) :=
  '(p, q) ← Alloc Bytes q size;
  match p, n with
  | None, S n => retry Bytes n q size
  | _, _ => Ret (p, q)
  end.

(** An empty queue may refuse a message that is smaller than the queue,
    and goes on refusing it: when the rest of the lap is too short for the
    message and skipping it leaves too few blocks, no number of calls to
    [Alloc] succeeds, although there is nothing left to read. *)
Theorem spsc_Alloc_starves Bytes i acts es s size n :
  Bytes_ok Bytes → run Bytes (start Bytes i) acts = Some (Ret (es, s)) → 0 ≤ size ≤ 65527 →
  read_idx (queue s) = write_idx (queue s) → msg_blk_sz size ≤ BLK_CNT Bytes →
  BLK_CNT Bytes - write_idx (queue s) mod BLK_CNT Bytes < msg_blk_sz size →
  write_idx (queue s) mod BLK_CNT Bytes < msg_blk_sz size →
  ∃ q', retry Bytes n (queue s) size = Ret (None, q') ∧
        blk q' = blk (queue s) ∧ read_idx q' = write_idx q'.
Proof.
  intros HB Hr Hs He Hfit Hpad Hrest. destruct (reachable_inv _ _ _ _ _ HB Hr) as [pending Hinv].
  pose proof (Alloc_spec Bytes HB s pending [] size Hinv Hs) as H.
  assert (has_room Bytes (queue s) size = false) as Hroom.
  { apply Z.leb_gt. rewrite empty_used by done. unfold padding. rewrite (proj2 (Z.ltb_lt _ _)); lia. }
  rewrite Hroom in H. assert (Alloc Bytes (Alloc_load (queue s)) size = Ret (None, Alloc_load (queue s))) as H'.
  { revert H. unfold Alloc.
    change (Alloc_load (Alloc_load (queue s))) with (Alloc_load (queue s)).
    change (Alloc_vars Bytes (Alloc_load (queue s)) size) with (Alloc_vars Bytes (queue s) size).
    destruct (Alloc_check (queue s) _), (Alloc_check (Alloc_load (queue s)) _); try done.
    intros (q & _ & (? & _ & [=])%outcome_bind_inv)%outcome_bind_inv. }
  exists (Alloc_load (queue s)). split; [|done].
  destruct n as [|n]; simpl; rewrite H; [done|]. simpl.
  induction n as [|n IH]; simpl; rewrite H'; [done|]. apply IH.
Qed.

(** 5 blocks written and read, so both indices stand at block 5 of 8. *)
Definition ex_empty_acts : list action := take 7 ex_race_acts ++ [RPop].
Definition ex_empty : sys := ex_state ex_empty_acts.

Lemma ex_empty_run :
  ∃ es, run 512 (start 512 4294967294) ex_empty_acts = Some (Ret (es, ex_empty)).
Proof. eexists. vm_compute. reflexivity. Qed.

Lemma spsc_empty_accepts_witness :
  ∃ p q', Alloc 512 (queue ex_empty) 248 = Ret (Some p, q') ∧
          alloc_granted 512 (queue ex_empty) q' 248 p.
Proof.
  destruct ex_empty_run as [es Hr].
  apply (spsc_empty_accepts 512 _ _ _ _ 248 Bytes_ok_512 Hr);
    [lia|vm_compute; reflexivity|vm_compute; discriminate].
Defined.

Lemma spsc_Alloc_starves_witness :
  ∃ q', retry 512 1000 (queue ex_empty) 400 = Ret (None, q') ∧
        blk q' = blk (queue ex_empty) ∧ read_idx q' = write_idx q'.
Proof.
  destruct ex_empty_run as [es Hr].
  apply (spsc_Alloc_starves 512 _ _ _ _ 400 1000 Bytes_ok_512 Hr);
    [lia|vm_compute; reflexivity|vm_compute; discriminate|vm_compute; reflexivity|
     vm_compute; reflexivity].
Defined.

(** [Alloc(65528)] wraps its 16-bit size to 0, counts no blocks, and so is
    granted even by a full queue, where the header it clears is that of the
    oldest message in flight. *)
Theorem spsc_Alloc_size_wraps Bytes i acts es s :
  Bytes_ok Bytes → run Bytes (start Bytes i) acts = Some (Ret (es, s)) →
  used (queue s) = BLK_CNT Bytes →
  ∃ p q' h, Alloc Bytes (queue s) 65528 = Ret (Some p, q') ∧
            read_idx q' = read_idx (queue s) ∧
            get_header Bytes (blk q') (read_idx q') = Ret h ∧ mh_size h = 0.
Proof.
  intros HB Hr Hfull. destruct (reachable_inv _ _ _ _ _ HB Hr) as [pending (R & A & E & W & C & Hinv)].
  rewrite (used_inv _ HB _ _ _ _ _ _ _ _ Hinv) in Hfull.
  destruct Hinv as [[Hlen Hord _ _ _ _] _ HR _ HW HC].
  pose proof (B_range _ HB). pose proof (mod_B _ HB W).
  unfold Alloc. set (v := Alloc_vars Bytes (queue s) 65528).
  assert (av_rewind v = false ∧ av_min_read_idx v = u32 (W - BLK_CNT Bytes)) as [Hrw Hmin].
  { unfold v, Alloc_vars. simpl. rewrite HW, (u32_mod_B _ HB).
    change (u32 (blk_count _)) with 0. rewrite (u32_small (BLK_CNT Bytes - _)) by lia.
    rewrite (proj2 (Z.ltb_ge _ 0)) by lia. split; [done|].
    rewrite !Z.add_0_r. by rewrite u32_sub_l. }
  assert (Alloc_check (queue s) v = false) as ->.
  { unfold Alloc_check. rewrite HC, Hmin, i32_serial by lia. apply Z.ltb_ge. lia. }
  destruct (put_size_store _ HB (blk (queue s)) W 0 Hlen) as (h & _ & Hput).
  unfold Alloc_write, Alloc_rewind, Alloc_header. rewrite Hrw, outcome_bind_Ret.
  change (av_size v) with 0. rewrite HW, (put_size_u32 _ HB), Hput, !outcome_bind_Ret.
  do 3 eexists. split; [done|]. split; [done|]. simpl. rewrite HR, (get_header_u32 _ HB).
  assert (header_at Bytes R = header_at Bytes W) as Heq.
  { unfold header_at. replace R with (W + (-1) * BLK_CNT Bytes) by lia.
    rewrite Z.mod_add by lia. done. }
  split; [unfold get_header; rewrite Heq; by apply store_header|reflexivity].
Qed.

(** 5 blocks held, 3 more published. *)
Definition ex_full_acts : list action := take 7 ex_race_acts ++ [AStart 184; ALoad; AHeader; APush].
Definition ex_full : sys := ex_state ex_full_acts.

Lemma spsc_Alloc_size_wraps_witness :
  ∃ p q' h, Alloc 512 (queue ex_full) 65528 = Ret (Some p, q') ∧
            read_idx q' = read_idx (queue ex_full) ∧
            get_header 512 (blk q') (read_idx q') = Ret h ∧ mh_size h = 0.
Proof.
  eapply (spsc_Alloc_size_wraps 512 4294967294 ex_full_acts);
    [exact Bytes_ok_512|vm_compute; reflexivity|vm_compute; reflexivity].
Defined.
