(* ===== verification/SpscCrash.v ===== *)
(** * The shared-memory queue when processes die

    The queue lies in shared memory: a process that dies leaves there what it
    had stored, and the process that starts again maps the same file.  Of the
    stores of [SpscConcurrent]'s steps only two are more than one, that of
    the padding in [Alloc] and [Push]; [Alloc_rewind_cut] and [Push_cut] are
    those up to the point between the two stores.  [crash_run] are the
    interleavings in which either process may die at any store.

    [fifo_crash_run] is what is left of the contract: a FIFO, in which a
    message whose [Push] was cut short is there, but is seen only when the
    next one is pushed.  [spsc_drains]: the reader alone empties it. *)

From S2P Require Import Prelude.
From S2P Require Import Arrays.
From S2P Require Import MsgHeader.
From S2P Require Import SpscQueue.
From S2P Require Import SpscConcurrent.
From S2P Require Import SpscInv.
From S2P Require Import SpscAlloc.
From S2P Require Import SpscProps.

(** ** The system *)

Inductive crash_action : Type :=
  | CStep (a : action)  (* a step of one of the threads *)
  | CWriter             (* the writing process dies between two steps *)
  | CRewind             (* it dies in Alloc, with the padding marked *)
  | CPush               (* it dies in Push, with write_idx stored *)
  | CReader.            (* the reading process dies *)

Inductive crash_event : Type :=
  | CEvent (e : event)
  | CLate (m : list MsgHeader)  (* a message is written, but not published *)
  | CDied.

Section crash.
Context (Bytes : Z).

(** [blk[write_idx % BLK_CNT].header.size = 0], without [write_idx += padding_sz]. *)
Definition Alloc_rewind_cut (q : SPSCVarQueue) : outcome SPSCVarQueue :=
  b ← put_size Bytes (blk q) (write_idx q) 0;
  Ret (set_blk q b).

(** [write_idx += blk_sz], without the store into [write_idx_atom]. *)
Definition Push_cut (q : SPSCVarQueue) : outcome SPSCVarQueue :=
  h ← get_header Bytes (blk q) (write_idx q);
  Ret (set_write_idx q (u32 (write_idx q + u32 (blk_count (mh_size h))))).

Definition do_crash (s : sys) (a : crash_action) : option (outcome (crash_event * sys)) :=
  let q := queue s in
  match a, wr s with
  | CStep a, _ =>
      match do_action Bytes s a with
      | Some o => Some ('(e, s) ← o; Ret (CEvent e, s))
      | None => None
      end
  | CWriter, _ => Some (Ret (CDied, mkSys q WIdle (rd s)))
  | CRewind, WRewind v => Some (q ← Alloc_rewind_cut q; Ret (CDied, mkSys q WIdle (rd s)))
  | CPush, WFill =>
      Some (m ← message_at Bytes (blk q) (write_idx q);
            q ← Push_cut q; Ret (CLate m, mkSys q WIdle (rd s)))
  | CReader, _ => Some (Ret (CDied, mkSys q (wr s) RIdle))
  | _, _ => None
  end.

Fixpoint crash_run (s : sys) (acts : list crash_action)
    : option (outcome (list crash_event * sys)) :=
  match acts with
  | [] => Some (Ret ([], s))
  | a :: acts =>
      match do_crash s a with
      | Some (Ret (e, s)) =>
          match crash_run s acts with
          | Some (Ret (es, s)) => Some (Ret (e :: es, s))
          | r => r
          end
      | Some Undef => Some Undef
      | Some NoFuel => Some NoFuel
      | None => None
      end
  end.
End crash.

(** ** The contract *)

Definition fifo_crash_step (pending late : list (list MsgHeader)) (e : crash_event)
    : option (list (list MsgHeader) * list (list MsgHeader)) :=
  match e with
  | CEvent e => late_step pending late e
  | CLate m => Some (pending, late ++ [m])
  | CDied => Some (pending, late)
  end.

Fixpoint fifo_crash_run (pending late : list (list MsgHeader)) (es : list crash_event)
    : option (list (list MsgHeader) * list (list MsgHeader)) :=
  match es with
  | [] => Some (pending, late)
  | e :: es =>
      match fifo_crash_step pending late e with
      | Some (pending, late) => fifo_crash_run pending late es
      | None => None
      end
  end.

Lemma fifo_crash_run_app es1 es2 : ∀ pending late pending1 late1,
  fifo_crash_run pending late es1 = Some (pending1, late1) →
  fifo_crash_run pending late (es1 ++ es2) = fifo_crash_run pending1 late1 es2.
Proof.
  induction es1 as [|e es1 IH]; intros pending late pending1 late1 H; simpl in *; [by injection H as -> ->|].
  destruct (fifo_crash_step _ _ _) as [[p l]|]; [|done]. by apply IH.
Qed.

(** The messages that [Push] was called for, and those that were popped. *)
Definition written (es : list crash_event) : list (list MsgHeader) :=
  omap (λ e, match e with CEvent (EPush m) | CLate m => Some m | _ => None end) es.
Definition popped (es : list crash_event) : list (list MsgHeader) :=
  omap (λ e, match e with CEvent (EPop m) => Some m | _ => None end) es.

Lemma fifo_step_pending pending e p :
  (∀ m, e ≠ EPush m) → fifo_step pending e = Some p →
  pending = popped [CEvent e] ++ p.
Proof.
  intros Hp. destruct e as [|b|m|[m|]|j w|m]; simpl; intros H; try by simplify_eq.
  - by edestruct Hp.
  - by case_decide; simplify_eq.
  - by case_decide; simplify_eq.
  - destruct pending; [done|]. by case_decide; simplify_eq.
  - destruct pending as [|m' p']; [by rewrite decide_False in H|]. simpl in H. case_decide; by simplify_eq.
Qed.

Lemma fifo_crash_order es : ∀ pending late pending' late',
  fifo_crash_run pending late es = Some (pending', late') →
  pending ++ late ++ written es = popped es ++ pending' ++ late'.
Proof.
  induction es as [|e es IH]; intros pending late pending' late' H; simpl in H.
  { injection H as -> ->. by rewrite app_nil_r. }
  destruct (fifo_crash_step pending late e) as [[p l]|] eqn:Hs; [|done]. apply IH in H.
  change (written (e :: es)) with (written ([e] ++ es)). change (popped (e :: es)) with (popped ([e] ++ es)).
  unfold written, popped in *. rewrite !omap_app, <-!app_assoc, <-H. clear H IH.
  destruct e as [e|m|]; simpl in Hs.
  - assert ((∃ m, e = EPush m) ∨ ∀ m, e ≠ EPush m) as [[m ->]|Hne] by (destruct e; eauto).
    { simpl in Hs. simplify_eq. simpl. by rewrite <-!app_assoc. }
    assert (fifo_step pending e = Some p ∧ l = late) as [Hf ->].
    { unfold late_step in Hs. destruct e; repeat case_match; simplify_eq; done || by edestruct Hne. }
    rewrite (fifo_step_pending _ _ _ Hne Hf) at 1. unfold popped.
    assert (omap (λ e, match e with CEvent (EPush m) | CLate m => Some m | _ => None end) [CEvent e] = []) as ->.
    { destruct e; try done. by edestruct Hne. }
    by rewrite <-app_assoc.
  - simplify_eq. simpl. by rewrite <-!app_assoc.
  - by simplify_eq.
Qed.

(** ** Every crash keeps the invariant *)

Section inv.
Context (Bytes : Z) (HB : Bytes_ok Bytes).

(** The two stores of [Push], and of the padding. *)
Lemma Push_split q :
  Push Bytes q = (q ← Push_cut Bytes q;
    Ret (mkSPSCVarQueue (blk q) (write_idx q) (write_idx q) (read_idx_cach q) (read_idx q))).
Proof. unfold Push, Push_cut. by destruct (get_header _ _ _). Qed.

Lemma Alloc_rewind_split q v :
  av_rewind v = true →
  Alloc_rewind Bytes q v = (q ← Alloc_rewind_cut Bytes q;
    Ret (set_write_idx q (u32 (write_idx q + av_padding_sz v)))).
Proof. unfold Alloc_rewind, Alloc_rewind_cut. intros ->. by destruct (put_size _ _ _ _). Qed.

Lemma inv_writer_died s pending late R A E W C :
  inv Bytes s pending late R A E W C → inv Bytes (mkSys (queue s) WIdle (rd s)) pending late R A E W C.
Proof. intros []. by constructor. Qed.

Lemma inv_reader_died s pending late R A E W C :
  inv Bytes s pending late R A E W C → inv Bytes (mkSys (queue s) (wr s) RIdle) pending late R A E W C.
Proof. intros []. constructor; try done. by apply (core_rd _ _ (rd s)). Qed.

(** What a step must achieve. *)
Definition crash_ok (o : outcome (crash_event * sys)) (pending late : list (list MsgHeader)) : Prop :=
  ∃ ev s' pending' late', o = Ret (ev, s') ∧
    fifo_crash_step pending late ev = Some (pending', late') ∧ Inv Bytes s' pending' late'.

Lemma rewind_cut_ok s pending late R A E W C v :
  inv Bytes s pending late R A E W C → wr s = WRewind v →
  crash_ok (q ← Alloc_rewind_cut Bytes (queue s); Ret (CDied, mkSys q WIdle (rd s))) pending late.
Proof.
  intros [Hc Hw Hr Ha HW HC] Hv. rewrite Hv in Hw. destruct Hw as ((Hs & _) & _ & Hroom).
  pose proof (blk_count_range (av_size v) ltac:(lia)). pose proof (mod_B _ HB W).
  destruct (put_size_store _ HB (blk (queue s)) W 0) as (h & Hh & Hput); [by destruct Hc|].
  unfold Alloc_rewind_cut. rewrite HW, (put_size_u32 _ HB), Hput, outcome_bind_Ret, outcome_bind_Ret.
  do 4 eexists. split; [done|]. split; [done|]. exists R, A, E, W, C. constructor; simpl; try done.
  apply (core_store _ HB _ _ _ _ _ _ _ _ _ 1 0); (done || lia).
Qed.

(** The message at [W] is written, but not published. *)
Lemma core_late b r pending late R A E W C m :
  core Bytes b r pending late R A E W C → msg_at Bytes b W m → W + msg_blocks m ≤ C + BLK_CNT Bytes →
  core Bytes b r pending (late ++ [m]) R A (W + msg_blocks m) (W + msg_blocks m) C.
Proof.
  intros [Hlen Hord Hch Hla Htail Hr] Hm Hroom. pose proof (msg_at_blocks _ _ _ _ Hm).
  constructor; [done|lia|done| |by left|done].
  eapply chain_app; [exact Hla|]. destruct Htail as [->|[Hp ->]]; [apply chain_msg|apply chain_pad]; auto using chain.
Qed.

Lemma push_cut_ok s pending late R A E W C :
  inv Bytes s pending late R A E W C → wr s = WFill →
  crash_ok (m ← message_at Bytes (blk (queue s)) (write_idx (queue s));
            q ← Push_cut Bytes (queue s); Ret (CLate m, mkSys q WIdle (rd s))) pending late.
Proof.
  intros [Hc Hw Hr Ha HW HC] Hv. rewrite Hv in Hw. destruct Hw as (h & Hh & Hs & Hlap & Hroom).
  destruct (winv_message _ _ _ _ Hh Hs Hlap) as (m & Hm & Hb).
  rewrite HW, (message_at_u32 _ HB), (message_at_msg _ _ _ _ Hm), outcome_bind_Ret.
  unfold Push_cut. rewrite HW, (get_header_u32 _ HB), Hh, outcome_bind_Ret, outcome_bind_Ret.
  do 4 eexists. split; [done|]. split; [done|].
  exists R, A, (W + msg_blocks m), (W + msg_blocks m), C. rewrite u32_add_r, u32_add_l, <-Hb.
  constructor; simpl; try done. apply (core_late _ _ _ _ _ _ E); (done || lia).
Qed.

Lemma do_crash_ok s pending late a o :
  Inv Bytes s pending late → do_crash Bytes s a = Some o → crash_ok o pending late.
Proof.
  intros Hinv Ho. pose proof Hinv as (R & A & E & W & C & Hi). unfold do_crash in Ho. destruct a as [a| | | |].
  - destruct (do_action Bytes s a) as [o1|] eqn:Ha; [|done]. injection Ho as <-.
    destruct (do_action_ok Bytes HB _ _ _ _ _ Hinv Ha) as (ev & s1 & p1 & l1 & -> & Hf & Hinv1).
    by exists (CEvent ev), s1, p1, l1.
  - injection Ho as <-. do 4 eexists. split; [done|]. split; [done|].
    exists R, A, E, W, C. by apply inv_writer_died.
  - destruct (wr s) eqn:Hw; try done. injection Ho as <-. by eapply rewind_cut_ok.
  - destruct (wr s) eqn:Hw; try done. injection Ho as <-. by eapply push_cut_ok.
  - injection Ho as <-. do 4 eexists. split; [done|]. split; [done|].
    exists R, A, E, W, C. by apply inv_reader_died.
Qed.

Lemma crash_run_ok acts : ∀ s pending late o,
  Inv Bytes s pending late → crash_run Bytes s acts = Some o →
  ∃ es s' pending' late', o = Ret (es, s') ∧
    fifo_crash_run pending late es = Some (pending', late') ∧ Inv Bytes s' pending' late'.
Proof.
  induction acts as [|a acts IH]; intros s pending late o Hinv Ho; simpl in Ho.
  - injection Ho as <-. by exists [], s, pending, late.
  - destruct (do_crash Bytes s a) as [o1|] eqn:Ha; [|done].
    destruct (do_crash_ok _ _ _ _ _ Hinv Ha) as (ev & s1 & p1 & l1 & -> & Hf & Hinv1).
    destruct (crash_run Bytes s1 acts) as [o2|] eqn:Hr; [|done].
    destruct (IH _ _ _ _ Hinv1 Hr) as (es & s2 & p2 & l2 & -> & Hf2 & Hinv2).
    injection Ho as <-. exists (ev :: es), s2, p2, l2. simpl. by rewrite Hf.
Qed.
End inv.

(** ** Properties *)

(** C4: whatever processes die at whatever stores, and start again on the
    memory they left, no step of the others accesses memory outside the blocks,
    and the queue stays a FIFO that neither loses nor repeats a message that
    [Push] was called for: what the reader has popped, what it may see, and what
    a dead writer left behind unpublished are together those messages, in order;
    a message that the reader died with is the front again, and the next [Push]
    publishes the messages left behind before its own. *)
Theorem spsc_crash_fifo Bytes i acts o :
  Bytes_ok Bytes → crash_run Bytes (start Bytes i) acts = Some o →
  ∃ es s pending late, o = Ret (es, s) ∧ fifo_crash_run [] [] es = Some (pending, late) ∧
    written es = popped es ++ pending ++ late.
Proof.
  intros HB Hr. destruct (crash_run_ok Bytes HB acts _ _ _ _ (start_inv Bytes HB i) Hr)
    as (es & s & pending & late & -> & Hf & _).
  exists es, s, pending, late. split; [done|]. split; [done|]. by apply (fifo_crash_order es [] []).
Qed.

(** After crashes the threads do not race either, and [Alloc] answers by the
    blocks that are free, those of the unpublished messages not among them. *)
Theorem spsc_crash_sound Bytes i acts es s :
  Bytes_ok Bytes → crash_run Bytes (start Bytes i) acts = Some (Ret (es, s)) →
  (∀ a a' o o' x, do_action Bytes s a = Some o → do_action Bytes s a' = Some o' →
     x ∈ writes Bytes s a → x ∉ reads Bytes s a') ∧
  (∀ size, 0 ≤ size ≤ 65527 →
     if has_room Bytes (queue s) size
     then ∃ p q', Alloc Bytes (queue s) size = Ret (Some p, q') ∧ alloc_granted Bytes (queue s) q' size p
     else Alloc Bytes (queue s) size = Ret (None, Alloc_load (queue s))).
Proof.
  intros HB Hr. destruct (crash_run_ok Bytes HB acts _ _ _ _ (start_inv Bytes HB i) Hr)
    as (es' & s' & pending & late & [= <- <-] & _ & Hinv). split.
  - intros a a' o o' x Ho Ho' Hx Hy. by apply (no_race Bytes HB s pending late a a' o o' x).
  - intros size. by apply (Alloc_spec Bytes HB _ pending late).
Qed.

(** A message is published; the writer dies in [Push] of a second one, and in
    [Alloc] of a third with the padding marked; the reader dies with the first
    message in hand.  Then the writer pushes a message, and the reader pops all
    three. *)
Definition ex_crash_acts : list crash_action :=
  (CStep <$> [AStart 16; AHeader; AType 7; APush; AStart 40; AHeader; AType 8]) ++ [CPush] ++
  (CStep <$> [RLoad; RCheck; AStart 300]) ++ [CRewind; CReader] ++
  (CStep <$> [RLoad; RCheck; RPop; RLoad; AStart 120; ARewind; AHeader; AType 9; APush;
              RLoad; RCheck; RPop; RLoad; RCheck; RPop; RLoad]).

Lemma spsc_crash_fifo_witness :
  ∃ es s pending late, crash_run 512 (start 512 4294967293) ex_crash_acts = Some (Ret (es, s)) ∧
    fifo_crash_run [] [] es = Some (pending, late) ∧ written es = popped es ++ pending ++ late ∧
    length (popped es) = 3%nat.
Proof.
  destruct (crash_run 512 (start 512 4294967293) ex_crash_acts) as [o|] eqn:Hr.
  - pose proof (spsc_crash_fifo 512 4294967293 ex_crash_acts o Bytes_ok_512 Hr) as (es & s & p & l & Ho & Hf & Hw).
    exists es, s, p, l. split; [by rewrite Ho|]. split; [exact Hf|]. split; [exact Hw|].
    subst o. revert Hr. vm_compute. intros [= <- _]. reflexivity.
  - exfalso. revert Hr. vm_compute. discriminate.
Defined.

(** *** The reader alone empties the queue *)

Definition reader_action (a : action) : bool := match a with RLoad | RCheck | RPop => true | _ => false end.

Section drain.
Context (Bytes : Z) (HB : Bytes_ok Bytes).

(** An action whose event the FIFO would not allow does not happen. *)
Lemma action_ok s pending late a ev s' :
  Inv Bytes s pending late → do_action Bytes s a = Some (Ret (ev, s')) →
  ∃ p l, late_step pending late ev = Some (p, l) ∧ Inv Bytes s' p l.
Proof.
  intros Hinv Ho. destruct (do_action_ok Bytes HB _ _ _ _ _ Hinv Ho) as (ev' & s1 & p & l & [= <- <-] & Hf & Hi). by exists p, l.
Qed.

Lemma load_ok s m pending late :
  Inv Bytes s (m :: pending) late → rd s = RIdle →
  ∃ s' cw cr, do_action Bytes s RLoad = Some (Ret (ENone, s')) ∧ rd s' = RLoaded cw cr ∧ Inv Bytes s' (m :: pending) late.
Proof.
  intros Hinv Hr.
  assert (do_action Bytes s RLoad = Some (Ret (match Front_load (queue s) with
    | None => (EFront None, mkSys (queue s) (wr s) RIdle)
    | Some (cw, cr) => (ENone, mkSys (queue s) (wr s) (RLoaded cw cr)) end))) as Ho.
  { cbn [do_action]. rewrite Hr. by destruct (wr s). }
  destruct (Front_load (queue s)) as [[cw cr]|]; destruct (action_ok _ _ _ _ _ _ Hinv Ho) as (p & l & Hf & Hi); [|done].
  eexists _, cw, cr. split; [exact Ho|]. split; [done|]. by injection Hf as <- <-.
Qed.

Lemma check_ok s m pending late cw cr :
  Inv Bytes s (m :: pending) late → rd s = RLoaded cw cr →
  ∃ s' i, do_action Bytes s RCheck = Some (Ret (EFront (Some m), s')) ∧ rd s' = RHold i ∧ Inv Bytes s' (m :: pending) late.
Proof.
  intros Hinv Hr. destruct (do_action Bytes s RCheck) as [o|] eqn:Ho; [|cbn [do_action] in Ho; rewrite Hr in Ho; by destruct (wr s)].
  destruct (do_action_ok Bytes HB _ _ _ _ _ Hinv Ho) as (ev & s' & p & l & -> & Hf & Hi).
  assert (('(p, q) ← Front_check Bytes (queue s) cw cr;
           match p with
           | None => Ret (EFront None, mkSys q (wr s) RIdle)
           | Some i => m ← message_at Bytes (blk q) i; Ret (EFront (Some m), mkSys q (wr s) (RHold i))
           end) = Ret (ev, s')) as He.
  { cbn [do_action] in Ho. rewrite Hr in Ho. destruct (wr s); by injection Ho. }
  destruct (Front_check _ _ _ _) as [[[i|] q]| |]; [|by injection He as <- <-|done..]. rewrite outcome_bind_Ret in He.
  destruct (message_at _ _ _) as [m'| |]; [|done..]. injection He as <- <-. simpl in Hf.
  case_decide as Hm; [|done]. injection Hm as ->. injection Hf as <- <-. by eexists _, i.
Qed.

Lemma pop_ok s m pending late i :
  Inv Bytes s (m :: pending) late → rd s = RHold i →
  ∃ s', do_action Bytes s RPop = Some (Ret (EPop m, s')) ∧ rd s' = RIdle ∧ Inv Bytes s' pending late.
Proof.
  intros Hinv Hr. destruct (do_action Bytes s RPop) as [o|] eqn:Ho; [|cbn [do_action] in Ho; rewrite Hr in Ho; by destruct (wr s)].
  destruct (do_action_ok Bytes HB _ _ _ _ _ Hinv Ho) as (ev & s' & p & l & -> & Hf & Hi).
  assert ((m ← message_at Bytes (blk (queue s)) i; q ← Pop Bytes (queue s); Ret (EPop m, mkSys q (wr s) RIdle)) = Ret (ev, s')) as He.
  { cbn [do_action] in Ho. rewrite Hr in Ho. destruct (wr s); by injection Ho. }
  destruct (message_at _ _ _) as [m'| |]; [|done..]. rewrite outcome_bind_Ret in He.
  destruct (Pop _ _) as [q| |]; [|done..]. injection He as <- <-. simpl in Hf.
  case_decide as Hm; [|done]. injection Hm as ->. injection Hf as <- <-. by eexists.
Qed.

Lemma drain pending : ∀ s late,
  Inv Bytes s pending late → rd s = RIdle →
  ∃ acts es s', forallb reader_action acts = true ∧ length acts = (3 * length pending)%nat ∧
    crash_run Bytes s (CStep <$> acts) = Some (Ret (es, s')) ∧ popped es = pending ∧ Inv Bytes s' [] late.
Proof.
  induction pending as [|m pending IH]; intros s late Hinv Hr; [by exists [], [], s|].
  destruct (load_ok _ _ _ _ Hinv Hr) as (s1 & cw & cr & H1 & Hr1 & Hi1).
  destruct (check_ok _ _ _ _ _ _ Hi1 Hr1) as (s2 & i & H2 & Hr2 & Hi2).
  destruct (pop_ok _ _ _ _ _ Hi2 Hr2) as (s3 & H3 & Hr3 & Hi3).
  destruct (IH s3 late Hi3 Hr3) as (acts & es & s' & Ha & Hl & Hrun & Hp & Hi').
  exists (RLoad :: RCheck :: RPop :: acts), (CEvent ENone :: CEvent (EFront (Some m)) :: CEvent (EPop m) :: es), s'.
  split; [done|]. split; [simpl; lia|]. split; [|split; [by rewrite <-Hp|done]].
  rewrite !fmap_cons. cbn [crash_run do_crash]. rewrite H1, outcome_bind_Ret. cbn [crash_run do_crash].
  rewrite H2, outcome_bind_Ret, H3, outcome_bind_Ret, Hrun. done.
Qed.
End drain.

(** C6: a message that was published is read: in every state that processes
    which die and start again can reach, the reading thread alone, in three
    steps for each message, pops all the messages that may be seen, in order,
    and then nothing is left to see. *)
Theorem spsc_drains Bytes i acts es s :
  Bytes_ok Bytes → crash_run Bytes (start Bytes i) acts = Some (Ret (es, s)) → rd s = RIdle →
  ∃ pending late acts' es' s', fifo_crash_run [] [] es = Some (pending, late) ∧
    forallb reader_action acts' = true ∧ length acts' = (3 * length pending)%nat ∧
    crash_run Bytes s (CStep <$> acts') = Some (Ret (es', s')) ∧ popped es' = pending ∧
    read_idx (queue s') = write_idx_atom (queue s').
Proof.
  intros HB Hr Hrd. destruct (crash_run_ok Bytes HB acts _ _ _ _ (start_inv Bytes HB i) Hr)
    as (es1 & s1 & pending & late & [= <- <-] & Hf & Hinv).
  destruct (drain Bytes HB pending s late Hinv Hrd) as (acts' & es' & s' & Ha & Hl & Hrun & Hp & (R & A & E & W & C & Hi)).
  exists pending, late, acts', es', s'. split_and!; try done.
  destruct Hi as [Hc _ HR HA _ _]. rewrite HR, HA. f_equal. pose proof (c_chain _ _ _ _ _ _ _ _ _ _ Hc) as Hch. by inversion Hch.
Qed.

(** Two messages, and one that was not published. *)
Definition ex_drain_acts : list crash_action :=
  (CStep <$> [AStart 16; AHeader; AType 7; APush; AStart 40; AHeader; AType 8; APush; AStart 24; AHeader; AType 9]) ++ [CPush].

Lemma ex_drain_returns :
  ∃ es s, crash_run 512 (start 512 4294967293) ex_drain_acts = Some (Ret (es, s)) ∧ rd s = RIdle ∧
    match fifo_crash_run [] [] es with Some (pending, late) => (length pending, length late) | None => (0, 0)%nat end = (2, 1)%nat.
Proof.
  assert (match crash_run 512 (start 512 4294967293) ex_drain_acts with
          | Some (Ret (es, s)) => match rd s, fifo_crash_run [] [] es with RIdle, Some ([_; _], [_]) => true | _, _ => false end
          | _ => false end = true) as Hc by (vm_compute; reflexivity).
  destruct (crash_run _ _ _) as [[[es s]| |]|]; try discriminate Hc. exists es, s. split; [reflexivity|].
  destruct (rd s); try discriminate Hc. split; [reflexivity|].
  by destruct (fifo_crash_run [] [] es) as [[[|? [|? []]] [|? []]]|].
Qed.

Lemma spsc_drains_witness :
  ∃ es s acts' es' s', crash_run 512 (start 512 4294967293) ex_drain_acts = Some (Ret (es, s)) ∧
    crash_run 512 s (CStep <$> acts') = Some (Ret (es', s')) ∧ length acts' = 6%nat ∧ length (popped es') = 2%nat.
Proof.
  destruct ex_drain_returns as (es & s & Hr & Hrd & Hn).
  destruct (spsc_drains 512 4294967293 ex_drain_acts es s Bytes_ok_512 Hr Hrd)
    as (pending & late & acts' & es' & s' & Hf & _ & Hl & Hr' & Hp & _).
  rewrite Hf in Hn. injection Hn as Hn _. exists es, s, acts', es', s'. split; [exact Hr|]. split; [exact Hr'|].
  rewrite Hl, Hp, Hn. split; reflexivity.
Defined.

(** *** A queue that is stuck *)

Definition silent (e : crash_event) : bool :=
  match e with CEvent (ENone | EAlloc false | EFront None) | CDied => true | _ => false end.

Section stuck.
Context (Bytes : Z) (HB : Bytes_ok Bytes) (R : Z).

(** All blocks are taken by messages that are not published. *)
Record all_late (q : SPSCVarQueue) : Prop := {
  al_write : write_idx q = u32 (R + BLK_CNT Bytes);
  al_atom : write_idx_atom q = u32 R;
  al_cach : read_idx_cach q = u32 R;
  al_read : read_idx q = u32 R
}.

Definition stuck (s : sys) : Prop :=
  all_late (queue s) ∧ rd s = RIdle ∧
  match wr s with WIdle => True | WLoad v => vars_ok Bytes v (R + BLK_CNT Bytes) | _ => False end.

Lemma all_late_check q v :
  all_late q → vars_ok Bytes v (R + BLK_CNT Bytes) → Alloc_check q v = true.
Proof.
  intros [_ _ HC _] Hv. pose proof (B_range _ HB). rewrite (Alloc_check_ok _ HB q v _ R Hv HC) by lia.
  destruct Hv as (Hs & _). pose proof (blk_count_range (av_size v) ltac:(lia)).
  pose proof (mod_B _ HB (R + BLK_CNT Bytes)).
  apply Z.ltb_lt. unfold need. destruct (av_rewind v); lia.
Qed.

Lemma all_late_Front q : all_late q → Front_load q = None.
Proof. intros [_ Ha _ Hr]. unfold Front_load. by rewrite Ha, Hr, Z.eqb_refl. Qed.

Lemma stuck_step s a e s' :
  stuck s → do_crash Bytes s a = Some (Ret (e, s')) → silent e = true ∧ stuck s'.
Proof.
  intros (Hq & Hr & Hw) Ha. destruct s as [q w r]. cbn [queue wr rd] in *. subst r.
  destruct a as [a| | | |]; cbn [do_crash queue wr rd] in Ha; [|simplify_eq; done|by destruct w..|simplify_eq; done].
  destruct a; cbn [do_action queue wr rd] in Ha; destruct w as [|v|v|v|]; try done.
  - destruct (decide (0 ≤ size ≤ 65527)) as [Hs|]; [|done].
    pose proof (Alloc_vars_ok Bytes HB q size _ (al_write _ Hq) Hs) as Hv.
    cbv zeta in Ha. rewrite (all_late_check _ _ Hq Hv), outcome_bind_Ret in Ha. by simplify_eq.
  - assert (all_late (Alloc_load q)) as Hq' by (destruct Hq; by constructor).
    cbv zeta in Ha. rewrite (all_late_check _ _ Hq' Hw), outcome_bind_Ret in Ha. by simplify_eq.
  - rewrite (all_late_Front _ Hq), outcome_bind_Ret in Ha. by simplify_eq.
  - rewrite (all_late_Front _ Hq), outcome_bind_Ret in Ha. by simplify_eq.
Qed.

Lemma stuck_run acts : ∀ s es s',
  stuck s → crash_run Bytes s acts = Some (Ret (es, s')) → forallb silent es = true.
Proof.
  induction acts as [|a acts IH]; intros s es s' Hs Hr; simpl in Hr; [by simplify_eq|].
  destruct (do_crash Bytes s a) as [[[e s1]| |]|] eqn:Ha; try done.
  destruct (stuck_step _ _ _ _ Hs Ha) as [He Hs1].
  destruct (crash_run Bytes s1 acts) as [[[es1 s2]| |]|] eqn:Hr1; try done. simplify_eq. simpl.
  rewrite He. by eapply IH.
Qed.
End stuck.

(** C18: a writer that dies in [Push] can leave the queue stuck for good: when
    the messages it had not published take all the blocks, and the reader has
    read the others, then whatever the two processes do from there, and however
    often they start again, [Front] finds no message and [Alloc], whose size is
    at most 65527 here, has no room. *)
Theorem spsc_crash_stuck Bytes i acts es s acts' es' s' :
  Bytes_ok Bytes → crash_run Bytes (start Bytes i) acts = Some (Ret (es, s)) →
  wr s = WIdle → rd s = RIdle → read_idx (queue s) = write_idx_atom (queue s) →
  used (queue s) = BLK_CNT Bytes →
  crash_run Bytes s acts' = Some (Ret (es', s')) → forallb silent es' = true.
Proof.
  intros HB Hr Hwr Hrd Heq Hu. destruct (crash_run_ok Bytes HB acts _ _ _ _ (start_inv Bytes HB i) Hr)
    as (es1 & s1 & pending & late & [= <- <-] & _ & (R & A & E & W & C & Hinv)).
  rewrite (used_inv _ HB _ _ _ _ _ _ _ _ Hinv) in Hu. destruct Hinv as [Hc _ HR HA HW HC].
  pose proof (c_order _ _ _ _ _ _ _ _ _ _ Hc) as Hord. pose proof (B_range _ HB).
  rewrite HR, HA in Heq. apply u32_inj_near in Heq as ->; [|lia].
  apply (stuck_run Bytes HB A). split; [|by rewrite Hwr].
  constructor; try done; [rewrite HW|rewrite HC]; f_equal; lia.
Qed.

(** A writer fills all blocks with one message and dies in [Push]. *)
Definition ex_stuck_acts : list crash_action := (CStep <$> [AStart 504; AHeader; AType 7]) ++ [CPush].
Definition ex_stuck : sys :=
  match crash_run 512 (start 512 0) ex_stuck_acts with Some (Ret (_, s)) => s | _ => start 512 0 end.

Lemma spsc_crash_stuck_witness :
  ∃ es m, crash_run 512 (start 512 0) ex_stuck_acts = Some (Ret (es, ex_stuck)) ∧ written es = [m] ∧
    ∀ acts es' s', crash_run 512 ex_stuck acts = Some (Ret (es', s')) → forallb silent es' = true.
Proof.
  do 2 eexists. split; [vm_compute; reflexivity|]. split; [reflexivity|].
  intros acts es' s'. eapply (spsc_crash_stuck 512 0 ex_stuck_acts);
    [exact Bytes_ok_512|vm_compute; reflexivity..].
Defined.
