(* ===== verification/Platform.v ===== *)
(** * The platform: the configuration and the operating system

    [Conf] is the template parameter of the same name with the byte order of
    the host.  [Os] is what the code calls in the operating system, as an
    interface: every function takes the world [W] and returns its result with
    the world after the call.  [OsLaws] states what the code relies on.
    [my_mmap] and [my_munmap] are those of [mmap.h]. *)

From stdpp Require Export strings.
From S2P Require Import Prelude.
From S2P Require Import Arrays.
From S2P Require Import MsgHeader.
From S2P Require PtcpQueue.
From S2P Require SpscQueue.

#[global] Open Scope Z_scope.

(** ** Configuration *)

Class Conf := {
  NameSize : Z;
  ShmQueueSize : Z;
  ToLittleEndian : bool;
  TcpQueueSize : Z;
  TcpRecvBufInitSize : Z;
  TcpRecvBufMaxSize : Z;
  TcpNoDelay : bool;
  ConnectionTimeout : Z;
  HeartBeatInverval : Z;
  NewConnectionTimeout : Z;
  MaxNewConnections : Z;
  MaxShmConnsPerGrp : Z;
  MaxShmGrps : Z;
  MaxTcpConnsPerGrp : Z;
  MaxTcpGrps : Z;
  is_little_endian : bool
}.

(** The [static_assert]s; a buffer of 2 GB would not fit the [int] results of
    [read] and [send]. *)
Record Conf_ok `{Conf} : Prop := {
  conf_queue : PtcpQueue.Bytes_ok TcpQueueSize;
  conf_shm : SpscQueue.Bytes_ok ShmQueueSize;
  conf_init : 0 < TcpRecvBufInitSize;
  conf_max : TcpRecvBufInitSize ≤ TcpRecvBufMaxSize < 1073741824;
  conf_init_8 : TcpRecvBufInitSize mod 8 = 0;
  conf_max_8 : TcpRecvBufMaxSize mod 8 = 0
}.

(** ** System calls *)

(** A result, or -1 with [errno]. *)
Inductive sysret (A : Type) : Type :=
  | SysOk (a : A)
  | SysErr (errno : Z).
Arguments SysOk {A} a.
Arguments SysErr {A} errno.

Definition EAGAIN : Z := 11.

(** [os_readv fd lens]: [read] and [readv] into buffers of the lengths
    [lens]; the bytes returned fill the buffers in order. *)
Class Os (W : Type) := {
  os_send : Z → list Z → W → sysret Z * W;
  os_readv : Z → list Z → W → sysret (list Z) * W;
  os_close : Z → W → W
}.

(** A view of the world: the bytes that [send] has accepted on a descriptor
    so far, and those that [readv] has returned. *)
Class OsLog (W : Type) := {
  os_sent : Z → W → list Z;
  os_received : Z → W → list Z
}.

(** What the manual pages say of non-blocking stream sockets: [send] accepts
    at least one byte, from the front, or fails; [readv] fills at most the
    buffers; a negative descriptor is an error that is not EAGAIN. *)
Class OsLaws (W : Type) `{Os W, OsLog W} : Prop := {
  os_send_range fd bs w n w' :
    os_send fd bs w = (SysOk n, w') → bs ≠ [] → 0 < n ≤ zlen bs;
  os_send_sent fd bs w r w' :
    os_send fd bs w = (r, w') →
    os_sent fd w' = os_sent fd w ++ match r with SysOk n => slice 0 n bs | SysErr _ => [] end;
  os_send_received fd bs w fd' : os_received fd' (os_send fd bs w).2 = os_received fd' w;
  os_send_other fd bs w fd' : fd' ≠ fd → os_sent fd' (os_send fd bs w).2 = os_sent fd' w;
  os_send_closed fd bs w : fd < 0 → ∃ e, os_send fd bs w = (SysErr e, w) ∧ e ≠ EAGAIN;
  os_readv_range fd lens w bs w' :
    os_readv fd lens w = (SysOk bs, w') → zlen bs ≤ foldr Z.add 0 lens ∧ Forall byte_ok bs;
  os_readv_received fd lens w r w' :
    os_readv fd lens w = (r, w') →
    os_received fd w' = os_received fd w ++ match r with SysOk bs => bs | SysErr _ => [] end;
  os_readv_sent fd lens w fd' : os_sent fd' (os_readv fd lens w).2 = os_sent fd' w;
  os_readv_other fd lens w fd' : fd' ≠ fd → os_received fd' (os_readv fd lens w).2 = os_received fd' w;
  os_readv_closed fd lens w : fd < 0 → ∃ e, os_readv fd lens w = (SysErr e, w) ∧ e ≠ EAGAIN
}.

(** ** Memory-mapped files ([mmap.h]) *)

(** Opening, sizing, mapping and unmapping a file that holds a [T];
    [os_open filename use_shm] is [shm_open] or [open]. *)
Class MmapOs (W T : Type) := {
  os_open : list Z → bool → W → sysret Z * W;
  os_ftruncate : Z → Z → W → bool * W;       (* true: failed *)
  os_mmap : Z → W → option T * W;            (* None: MAP_FAILED *)
  os_close_file : Z → W → W;
  os_munmap : T → W → W
}.

(** The pointer to the mapped [T], or the error message. *)
Definition my_mmap {W T} `{MmapOs W T} (sizeof_T : Z) (filename : list Z) (use_shm : bool) (w : W)
    : (T + string) * W :=
  let '(fd, w) := os_open filename use_shm w in
  match fd with
  | SysErr _ => (inr "open"%string, w)
  | SysOk fd =>
      let '(failed, w) := os_ftruncate fd sizeof_T w in
      if failed : bool then (inr "ftruncate"%string, os_close_file fd w) else
      let '(ret, w) := os_mmap fd w in
      let w := os_close_file fd w in
      match ret with
      | None => (inr "mmap"%string, w)
      | Some t => (inl t, w)
      end
  end.

Definition my_munmap {W T} `{MmapOs W T} (addr : T) (w : W) : W := os_munmap addr w.
