(* ===== verification/PtcpConn.v ===== *)
(** * The TCP connection ([ptcp_conn.h])

    [PTCPConnection] is the class of the same name.  [recvbuf_] is a list of
    bytes ([\[\]] before the first [Open]); a returned [MsgHeader*] is the
    offset of the message in it.  [q_] is the mapped queue, [None] for
    [nullptr].  A member function takes and returns the connection and the
    world; dereferencing a null [q_] and leaving a buffer are [Undef]. *)

From S2P Require Import Prelude.
From S2P Require Import Arrays.
From S2P Require Import MsgHeader.
From S2P Require Import PtcpQueue.
From S2P Require Import Platform.

Record PTCPConnection := mkConn {
  q_ : option PTCPQueue;
  sockfd_ : Z;
  fd_to_close_ : Z;
  close_reason_ : string;
  close_errno_ : Z;
  recvbuf_ : list Z;
  recvbuf_size_ : Z;
  writeidx_ : Z;
  nextmsg_idx_ : Z;
  readidx_ : Z;
  recv_time_ : Z;
  send_time_ : Z;
  now_ : Z;
  hbmsg_ : MsgHeader;
  last_my_ack_ : Z
}.

Definition set_q (c : PTCPConnection) (q : option PTCPQueue) : PTCPConnection :=
  mkConn q (sockfd_ c) (fd_to_close_ c) (close_reason_ c) (close_errno_ c) (recvbuf_ c)
    (recvbuf_size_ c) (writeidx_ c) (nextmsg_idx_ c) (readidx_ c) (recv_time_ c) (send_time_ c)
    (now_ c) (hbmsg_ c) (last_my_ack_ c).
Definition set_fds (c : PTCPConnection) (sockfd fd_to_close : Z) : PTCPConnection :=
  mkConn (q_ c) sockfd fd_to_close (close_reason_ c) (close_errno_ c) (recvbuf_ c)
    (recvbuf_size_ c) (writeidx_ c) (nextmsg_idx_ c) (readidx_ c) (recv_time_ c) (send_time_ c)
    (now_ c) (hbmsg_ c) (last_my_ack_ c).
Definition set_close (c : PTCPConnection) (reason : string) (errno : Z) : PTCPConnection :=
  mkConn (q_ c) (sockfd_ c) (fd_to_close_ c) reason errno (recvbuf_ c)
    (recvbuf_size_ c) (writeidx_ c) (nextmsg_idx_ c) (readidx_ c) (recv_time_ c) (send_time_ c)
    (now_ c) (hbmsg_ c) (last_my_ack_ c).
Definition set_recvbuf (c : PTCPConnection) (buf : list Z) (size : Z) : PTCPConnection :=
  mkConn (q_ c) (sockfd_ c) (fd_to_close_ c) (close_reason_ c) (close_errno_ c) buf
    size (writeidx_ c) (nextmsg_idx_ c) (readidx_ c) (recv_time_ c) (send_time_ c)
    (now_ c) (hbmsg_ c) (last_my_ack_ c).
Definition set_idx (c : PTCPConnection) (writeidx nextmsg_idx readidx : Z) : PTCPConnection :=
  mkConn (q_ c) (sockfd_ c) (fd_to_close_ c) (close_reason_ c) (close_errno_ c) (recvbuf_ c)
    (recvbuf_size_ c) writeidx nextmsg_idx readidx (recv_time_ c) (send_time_ c)
    (now_ c) (hbmsg_ c) (last_my_ack_ c).
Definition set_times (c : PTCPConnection) (recv_time send_time now : Z) : PTCPConnection :=
  mkConn (q_ c) (sockfd_ c) (fd_to_close_ c) (close_reason_ c) (close_errno_ c) (recvbuf_ c)
    (recvbuf_size_ c) (writeidx_ c) (nextmsg_idx_ c) (readidx_ c) recv_time send_time
    now (hbmsg_ c) (last_my_ack_ c).
Definition set_hbmsg (c : PTCPConnection) (h : MsgHeader) : PTCPConnection :=
  mkConn (q_ c) (sockfd_ c) (fd_to_close_ c) (close_reason_ c) (close_errno_ c) (recvbuf_ c)
    (recvbuf_size_ c) (writeidx_ c) (nextmsg_idx_ c) (readidx_ c) (recv_time_ c) (send_time_ c)
    (now_ c) h (last_my_ack_ c).
Definition set_last_my_ack (c : PTCPConnection) (ack : Z) : PTCPConnection :=
  mkConn (q_ c) (sockfd_ c) (fd_to_close_ c) (close_reason_ c) (close_errno_ c) (recvbuf_ c)
    (recvbuf_size_ c) (writeidx_ c) (nextmsg_idx_ c) (readidx_ c) (recv_time_ c) (send_time_ c)
    (now_ c) (hbmsg_ c) ack.
Definition set_writeidx (c : PTCPConnection) (i : Z) : PTCPConnection :=
  set_idx c i (nextmsg_idx_ c) (readidx_ c).
Definition set_nextmsg_idx (c : PTCPConnection) (i : Z) : PTCPConnection :=
  set_idx c (writeidx_ c) i (readidx_ c).
Definition set_readidx (c : PTCPConnection) (i : Z) : PTCPConnection :=
  set_idx c (writeidx_ c) (nextmsg_idx_ c) i.

(** [HeartbeatMsg::msg_type] *)
Definition HeartbeatMsg_msg_type : Z := 0.

(** [sizeof(stackbuf)] *)
Definition sizeof_stackbuf : Z := 65536.

(** [(size + 7) & -8], in [int] and in [uint32_t]. *)
Definition round8 (size : Z) : Z := Z.land (size + 7) (-8).
Definition u32_round8 (size : Z) : Z := Z.land (u32 (size + 7)) 4294967288.

Section PTCPConnection.
Context {conf : Conf} {W : Type} {os : Os W}.

(** A header read from or written to the bytes at [i]. *)
Definition read_header (buf : list Z) (i : Z) : outcome MsgHeader :=
  if decide (0 ≤ i ∧ i + 8 ≤ zlen buf)
  then Ret (bytes_header is_little_endian (slice i (i + 8) buf)) else Undef.
Definition write_header (buf : list Z) (i : Z) (h : MsgHeader) : outcome (list Z) :=
  memcpy buf i (header_bytes is_little_endian h).

(** [PTCPConnection()] *)
Definition new_PTCPConnection : PTCPConnection :=
  mkConn None (-1) (-1) "nil" 0 [] 0 0 0 0 0 0 0
    (ConvertByteOrder is_little_endian ToLittleEndian
       (mkMsgHeader sizeof_MsgHeader HeartbeatMsg_msg_type 0)) 0.

Definition IsClosed (c : PTCPConnection) : bool := sockfd_ c <? 0.
Definition UseShm (c : PTCPConnection) : bool := match q_ c with None => true | _ => false end.

Definition Close (c : PTCPConnection) (reason : string) (sys_errno : Z) : PTCPConnection :=
  if sockfd_ c <? 0 then c
  else set_close (set_fds c (-1) (fd_to_close_ c)) reason sys_errno.

Definition RequestClose (c : PTCPConnection) : PTCPConnection := Close c "Request close" 0.

Definition GetCloseReason (c : PTCPConnection) : string * Z := (close_reason_ c, close_errno_ c).

Definition TryCloseFd (c : PTCPConnection) (w : W) : bool * PTCPConnection * W :=
  if (sockfd_ c <? 0) && (0 <=? fd_to_close_ c)
  then (true, set_fds c (sockfd_ c) (-1), os_close (fd_to_close_ c) w)
  else (false, c, w).

(** *** Sending *)

(** The bytes at [GetSendable]'s address. *)
Definition sendable_bytes (q : PTCPQueue) (p blk_sz : Z) : outcome (list Z) :=
  if decide (0 ≤ p ∧ 0 ≤ blk_sz ∧ p + blk_sz ≤ zlen (blk_ q))
  then Ret (flat_map (header_bytes is_little_endian) (slice p (p + blk_sz) (blk_ q))) else Undef.

(** The [do ... while] of [SendPending]: the errno it closes with, and [size]
    when it ends. *)
Fixpoint SendPending_loop (fuel : nat) (fd : Z) (p : list Z) (size : Z) (w : W)
    : outcome (option Z * Z * W) :=
  match fuel with
  | O => NoFuel
  | S fuel =>
      let '(sent, w) := os_send fd (slice 0 size p) w in
      match sent with
      | SysErr errno =>
          if negb (errno =? EAGAIN) || negb (Z.land size 7 =? 0)
          then Ret (Some errno, size, w) else Ret (None, size, w)
      | SysOk sent =>
          let p := slice sent (zlen p) p in
          let size := u32 (size - sent) in
          if 0 <? size then SendPending_loop fuel fd p size w else Ret (None, size, w)
      end
  end.

Definition SendPending (c : PTCPConnection) (w : W) : outcome (bool * PTCPConnection * W) :=
  if IsClosed c then Ret (false, c, w) else
  match q_ c with
  | None => Undef
  | Some q =>
      let '(p, blk_sz) := GetSendable q in
      if blk_sz =? 0 then Ret (false, c, w) else
      data ← sendable_bytes q p blk_sz;
      let size := u32 (Z.shiftl blk_sz 3) in
      '(err, size, w) ← SendPending_loop (S (Z.to_nat size)) (sockfd_ c) data size w;
      match err with
      | Some errno => Ret (false, Close c "Send error" errno, w)
      | None =>
          let sent_blk := i32 (u32 (blk_sz - Z.shiftr size 3)) in
          if 0 <? sent_blk
          then Ret (true, set_q (set_times c (recv_time_ c) (now_ c) (now_ c))
                            (Some (Sendout q sent_blk)), w)
          else Ret (true, c, w)
      end
  end.

(** The end of [SendHB], from its [::send] on. *)
Definition SendHB_send (c : PTCPConnection) (w : W) : PTCPConnection * W :=
  let '(sent, w) := os_send (sockfd_ c) (header_bytes is_little_endian (hbmsg_ c)) w in
  match sent with
  | SysErr errno => if errno =? EAGAIN then (c, w) else (Close c "Send error" errno, w)
  | SysOk sent =>
      if negb (sent =? sizeof_MsgHeader) then (Close c "Send error" 0, w)
      else (set_times c (recv_time_ c) (now_ c) (now_ c), w)
  end.

Definition SendHB (c : PTCPConnection) (now : Z) (w : W) : outcome (PTCPConnection * W) :=
  let c := set_times c (recv_time_ c) (send_time_ c) now in
  if now_ c - send_time_ c <? HeartBeatInverval then Ret (c, w) else
  match q_ c with
  | Some _ =>
      '(pending, c, w) ← SendPending c w;
      if pending : bool then Ret (c, w) else
      match q_ c with
      | None => Undef
      | Some q =>
          let ack := Convert is_little_endian ToLittleEndian 4 (MyAck q) in
          Ret (SendHB_send (set_hbmsg c (mkMsgHeader (mh_size (hbmsg_ c)) (mh_msg_type (hbmsg_ c)) ack)) w)
      end
  | None => Ret (SendHB_send c w)
  end.

(** *** Receiving *)

(** What [DoRecv] does with [ret > 0] bytes that did not fit behind
    [writeidx_]: [stackbuf] holds the rest. *)
Definition DoRecv_spill (c : PTCPConnection) (stackbuf : list Z) (writable ret : Z)
    : outcome PTCPConnection :=
  c ← (if ret <=? u32 (writable + readidx_ c) then
         buf ← memmove (recvbuf_ c) 0 (readidx_ c) (u32 (recvbuf_size_ c - readidx_ c));
         buf ← memcpy buf (u32 (recvbuf_size_ c - readidx_ c)) stackbuf;
         Ret (set_recvbuf c buf (recvbuf_size_ c))
       else
         let newbufsize :=
           Z.min TcpRecvBufMaxSize
             (Z.max (u32 (recvbuf_size_ c * 2)) (u32_round8 (u32 (writeidx_ c - readidx_ c + ret)))) in
         let new_buf := repeat 0 (Z.to_nat newbufsize) in
         new_buf ← memcpy new_buf 0 (slice (readidx_ c) (recvbuf_size_ c) (recvbuf_ c));
         new_buf ← memcpy new_buf (u32 (recvbuf_size_ c - readidx_ c)) stackbuf;
         Ret (set_recvbuf c new_buf newbufsize));
  Ret (set_idx c (u32 (writeidx_ c - readidx_ c)) (u32 (nextmsg_idx_ c - readidx_ c)) 0).

(** [DoRecv] when [read] or [readv] fails or meets the end of the stream. *)
Definition DoRecv_error (c : PTCPConnection) (errno : option Z) : PTCPConnection :=
  match errno with
  | Some errno =>
      if errno =? EAGAIN then
        if ConnectionTimeout <? now_ c - recv_time_ c then Close c "Timeout" 0 else c
      else Close c "Read error" errno
  | None => Close c "Remote close" 0
  end.

Definition DoRecv (c : PTCPConnection) (w : W) : outcome (Z * PTCPConnection * W) :=
  let c := if (0 <? readidx_ c) && (readidx_ c =? writeidx_ c) then set_idx c 0 0 0 else c in
  let writable := u32 (recvbuf_size_ c - writeidx_ c) in
  let allow_expand := u32 (u32 (writable + readidx_ c) * 2) <? recvbuf_size_ c in
  let extra_size :=
    Z.min sizeof_stackbuf
      (u32 (readidx_ c + (if allow_expand then u32 (TcpRecvBufMaxSize - recvbuf_size_ c) else 0))) in
  if u32 (writable + extra_size) =? 0 then Ret (0, c, w) else
  let '(r, w) := os_readv (sockfd_ c)
                   (if extra_size =? 0 then [writable] else [writable; extra_size]) w in
  match r with
  | SysErr errno => Ret (0, DoRecv_error c (Some errno), w)
  | SysOk data =>
      let ret := zlen data in
      if ret =? 0 then Ret (0, DoRecv_error c None, w) else
      buf ← memcpy (recvbuf_ c) (writeidx_ c) (slice 0 writable data);
      let c := set_recvbuf c buf (recvbuf_size_ c) in
      let stackbuf := slice writable ret data in
      let c := set_times c (now_ c) (send_time_ c) (now_ c) in
      if ret <=? writable then Ret (ret, c, w) else
      c ← DoRecv_spill c stackbuf writable ret;
      Ret (ret, c, w)
  end.

(** The first loop of [Front]: [Some] for [return header]. *)
Fixpoint Front_skip (fuel : nat) (c : PTCPConnection) : outcome (option Z * PTCPConnection) :=
  match fuel with
  | O => NoFuel
  | S fuel =>
      if nextmsg_idx_ c =? readidx_ c then Ret (None, c) else
      header ← read_header (recvbuf_ c) (readidx_ c);
      if mh_msg_type header =? HeartbeatMsg_msg_type
      then Front_skip fuel (set_readidx c (u32 (readidx_ c + sizeof_MsgHeader))) else
      match q_ c with
      | None => Undef
      | Some q =>
          if last_my_ack_ c =? MyAck q then Ret (None, c)
          else Ret (Some (readidx_ c), set_last_my_ack c (MyAck q))
      end
  end.

(** The header at [nextmsg_idx_], converted in place when it was incomplete
    before the last read. *)
Definition Front_header (old_writeidx : Z) (c : PTCPConnection)
    : outcome (MsgHeader * PTCPConnection) :=
  header ← read_header (recvbuf_ c) (nextmsg_idx_ c);
  if old_writeidx - i32 (nextmsg_idx_ c) <? 8 then
    let header := ConvertByteOrder is_little_endian ToLittleEndian header in
    buf ← write_header (recvbuf_ c) (nextmsg_idx_ c) header;
    Ret (header, set_recvbuf c buf (recvbuf_size_ c))
  else Ret (header, c).

(** The second loop of [Front], after [len] bytes came in at [old_writeidx]:
    [true] when a message larger than the buffer may be closed the
    connection. *)
Fixpoint Front_parse (fuel : nat) (old_writeidx : Z) (c : PTCPConnection)
    : outcome (bool * PTCPConnection) :=
  match fuel with
  | O => NoFuel
  | S fuel =>
      if 8 <=? u32 (writeidx_ c - nextmsg_idx_ c) then
        '(header, c) ← Front_header old_writeidx c;
        match q_ c with
        | None => Undef
        | Some q =>
            q ← Ack ToLittleEndian is_little_endian q (mh_ack_seq header);
            let c := set_q c (Some q) in
            let msg_size := round8 (mh_size header) in
            if TcpRecvBufMaxSize <? u32 msg_size
            then Ret (true, Close c "Msg size larger than recv buf max size" 0) else
            if u32 (writeidx_ c - nextmsg_idx_ c) <? u32 msg_size then Ret (false, c) else
            let c := if (mh_msg_type header =? HeartbeatMsg_msg_type) && (readidx_ c =? nextmsg_idx_ c)
                     then set_readidx c (u32 (readidx_ c + msg_size)) else c in
            Front_parse fuel old_writeidx (set_nextmsg_idx c (u32 (nextmsg_idx_ c + msg_size)))
        end
      else Ret (false, c)
  end.

(** The end of [Front]. *)
Definition Front_result (c : PTCPConnection) : option Z :=
  if readidx_ c =? nextmsg_idx_ c then None else Some (readidx_ c).

(** One step per byte of the buffer bounds both loops: a message has at least
    one. *)
Definition loop_fuel (c : PTCPConnection) : nat := S (length (recvbuf_ c)).

Definition Front (c : PTCPConnection) (w : W) : outcome (option Z * PTCPConnection * W) :=
  if UseShm c then
    '(_, c, w) ← DoRecv c w;
    Ret (None, c, w)
  else
    '(header, c) ← Front_skip (loop_fuel c) c;
    match header with
    | Some _ => Ret (header, c, w)
    | None =>
        '(len, c, w) ← DoRecv c w;
        if len =? 0 then Ret (Front_result c, c, w) else
        let old_writeidx := i32 (writeidx_ c) in
        let c := set_writeidx c (u32 (writeidx_ c + len)) in
        '(closed, c) ← Front_parse (loop_fuel c) old_writeidx c;
        if closed : bool then Ret (None, c, w) else Ret (Front_result c, c, w)
    end.

Definition Pop (c : PTCPConnection) : outcome PTCPConnection :=
  header ← read_header (recvbuf_ c) (readidx_ c);
  match q_ c with
  | None => Undef
  | Some q =>
      Ret (set_q (set_readidx c (u32 (readidx_ c + round8 (mh_size header)))) (Some (MyAck_incr q)))
  end.

(** *** The queue *)

Definition Conn_Alloc (c : PTCPConnection) (size : Z) : outcome (option Z * PTCPConnection) :=
  match q_ c with
  | None => Undef
  | Some q => '(p, q) ← Alloc TcpQueueSize q size; Ret (p, set_q c (Some q))
  end.

Definition PushMore (c : PTCPConnection) : outcome PTCPConnection :=
  match q_ c with
  | None => Undef
  | Some q => q ← Push ToLittleEndian is_little_endian q; Ret (set_q c (Some q))
  end.

Definition Conn_Push (c : PTCPConnection) (w : W) : outcome (PTCPConnection * W) :=
  c ← PushMore c;
  '(_, c, w) ← SendPending c w;
  Ret (c, w).

(** The local ack, and [SanityCheckAndGetSeq]. *)
Definition GetSeq (c : PTCPConnection) : outcome (Z * option (Z * Z)) :=
  match q_ c with
  | None => Undef
  | Some q => r ← SanityCheckAndGetSeq ToLittleEndian is_little_endian q; Ret (MyAck q, r)
  end.

Definition Reset (c : PTCPConnection) : outcome PTCPConnection :=
  match q_ c with
  | None => Undef
  | Some _ => Ret (set_q c (Some (new_PTCPQueue TcpQueueSize)))
  end.

(** Precondition in the source: [sockfd_ == fd_to_close_ == -1]. *)
Definition Open (c : PTCPConnection) (sock_fd remote_ack_seq now : Z) (w : W)
    : outcome (PTCPConnection * W) :=
  let c := set_times (set_idx (set_fds c sock_fd sock_fd) 0 0 0) now now now in
  '(c, w) ← match q_ c with
            | None => Ret (c, w)
            | Some q =>
                q ← LoginAck ToLittleEndian is_little_endian q remote_ack_seq;
                '(_, c, w) ← SendPending (set_q c (Some q)) w;
                Ret (c, w)
            end;
  if recvbuf_size_ c =? 0
  then Ret (set_recvbuf c (repeat 0 (Z.to_nat TcpRecvBufInitSize)) TcpRecvBufInitSize, w)
  else Ret (c, w).
End PTCPConnection.

(** *** The file of the queue *)

Section files.
Context {conf : Conf} {W : Type} {os : Os W} {mm : MmapOs W PTCPQueue}.

(** [sizeof(PTCPQ)]: the blocks and five [uint32_t], padded to 4 bytes. *)
Definition sizeof_PTCPQueue : Z := TcpQueueSize + 20.

(** The error message of a failed [OpenFile]; [None] for [true]. *)
Definition OpenFile (c : PTCPConnection) (ptcp_queue_file : list Z) (w : W)
    : option string * PTCPConnection * W :=
  match q_ c with
  | Some _ => (None, c, w)
  | None =>
      match my_mmap sizeof_PTCPQueue ptcp_queue_file false w with
      | (inl q, w) => (None, set_q c (Some q), w)
      | (inr error_msg, w) => (Some error_msg, c, w)
      end
  end.

Definition Release (c : PTCPConnection) (w : W) : PTCPConnection * W :=
  let c := Close c "Release" 0 in
  let '(_, c, w) := TryCloseFd c w in
  match q_ c with
  | Some q => (set_q c None, my_munmap q w)
  | None => (c, w)
  end.
End files.
