(* ===== verification/Framing.v ===== *)
(** * Framing of the TCP stream

    On the wire a message is a frame: its header in the configured byte order
    and its body, padded to a multiple of eight bytes.  [FRAMES ++ t] is how
    the bytes received so far split into whole frames and the part [t] of the
    next one.  [host_frame] is a frame as it lies in the receive buffer once
    [Front] has converted its header. *)

From S2P Require Import Prelude.
From S2P Require Import Arrays.
From S2P Require Import MsgHeader.
From S2P Require Import Platform.
From S2P Require Import PtcpConn.

(** ** [round8] *)

Lemma land_m8 x : Z.land x (-8) = x / 8 * 8.
Proof.
  change (-8) with (Z.lnot (Z.ones 3)). rewrite <-Z.ldiff_land, Z.ldiff_ones_r by lia.
  rewrite Z.shiftr_div_pow2, Z.shiftl_mul_pow2 by lia. done.
Qed.

Lemma round8_spec s : s ≤ round8 s < s + 8 ∧ round8 s mod 8 = 0.
Proof.
  unfold round8. rewrite land_m8. split; [word_lia|]. apply Z.mod_mul. lia.
Qed.

Lemma round8_fix s : s mod 8 = 0 → round8 s = s.
Proof. unfold round8. rewrite land_m8. word_lia. Qed.

Lemma u32_round8_eq x : 0 ≤ x < 4294967288 → u32_round8 x = round8 x.
Proof.
  intros. unfold u32_round8, round8. rewrite (u32_small (x + 7)) by lia.
  change 4294967288 with (Z.land (-8) (Z.ones 32)).
  rewrite Z.land_assoc, Z.land_ones, land_m8 by lia. apply Z.mod_small. word_lia.
Qed.

Lemma bytes_header_ok little bs :
  Forall byte_ok bs → zlen bs = 8 → MsgHeader_ok (bytes_header little bs).
Proof.
  intros Hb Hl.
  assert (∀ lo hi, 0 ≤ lo ≤ hi → hi ≤ 8 →
    0 ≤ load_uint little (slice lo hi bs) < 256 ^ (hi - lo)) as Hload.
  { intros lo hi ? ?. unfold load_uint.
    assert (zlen (slice lo hi bs) = hi - lo) as <- by (apply slice_zlen; lia).
    assert (Forall byte_ok (slice lo hi bs)).
    { unfold slice. by apply Forall_take, Forall_drop. }
    destruct little; [by apply load_le_bound|].
    replace (zlen (slice lo hi bs)) with (zlen (rev (slice lo hi bs)))
      by (unfold zlen; by rewrite length_rev).
    by apply load_le_bound, Forall_rev. }
  split; [|split]; apply Hload; lia.
Qed.

Section frames.
Context {conf : Conf}.

Definition wire_hdr (m : list Z) : MsgHeader :=
  ConvertByteOrder is_little_endian ToLittleEndian (bytes_header is_little_endian (slice 0 8 m)).

Definition frame_size (m : list Z) : Z := round8 (mh_size (wire_hdr m)).

Definition is_hb (m : list Z) : bool := mh_msg_type (wire_hdr m) =? HeartbeatMsg_msg_type.

(** A frame that fits the receive buffer; a heartbeat is only a header. *)
Definition frame_ok (m : list Z) : Prop :=
  Forall byte_ok m ∧ 8 ≤ zlen m ∧ zlen m = frame_size m ∧ zlen m ≤ TcpRecvBufMaxSize ∧
  (is_hb m = true → zlen m = 8).

Definition host_frame (m : list Z) : list Z :=
  header_bytes is_little_endian (wire_hdr m) ++ slice 8 (zlen m) m.

(** Part of a frame: less than a header, or less than its size. *)
Definition partial (t : list Z) : Prop :=
  Forall byte_ok t ∧ (8 ≤ zlen t → zlen t < frame_size t ≤ TcpRecvBufMaxSize).

(** Its header is converted as soon as it is complete. *)
Definition host_tail (t : list Z) : list Z := if 8 <=? zlen t then host_frame t else t.

Lemma slice_bytes lo hi m : Forall byte_ok m → Forall byte_ok (slice lo hi m).
Proof. intros. unfold slice. by apply Forall_take, Forall_drop. Qed.

Lemma wire_hdr_ok m : Forall byte_ok m → 8 ≤ zlen m → MsgHeader_ok (wire_hdr m).
Proof.
  intros Hb Hl. apply ConvertByteOrder_ok, bytes_header_ok; [by apply slice_bytes|].
  rewrite slice_zlen; lia.
Qed.

Lemma wire_hdr_app m x : 8 ≤ zlen m → wire_hdr (m ++ x) = wire_hdr m.
Proof. intros. unfold wire_hdr. by rewrite slice_app_l by lia. Qed.

Lemma frame_size_app m x : 8 ≤ zlen m → frame_size (m ++ x) = frame_size m.
Proof. intros. unfold frame_size. by rewrite wire_hdr_app. Qed.

Lemma frame_size_range m : Forall byte_ok m → 8 ≤ zlen m → 0 ≤ frame_size m ≤ 65536.
Proof.
  intros Hb Hl. destruct (wire_hdr_ok m Hb Hl) as (? & _ & _).
  unfold frame_size, round8. rewrite land_m8. word_lia.
Qed.

Lemma host_frame_zlen m : 8 ≤ zlen m → zlen (host_frame m) = zlen m.
Proof.
  intros. unfold host_frame. rewrite zlen_app, header_bytes_zlen, slice_zlen; lia.
Qed.

Lemma host_frame_app m x : 8 ≤ zlen m → host_frame (m ++ x) = host_frame m ++ x.
Proof.
  intros. pose proof (zlen_nonneg x).
  unfold host_frame. rewrite wire_hdr_app, <-app_assoc, zlen_app by done. f_equal.
  rewrite (slice_app 8 (zlen m)) by lia. rewrite slice_app_l, slice_app_full by lia. done.
Qed.

Lemma host_tail_zlen t : zlen (host_tail t) = zlen t.
Proof.
  unfold host_tail. destruct (Z.leb_spec 8 (zlen t)); [by apply host_frame_zlen|done].
Qed.

(** The header that [read_header] finds in a converted frame. *)
Lemma host_frame_header m :
  Forall byte_ok m → 8 ≤ zlen m →
  bytes_header is_little_endian (slice 0 8 (host_frame m)) = wire_hdr m.
Proof.
  intros Hb Hl. unfold host_frame.
  rewrite slice_app_l by (rewrite ?header_bytes_zlen; lia).
  replace 8 with (zlen (header_bytes is_little_endian (wire_hdr m))) at 1 by apply header_bytes_zlen.
  rewrite slice_full. by apply bytes_header_bytes, wire_hdr_ok.
Qed.

Lemma frame_ok_hb m : frame_ok m → is_hb m = true → zlen m = 8.
Proof. intros (_ & _ & _ & _ & H). done. Qed.

Lemma concat_host_zlen fs : Forall frame_ok fs → zlen (concat (host_frame <$> fs)) = zlen (concat fs).
Proof.
  induction 1 as [|m fs (_ & ? & _) _ IH]; [done|].
  rewrite fmap_cons. simpl. by rewrite !zlen_app, IH, host_frame_zlen.
Qed.

(** A prefix of a stream of frames splits into whole frames and a part. *)
Lemma prefix_frames FS s r :
  Forall frame_ok FS → concat FS = s ++ r →
  ∃ ms rest t, FS = ms ++ rest ∧ s = concat ms ++ t ∧ partial t ∧
               (rest = [] → t = []) ∧ concat rest = t ++ r.
Proof.
  intros Hok. revert s r. induction Hok as [|m FS Hm Hok IH]; intros s r Heq.
  - symmetry in Heq. apply app_nil in Heq as [-> ->]. exists [], [], [].
    repeat split; done.
  - simpl in Heq. destruct (app_eq_inv _ _ _ _ Heq) as [(k & -> & ->)|(k & -> & Hk)].
    + destruct (decide (k = [])) as [->|Hk].
      { rewrite app_nil_r in *. exists [s], FS, []. simpl. rewrite !app_nil_r.
        repeat split; try done. }
      destruct Hm as (Hb & Hl & Hsz & Hmax & _). apply Forall_app in Hb as [Hb _].
      exists [], ((s ++ k) :: FS), s. repeat split; try done.
      all: rewrite zlen_app in *; pose proof (zlen_nonneg k);
        rewrite frame_size_app in Hsz by done;
        destruct k; [done|rewrite zlen_cons in *; pose proof (zlen_nonneg k); lia].
    + destruct (IH _ _ Hk) as (ms & rest & t & -> & -> & Hp & Hr & Hrest).
      exists (m :: ms), rest, t. split; [done|]. simpl. by rewrite <-app_assoc.
Qed.
End frames.




