(* ===== verification/PtcpConnRecv.v ===== *)
(** * The receive buffer

    [recv_rep c fs t]: the receive buffer of [c] holds the whole frames [fs],
    not popped yet, and the part [t] of the next.  [DoRecv] makes room (by
    restarting, moving or growing the buffer) and appends what the socket
    returns ([DoRecv_ok]); [Front_parse] cuts it into frames. *)

From S2P Require Import Prelude.
From S2P Require Import Arrays.
From S2P Require Import MsgHeader.
From S2P Require Import PtcpQueue.
From S2P Require Import PtcpQueueInv.
From S2P Require Import Platform.
From S2P Require Import PtcpConn.
From S2P Require Import Framing.

Section recv.
Context {conf : Conf} {W : Type} {os : Os W} {log : OsLog W} {laws : OsLaws W}.
Context (HC : Conf_ok).

Record buf_ok (c : PTCPConnection) : Prop := {
  bo_len : zlen (recvbuf_ c) = recvbuf_size_ c;
  bo_size : 0 < recvbuf_size_ c ≤ TcpRecvBufMaxSize;
  bo_idx : 0 ≤ readidx_ c ≤ nextmsg_idx_ c ∧ nextmsg_idx_ c ≤ writeidx_ c ≤ recvbuf_size_ c
}.

(** [c'] holds the same bytes between its indices as [c]. *)
Record keeps (c c' : PTCPConnection) : Prop := {
  k_buf : buf_ok c';
  k_next : nextmsg_idx_ c' - readidx_ c' = nextmsg_idx_ c - readidx_ c;
  k_write : writeidx_ c' - readidx_ c' = writeidx_ c - readidx_ c;
  k_seg : slice (readidx_ c') (writeidx_ c') (recvbuf_ c') =
          slice (readidx_ c) (writeidx_ c) (recvbuf_ c);
  k_q : q_ c' = q_ c;
  k_last : last_my_ack_ c' = last_my_ack_ c;
  k_hb : hbmsg_ c' = hbmsg_ c;
  k_fd : fd_to_close_ c' = fd_to_close_ c
}.

(** ... and [data] behind them, not counted yet. *)
Record loaded (c c' : PTCPConnection) (data : list Z) : Prop := {
  l_keeps : keeps c c';
  l_room : writeidx_ c' + zlen data ≤ recvbuf_size_ c';
  l_data : slice (writeidx_ c') (writeidx_ c' + zlen data) (recvbuf_ c') = data;
  l_sock : sockfd_ c' = sockfd_ c
}.

Lemma keeps_refl c : buf_ok c → keeps c c.
Proof. by constructor. Qed.

Lemma keeps_trans c1 c2 c3 : keeps c1 c2 → keeps c2 c3 → keeps c1 c3.
Proof. intros [] []. constructor; try congruence; try lia; done. Qed.

Lemma loaded_trans c1 c2 c3 data :
  keeps c1 c2 → sockfd_ c2 = sockfd_ c1 → loaded c2 c3 data → loaded c1 c3 data.
Proof. intros Hk Hs [? ? ? ?]. constructor; [by eapply keeps_trans|done..|congruence]. Qed.

Lemma keeps_Close c reason errno : buf_ok c → keeps c (Close c reason errno).
Proof. intros []. unfold Close. destruct (sockfd_ c <? 0); by constructor. Qed.

(** The slices of two segments from their concatenation. *)
Lemma slice_split (l : list Z) a k xs ys :
  0 ≤ a → slice a k l = xs ++ ys → a + zlen xs + zlen ys = k → 
  slice a (a + zlen xs) l = xs ∧ slice (a + zlen xs) k l = ys.
Proof.
  intros Ha Heq Hk. pose proof (zlen_nonneg xs). pose proof (zlen_nonneg ys).
  rewrite (slice_app a (a + zlen xs)) in Heq by lia.
  apply app_inj_zlen in Heq; [done|].
  pose proof (slice_zlen_le a (a + zlen xs) l ltac:(lia)).
  pose proof (slice_zlen_le (a + zlen xs) k l ltac:(lia)).
  apply (f_equal zlen) in Heq. rewrite !zlen_app in Heq. lia.
Qed.

(** *** DoRecv *)

Lemma DoRecv_spill_ok c stack ret :
  buf_ok c → zlen stack = ret - (recvbuf_size_ c - writeidx_ c) → 0 < zlen stack →
  writeidx_ c - readidx_ c + ret ≤ TcpRecvBufMaxSize →
  ∃ c', DoRecv_spill c stack (recvbuf_size_ c - writeidx_ c) ret = Ret c' ∧ buf_ok c' ∧
        writeidx_ c' = writeidx_ c - readidx_ c ∧ nextmsg_idx_ c' = nextmsg_idx_ c - readidx_ c ∧
        readidx_ c' = 0 ∧ writeidx_ c' + ret ≤ recvbuf_size_ c' ∧
        slice 0 (writeidx_ c' + ret) (recvbuf_ c') =
          slice (readidx_ c) (recvbuf_size_ c) (recvbuf_ c) ++ stack ∧
        q_ c' = q_ c ∧ last_my_ack_ c' = last_my_ack_ c ∧ hbmsg_ c' = hbmsg_ c ∧
        fd_to_close_ c' = fd_to_close_ c ∧ sockfd_ c' = sockfd_ c.
Proof.
  intros [Hlen Hsize Hidx] Hst Hpos Hmax. pose proof (conf_max HC).
  unfold DoRecv_spill.
  u32_simpl.
  set (kept := slice (readidx_ c) (recvbuf_size_ c) (recvbuf_ c)).
  assert (zlen kept = recvbuf_size_ c - readidx_ c) as Hkept by (apply slice_zlen; lia).
  destruct (Z.leb_spec ret (recvbuf_size_ c - writeidx_ c + readidx_ c)) as [Hle|Hgt].
  - rewrite memmove_in_range by lia. rewrite outcome_bind_Ret.
    replace (readidx_ c + (recvbuf_size_ c - readidx_ c)) with (recvbuf_size_ c) by lia. fold kept.
    rewrite memcpy_in_range by (rewrite ?blit_zlen; lia). rewrite !outcome_bind_Ret.
    replace (recvbuf_size_ c - readidx_ c) with (0 + zlen kept) by lia.
    rewrite blit_blit by lia. eexists. split; [done|]. simpl. u32_simpl.
    assert (zlen (blit 0 (kept ++ stack) (recvbuf_ c)) = recvbuf_size_ c) as Hlen'.
    { rewrite blit_zlen; rewrite ?zlen_app; lia. }
    split; [constructor; simpl; lia|]. repeat (split; [lia || done|]).
    split; [|done]. rewrite <-(blit_slice_same 0 (kept ++ stack) (recvbuf_ c)) at 2 by lia.
    f_equal. rewrite zlen_app. lia.
  - rewrite u32_round8_eq by lia.
    pose proof (round8_spec (writeidx_ c - readidx_ c + ret)) as [[Hr1 _] _].
    set (newbufsize := Z.min _ _).
    assert (writeidx_ c - readidx_ c + ret ≤ newbufsize ≤ TcpRecvBufMaxSize) as Hnew by lia.
    assert (zlen (repeat 0 (Z.to_nat newbufsize)) = newbufsize) as Hrep by (rewrite zlen_repeat; lia).
    rewrite memcpy_in_range by lia. rewrite outcome_bind_Ret.
    rewrite memcpy_in_range by (rewrite ?blit_zlen; lia). rewrite !outcome_bind_Ret.
    replace (recvbuf_size_ c - readidx_ c) with (0 + zlen kept) by lia.
    rewrite blit_blit by lia. eexists. split; [done|]. simpl. u32_simpl.
    assert (zlen (blit 0 (kept ++ stack) (repeat 0 (Z.to_nat newbufsize))) = newbufsize) as Hlen'.
    { rewrite blit_zlen; rewrite ?zlen_app; lia. }
    split; [constructor; simpl; lia|]. repeat (split; [lia || done|]).
    split; [|done].
    rewrite <-(blit_slice_same 0 (kept ++ stack) (repeat 0 (Z.to_nat newbufsize))) at 2 by lia.
    f_equal. rewrite zlen_app. lia.
Qed.

(** The first statement of [DoRecv]. *)
Definition restarted (c : PTCPConnection) : PTCPConnection :=
  if (0 <? readidx_ c) && (readidx_ c =? writeidx_ c) then set_idx c 0 0 0 else c.

Lemma restarted_keeps c : buf_ok c → keeps c (restarted c).
Proof.
  intros Hb. unfold restarted. destruct (_ && _) eqn:H; [|by apply keeps_refl].
  apply andb_true_iff in H as [_ H%Z.eqb_eq]. destruct Hb as [Hlen Hsize Hidx].
  constructor; simpl; try done; try lia; [constructor; simpl; lia|].
  rewrite !slice_nil by lia. done.
Qed.

Lemma restarted_sockfd c : sockfd_ (restarted c) = sockfd_ c.
Proof. unfold restarted. by destruct (_ && _). Qed.

Lemma DoRecv_error_keeps c e : buf_ok c → keeps c (DoRecv_error c e).
Proof.
  intros Hb. unfold DoRecv_error. destruct e as [e|]; [|by apply keeps_Close].
  destruct (e =? EAGAIN); [|by apply keeps_Close].
  destruct (_ <? _); [by apply keeps_Close|by apply keeps_refl].
Qed.

(** [DoRecv] after [restarted]. *)
Lemma DoRecv_fit c data t1 t2 :
  buf_ok c → writeidx_ c + zlen data ≤ recvbuf_size_ c → 
  loaded c (set_times (set_recvbuf c (blit (writeidx_ c) data (recvbuf_ c)) (recvbuf_size_ c))
              t1 (send_time_ c) t2) data.
Proof.
  intros [Hlen Hsize Hidx] Hroom. pose proof (zlen_nonneg data).
  constructor; simpl; [|done|apply blit_slice_same; lia|done].
  constructor; simpl; try done; [constructor; simpl; rewrite ?blit_zlen; lia|].
  apply blit_slice_before; lia.
Qed.

Lemma slice_head_whole {A} k (l : list A) : zlen l ≤ k → slice 0 k l = l.
Proof.
  intros. unfold slice. rewrite drop_0. apply take_ge. unfold zlen in *. lia.
Qed.

Lemma DoRecv_spill_loaded c data t1 t2 :
  buf_ok c → recvbuf_size_ c - writeidx_ c < zlen data →
  writeidx_ c - readidx_ c + zlen data ≤ TcpRecvBufMaxSize →
  ∃ c', DoRecv_spill
          (set_times (set_recvbuf c (blit (writeidx_ c) (slice 0 (recvbuf_size_ c - writeidx_ c) data)
                                       (recvbuf_ c)) (recvbuf_size_ c)) t1 (send_time_ c) t2)
          (slice (recvbuf_size_ c - writeidx_ c) (zlen data) data)
          (recvbuf_size_ c - writeidx_ c) (zlen data) = Ret c' ∧ loaded c c' data.
Proof.
  intros [Hlen Hsize Hidx] Hgt Hmax. set (writable := recvbuf_size_ c - writeidx_ c) in *.
  set (d1 := slice 0 writable data). set (d2 := slice writable (zlen data) data).
  assert (zlen d1 = writable) as Hd1 by (unfold d1; rewrite slice_zlen; lia).
  assert (zlen d2 = zlen data - writable) as Hd2 by (unfold d2; rewrite slice_zlen; lia).
  assert (data = d1 ++ d2) as Hdata.
  { unfold d1, d2. rewrite <-slice_app by lia. by rewrite slice_full. }
  set (c1 := set_times _ _ _ _).
  assert (buf_ok c1) as Hb1 by (constructor; simpl; rewrite ?blit_zlen; lia).
  destruct (DoRecv_spill_ok c1 d2 (zlen data) Hb1) as
    (c' & Hc' & Hb' & Hw & Hn & Hr & Hroom & Hseg & Hq & Hl & Hh & Hf & Hs); simpl in *; try lia.
  exists c'. split; [exact Hc'|].
  assert (slice (readidx_ c) (recvbuf_size_ c) (blit (writeidx_ c) d1 (recvbuf_ c)) =
          slice (readidx_ c) (writeidx_ c) (recvbuf_ c) ++ d1) as Hpre.
  { rewrite (slice_app _ (writeidx_ c)) by lia. rewrite blit_slice_before by lia. f_equal.
    replace (recvbuf_size_ c) with (writeidx_ c + zlen d1) by lia.
    apply blit_slice_same. lia. }
  rewrite Hpre, <-app_assoc, <-Hdata in Hseg. rewrite Hw in *.
  assert (zlen (slice (readidx_ c) (writeidx_ c) (recvbuf_ c)) = writeidx_ c - readidx_ c) as Hsz
    by (rewrite slice_zlen; lia).
  apply slice_split in Hseg as [H1 H2]; [|lia..].
  rewrite Hsz, Z.add_0_l in H1, H2.
  constructor; [|lia|by rewrite Hw|done].
  constructor; try done; try lia. by rewrite Hr, Hw.
Qed.

(** What a [DoRecv] did: it appended [data], or kept the buffer and maybe
    closed the socket. *)
Record received (c c' : PTCPConnection) (w w' : W) (data : list Z) : Prop := {
  rc_log fd : sockfd_ c = fd ∨ sockfd_ c < 0 → os_received fd w' = os_received fd w ++ data;
  rc_sent fd : os_sent fd w' = os_sent fd w;
  rc_other fd : fd ≠ sockfd_ c → os_received fd w' = os_received fd w;
  rc_bytes : Forall byte_ok data;
  rc_keeps : keeps c c';
  rc_sock : sockfd_ c' = sockfd_ c ∨ sockfd_ c' < 0;
  rc_read : data ≠ [] → ∃ lens, os_readv (sockfd_ c) lens w = (SysOk data, w');
  rc_data : data ≠ [] → loaded c c' data
}.

Lemma DoRecv_error_received c c0 e w w' r :
  buf_ok c → keeps c c0 → sockfd_ c0 = sockfd_ c →
  (∀ fd, sockfd_ c = fd ∨ sockfd_ c < 0 → os_received fd w' = os_received fd w ++ r) → r = [] →
  (∀ fd, os_sent fd w' = os_sent fd w) →
  (∀ fd, fd ≠ sockfd_ c → os_received fd w' = os_received fd w) →
  received c (DoRecv_error c0 e) w w' [].
Proof.
  intros Hb Hk Hs Hlog -> Hsent Hother. constructor; try done.
  - eapply keeps_trans; [done|]. apply DoRecv_error_keeps. apply Hk.
  - rewrite <-Hs. unfold DoRecv_error, Close. destruct e; repeat case_match; simpl; auto with lia.
Qed.

(** A read changes one log, and none when the descriptor is closed. *)
Lemma readv_logs sock lens w r w' :
  os_readv sock lens w = (r, w') →
  (∀ fd, sock = fd ∨ sock < 0 →
     os_received fd w' = os_received fd w ++ match r with SysOk bs => bs | SysErr _ => [] end) ∧
  (∀ fd, os_sent fd w' = os_sent fd w) ∧ (∀ fd, fd ≠ sock → os_received fd w' = os_received fd w).
Proof.
  intros Hread. split_and!.
  - intros fd [<-|Hneg]; [by apply (os_readv_received _ _ _ _ _ Hread)|].
    destruct (os_readv_closed sock lens w Hneg) as (e & He & _). rewrite Hread in He.
    injection He as -> ->. by rewrite app_nil_r.
  - intros fd. pose proof (os_readv_sent sock lens w fd) as H. by rewrite Hread in H.
  - intros fd Hne. pose proof (os_readv_other sock lens w fd Hne) as H. by rewrite Hread in H.
Qed.

Lemma DoRecv_ok c w :
  buf_ok c → ∃ data c' w', DoRecv c w = Ret (zlen data, c', w') ∧ received c c' w w' data.
Proof.
  intros Hb. unfold DoRecv. fold (restarted c).
  pose proof (restarted_keeps c Hb) as Hk. pose proof (restarted_sockfd c) as Hs.
  destruct (Hk) as [Hb0 _ _ _ _ _ _ _]. set (c0 := restarted c) in *.
  pose proof (conf_max HC). destruct (Hb0) as [Hlen Hsize Hidx].
  rewrite (u32_small (recvbuf_size_ c0 - _)) by lia.
  set (writable := recvbuf_size_ c0 - writeidx_ c0) in *.
  set (allow_expand := _ <? recvbuf_size_ c0). set (extra_size := Z.min _ _).
  assert (0 ≤ extra_size ≤ readidx_ c0 + (TcpRecvBufMaxSize - recvbuf_size_ c0)) as Hextra.
  { unfold extra_size, sizeof_stackbuf. destruct allow_expand; u32_simpl; lia. }
  destruct (u32 (writable + extra_size) =? 0).
  { exists [], c0, w. split; [done|]. constructor; try done; [|by left]. intros. by rewrite app_nil_r. }
  destruct (os_readv _ _ w) as [r w'] eqn:Hread. rewrite Hs in Hread.
  destruct (readv_logs _ _ _ _ _ Hread) as (Hlog & Hsent & Hother).
  destruct r as [data|e].
  2:{ exists [], (DoRecv_error c0 (Some e)), w'. split; [done|]. by eapply DoRecv_error_received. }
  destruct (os_readv_range _ _ _ _ _ Hread) as [Hrange Hbytes].
  assert (zlen data ≤ writable + extra_size) as Hmax.
  { destruct (Z.eqb_spec extra_size 0) as [H0|]; simpl in Hrange; lia. }
  destruct (Z.eqb_spec (zlen data) 0) as [H0|H0].
  { apply zlen_nil_inv in H0 as ->. exists [], (DoRecv_error c0 None), w'.
    split; [done|]. by eapply DoRecv_error_received. }
  pose proof (zlen_nonneg data).
  assert (zlen (slice 0 writable data) ≤ writable) by (pose proof (slice_zlen_le 0 writable data); lia).
  rewrite memcpy_in_range by lia. rewrite outcome_bind_Ret. simpl recvbuf_size_.
  destruct (Z.leb_spec (zlen data) writable).
  - exists data. do 2 eexists. split; [done|]. rewrite slice_head_whole by lia.
    pose proof (DoRecv_fit c0 data (now_ c0) (now_ c0) Hb0 ltac:(lia)) as Hl.
    apply (loaded_trans c) in Hl; [|done..]. constructor; try done; [apply Hl|left; apply Hl|by eexists].
  - destruct (DoRecv_spill_loaded c0 data (now_ c0) (now_ c0) Hb0) as (c' & Hc' & Hl); [lia..|].
    fold writable in Hc'. simpl. simpl in Hc'. rewrite Hc', outcome_bind_Ret.
    exists data, c', w'. split; [done|].
    apply (loaded_trans c) in Hl; [|done..]. constructor; try done; [apply Hl|left; apply Hl|by eexists].
Qed.

(** *** Frames in the buffer *)

Record recv_rep (c : PTCPConnection) (fs : list (list Z)) (t : list Z) : Prop := {
  rp_buf : buf_ok c;
  rp_msgs : slice (readidx_ c) (nextmsg_idx_ c) (recvbuf_ c) = concat (host_frame <$> fs);
  rp_tail : slice (nextmsg_idx_ c) (writeidx_ c) (recvbuf_ c) = host_tail t;
  rp_ok : Forall frame_ok fs;
  rp_part : partial t
}.

(** The same while [Front] cuts up what arrived at [old]: the bytes [s] from
    [nextmsg_idx_] on, whose header is converted when it was there before. *)
Record parsing (c : PTCPConnection) (old : Z) (fs : list (list Z)) (s : list Z) : Prop := {
  ps_buf : buf_ok c;
  ps_msgs : slice (readidx_ c) (nextmsg_idx_ c) (recvbuf_ c) = concat (host_frame <$> fs);
  ps_rest : slice (nextmsg_idx_ c) (writeidx_ c) (recvbuf_ c) =
            if old - nextmsg_idx_ c <? 8 then s else host_frame s;
  ps_old : 0 ≤ old ≤ writeidx_ c;
  ps_ok : Forall frame_ok fs;
  ps_bytes : Forall byte_ok s
}.

Lemma recv_rep_zlen c fs t :
  recv_rep c fs t →
  nextmsg_idx_ c - readidx_ c = zlen (concat fs) ∧ writeidx_ c - nextmsg_idx_ c = zlen t.
Proof.
  intros [[Hlen Hsize Hidx] Hm Ht Hok _].
  rewrite <-(concat_host_zlen fs Hok), <-Hm, <-(host_tail_zlen t), <-Ht.
  rewrite !slice_zlen by lia. done.
Qed.

Lemma recv_rep_keeps c c' fs t : recv_rep c fs t → keeps c c' → recv_rep c' fs t.
Proof.
  intros Hrep [Hb' Hn Hw Hseg _ _ _ _]. destruct (recv_rep_zlen _ _ _ Hrep) as [Hz1 Hz2].
  destruct Hrep as [[Hlen Hsize Hidx] Hm Ht Hok Hp]. destruct (Hb') as [Hlen' Hsize' Hidx'].
  rewrite (slice_app (readidx_ c) (nextmsg_idx_ c)) in Hseg by lia. rewrite Hm, Ht in Hseg.
  apply slice_split in Hseg as [H1 H2]; [|lia|rewrite concat_host_zlen, host_tail_zlen by done; lia].
  rewrite concat_host_zlen in H1, H2 by done.
  replace (readidx_ c' + zlen (concat fs)) with (nextmsg_idx_ c') in * by lia. by constructor.
Qed.

Lemma recv_rep_loaded c c' fs t data :
  recv_rep c fs t → loaded c c' data → Forall byte_ok data →
  parsing (set_writeidx c' (writeidx_ c' + zlen data)) (writeidx_ c') fs (t ++ data).
Proof.
  intros Hrep [Hk Hroom Hdata _] Hbytes. apply (recv_rep_keeps _ c') in Hrep; [|done].
  destruct (recv_rep_zlen _ _ _ Hrep) as [_ Hz]. destruct Hrep as [[Hlen Hsize Hidx] Hm Ht Hok [Hbt Hp]].
  pose proof (zlen_nonneg data).
  constructor; simpl; try done; [constructor; simpl; lia| |lia|by apply Forall_app].
  rewrite (slice_app _ (writeidx_ c')) by lia. rewrite Ht, Hdata, Hz. unfold host_tail.
  destruct (Z.ltb_spec (zlen t) 8), (Z.leb_spec 8 (zlen t)); try lia; [done|].
  by rewrite host_frame_app.
Qed.

Lemma read_header_slice buf i hi :
  0 ≤ i → i + 8 ≤ hi → hi ≤ zlen buf →
  read_header buf i = Ret (bytes_header is_little_endian (slice 0 8 (slice i hi buf))).
Proof.
  intros. unfold read_header. rewrite decide_True by lia.
  rewrite slice_slice by lia. by rewrite Z.add_0_r.
Qed.

(** Reading the header at [nextmsg_idx_], and converting it if needed. *)
Lemma header_step c old fs s :
  parsing c old fs s → 8 ≤ zlen s →
  ∃ buf, Front_header old c = Ret (wire_hdr s, set_recvbuf c buf (recvbuf_size_ c)) ∧
    zlen buf = recvbuf_size_ c ∧
    slice (readidx_ c) (nextmsg_idx_ c) buf = concat (host_frame <$> fs) ∧
    slice (nextmsg_idx_ c) (writeidx_ c) buf = host_frame s.
Proof.
  intros [[Hlen Hsize Hidx] Hm Hr Hold Hok Hb] Hs. pose proof (conf_max HC).
  assert (writeidx_ c - nextmsg_idx_ c = zlen s) as Hz.
  { rewrite <-(slice_zlen (nextmsg_idx_ c) (writeidx_ c) (recvbuf_ c)) by lia. rewrite Hr.
    destruct (_ <? _); [done|by apply host_frame_zlen]. }
  unfold Front_header. rewrite (read_header_slice _ _ (writeidx_ c)), outcome_bind_Ret by lia.
  rewrite i32_small by lia. destruct (old - nextmsg_idx_ c <? 8).
  - rewrite Hr. exists (blit (nextmsg_idx_ c) (header_bytes is_little_endian (wire_hdr s)) (recvbuf_ c)).
    fold (wire_hdr s). simpl. unfold write_header.
    pose proof (header_bytes_zlen is_little_endian (wire_hdr s)) as Hh.
    rewrite memcpy_in_range by lia. split; [done|].
    split; [rewrite blit_zlen; lia|]. split; [by rewrite blit_slice_before by lia|].
    rewrite (slice_app _ (nextmsg_idx_ c + 8)) by lia. unfold host_frame.
    rewrite <-Hh at 1. rewrite blit_slice_same by lia. f_equal.
    rewrite blit_slice_after by lia. rewrite <-Hz, <-Hr.
    rewrite slice_slice by lia. f_equal; lia.
  - rewrite Hr, host_frame_header by done. exists (recvbuf_ c).
    by destruct c.
Qed.

(** *** Front_parse *)

(** The acks that [Front_parse] passes to the queue. *)
Definition acks_of (ms : list (list Z)) (t : list Z) : list Z :=
  (mh_ack_seq ∘ wire_hdr <$> ms) ++ (if 8 <=? zlen t then [mh_ack_seq (wire_hdr t)] else []).

Fixpoint Ack_all (q : PTCPQueue) (acks : list Z) : outcome PTCPQueue :=
  match acks with
  | [] => Ret q
  | a :: acks => q ← Ack ToLittleEndian is_little_endian q a; Ack_all q acks
  end.

(** A frame arrives; a heartbeat in front of the buffer is dropped at once. *)
Definition enqueue (fs : list (list Z)) (m : list Z) : list (list Z) :=
  if is_hb m && bool_decide (fs = []) then [] else fs ++ [m].
Definition arrive (fs ms : list (list Z)) : list (list Z) := foldl enqueue fs ms.

(** What reading does not change. *)
Record same_ctl (c c' : PTCPConnection) : Prop := {
  sc_sockfd : sockfd_ c' = sockfd_ c;
  sc_fd : fd_to_close_ c' = fd_to_close_ c;
  sc_hb : hbmsg_ c' = hbmsg_ c;
  sc_last : last_my_ack_ c' = last_my_ack_ c
}.

Lemma same_ctl_trans c1 c2 c3 : same_ctl c1 c2 → same_ctl c2 c3 → same_ctl c1 c3.
Proof. intros [] []. constructor; congruence. Qed.

Lemma frames_nil fs : Forall frame_ok fs → zlen (concat fs) = 0 → fs = [].
Proof.
  destruct 1 as [|m fs (_ & Hm & _) _]; [done|]. simpl. rewrite zlen_app.
  pose proof (zlen_nonneg (concat fs)). lia.
Qed.

(** One whole frame is cut off. *)
Lemma parsing_next c old fs m s buf q :
  parsing c old fs (m ++ s) → frame_ok m → old - nextmsg_idx_ c < zlen m →
  zlen buf = recvbuf_size_ c →
  slice (readidx_ c) (nextmsg_idx_ c) buf = concat (host_frame <$> fs) →
  slice (nextmsg_idx_ c) (writeidx_ c) buf = host_frame (m ++ s) →
  let c1 := set_q (set_recvbuf c buf (recvbuf_size_ c)) (Some q) in
  let c2 := if is_hb m && (readidx_ c =? nextmsg_idx_ c)
            then set_readidx c1 (readidx_ c + zlen m) else c1 in
  parsing (set_nextmsg_idx c2 (nextmsg_idx_ c + zlen m)) old (enqueue fs m) s.
Proof.
  intros [[Hlen Hsize Hidx] Hm Hr Hold Hok Hb] Hfm Hlt Hbuf Hb1 Hb2 c1 c2.
  pose proof Hfm as (Hbm & H8 & Hsz & Hmax & Hhb).
  assert (nextmsg_idx_ c - readidx_ c = zlen (concat fs)) as Hz1.
  { rewrite <-(concat_host_zlen fs Hok), <-Hm, slice_zlen; lia. }
  assert (writeidx_ c - nextmsg_idx_ c = zlen m + zlen s) as Hz2.
  { rewrite <-zlen_app, <-(host_frame_zlen (m ++ s)), <-Hb2, slice_zlen
      by (rewrite ?zlen_app; pose proof (zlen_nonneg s); lia). done. }
  pose proof (zlen_nonneg s). rewrite host_frame_app in Hb2 by done.
  apply slice_split in Hb2 as [Hb2 Hb3]; [|lia|rewrite host_frame_zlen; lia].
  rewrite host_frame_zlen in Hb2, Hb3 by done.
  assert (is_hb m && (readidx_ c =? nextmsg_idx_ c) = is_hb m && bool_decide (fs = [])) as Heq.
  { f_equal. destruct (Z.eqb_spec (readidx_ c) (nextmsg_idx_ c)).
    - rewrite bool_decide_true; [done|]. apply frames_nil; [done|lia].
    - rewrite bool_decide_false; [done|]. intros ->. simpl in Hz1. rewrite zlen_nil in Hz1. lia. }
  unfold c2, enqueue. rewrite <-Heq.
  destruct (is_hb m && (readidx_ c =? nextmsg_idx_ c)) eqn:Hd.
  - apply andb_true_iff in Hd as [_ Hd%Z.eqb_eq].
    constructor; simpl; try done; [constructor; simpl; lia|by rewrite Hd, slice_nil by lia| |].
    + rewrite (proj2 (Z.ltb_lt _ _)) by lia. done.
    + by apply Forall_app in Hb as [_ Hb].
  - constructor; simpl; try done; [constructor; simpl; lia| | | |].
    + rewrite (slice_app _ (nextmsg_idx_ c)) by lia. rewrite Hb1, Hb2.
      rewrite fmap_app, concat_app. simpl. by rewrite app_nil_r.
    + rewrite (proj2 (Z.ltb_lt _ _)) by lia. done.
    + apply Forall_app. split; [done|]. by constructor.
    + by apply Forall_app in Hb as [_ Hb].
Qed.

Lemma parsing_zlen c old fs s :
  parsing c old fs s → 8 ≤ zlen s ∨ old - nextmsg_idx_ c < 8 → writeidx_ c - nextmsg_idx_ c = zlen s.
Proof.
  intros [[Hlen Hsize Hidx] Hm Hr Hold Hok Hb] Hc.
  rewrite <-(slice_zlen (nextmsg_idx_ c) (writeidx_ c) (recvbuf_ c)) by lia. rewrite Hr.
  destruct (Z.ltb_spec (old - nextmsg_idx_ c) 8); [done|]. apply host_frame_zlen. lia.
Qed.

(** The loop stops at the part of a frame. *)
Lemma Front_parse_stop fuel c old fs t q q' :
  parsing c old fs t → partial t → old - nextmsg_idx_ c ≤ zlen t → q_ c = Some q →
  Ack_all q (acks_of [] t) = Ret q' →
  ∃ c', Front_parse (S fuel) old c = Ret (false, c') ∧ recv_rep c' fs t ∧ q_ c' = Some q' ∧
        same_ctl c c'.
Proof.
  intros Hps Hpt Hold Hq Hack. pose proof (conf_max HC). pose proof (zlen_nonneg t).
  pose proof (parsing_zlen _ _ _ _ Hps ltac:(lia)) as Hz.
  pose proof Hps as [[Hlen Hsize Hidx] Hm Hr Hold' Hok Hb]. unfold acks_of in Hack.
  cbn [Front_parse]. u32_simpl. rewrite Hz. destruct (Z.leb_spec 8 (zlen t)) as [H8|H8].
  - destruct (header_step _ _ _ _ Hps H8) as (buf & Hstep & Hbuf & Hb1 & Hb2).
    rewrite Hstep, outcome_bind_Ret. remember (wire_hdr t) as h eqn:Hh. simpl. rewrite Hq.
    simpl in Hack. apply outcome_bind_inv in Hack as (q1 & Hack & [= ->]).
    rewrite Hack, outcome_bind_Ret. subst h. fold (frame_size t).
    destruct Hpt as [_ Hpt]. specialize (Hpt H8). pose proof (frame_size_range t Hb H8).
    u32_simpl. rewrite (proj2 (Z.ltb_ge _ _)), (proj2 (Z.ltb_lt _ _)) by lia.
    eexists. split; [done|]. split; [|done].
    constructor; simpl; try done.
    rewrite Hb2. unfold host_tail. by rewrite (proj2 (Z.leb_le _ _)).
  - exists c. split; [done|]. simpl in Hack. injection Hack as <-. split; [|done].
    constructor; try done. rewrite Hr, (proj2 (Z.ltb_lt _ _)) by lia.
    unfold host_tail. by rewrite (proj2 (Z.leb_gt _ _)).
Qed.

Lemma Front_parse_ok ms : ∀ fuel c old fs t q q',
  parsing c old fs (concat ms ++ t) → Forall frame_ok ms → partial t →
  (match ms with [] => old - nextmsg_idx_ c ≤ zlen t | m :: _ => old - nextmsg_idx_ c < zlen m end) →
  q_ c = Some q → Ack_all q (acks_of ms t) = Ret q' → (length ms < fuel)%nat →
  ∃ c', Front_parse fuel old c = Ret (false, c') ∧ recv_rep c' (arrive fs ms) t ∧ q_ c' = Some q' ∧
        same_ctl c c'.
Proof.
  induction ms as [|m ms IH]; intros fuel c old fs t q q' Hps Hms Hpt Hold Hq Hack Hfuel;
    (destruct fuel as [|fuel]; [simpl in Hfuel; lia|]).
  - apply (Front_parse_stop _ _ _ _ _ q); done.
  - simpl concat in Hps. rewrite <-app_assoc in Hps.
    apply Forall_cons_1 in Hms as [Hm Hms]. pose proof Hm as (Hbm & H8 & Hsz & Hmax & Hhb).
    pose proof (conf_max HC). pose proof (zlen_nonneg (concat ms ++ t)).
    assert (8 ≤ zlen (m ++ concat ms ++ t)) as H8' by (rewrite zlen_app; lia).
    pose proof (parsing_zlen _ _ _ _ Hps ltac:(by left)) as Hz. rewrite zlen_app in Hz.
    pose proof Hps as [[Hlen Hsize Hidx] _ _ Hold' _ _].
    destruct (header_step _ _ _ _ Hps H8') as (buf & Hstep & Hbuf & Hb1 & Hb2).
    rewrite (wire_hdr_app m) in Hstep by done.
    cbn [Front_parse]. u32_simpl. rewrite (proj2 (Z.leb_le _ _)) by lia.
    change (acks_of (m :: ms) t) with (mh_ack_seq (wire_hdr m) :: acks_of ms t) in Hack.
    cbn [Ack_all] in Hack. apply outcome_bind_inv in Hack as (q1 & Hack1 & Hack).
    rewrite Hstep, outcome_bind_Ret. remember (wire_hdr m) as h eqn:Hh. simpl. rewrite Hq.
    rewrite Hack1, outcome_bind_Ret. subst h. fold (frame_size m). rewrite <-Hsz. u32_simpl.
    rewrite !(proj2 (Z.ltb_ge _ _)) by lia. fold (is_hb m).
    pose proof (parsing_next c old fs m (concat ms ++ t) buf q1 Hps Hm) as Hnext.
    specialize (Hnext Hold Hbuf Hb1 Hb2). cbv zeta in Hnext. unfold arrive. simpl foldl.
    fold (arrive (enqueue fs m) ms).
    destruct (is_hb m && (readidx_ c =? nextmsg_idx_ c)); simpl in Hnext |- *; u32_simpl.
    all: edestruct (IH fuel _ old (enqueue fs m) t q1 q' Hnext Hms Hpt) as (c' & Hc' & Hrep & Hq' & []);
      [simpl; destruct ms as [|m' ?]; simpl; pose proof (zlen_nonneg t);
         try pose proof (zlen_nonneg m'); lia
      |done|done|simpl in Hfuel; lia|].
    all: exists c'; split; [exact Hc'|]; split; [exact Hrep|]; split; [exact Hq'|by constructor].
Qed.

(** *** Front_skip *)

(** The heartbeats in front of the buffer go. *)
Fixpoint skip_hb (fs : list (list Z)) : list (list Z) :=
  match fs with
  | m :: fs => if is_hb m then skip_hb fs else m :: fs
  | [] => []
  end.

Lemma recv_rep_head c m fs t :
  recv_rep c (m :: fs) t →
  read_header (recvbuf_ c) (readidx_ c) = Ret (wire_hdr m) ∧
  recv_rep (set_readidx c (readidx_ c + zlen m)) fs t ∧
  slice (readidx_ c) (readidx_ c + zlen m) (recvbuf_ c) = host_frame m ∧
  readidx_ c + zlen m ≤ nextmsg_idx_ c.
Proof.
  intros Hrep. destruct (recv_rep_zlen _ _ _ Hrep) as [Hz1 Hz2].
  destruct Hrep as [[Hlen Hsize Hidx] Hm Ht Hok Hp].
  apply Forall_cons_1 in Hok as [Hfm Hok]. pose proof Hfm as (Hbm & H8 & _).
  simpl in Hz1. rewrite zlen_app in Hz1. pose proof (zlen_nonneg (concat fs)).
  rewrite fmap_cons in Hm. simpl in Hm.
  apply slice_split in Hm as [H1 H2]; [|lia|rewrite host_frame_zlen, concat_host_zlen by done; lia].
  rewrite host_frame_zlen in H1, H2 by done.
  split; [|split; [|split; [done|lia]]].
  - rewrite (read_header_slice _ _ (readidx_ c + zlen m)) by lia.
    by rewrite H1, host_frame_header.
  - constructor; simpl; try done. constructor; simpl; lia.
Qed.

Lemma recv_rep_nil c fs t : recv_rep c fs t → (readidx_ c =? nextmsg_idx_ c) = bool_decide (fs = []).
Proof.
  intros Hrep. destruct (recv_rep_zlen _ _ _ Hrep) as [Hz _].
  destruct (Z.eqb_spec (readidx_ c) (nextmsg_idx_ c)).
  - rewrite bool_decide_true; [done|]. apply frames_nil; [apply Hrep|lia].
  - rewrite bool_decide_false; [done|]. intros ->. simpl in Hz. rewrite zlen_nil in Hz. lia.
Qed.

Lemma recv_rep_same c c' fs t :
  recv_rep c fs t → recvbuf_ c' = recvbuf_ c → recvbuf_size_ c' = recvbuf_size_ c →
  readidx_ c' = readidx_ c → nextmsg_idx_ c' = nextmsg_idx_ c → writeidx_ c' = writeidx_ c →
  recv_rep c' fs t.
Proof.
  intros [[] ? ? ? ?] Hb Hs Hr Hn Hw.
  constructor; rewrite ?Hb, ?Hs, ?Hr, ?Hn, ?Hw; try done. constructor; congruence.
Qed.

Lemma Front_skip_ok fs : ∀ fuel c t q,
  recv_rep c fs t → q_ c = Some q → (length fs < fuel)%nat →
  ∃ r c', Front_skip fuel c = Ret (r, c') ∧ recv_rep c' (skip_hb fs) t ∧ q_ c' = Some q ∧
    sockfd_ c' = sockfd_ c ∧ fd_to_close_ c' = fd_to_close_ c ∧ hbmsg_ c' = hbmsg_ c ∧
    (∀ i, r = Some i → i = readidx_ c' ∧ skip_hb fs ≠ []).
Proof.
  induction fs as [|m fs IH]; intros fuel c t q Hrep Hq Hfuel;
    (destruct fuel as [|fuel]; [simpl in Hfuel; lia|]); pose proof (recv_rep_nil _ _ _ Hrep) as Hnil;
    rewrite Z.eqb_sym in Hnil; simpl; rewrite Hnil.
  - exists None, c. by do 6 (split; [done|]).
  - destruct (recv_rep_head _ _ _ _ Hrep) as (Hread & Hnext & _ & Hle).
    rewrite bool_decide_false by done. rewrite Hread, outcome_bind_Ret. fold (is_hb m).
    destruct (is_hb m) eqn:Hhb.
    + pose proof (rp_ok _ _ _ Hrep) as Hok. apply Forall_cons_1 in Hok as [Hm _].
      rewrite (frame_ok_hb m Hm Hhb) in *. pose proof (conf_max HC).
      destruct (rp_buf _ _ _ Hrep) as [Hlen Hsize Hidx]. unfold sizeof_MsgHeader. u32_simpl.
      apply (IH fuel _ t q Hnext); [done|]. simpl in Hfuel. lia.
    + rewrite Hq. destruct (last_my_ack_ c =? MyAck q).
      * exists None, c. by do 6 (split; [done|]).
      * eexists _, _. split; [done|]. split; [by apply (recv_rep_same c)|].
        do 4 (split; [done|]). by intros i [= <-].
Qed.

(** *** The acks that arrive *)

Abbreviation queue_rep := (queue_rep TcpQueueSize ToLittleEndian is_little_endian).
Abbreviation live_rep := (live_rep TcpQueueSize ToLittleEndian is_little_endian).

(** An ack a correct peer may send: not older than half the number circle,
    and not beyond the messages sent. *)
Definition ack_valid (q : PTCPQueue) (msgs : list (list MsgHeader)) (a : Z) : Prop :=
  0 ≤ a < 4294967296 ∧ Z.of_nat (length msgs) - 2147483648 ≤ ack_dist q a ∧
  (0 < ack_dist q a → ∃ ms1 ms2, msgs = ms1 ++ ms2 ∧ ack_dist q a = Z.of_nat (length ms1) ∧
                                 zlen (concat ms1) ≤ send_idx_ q - read_idx_ q).

(** [q'] is [q] after acks of the messages [ms1]. *)
Definition acked (q q' : PTCPQueue) (ms1 ms2 : list (list MsgHeader)) : Prop :=
  queue_rep q' ms2 ∧ unsent q' = unsent q ∧ ack_seq_num_ q' = ack_seq_num_ q ∧
  read_seq_num_ q' = u32 (read_seq_num_ q + Z.of_nat (length ms1)).

Lemma Ack_acked q msgs a :
  queue_rep q msgs → ack_valid q msgs a →
  ∃ q' ms1 ms2, Ack ToLittleEndian is_little_endian q a = Ret q' ∧ msgs = ms1 ++ ms2 ∧
    acked q q' ms1 ms2 ∧ Z.max 0 (ack_dist q a) = Z.of_nat (length ms1) ∧
    send_idx_ q' - read_idx_ q' = send_idx_ q - read_idx_ q - zlen (concat ms1).
Proof.
  intros [Hl Hs] (Ha & Hlow & Hsent). destruct (Z.leb_spec (ack_dist q a) 0) as [Hle|Hgt].
  - exists q, [], msgs. rewrite Ack_stale by done. split; [done|]. split; [done|].
    split; [|unfold zlen; simpl; lia]. destruct (Hl). unfold acked. simpl. rewrite Z.add_0_r.
    rewrite (u32_small (read_seq_num_ q)) by done. by repeat (split; [done|]).
  - destruct (Hsent Hgt) as (ms1 & ms2 & -> & Hd & Hout).
    destruct (Ack_fresh _ _ _ (conf_queue HC) q ms1 ms2 a Hl Ha Hd) as (q' & Hq' & Hok).
    { intros ->. simpl in Hd. lia. }
    destruct (ak_sent _ _ _ _ _ _ _ _ Hok Hout ltac:(lia)) as (Hrep & Hun & Hdiff).
    exists q', ms1, ms2. split; [done|]. split; [done|]. split; [|lia].
    split; [done|]. split; [done|]. split; [apply Hok|].
    rewrite (ak_read_seq _ _ _ _ _ _ _ _ Hok). unfold ack_dist in Hd. destruct Hl. word_lia.
Qed.

Lemma ack_dist_after q q' a k n :
  0 ≤ read_seq_num_ q < 4294967296 → read_seq_num_ q' = u32 (read_seq_num_ q + k) →
  0 ≤ k ≤ n → n - 2147483648 ≤ ack_dist q a → ack_dist q' a = ack_dist q a - k.
Proof. intros ? Hq' ? ?. unfold ack_dist in *. rewrite Hq'. word_lia. Qed.

Lemma ack_valid_after q q' ms1 ms2 a :
  queue_rep q (ms1 ++ ms2) → acked q q' ms1 ms2 →
  send_idx_ q' - read_idx_ q' = send_idx_ q - read_idx_ q - zlen (concat ms1) →
  ack_valid q (ms1 ++ ms2) a → ack_valid q' ms2 a.
Proof.
  intros [Hl _] (Hrep' & _ & _ & Hseq) Hdiff (Ha & Hlow & Hsent). rewrite length_app in Hlow.
  assert (ack_dist q' a = ack_dist q a - Z.of_nat (length ms1)) as Hd.
  { apply (ack_dist_after _ _ _ _ (Z.of_nat (length ms1 + length ms2))); try done; [apply Hl|lia]. }
  split; [done|]. split; [lia|]. intros Hpos.
  destruct (Hsent ltac:(lia)) as (k1 & k2 & Heq & Hk & Hout).
  destruct (app_eq_inv _ _ _ _ Heq) as [(k & -> & ->)|(k & -> & ->)].
  - rewrite length_app in Hd. lia.
  - exists k, k2. rewrite length_app in Hk. rewrite concat_app, zlen_app in Hout.
    split; [done|]. lia.
Qed.

Lemma Ack_all_ok acks : ∀ q msgs,
  queue_rep q msgs → Forall (ack_valid q msgs) acks →
  ∃ q' ms1 ms2, Ack_all q acks = Ret q' ∧ msgs = ms1 ++ ms2 ∧ acked q q' ms1 ms2 ∧
    send_idx_ q' - read_idx_ q' = send_idx_ q - read_idx_ q - zlen (concat ms1).
Proof.
  induction acks as [|a acks IH]; intros q msgs Hrep Hv.
  - exists q, [], msgs. split; [done|]. split; [done|]. simpl.
    split; [|unfold zlen; simpl; lia]. unfold acked. simpl. rewrite Z.add_0_r. destruct (Hrep) as [[] _].
    by rewrite u32_small.
  - apply Forall_cons_1 in Hv as [Ha Hv].
    destruct (Ack_acked q msgs a Hrep Ha) as (q1 & ms1 & ms2 & Hq1 & -> & Hacked & _ & Hdiff).
    destruct (IH q1 ms2) as (q' & k1 & k2 & Hq' & -> & Hacked' & Hdiff').
    { apply Hacked. }
    { eapply Forall_impl; [exact Hv|]. intros b. by apply ack_valid_after. }
    exists q', (ms1 ++ k1), k2. simpl. rewrite Hq1, outcome_bind_Ret. split; [done|].
    split; [by rewrite app_assoc|]. destruct Hacked as (_ & Hu & Has & Hseq).
    destruct Hacked' as (? & Hu' & Has' & Hseq'). split; [|rewrite concat_app, zlen_app; lia].
    split; [done|]. split; [congruence|]. split; [congruence|].
    rewrite Hseq', Hseq, u32_add_l, length_app. f_equal. lia.
Qed.

(** *** Front *)

Definition no_lead_hb (fs : list (list Z)) : Prop :=
  match fs with m :: _ => is_hb m = false | [] => True end.

Lemma skip_hb_no_lead fs : no_lead_hb (skip_hb fs).
Proof. induction fs as [|m fs IH]; [done|]. simpl. by destruct (is_hb m) eqn:H. Qed.

Lemma arrive_no_lead ms : ∀ fs, no_lead_hb fs → no_lead_hb (arrive fs ms).
Proof.
  induction ms as [|m ms IH]; intros fs Hfs; [done|]. apply IH. unfold enqueue.
  destruct (is_hb m) eqn:Hm; simpl; destruct fs; try done; by rewrite ?bool_decide_true.
Qed.

(** What [Front] returns. *)
Definition front_of (c : PTCPConnection) (fs : list (list Z)) : option Z :=
  match fs with [] => None | _ => Some (readidx_ c) end.

Lemma Front_result_of c fs t : recv_rep c fs t → Front_result c = front_of c fs.
Proof.
  intros Hrep. unfold Front_result. rewrite (recv_rep_nil _ _ _ Hrep). by destruct fs.
Qed.

Lemma frames_count fs : Forall frame_ok fs → Z.of_nat (length fs) ≤ zlen (concat fs).
Proof.
  induction 1 as [|m fs (_ & ? & _) _ IH]; [done|]. simpl. rewrite zlen_app. lia.
Qed.

Lemma frames_fuel c fs t : recv_rep c fs t → (length fs < loop_fuel c)%nat.
Proof.
  intros Hrep. destruct (recv_rep_zlen _ _ _ Hrep) as [Hz _].
  destruct Hrep as [[Hlen Hsize Hidx] _ _ Hok _].
  pose proof (frames_count fs Hok).
  unfold loop_fuel, zlen in *. lia.
Qed.

Definition conn_fd (c : PTCPConnection) (fd : Z) : Prop := sockfd_ c = fd ∨ sockfd_ c < 0.

(** Whatever a read returns next completes the part [t] to frames and a part,
    with acks the queue [q] can take. *)
Definition reads_frames (c : PTCPConnection) (t : list Z) (q : PTCPQueue) (w : W) : Prop :=
  ∀ lens data w', os_readv (sockfd_ c) lens w = (SysOk data, w') → data ≠ [] →
  ∃ ms t' q', t ++ data = concat ms ++ t' ∧ Forall frame_ok ms ∧ partial t' ∧
              Ack_all q (acks_of ms t') = Ret q'.

(** What [Front] did: [data] was read, and the frames [ms] arrived. *)
Record fronted (fd : Z) (c c' : PTCPConnection) (w w' : W) (q q' : PTCPQueue)
    (fs ms : list (list Z)) (t data t' : list Z) : Prop := {
  fr_rep : recv_rep c' (arrive (skip_hb fs) ms) t';
  fr_cut : t ++ data = concat ms ++ t';
  fr_ms : Forall frame_ok ms;
  fr_log : os_received fd w' = os_received fd w ++ data;
  fr_q : q_ c' = Some q';
  fr_acks : (data = [] ∧ q' = q ∧ ms = []) ∨ (data ≠ [] ∧ Ack_all q (acks_of ms t') = Ret q');
  fr_read : data ≠ [] → ∃ lens, os_readv (sockfd_ c) lens w = (SysOk data, w');
  fr_sent fd' : os_sent fd' w' = os_sent fd' w;
  fr_other fd' : fd' ≠ sockfd_ c → os_received fd' w' = os_received fd' w;
  fr_fd : sockfd_ c' = sockfd_ c ∨ sockfd_ c' < 0;
  fr_close : fd_to_close_ c' = fd_to_close_ c;
  fr_hb : hbmsg_ c' = hbmsg_ c;
  fr_how : (skip_hb fs ≠ [] ∧ data = [] ∧ w' = w ∧ sockfd_ c' = sockfd_ c) ∨
           ∃ c0 c1, recv_rep c0 (skip_hb fs) t ∧ sockfd_ c0 = sockfd_ c ∧
                    DoRecv c0 w = Ret (zlen data, c1, w') ∧ sockfd_ c' = sockfd_ c1
}.

(** A frame does not end inside a part of one. *)
Lemma partial_not_frame t m x y :
  partial t → frame_ok m → t ++ x = m ++ y → zlen m ≤ zlen t → False.
Proof.
  intros [_ Hpt] (_ & H8 & Hsz & _) Heq Hle.
  destruct (app_eq_inv _ _ _ _ Heq) as [(k & -> & _)|(k & -> & _)].
  - rewrite frame_size_app in Hpt by done. specialize (Hpt ltac:(lia)). lia.
  - rewrite zlen_app in Hle, Hsz, H8. pose proof (zlen_nonneg k).
    assert (k = []) as -> by (apply zlen_nil_inv; lia). rewrite app_nil_r, zlen_nil in *.
    specialize (Hpt ltac:(lia)). lia.
Qed.

Lemma Front_parse_loaded c c' fs t data ms t' q q' :
  recv_rep c fs t → q_ c = Some q → loaded c c' data → data ≠ [] → Forall byte_ok data →
  t ++ data = concat ms ++ t' → Forall frame_ok ms → partial t' →
  Ack_all q (acks_of ms t') = Ret q' →
  let c1 := set_writeidx c' (u32 (writeidx_ c' + zlen data)) in
  ∃ c2, Front_parse (loop_fuel c1) (i32 (writeidx_ c')) c1 = Ret (false, c2) ∧
        recv_rep c2 (arrive fs ms) t' ∧ q_ c2 = Some q' ∧ same_ctl c' c2.
Proof.
  intros Hrep Hq Hl Hne Hbytes Hcut Hms Hpt' Hack c1.
  pose proof (recv_rep_loaded _ _ _ _ _ Hrep Hl Hbytes) as Hps. rewrite Hcut in Hps.
  destruct (Hl) as [Hk Hroom Hdata Hsock]. destruct (k_buf _ _ Hk) as [Hlen Hsize Hidx].
  pose proof (conf_max HC). pose proof (zlen_nonneg data).
  unfold c1. rewrite (u32_small (_ + zlen data)), (i32_small (writeidx_ c')) by lia.
  destruct (recv_rep_zlen _ _ _ (recv_rep_keeps _ _ _ _ Hrep Hk)) as [_ Hzt].
  assert (0 < zlen data) by (destruct data; [done|rewrite zlen_cons; pose proof (zlen_nonneg data); lia]).
  assert (zlen t + zlen data = zlen (concat ms) + zlen t') as Hz by (rewrite <-!zlen_app; by rewrite Hcut).
  edestruct (Front_parse_ok ms (S (length (recvbuf_ c')))) as (c2 & Hc2 & Hrep2 & Hq2 & Hctl); [exact Hps|done|done| | |exact Hack| |].
  - destruct Hms as [|m ms Hm Hms]; simpl; [unfold zlen in *; simpl in *; lia|].
    rewrite Hzt. destruct (Z.leb_spec (zlen m) (zlen t)) as [Hmt|]; [|lia].
    exfalso. simpl in Hcut. rewrite <-app_assoc in Hcut.
    apply (partial_not_frame t m data (concat ms ++ t')); [apply Hrep|done..].
  - simpl. rewrite (k_q _ _ Hk). exact Hq.
  - pose proof (frames_count ms Hms). unfold zlen in *. lia.
  - exists c2. split; [exact Hc2|]. split; [exact Hrep2|]. split; [exact Hq2|].
    destruct Hctl. by constructor.
Qed.

Lemma Front_ok c fd fs t q w :
  recv_rep c fs t → q_ c = Some q → conn_fd c fd → reads_frames c t q w →
  ∃ r c' w' q' ms data t', Front c w = Ret (r, c', w') ∧
    fronted fd c c' w w' q q' fs ms t data t' ∧ r = front_of c' (arrive (skip_hb fs) ms).
Proof.
  intros Hrep Hq Hfd Hreads. unfold Front.
  assert (UseShm c = false) as -> by (unfold UseShm; by rewrite Hq).
  destruct (Front_skip_ok fs (loop_fuel c) c t q Hrep Hq (frames_fuel _ _ _ Hrep))
    as (r & c0 & Hc0 & Hrep0 & Hq0 & Hs0 & Hf0 & Hh0 & Hr).
  rewrite Hc0, outcome_bind_Ret. destruct r as [i|].
  - destruct (Hr i eq_refl) as [-> Hne].
    exists (Some (readidx_ c0)), c0, w, q, [], [], t. split; [done|].
    split; [|simpl; by destruct (skip_hb fs)].
    constructor; try done; rewrite ?app_nil_r; try done; [by left|by left|by left].
  - clear Hr. destruct (DoRecv_ok c0 w (rp_buf _ _ _ Hrep0)) as (data & c1 & w1 & Hdr & Hrc).
    rewrite Hdr, outcome_bind_Ret. unfold conn_fd in Hfd. rewrite <-Hs0 in Hfd.
    pose proof (rc_log _ _ _ _ _ Hrc fd Hfd) as Hlog.
    pose proof (rc_keeps _ _ _ _ _ Hrc) as Hk.
    pose proof (rc_sock _ _ _ _ _ Hrc) as Hs1. rewrite Hs0 in Hs1.
    pose proof (rc_read _ _ _ _ _ Hrc) as Hread. rewrite Hs0 in Hread.
    pose proof (rc_other _ _ _ _ _ Hrc) as Hother. rewrite Hs0 in Hother.
    destruct (Z.eqb_spec (zlen data) 0) as [H0|H0].
    + apply zlen_nil_inv in H0 as ->. pose proof (recv_rep_keeps _ _ _ _ Hrep0 Hk) as Hrep1.
      exists (Front_result c1), c1, w1, q, [], [], t. split; [done|].
      split; [|by apply (Front_result_of _ _ t)].
      constructor; try done; rewrite ?app_nil_r; try done.
      * by rewrite (k_q _ _ Hk).
      * by left.
      * apply Hrc.
      * by rewrite (k_fd _ _ Hk).
      * by rewrite (k_hb _ _ Hk).
      * right. by exists c0, c1.
    + assert (data ≠ []) as Hne by (by intros ->).
      destruct (Hread Hne) as [lens Hl].
      destruct (Hreads lens data w1 Hl Hne) as (ms & t' & q' & Hcut & Hms & Hpt' & Hq').
      destruct (Front_parse_loaded c0 c1 (skip_hb fs) t data ms t' q q' Hrep0 Hq0
        (rc_data _ _ _ _ _ Hrc Hne) Hne (rc_bytes _ _ _ _ _ Hrc) Hcut Hms Hpt' Hq')
        as (c2 & Hc2 & Hrep2 & Hq2 & Hctl).
      simpl. simpl in Hc2. rewrite Hc2, outcome_bind_Ret. destruct Hctl as [Hs2 Hf2 Hh2 _].
      exists (Front_result c2), c2, w1, q', ms, data, t'. split; [done|].
      split; [|by apply (Front_result_of _ _ t')]. constructor; try done.
      * by right.
      * apply Hrc.
      * by rewrite Hs2.
      * by rewrite Hf2, (k_fd _ _ Hk).
      * by rewrite Hh2, (k_hb _ _ Hk).
      * right. exists c0, c1. by rewrite Hs2.
Qed.

Lemma Pop_ok c m fs t q :
  recv_rep c (m :: fs) t → q_ c = Some q →
  ∃ c', Pop c = Ret c' ∧ recv_rep c' fs t ∧ q_ c' = Some (MyAck_incr q) ∧
    sockfd_ c' = sockfd_ c ∧ fd_to_close_ c' = fd_to_close_ c ∧ hbmsg_ c' = hbmsg_ c.
Proof.
  intros Hrep Hq. destruct (recv_rep_head _ _ _ _ Hrep) as (Hread & Hnext & _ & Hle).
  pose proof (rp_ok _ _ _ Hrep) as Hok. apply Forall_cons_1 in Hok as [(_ & H8 & Hsz & Hmax & _) _].
  destruct (rp_buf _ _ _ Hrep) as [Hlen Hsize Hidx]. pose proof (conf_max HC).
  unfold Pop. rewrite Hread, outcome_bind_Ret, Hq. fold (frame_size m). rewrite <-Hsz. u32_simpl.
  eexists. split; [done|]. split; [by apply (recv_rep_same (set_readidx c (readidx_ c + zlen m)))|done].
Qed.

(** With no whole frame in the buffer there is room for bytes to come: what
    [DoRecv] gives to [readv]. *)
Definition recv_extra (c : PTCPConnection) : Z :=
  Z.min sizeof_stackbuf
    (u32 (readidx_ c + (if u32 (u32 (u32 (recvbuf_size_ c - writeidx_ c) + readidx_ c) * 2) <? recvbuf_size_ c
                        then u32 (TcpRecvBufMaxSize - recvbuf_size_ c) else 0))).

Definition recv_lens (c : PTCPConnection) : list Z :=
  if recv_extra c =? 0 then [u32 (recvbuf_size_ c - writeidx_ c)]
  else [u32 (recvbuf_size_ c - writeidx_ c); recv_extra c].

Lemma recv_extra_range c : 0 ≤ recv_extra c ≤ 65536.
Proof. unfold recv_extra, sizeof_stackbuf. match goal with |- context [u32 (readidx_ c + ?x)] => pose proof (u32_range (readidx_ c + x)) end. lia. Qed.

Lemma recv_lens_sum c : foldr Z.add 0 (recv_lens c) = u32 (recvbuf_size_ c - writeidx_ c) + recv_extra c.
Proof. unfold recv_lens. destruct (Z.eqb_spec (recv_extra c) 0); simpl; lia. Qed.

Lemma recv_room c t :
  recv_rep c [] t → let c0 := restarted c in
  0 < u32 (recvbuf_size_ c0 - writeidx_ c0) + recv_extra c0 < 4294967296.
Proof.
  intros Hrep c0. pose proof (recv_rep_keeps _ _ _ _ Hrep (restarted_keeps c (rp_buf _ _ _ Hrep))) as Hrep0. fold c0 in Hrep0.
  destruct (recv_rep_zlen _ _ _ Hrep0) as [Hz1 Hz2]. simpl in Hz1. rewrite zlen_nil in Hz1.
  destruct Hrep0 as [[Hlen Hsize Hidx] _ _ _ [_ Hpart]]. pose proof (conf_max HC). pose proof (conf_init HC).
  assert (zlen t < TcpRecvBufMaxSize) as Ht.
  { destruct (Z.ltb_spec (zlen t) 8); [|destruct Hpart; lia]. pose proof (conf_max_8 HC). word_lia. }
  pose proof (recv_extra_range c0) as He. rewrite (u32_small (recvbuf_size_ c0 - _)) by lia. split; [|lia].
  destruct (Z.eqb_spec (recvbuf_size_ c0 - writeidx_ c0) 0) as [Hw0|]; [|lia].
  enough (recv_extra c0 ≠ 0) by lia. unfold recv_extra, sizeof_stackbuf. rewrite Hw0.
  destruct (Z.eqb_spec (readidx_ c0) 0) as [Hr|Hr].
  - rewrite Hr. change (u32 (u32 (u32 0 + 0) * 2)) with 0. rewrite (proj2 (Z.ltb_lt _ _)) by lia.
    rewrite (u32_small (TcpRecvBufMaxSize - _)) by lia. rewrite u32_small by lia. lia.
  - case_match; u32_simpl; lia.
Qed.

(** *** User messages *)

(** The frames that are not heartbeats. *)
Definition user_frames (fs : list (list Z)) : list (list Z) := filter (λ m, is_hb m = false) fs.

Lemma user_frames_skip fs : user_frames (skip_hb fs) = user_frames fs.
Proof.
  induction fs as [|m fs IH]; [done|]. simpl. destruct (is_hb m) eqn:Hm; [|done].
  unfold user_frames in *. rewrite filter_cons_False by (by rewrite Hm). done.
Qed.

Lemma user_frames_arrive ms : ∀ fs, user_frames (arrive fs ms) = user_frames (fs ++ ms).
Proof.
  induction ms as [|m ms IH]; intros fs; [by rewrite app_nil_r|].
  unfold arrive in *. simpl. rewrite IH. unfold enqueue, user_frames.
  destruct (is_hb m) eqn:Hm; simpl; [|by rewrite <-app_assoc].
  case_bool_decide as Hfs; [subst fs|by rewrite <-app_assoc].
  simpl. by rewrite filter_cons_False by (by rewrite Hm).
Qed.

(** A read that continues a stream of frames whose acks are not new. *)
Lemma acks_of_elem ms rest t r a :
  Forall frame_ok rest → concat rest = t ++ r → (rest = [] → t = []) → a ∈ acks_of ms t →
  ∃ m, m ∈ ms ++ rest ∧ a = mh_ack_seq (wire_hdr m).
Proof.
  intros Hok Hcat Hnil [Ha|Ha]%elem_of_app.
  - apply list_elem_of_fmap in Ha as (m & -> & Hm). exists m. split; [|done].
    apply elem_of_app. by left.
  - destruct (Z.leb_spec 8 (zlen t)) as [H8|]; [|by apply not_elem_of_nil in Ha].
    apply list_elem_of_singleton in Ha as ->.
    destruct Hok as [|m rest (_ & Hm8 & _) Hok]; [rewrite Hnil in H8 by done; unfold zlen in H8; simpl in H8; lia|].
    exists m. split; [apply elem_of_app; right; by left|]. f_equal.
    rewrite <-(wire_hdr_app m (concat rest)) by done. simpl in Hcat. rewrite Hcat.
    by rewrite wire_hdr_app.
Qed.

Lemma Ack_all_stale q acks : (∀ a, a ∈ acks → ack_dist q a ≤ 0) → Ack_all q acks = Ret q.
Proof.
  induction acks as [|a acks IH]; intros Ha; [done|]. simpl.
  rewrite Ack_stale by (apply Ha; by left). rewrite outcome_bind_Ret. apply IH.
  intros b Hb. apply Ha. by right.
Qed.

Lemma reads_frames_prefix c t q w FS :
  Forall frame_ok FS → (∀ m, m ∈ FS → ack_dist q (mh_ack_seq (wire_hdr m)) ≤ 0) →
  (∀ lens data w', os_readv (sockfd_ c) lens w = (SysOk data, w') → ∃ r, concat FS = (t ++ data) ++ r) →
  reads_frames c t q w.
Proof.
  intros Hok Hacks Hread lens data w' Hr _. destruct (Hread lens data w' Hr) as [r Hcat].
  destruct (prefix_frames FS _ _ Hok Hcat) as (ms & rest & t' & -> & Hcut & Hpt & Hnil & Hrest).
  apply Forall_app in Hok as [Hms Hrestok]. exists ms, t', q. do 3 (split; [done|]).
  apply Ack_all_stale. intros a Ha.
  destruct (acks_of_elem ms rest t' r a Hrestok Hrest Hnil Ha) as (m & Hm & ->). by apply Hacks.
Qed.

(** *** Headers that stop the loop *)

(** A header of size 0 at [nextmsg_idx_]; the host's byte order is that of
    the wire and the ack is not new. *)
Record zero_sized (c : PTCPConnection) (q : PTCPQueue) : Prop := {
  zs_q : q_ c = Some q;
  zs_native : ToLittleEndian = is_little_endian;
  zs_buf : zlen (recvbuf_ c) = recvbuf_size_ c ∧ 0 < recvbuf_size_ c < 1073741824;
  zs_idx : 0 ≤ nextmsg_idx_ c ∧ nextmsg_idx_ c + 8 ≤ writeidx_ c ≤ recvbuf_size_ c;
  zs_read : 0 ≤ readidx_ c < 4294967296;
  zs_head : ∃ h, read_header (recvbuf_ c) (nextmsg_idx_ c) = Ret h ∧ MsgHeader_ok h ∧ mh_size h = 0 ∧
                 ack_dist q (mh_ack_seq h) ≤ 0
}.

Lemma Convert_native b n v : Convert b b n v = v.
Proof. unfold Convert. by rewrite eqb_reflx. Qed.

Lemma ConvertByteOrder_native b h : ConvertByteOrder b b h = h.
Proof. unfold ConvertByteOrder. rewrite !Convert_native. by destruct h. Qed.

Lemma zero_sized_header c q old :
  zero_sized c q → ∃ h buf, Front_header old c = Ret (h, set_recvbuf c buf (recvbuf_size_ c)) ∧
    mh_size h = 0 ∧ ack_dist q (mh_ack_seq h) ≤ 0 ∧
    zero_sized (set_recvbuf c buf (recvbuf_size_ c)) q.
Proof.
  intros [Hq Hnat [Hlen Hsize] Hidx Hread (h & Hh & Hhok & Hz & Hack)].
  unfold Front_header. rewrite Hh, outcome_bind_Ret, Hnat, ConvertByteOrder_native.
  exists h. destruct (_ <? 8).
  - exists (blit (nextmsg_idx_ c) (header_bytes is_little_endian h) (recvbuf_ c)).
    simpl. unfold write_header. pose proof (header_bytes_zlen is_little_endian h) as H8.
    rewrite memcpy_in_range by lia. split; [done|]. split; [done|]. split; [done|].
    constructor; simpl; try done; [rewrite blit_zlen; lia|].
    exists h. split; [|done]. unfold read_header. rewrite decide_True by (rewrite blit_zlen; lia).
    rewrite <-H8, blit_slice_same by lia. by rewrite bytes_header_bytes.
  - exists (recvbuf_ c). split; [by destruct c|]. split; [done|]. split; [done|].
    constructor; try done. by exists h.
Qed.

Lemma Front_parse_zero fuel : ∀ old c q, zero_sized c q → Front_parse fuel old c = NoFuel.
Proof.
  induction fuel as [|fuel IH]; intros old c q Hz; [done|].
  destruct (zero_sized_header c q old Hz) as (h & buf & Hstep & Hsz & Hack & Hz').
  destruct Hz as [Hq Hnat [Hlen Hsize] Hidx Hread Hh]. cbn [Front_parse]. pose proof (conf_max HC).
  pose proof (conf_init HC). u32_simpl. rewrite (proj2 (Z.leb_le _ _)) by lia.
  rewrite Hstep, outcome_bind_Ret. simpl. rewrite Hq, Ack_stale by done.
  rewrite outcome_bind_Ret, Hsz. change (round8 0) with 0. change (u32 0) with 0.
  rewrite !(proj2 (Z.ltb_ge _ 0)) by (rewrite ?u32_small by lia; lia).
  apply (IH old _ q). destruct Hz'. rewrite !Z.add_0_r.
  destruct (_ && _); simpl; u32_simpl; by constructor.
Qed.

(** A header that announces more than the receive buffer can become. *)
Lemma Front_parse_oversize fuel old c fs s q q' :
  parsing c old fs s → 8 ≤ zlen s → TcpRecvBufMaxSize < frame_size s → q_ c = Some q →
  Ack ToLittleEndian is_little_endian q (mh_ack_seq (wire_hdr s)) = Ret q' →
  ∃ c', Front_parse (S fuel) old c = Ret (true, Close c' "Msg size larger than recv buf max size" 0) ∧
        q_ c' = Some q' ∧ sockfd_ c' = sockfd_ c.
Proof.
  intros Hps H8 Hbig Hq Hack. pose proof (parsing_zlen _ _ _ _ Hps ltac:(by left)) as Hz.
  destruct (header_step _ _ _ _ Hps H8) as (buf & Hstep & _).
  pose proof Hps as [[Hlen Hsize Hidx] _ _ _ _ Hb]. pose proof (conf_max HC).
  cbn [Front_parse]. u32_simpl. rewrite (proj2 (Z.leb_le _ _)) by lia.
  rewrite Hstep, outcome_bind_Ret. remember (wire_hdr s) as h eqn:Hh. simpl. rewrite Hq, Hack.
  rewrite outcome_bind_Ret. subst h. fold (frame_size s).
  pose proof (frame_size_range s Hb H8). u32_simpl. rewrite (proj2 (Z.ltb_lt _ _)) by done.
  by eexists.
Qed.

Lemma parsing_zero c old fs s q :
  parsing c old fs s → 8 ≤ zlen s → q_ c = Some q → ToLittleEndian = is_little_endian →
  mh_size (wire_hdr s) = 0 → ack_dist q (mh_ack_seq (wire_hdr s)) ≤ 0 → zero_sized c q.
Proof.
  intros Hps H8 Hq Hnat Hz Hack. pose proof (parsing_zlen _ _ _ _ Hps ltac:(by left)) as Hl.
  destruct Hps as [[Hlen Hsize Hidx] _ Hr _ _ Hb]. pose proof (conf_max HC).
  constructor; try done; [lia..|]. exists (wire_hdr s).
  split; [|split; [by apply wire_hdr_ok|by split]].
  rewrite (read_header_slice _ _ (writeidx_ c)) by lia. rewrite Hr. f_equal.
  destruct (_ <? _); [|by apply host_frame_header].
  unfold wire_hdr. by rewrite Hnat, ConvertByteOrder_native.
Qed.

(** [Front] with no frame buffered reads; what it does with the bytes. *)
Lemma Front_reads c t q w :
  recv_rep c [] t → q_ c = Some q →
  ∃ data c1 w1, DoRecv c w = Ret (zlen data, c1, w1) ∧ received c c1 w w1 data ∧
    (data ≠ [] →
     let c2 := set_writeidx c1 (u32 (writeidx_ c1 + zlen data)) in
     parsing c2 (i32 (writeidx_ c1)) [] (t ++ data) ∧ q_ c2 = Some q ∧
     Front c w = ('(closed, c) ← Front_parse (loop_fuel c2) (i32 (writeidx_ c1)) c2;
                  if closed : bool then Ret (None, c, w1) else Ret (Front_result c, c, w1))).
Proof.
  intros Hrep Hq. destruct (DoRecv_ok c w (rp_buf _ _ _ Hrep)) as (data & c1 & w1 & Hdr & Hrc).
  exists data, c1, w1. split; [done|]. split; [done|]. intros Hne c2.
  pose proof (rc_data _ _ _ _ _ Hrc Hne) as Hl. destruct (Hl) as [Hk Hroom _ _].
  destruct (k_buf _ _ Hk) as [Hlen Hsize Hidx]. pose proof (conf_max HC). pose proof (zlen_nonneg data).
  assert (zlen data ≠ 0) as Hne0 by (intros ?%zlen_nil_inv; done).
  split; [|split].
  - unfold c2. rewrite (i32_small (writeidx_ c1)), (u32_small (_ + _)) by lia.
    apply (recv_rep_loaded _ _ _ _ _ Hrep Hl), Hrc.
  - unfold c2. simpl. by rewrite (k_q _ _ Hk).
  - assert (Front_skip (loop_fuel c) c = Ret (None, c)) as Hskip.
    { unfold loop_fuel. simpl. by rewrite Z.eqb_sym, (recv_rep_nil _ _ _ Hrep). }
    unfold Front, UseShm. rewrite Hq, Hskip, outcome_bind_Ret, Hdr, outcome_bind_Ret.
    by rewrite (proj2 (Z.eqb_neq _ _)).
Qed.
End recv.
