(* ===== verification/PtcpConnSend.v ===== *)
(** * Sending

    [SendPending] hands the unsent blocks of the queue to the socket in
    order, and counts the whole blocks that were accepted
    ([SendPending_ok]); [SendHB] sends a heartbeat only between messages. *)

From S2P Require Import Prelude.
From S2P Require Import Arrays.
From S2P Require Import MsgHeader.
From S2P Require Import PtcpQueue.
From S2P Require Import PtcpQueueInv.
From S2P Require Import Platform.
From S2P Require Import PtcpConn.
From S2P Require Import Framing.

Section send.
Context {conf : Conf} {W : Type} {os : Os W} {log : OsLog W} {laws : OsLaws W}.
Context (HC : Conf_ok).

(** The bytes of blocks, as they lie in memory. *)
Definition words_bytes (ws : list MsgHeader) : list Z :=
  flat_map (header_bytes is_little_endian) ws.

Lemma words_bytes_app ws ws' : words_bytes (ws ++ ws') = words_bytes ws ++ words_bytes ws'.
Proof. apply flat_map_app. Qed.

Lemma words_bytes_bytes ws : Forall byte_ok (words_bytes ws).
Proof.
  unfold words_bytes. induction ws as [|v ws IH]; simpl; [constructor|].
  apply Forall_app. split; [apply header_bytes_bytes|done].
Qed.

Lemma words_bytes_zlen ws : zlen (words_bytes ws) = 8 * zlen ws.
Proof.
  induction ws as [|w ws IH]; [done|]. 
  change (words_bytes (w :: ws)) with (header_bytes is_little_endian w ++ words_bytes ws).
  rewrite zlen_app, header_bytes_zlen, zlen_cons. lia.
Qed.

Lemma words_bytes_slice lo hi ws :
  0 ≤ lo ≤ hi → hi ≤ zlen ws → words_bytes (slice lo hi ws) = slice (8 * lo) (8 * hi) (words_bytes ws).
Proof.
  intros H1 H2. rewrite (split_slice lo hi ws) at 2 by lia. rewrite !words_bytes_app.
  rewrite slice_app_r by (rewrite words_bytes_zlen, slice_zlen; lia).
  rewrite words_bytes_zlen, slice_zlen, slice_app_l by (rewrite ?words_bytes_zlen, ?slice_zlen; lia).
  replace (8 * lo - 8 * (lo - 0)) with 0 by lia.
  replace (8 * hi - 8 * (lo - 0)) with (zlen (words_bytes (slice lo hi ws))); [by rewrite slice_full|].
  rewrite words_bytes_zlen, slice_zlen; lia.
Qed.

(** A send does not touch the log of what was received, nor another
    descriptor. *)
Definition only_sent (fd : Z) (w w' : W) (bs : list Z) : Prop :=
  os_sent fd w' = os_sent fd w ++ bs ∧ (∀ fd', os_received fd' w' = os_received fd' w) ∧
  ∀ fd', fd' ≠ fd → os_sent fd' w' = os_sent fd' w.

Lemma only_sent_nil fd w : only_sent fd w w [].
Proof. split; [by rewrite app_nil_r|done]. Qed.

Lemma only_sent_trans fd w1 w2 w3 xs ys :
  only_sent fd w1 w2 xs → only_sent fd w2 w3 ys → only_sent fd w1 w3 (xs ++ ys).
Proof.
  intros (Hs & Hr & Ho) (Hs' & Hr' & Ho'). split; [by rewrite Hs', Hs, app_assoc|]. split; [congruence|].
  intros fd' Hne. by rewrite Ho', Ho.
Qed.

Lemma os_send_only fd bs w r w' :
  os_send fd bs w = (r, w') →
  only_sent fd w w' (match r with SysOk n => slice 0 n bs | SysErr _ => [] end).
Proof.
  intros H. split; [by apply (os_send_sent _ _ _ _ _ H)|]. split; intros fd'.
  - pose proof (os_send_received fd bs w fd') as Hr. by rewrite H in Hr.
  - intros Hne. pose proof (os_send_other fd bs w fd' Hne) as Hr. by rewrite H in Hr.
Qed.

(** *** The loop of SendPending *)

Lemma land_7_0 x : Z.land x 7 = 0 → x mod 8 = 0.
Proof. change 7 with (Z.ones 3). by rewrite Z.land_ones by lia. Qed.

Lemma SendPending_loop_ok fuel : ∀ fd p size w,
  zlen p = size → 0 < size < 4294967296 → size < Z.of_nat fuel →
  ∃ err size' w', SendPending_loop fuel fd p size w = Ret (err, size', w') ∧
    0 ≤ size' ≤ size ∧ only_sent fd w w' (slice 0 (size - size') p) ∧
    (err = None → size' mod 8 = 0).
Proof.
  induction fuel as [|fuel IH]; intros fd p size w Hp Hsize Hfuel; [lia|]. simpl.
  destruct (os_send fd (slice 0 size p) w) as [r w1] eqn:Hsend.
  rewrite <-Hp, slice_full in Hsend. pose proof (os_send_only _ _ _ _ _ Hsend) as Honly.
  destruct r as [n|e].
  - assert (p ≠ []) as Hne by (intros ->; rewrite <-Hp in Hsize; unfold zlen in Hsize; simpl in Hsize; lia).
    pose proof (os_send_range _ _ _ _ _ Hsend Hne) as Hn. rewrite (u32_small (size - n)) by lia.
    destruct (Z.ltb_spec 0 (size - n)).
    + assert (zlen (slice n (zlen p) p) = size - n) as Hz by (rewrite slice_zlen; lia).
      destruct (IH fd (slice n (zlen p) p) (size - n) w1 Hz) as (err & size' & w' & Hl & Hr & Ho & Hmod);
        [lia..|].
      exists err, size', w'. split; [exact Hl|]. split; [lia|]. split; [|done].
      rewrite (slice_app 0 n) by lia. eapply only_sent_trans; [exact Honly|].
      rewrite slice_slice in Ho by lia. rewrite Z.add_0_r in Ho.
      by replace (n + (size - n - size')) with (size - size') in Ho by lia.
    + exists None, (size - n), w1. split; [done|]. split; [lia|].
      replace (size - (size - n)) with n by lia. split; [done|]. intros _.
      by replace (size - n) with 0 by lia.
  - destruct (negb (e =? EAGAIN) || negb (Z.land size 7 =? 0)) eqn:He.
    + exists (Some e), size, w1. split; [done|]. split; [lia|]. split; [|done].
      by rewrite Z.sub_diag, slice_nil by lia.
    + exists None, size, w1. split; [done|]. split; [lia|].
      rewrite Z.sub_diag, slice_nil by lia. split; [done|]. intros _. apply land_7_0.
      apply orb_false_iff in He as [_ He]. apply negb_false_iff in He. by apply Z.eqb_eq.
Qed.

(** *** SendPending *)

Abbreviation queue_rep := (queue_rep TcpQueueSize ToLittleEndian is_little_endian).

(** A call that left the queue's messages and sent the blocks [ws] of them. *)
Record sent_blocks (c c' : PTCPConnection) (w w' : W) (q q' : PTCPQueue)
    (msgs : list (list MsgHeader)) (ws : list MsgHeader) : Prop := {
  sb_q : q_ c' = Some q';
  sb_rep : queue_rep q' msgs;
  sb_unsent : unsent q = ws ++ unsent q';
  sb_log : only_sent (sockfd_ c) w w' (words_bytes ws);
  sb_read : read_seq_num_ q' = read_seq_num_ q;
  sb_ack : ack_seq_num_ q' = ack_seq_num_ q;
  sb_sock : sockfd_ c' = sockfd_ c;
  sb_fd : fd_to_close_ c' = fd_to_close_ c;
  sb_hb : hbmsg_ c' = hbmsg_ c
}.

(** Receiving is not affected by sending. *)
Definition same_recv (c c' : PTCPConnection) : Prop :=
  recvbuf_ c' = recvbuf_ c ∧ recvbuf_size_ c' = recvbuf_size_ c ∧ readidx_ c' = readidx_ c ∧
  nextmsg_idx_ c' = nextmsg_idx_ c ∧ writeidx_ c' = writeidx_ c.

Lemma unsent_range q msgs : queue_rep q msgs → 0 ≤ zlen (unsent q) < 536870912.
Proof.
  intros [[] Hs]. pose proof (BLK_CNT_range _ (conf_queue HC)). unfold unsent.
  rewrite slice_zlen by lia. lia.
Qed.

(** [true]: blocks are pending or were sent.  [false]: closed, nothing was
    pending, or the socket failed, maybe inside a block, and is closed. *)
Lemma SendPending_ok c q msgs w :
  q_ c = Some q → queue_rep q msgs →
  ∃ r c' w', SendPending c w = Ret (r, c', w') ∧ same_recv c c' ∧
    ((IsClosed c = true ∧ r = false ∧ c' = c ∧ w' = w) ∨
     (IsClosed c = false ∧ unsent q = [] ∧ r = false ∧ c' = c ∧ w' = w) ∨
     (IsClosed c = false ∧ unsent q ≠ [] ∧ r = true ∧
      ∃ q' ws, sent_blocks c c' w w' q q' msgs ws) ∨
     (IsClosed c = false ∧ unsent q ≠ [] ∧ r = false ∧
      ∃ e bs rest, c' = Close c "Send error" e ∧ only_sent (sockfd_ c) w w' bs ∧
        words_bytes (unsent q) = bs ++ rest)).
Proof.
  intros Hq Hrep. unfold SendPending. destruct (IsClosed c) eqn:Hcl.
  { exists false, c, w. split; [done|]. split; [by repeat split|]. by left. }
  rewrite Hq. destruct (GetSendable_correct _ _ _ (conf_queue HC) q msgs Hrep) as (-> & _ & Hslice).
  pose proof (unsent_range q msgs Hrep) as Hur.
  destruct (Z.eqb_spec (zlen (unsent q)) 0) as [H0|H0].
  { exists false, c, w. split; [done|]. split; [by repeat split|]. right. left.
    split; [done|]. by apply zlen_nil_inv in H0. }
  assert (unsent q ≠ []) as Hne by (by intros Heq; rewrite Heq in H0).
  destruct Hrep as [Hl Hs]. destruct (Hl) as [Hlen Hread Hwrite _ _ _ _].
  pose proof (slice_zlen (send_idx_ q) (write_idx_ q) (blk_ q) ltac:(lia) ltac:(lia)) as Hz.
  change (slice (send_idx_ q) (write_idx_ q) (blk_ q)) with (unsent q) in Hz.
  unfold sendable_bytes. rewrite decide_True by lia. rewrite outcome_bind_Ret.
  replace (send_idx_ q + zlen (unsent q)) with (write_idx_ q) by lia. fold (unsent q).
  fold (words_bytes (unsent q)).
  assert (u32 (Z.shiftl (zlen (unsent q)) 3) = zlen (words_bytes (unsent q))) as Hsz.
  { rewrite words_bytes_zlen, Z.shiftl_mul_pow2 by lia. change (2 ^ 3) with 8. u32_simpl. lia. }
  rewrite Hsz. pose proof (words_bytes_zlen (unsent q)) as Hbz.
  edestruct (SendPending_loop_ok (S (Z.to_nat (zlen (words_bytes (unsent q))))) (sockfd_ c)
    (words_bytes (unsent q)) _ w eq_refl) as (err & size' & w' & Hloop & Hr & Honly & Hmod); [lia..|].
  rewrite Hloop, outcome_bind_Ret. destruct err as [e|].
  - exists false, (Close c "Send error" e), w'. split; [done|]. split.
    { unfold Close. destruct (sockfd_ c <? 0); by repeat split. }
    right. right. right. split; [done|]. split; [done|]. split; [done|].
    exists e. do 2 eexists. split; [done|]. split; [exact Honly|].
    rewrite <-slice_app; [by rewrite slice_full|lia..].
  - specialize (Hmod eq_refl). rewrite Z.shiftr_div_pow2 by lia. change (2 ^ 3) with 8.
    rewrite i32_u32 by word_lia. set (n := zlen (unsent q) - size' / 8).
    assert (zlen (words_bytes (unsent q)) - size' = 8 * n) as Hn by (unfold n; word_lia).
    assert (0 ≤ n ≤ zlen (unsent q)) as Hnr by lia.
    rewrite Hn in Honly. change 0 with (8 * 0) in Honly at 1. rewrite <-words_bytes_slice in Honly by lia.
    destruct (Sendout_correct TcpQueueSize ToLittleEndian is_little_endian (conf_queue HC) q msgs n) as [Hrep' Hun]; [by split|done|].
    destruct (Z.ltb_spec 0 n).
    + eexists true, _, w'. split; [done|]. split; [by repeat split|].
      right. right. left. split; [done|]. split; [done|]. split; [done|].
      exists (Sendout q n), (slice 0 n (unsent q)). by constructor.
    + exists true, c, w'. split; [done|]. split; [by repeat split|].
      right. right. left. split; [done|]. split; [done|]. split; [done|].
      exists q, (slice 0 n (unsent q)). replace n with 0 in * by lia.
      rewrite slice_nil in * by lia. by constructor.
Qed.

(** *** SendHB *)

(** The constant fields of [hbmsg_]. *)
Definition hb_ok (c : PTCPConnection) : Prop :=
  mh_size (hbmsg_ c) = Convert is_little_endian ToLittleEndian 2 sizeof_MsgHeader ∧
  mh_msg_type (hbmsg_ c) = Convert is_little_endian ToLittleEndian 2 HeartbeatMsg_msg_type.

(** A heartbeat on the wire. *)
Definition hb_frame (ack : Z) : list Z :=
  header_bytes ToLittleEndian (mkMsgHeader sizeof_MsgHeader HeartbeatMsg_msg_type ack).

Lemma hb_frame_zlen ack : zlen (hb_frame ack) = 8.
Proof. apply header_bytes_zlen. Qed.

Lemma hb_bytes c ack :
  hb_ok c → 0 ≤ ack < 4294967296 →
  header_bytes is_little_endian
    (mkMsgHeader (mh_size (hbmsg_ c)) (mh_msg_type (hbmsg_ c))
       (Convert is_little_endian ToLittleEndian 4 ack)) = hb_frame ack.
Proof.
  intros [-> ->] Hack. unfold hb_frame.
  rewrite <-(header_bytes_ConvertByteOrder is_little_endian ToLittleEndian); [done|].
  unfold MsgHeader_ok. simpl. unfold sizeof_MsgHeader, HeartbeatMsg_msg_type. lia.
Qed.

Lemma new_hb_ok : hb_ok new_PTCPConnection.
Proof. done. Qed.

(** The send at the end of [SendHB]: all of the heartbeat [bs], nothing, or a
    part and the connection is closed. *)
Lemma SendHB_send_ok c w :
  zlen (header_bytes is_little_endian (hbmsg_ c)) = 8 →
  let bs := header_bytes is_little_endian (hbmsg_ c) in
  ∃ w', (SendHB_send c w).2 = w' ∧
    ((∃ t, only_sent (sockfd_ c) w w' bs ∧ (SendHB_send c w).1 = set_times c (recv_time_ c) t (now_ c)) ∨
     (only_sent (sockfd_ c) w w' [] ∧ (SendHB_send c w).1 = c) ∨
     (∃ e ys rest, bs = ys ++ rest ∧ only_sent (sockfd_ c) w w' ys ∧
        (SendHB_send c w).1 = Close c "Send error" e)).
Proof.
  intros Hl bs. unfold SendHB_send. fold bs in Hl |- *.
  destruct (os_send (sockfd_ c) bs w) as [r w1] eqn:Hs.
  pose proof (os_send_only _ _ _ _ _ Hs) as Ho.
  destruct r as [n|e].
  - assert (bs ≠ []) as Hne by (intros Heq; rewrite Heq in Hl; done).
    pose proof (os_send_range _ _ _ _ _ Hs Hne) as Hn. unfold sizeof_MsgHeader.
    destruct (Z.eqb_spec n 8) as [->|Hn8]; exists w1; (split; [done|]); simpl.
    + left. exists (now_ c). split; [|done]. rewrite <-Hl, slice_full in Ho. done.
    + right. right. exists 0, (slice 0 n bs), (slice n (zlen bs) bs).
      rewrite <-slice_app by lia. by rewrite slice_full.
  - destruct (e =? EAGAIN); exists w1; (split; [done|]); simpl.
    + right. by left.
    + right. right. exists e, [], bs. done.
Qed.

Lemma SendHB_send_closed c w : IsClosed c = true → SendHB_send c w = (c, w).
Proof.
  intros Hc. unfold SendHB_send, IsClosed in *. pose proof Hc as Hlt. apply Z.ltb_lt in Hlt.
  destruct (os_send_closed (sockfd_ c) (header_bytes is_little_endian (hbmsg_ c)) w Hlt) as (e & -> & He).
  rewrite (proj2 (Z.eqb_neq _ _)) by done. unfold Close. by rewrite Hc.
Qed.

Lemma IsClosed_Close c r e : IsClosed (Close c r e) = true.
Proof.
  unfold IsClosed, Close. destruct (Z.ltb_spec (sockfd_ c) 0); simpl; apply Z.ltb_lt; lia.
Qed.

(** What [SendHB] did with an unsent part [unsent q] of the queue. *)
Inductive hb_result (c c' : PTCPConnection) (w w' : W) (q : PTCPQueue)
    (msgs : list (list MsgHeader)) : Prop :=
  | hb_nothing :                     (* too early, closed, or EAGAIN *)
      only_sent (sockfd_ c) w w' [] → q_ c' = Some q → sockfd_ c' = sockfd_ c → hb_result c c' w w' q msgs
  | hb_blocks q' ws :                (* blocks were pending *)
      unsent q ≠ [] → sent_blocks c c' w w' q q' msgs ws → hb_result c c' w w' q msgs
  | hb_sent :                        (* a heartbeat *)
      unsent q = [] → only_sent (sockfd_ c) w w' (hb_frame (MyAck q)) → q_ c' = Some q →
      sockfd_ c' = sockfd_ c → hb_result c c' w w' q msgs
  | hb_broken bs rest :              (* the socket failed; the connection is closed *)
      (if decide (unsent q = []) then hb_frame (MyAck q) else words_bytes (unsent q)) = bs ++ rest →
      only_sent (sockfd_ c) w w' bs → q_ c' = Some q → IsClosed c' = true → hb_result c c' w w' q msgs.

Lemma sent_blocks_times c0 c c' w w' q q' msgs ws :
  sent_blocks c0 c' w w' q q' msgs ws → sockfd_ c0 = sockfd_ c → fd_to_close_ c0 = fd_to_close_ c →
  hbmsg_ c0 = hbmsg_ c → sent_blocks c c' w w' q q' msgs ws.
Proof. intros [? ? ? Hlog ? ? ? ? ?] Hs Hf Hh. rewrite Hs in Hlog. constructor; try done; congruence. Qed.

Lemma Close_q c r e : q_ (Close c r e) = q_ c.
Proof. unfold Close. by destruct (_ <? _). Qed.

Lemma SendHB_tail c now w q msgs :
  let c1 := set_times c (recv_time_ c) (send_time_ c) now in
  let c2 := set_hbmsg c1 (mkMsgHeader (mh_size (hbmsg_ c)) (mh_msg_type (hbmsg_ c))
              (Convert is_little_endian ToLittleEndian 4 (MyAck q))) in
  q_ c = Some q → queue_rep q msgs → hb_ok c → unsent q = [] →
  ∃ w', (SendHB_send c2 w).2 = w' ∧ same_recv c (SendHB_send c2 w).1 ∧
        fd_to_close_ (SendHB_send c2 w).1 = fd_to_close_ c ∧ hb_ok (SendHB_send c2 w).1 ∧
        hb_result c (SendHB_send c2 w).1 w w' q msgs.
Proof.
  intros c1 c2 Hq [Hl Hs] Hhb Hun.
  pose proof (hb_bytes c (MyAck q) Hhb (rep_ack _ _ _ _ _ Hl)) as Hbs.
  change (mkMsgHeader _ _ _) with (hbmsg_ c2) in Hbs.
  destruct (SendHB_send_ok c2 w) as (w' & Hw & Hres); [by apply header_bytes_zlen|].
  rewrite Hbs in Hres. exists w'. split; [done|].
  destruct Hres as [(tm & Ho & Hc)|[(Ho & Hc)|(e & ys & rest & Hys & Ho & Hc)]]; rewrite Hc.
  - split; [by repeat split|]. split; [done|]. split; [by destruct Hhb|]. by apply hb_sent.
  - split; [by repeat split|]. split; [done|]. split; [by destruct Hhb|]. by apply hb_nothing.
  - split; [unfold Close; destruct (_ <? _); by repeat split|].
    split; [unfold Close; by destruct (_ <? _)|].
    split; [unfold Close; destruct (_ <? _); by destruct Hhb|].
    eapply hb_broken; [by rewrite decide_True; [exact Hys|]|done|by rewrite Close_q|apply IsClosed_Close].
Qed.

Lemma SendHB_ok c now w q msgs :
  q_ c = Some q → queue_rep q msgs → hb_ok c →
  ∃ c' w', SendHB c now w = Ret (c', w') ∧ same_recv c c' ∧ fd_to_close_ c' = fd_to_close_ c ∧
           hb_ok c' ∧ hb_result c c' w w' q msgs.
Proof.
  intros Hq Hrep Hhb. unfold SendHB. set (c1 := set_times c _ _ now).
  destruct (now_ c1 - send_time_ c1 <? HeartBeatInverval).
  { exists c1, w. split; [done|]. split; [by repeat split|]. split; [done|]. split; [done|].
    apply hb_nothing; [apply only_sent_nil|done|done]. }
  change (q_ c1) with (q_ c). rewrite Hq.
  destruct (SendPending_ok c1 q msgs w Hq Hrep) as (r & c2 & w2 & Hsp & Hrecv & Hcase).
  rewrite Hsp, outcome_bind_Ret.
  destruct Hcase as [(Hcl & -> & -> & ->)|[(Hop & Hun & -> & -> & ->)|[(Hop & Hun & -> & q' & ws & Hsb)|
    (Hop & Hun & -> & e & bs & rest & -> & Ho & Hbs)]]].
  - change (q_ c1) with (q_ c). rewrite Hq. eexists _, _. split; [by rewrite SendHB_send_closed|].
    split; [by repeat split|]. split; [done|]. split; [by destruct Hhb|].
    apply hb_nothing; [apply only_sent_nil|done|done].
  - change (q_ c1) with (q_ c). rewrite Hq.
    destruct (SendHB_tail c now w q msgs Hq Hrep Hhb Hun) as (w' & Hw & Hr & Hf & Hh & Hres).
    fold c1 in Hw, Hr, Hf, Hh, Hres. change (hbmsg_ c1) with (hbmsg_ c).
    destruct (SendHB_send _ w) as [c' w''] eqn:Hsend. simpl in *. subst w''.
    exists c', w'. split; [done|]. by split.
  - exists c2, w2. split; [done|]. split; [done|].
    destruct (Hsb) as [_ _ _ _ _ _ _ Hf Hh]. split; [done|].
    split; [unfold hb_ok; rewrite Hh; done|].
    eapply hb_blocks; [done|]. by eapply sent_blocks_times.
  - rewrite Close_q. change (q_ c1) with (q_ c). rewrite Hq.
    eexists _, _. split; [rewrite SendHB_send_closed; [done|apply (IsClosed_Close c1)]|].
    split; [unfold Close; destruct (_ <? _); by repeat split|].
    split; [unfold Close; by destruct (_ <? _)|].
    split; [unfold Close; destruct (_ <? _); by destruct Hhb|].
    eapply hb_broken; [by rewrite decide_False|done|simpl; by rewrite Close_q|].
    apply (IsClosed_Close c1).
Qed.

(** *** Open *)

(** [LoginAck] drops the messages [ms1] the peer has, the rest [ms2] goes out
    from its first message on. *)
Lemma Open_ok c fd ack now w q ms1 ms2 :
  q_ c = Some q → live_rep TcpQueueSize ToLittleEndian is_little_endian q (ms1 ++ ms2) → 0 ≤ ack < 4294967296 → 0 ≤ fd →
  ack_dist q ack = Z.of_nat (length ms1) →
  ∃ c' w' q1 q', Open c fd ack now w = Ret (c', w') ∧
    LoginAck ToLittleEndian is_little_endian q ack = Ret q1 ∧
    q_ c' = Some q' ∧ queue_rep q' ms2 ∧ read_seq_num_ q' = ack ∧ ack_seq_num_ q' = ack_seq_num_ q ∧
    (sockfd_ c' = fd ∧ (∃ ws, concat ms2 = ws ++ unsent q' ∧ only_sent fd w w' (words_bytes ws)) ∨
     sockfd_ c' = -1 ∧ (∃ bs rest, words_bytes (concat ms2) = bs ++ rest ∧ only_sent fd w w' bs)) ∧
    fd_to_close_ c' = fd ∧ hbmsg_ c' = hbmsg_ c ∧
    readidx_ c' = 0 ∧ nextmsg_idx_ c' = 0 ∧ writeidx_ c' = 0 ∧
    (recvbuf_size_ c' = if recvbuf_size_ c =? 0 then TcpRecvBufInitSize else recvbuf_size_ c) ∧
    (recvbuf_ c' = if recvbuf_size_ c =? 0 then repeat 0 (Z.to_nat TcpRecvBufInitSize) else recvbuf_ c).
Proof.
  intros Hq Hl Hack Hfd Hd. unfold Open. set (c0 := set_times _ now now now).
  change (q_ c0) with (q_ c). rewrite Hq.
  destruct (LoginAck_correct _ _ _ (conf_queue HC) q ms1 ms2 ack Hl Hack Hd)
    as (q1 & Hq1 & Hrep1 & Hun1 & Hsend1 & Hseq1 & Hack1).
  rewrite Hq1, outcome_bind_Ret.
  destruct (SendPending_ok (set_q c0 (Some q1)) q1 ms2 w eq_refl Hrep1)
    as (r & c2 & w2 & Hsp & (Hb & Hsz & Hr & Hn & Hwi) & Hcase).
  rewrite Hsp, !outcome_bind_Ret. rewrite Hsz. change (recvbuf_size_ (set_q c0 (Some q1))) with (recvbuf_size_ c).
  assert (IsClosed (set_q c0 (Some q1)) = false) as Hop by (unfold IsClosed; simpl; apply Z.ltb_ge; lia).
  assert (∃ q', q_ c2 = Some q' ∧ queue_rep q' ms2 ∧ read_seq_num_ q' = ack ∧
    ack_seq_num_ q' = ack_seq_num_ q ∧ fd_to_close_ c2 = fd ∧ hbmsg_ c2 = hbmsg_ c ∧
    (sockfd_ c2 = fd ∧ (∃ ws, concat ms2 = ws ++ unsent q' ∧ only_sent fd w w2 (words_bytes ws)) ∨
     sockfd_ c2 = -1 ∧ (∃ bs rest, words_bytes (concat ms2) = bs ++ rest ∧ only_sent fd w w2 bs)))
    as (q' & Hq' & Hrep' & Hseq' & Hack' & Hfd' & Hhb' & Hsent).
  { rewrite <-Hun1.
    destruct Hcase as [(Hcl & _)|[(_ & Hun & -> & -> & ->)|[(_ & Hun & -> & q' & ws & Hsb)|
      (_ & Hun & -> & e & bs & rest & -> & Ho & Hbs)]]]; [congruence|..].
    - exists q1. do 6 (split; [done|]). left. split; [done|]. exists []. split; [done|apply only_sent_nil].
    - exists q'. destruct Hsb as [? ? Hu Hlog Hrs Has Hso Hf Hh]. split; [done|]. split; [done|].
      split; [congruence|]. split; [congruence|]. split; [done|]. split; [done|].
      left. split; [done|]. by exists ws.
    - exists q1. rewrite Close_q. split; [done|]. split; [done|]. split; [done|]. split; [done|].
      unfold Close. unfold IsClosed in Hop. rewrite Hop. split; [done|]. split; [done|].
      right. split; [done|]. by exists bs, rest. }
  destruct (recvbuf_size_ c =? 0); eexists _, w2, q1, q'; (split; [done|]); simpl;
    repeat (split; [done|]); done.
Qed.
End send.
