(* ===== verification/Wire.v ===== *)
(** * Messages on the wire

    A message pushed by one host as the bytes that its socket gets, and as
    the frame that the other host hands to its user: the two may differ in
    their own byte order and in the sizes of their buffers, not in the byte
    order of the wire.  [stream] relates the bytes sent so far to the messages
    and heartbeats they consist of. *)

From S2P Require Import Prelude.
From S2P Require Import Arrays.
From S2P Require Import MsgHeader.
From S2P Require Import PtcpQueue.
From S2P Require Import PtcpQueueInv.
From S2P Require Import PtcpQueueSpec.
From S2P Require Import Platform.
From S2P Require Import PtcpConn.
From S2P Require Import Framing.
From S2P Require Import PtcpConnRecv.
From S2P Require Import PtcpConnSend.

(** ** A message *)

(** What the user pushes, and the ack that [Push] adds; the body is the
    blocks of memory behind the header. *)
Record user_msg := mkMsg {
  um_ack : Z;
  um_type : Z;
  um_size : Z;
  um_body : list MsgHeader
}.

Definition um_header (m : user_msg) : MsgHeader := mkMsgHeader (um_size m + 8) (um_type m) (um_ack m).

Lemma round8_blocks s : round8 s = 8 * blocks s.
Proof. unfold round8. rewrite land_m8. unfold blocks, div_up, sizeof_MsgHeader. word_lia. Qed.

Section wire.
Context {cs cr : Conf}.

(** In the queue of the sender, and as its bytes. *)
Definition um_words (m : user_msg) : list MsgHeader :=
  wire_msg (@ToLittleEndian cs) (@is_little_endian cs) (um_ack m) (um_type m) (um_size m) (um_body m).
Definition um_bytes (m : user_msg) : list Z := words_bytes (conf := cs) (um_words m).

(** What the user of the reader finds behind the pointer it gets: the header
    in the byte order of its host, and the bytes of the body. *)
Definition um_delivered (m : user_msg) : list Z :=
  header_bytes (@is_little_endian cr) (um_header m) ++ words_bytes (conf := cs) (um_body m).

(** A message the documentation allows and the reader's buffer can hold. *)
Record um_ok (m : user_msg) : Prop := {
  uo_ack : 0 ≤ um_ack m < 4294967296;
  uo_type : 0 < um_type m < 65536;
  uo_size : 0 ≤ um_size m ≤ 65527;
  uo_body : zlen (um_body m) = blocks (um_size m + 8) - 1;
  uo_fits : 8 * blocks (um_size m + 8) ≤ @TcpRecvBufMaxSize cr
}.

Lemma um_header_ok m : um_ok m → MsgHeader_ok (um_header m).
Proof. intros []. unfold MsgHeader_ok. simpl. lia. Qed.

Lemma um_bytes_eq m :
  um_ok m → um_bytes m = header_bytes (@ToLittleEndian cs) (um_header m) ++ words_bytes (conf := cs) (um_body m).
Proof.
  intros Hm. unfold um_bytes, um_words, wire_msg, words_bytes. simpl. f_equal.
  by apply header_bytes_ConvertByteOrder, um_header_ok.
Qed.

Lemma um_bytes_zlen m : um_ok m → zlen (um_bytes m) = 8 * blocks (um_size m + 8).
Proof.
  intros Hm. rewrite um_bytes_eq, zlen_app, header_bytes_zlen, words_bytes_zlen by done. destruct Hm. lia.
Qed.
End wire.

(** ** Frames of both hosts *)

Section frames.
Context {cs cr : Conf}.
Context (HC : @Conf_ok cr).
Context (Hle : @ToLittleEndian cs = @ToLittleEndian cr).

Abbreviation um_ok := (um_ok (cr := cr)).
Abbreviation um_bytes := (um_bytes (cs := cs)).
Abbreviation um_delivered := (um_delivered (cs := cs) (cr := cr)).

Lemma wire_hdr_frame h body :
  MsgHeader_ok h → wire_hdr (conf := cr) (header_bytes (@ToLittleEndian cr) h ++ body) = h.
Proof.
  intros Hh. unfold wire_hdr. rewrite slice_app_l by (rewrite ?header_bytes_zlen; lia).
  rewrite <-(header_bytes_zlen (@ToLittleEndian cr) h), slice_full. by apply ConvertByteOrder_bytes_header.
Qed.

Lemma um_wire_hdr m : um_ok m → wire_hdr (conf := cr) (um_bytes m) = um_header m.
Proof. intros Hm. rewrite (um_bytes_eq (cr := cr)), Hle by done. by apply wire_hdr_frame, (um_header_ok (cr := cr)). Qed.

Lemma um_not_hb m : um_ok m → is_hb (conf := cr) (um_bytes m) = false.
Proof.
  intros Hm. unfold is_hb. rewrite um_wire_hdr by done. apply Z.eqb_neq. destruct Hm.
  unfold HeartbeatMsg_msg_type. simpl. lia.
Qed.

Lemma um_frame_ok m : um_ok m → frame_ok (conf := cr) (um_bytes m).
Proof.
  intros Hm. pose proof (um_bytes_zlen (cs := cs) m Hm) as Hz.
  pose proof (blocks_pos (um_size m + 8)) as Hp. destruct (Hm) as [_ _ Hs _ Hf].
  split; [apply words_bytes_bytes|]. split; [lia|]. split.
  - unfold frame_size. rewrite um_wire_hdr, round8_blocks by done. simpl. lia.
  - split; [lia|]. by rewrite um_not_hb.
Qed.

Lemma um_host_frame m : um_ok m → host_frame (conf := cr) (um_bytes m) = um_delivered m.
Proof.
  intros Hm. unfold host_frame. rewrite um_wire_hdr by done. unfold Wire.um_delivered. f_equal.
  rewrite (um_bytes_eq (cr := cr)) by done. pose proof (zlen_nonneg (words_bytes (conf := cs) (um_body m))).
  rewrite zlen_app, slice_app_r, header_bytes_zlen by (rewrite ?header_bytes_zlen; lia).
  replace (8 + zlen _ - 8) with (zlen (words_bytes (conf := cs) (um_body m))) by lia. apply slice_full.
Qed.

(** A heartbeat. *)
Lemma hb_header_ok a : 0 ≤ a < 4294967296 → MsgHeader_ok (mkMsgHeader sizeof_MsgHeader HeartbeatMsg_msg_type a).
Proof. intros. unfold MsgHeader_ok. simpl. unfold sizeof_MsgHeader, HeartbeatMsg_msg_type. lia. Qed.

Lemma hb_wire_hdr a :
  0 ≤ a < 4294967296 →
  wire_hdr (conf := cr) (hb_frame (conf := cs) a) = mkMsgHeader sizeof_MsgHeader HeartbeatMsg_msg_type a.
Proof.
  intros Ha. unfold hb_frame. rewrite Hle, <-(app_nil_r (header_bytes _ _)). by apply wire_hdr_frame, hb_header_ok.
Qed.

Lemma hb_is_hb a : 0 ≤ a < 4294967296 → is_hb (conf := cr) (hb_frame (conf := cs) a) = true.
Proof. intros Ha. unfold is_hb. by rewrite hb_wire_hdr. Qed.

Lemma hb_frame_ok a : 0 ≤ a < 4294967296 → frame_ok (conf := cr) (hb_frame (conf := cs) a).
Proof.
  intros Ha. pose proof (hb_frame_zlen (conf := cs) a) as Hz.
  split; [apply header_bytes_bytes|]. split; [lia|]. split; [|split; [|lia]].
  - unfold frame_size. rewrite hb_wire_hdr by done. by rewrite Hz.
  - rewrite Hz. pose proof (conf_max HC). pose proof (conf_init HC). pose proof (conf_max_8 HC). word_lia.
Qed.
End frames.

(** ** Streams of frames *)

Section streams.
Context {conf : Conf}.
Implicit Types (FS RS tail msgs : list (list Z)) (m part rest bs : list Z).

Lemma user_frames_app FS FS' : user_frames (FS ++ FS') = user_frames FS ++ user_frames FS'.
Proof. apply filter_app. Qed.

Lemma user_frames_all ms : Forall (λ m, is_hb m = false) ms → user_frames ms = ms.
Proof. induction 1 as [|m ms Hm _ IH]; [done|]. unfold user_frames in *. by rewrite filter_cons_True, IH. Qed.

Lemma user_frames_not_hb fs : Forall (λ m, is_hb m = false) (user_frames fs).
Proof. apply Forall_forall. by intros m [? _]%list_elem_of_filter. Qed.

(** A stream of bytes is cut into frames in one way only. *)
Lemma frame_inj m m' x y : frame_ok m → frame_ok m' → m ++ x = m' ++ y → m = m'.
Proof.
  intros (_ & H8 & Hs & _) (_ & H8' & Hs' & _) Heq.
  assert (frame_size m = frame_size m') as Hsz.
  { rewrite <-(frame_size_app m x), <-(frame_size_app m' y) by done. by rewrite Heq. }
  by apply app_inj_zlen in Heq as [-> _]; [|lia].
Qed.

Lemma frames_strip RS : ∀ FS r,
  Forall frame_ok RS → Forall frame_ok FS → concat FS = concat RS ++ r → ∃ G, FS = RS ++ G ∧ concat G = r.
Proof.
  induction RS as [|m RS IH]; intros FS r HR HF Heq; [by exists FS|].
  apply Forall_cons_1 in HR as [Hm HR]. simpl in Heq. rewrite <-app_assoc in Heq.
  destruct FS as [|m' FS].
  - destruct Hm as (_ & H8 & _). destruct m; [unfold zlen in H8; simpl in H8; lia|done].
  - apply Forall_cons_1 in HF as [Hm' HF]. simpl in Heq. pose proof (frame_inj _ _ _ _ Hm' Hm Heq) as ->.
    apply app_inv_head in Heq. destruct (IH FS r HR HF Heq) as (G & -> & ?). by exists G.
Qed.

(** A whole number of frames is not a part of them. *)
Lemma partial_whole part tail : partial part → Forall frame_ok tail → part = concat tail → part = [] ∧ tail = [].
Proof.
  intros Hp Ht Heq. destruct Ht as [|m tail Hm Ht]; [done|]. exfalso. simpl in Heq.
  apply (partial_not_frame part m [] (concat tail) Hp Hm); [by rewrite app_nil_r|].
  rewrite Heq, zlen_app. pose proof (zlen_nonneg (concat tail)). lia.
Qed.

(** Whole frames that arrived are among those that were sent whole. *)
Lemma frames_prefix RS t FS part r :
  Forall frame_ok RS → Forall frame_ok FS → partial part → concat FS ++ part = (concat RS ++ t) ++ r →
  ∃ G, FS = RS ++ G.
Proof.
  revert FS. induction RS as [|m RS IH]; intros FS HR HF Hp Heq; [by exists FS|].
  apply Forall_cons_1 in HR as [Hm HR]. simpl in Heq. rewrite <-!app_assoc in Heq.
  destruct FS as [|m' FS].
  - exfalso. apply (partial_not_frame part m [] (concat RS ++ t ++ r) Hp Hm); [by rewrite app_nil_r|].
    simpl in Heq. rewrite Heq, !zlen_app. pose proof (zlen_nonneg (concat RS)). pose proof (zlen_nonneg t).
    pose proof (zlen_nonneg r). lia.
  - apply Forall_cons_1 in HF as [Hm' HF]. simpl in Heq. rewrite <-app_assoc in Heq.
    pose proof (frame_inj _ _ _ _ Hm' Hm Heq) as ->. apply app_inv_head in Heq.
    rewrite app_assoc in Heq. destruct (IH FS HR HF Hp Heq) as [G ->]. by exists G.
Qed.

(** [sent] is the frames [FS] and a part of the next one; with [rest] it
    would be the frames [FS ++ tail], whose user messages are the first of
    [msgs]. *)
Record stream (sent : list Z) msgs FS tail part rest : Prop := {
  st_sent : sent = concat FS ++ part;
  st_tail : part ++ rest = concat tail;
  st_part : partial part;
  st_ok : Forall frame_ok (FS ++ tail);
  st_user : user_frames (FS ++ tail) `prefix_of` msgs
}.

(** A stream that will go on with all the other messages of [msgs]. *)
Definition stream_goes_on msgs FS tail : Prop := tail = drop (length (user_frames FS)) msgs.

Lemma stream_nil msgs : stream [] msgs [] [] [] [].
Proof.
  constructor; [done|done| |constructor|apply prefix_nil]. split; [constructor|]. intros H8. unfold zlen in H8. simpl in H8. lia.
Qed.

Lemma stream_frames sent msgs FS tail part rest :
  stream sent msgs FS tail part rest → sent ++ rest = concat (FS ++ tail).
Proof. intros [-> Ht _ _ _]. by rewrite <-app_assoc, Ht, concat_app. Qed.

Lemma stream_advance sent msgs FS tail part rest bs :
  stream sent msgs FS tail part (bs ++ rest) →
  ∃ ms tail' part', stream (sent ++ bs) msgs (FS ++ ms) tail' part' rest ∧ tail = ms ++ tail' ∧
                    (rest = [] → tail' = []).
Proof.
  intros [-> Ht Hp Hok Hu]. apply Forall_app in Hok as [HF Htail]. rewrite app_assoc in Ht.
  destruct (prefix_frames tail _ _ Htail (eq_sym Ht)) as (ms & tail' & part' & -> & Hcut & Hp' & Hnil & Hrest).
  exists ms, tail', part'. split; [|split; [done|]].
  - constructor; try done.
    + by rewrite <-app_assoc, Hcut, concat_app, app_assoc.
    + rewrite <-app_assoc. by apply Forall_app.
    + by rewrite <-app_assoc.
  - intros ->. rewrite app_nil_r in Hrest. apply Forall_app in Htail as [_ Htail].
    by destruct (partial_whole _ _ Hp' Htail (eq_sym Hrest)) as [_ ?].
Qed.

Lemma goes_on_advance msgs FS ms tail :
  Forall (λ m, is_hb m = false) msgs → stream_goes_on msgs FS (ms ++ tail) → stream_goes_on msgs (FS ++ ms) tail.
Proof.
  intros Hmsgs Hgo. unfold stream_goes_on in *. rewrite user_frames_app, length_app.
  rewrite (user_frames_all ms).
  - rewrite <-drop_drop, <-Hgo. by rewrite drop_app_length.
  - apply (Forall_drop _ (length (user_frames FS))) in Hmsgs. rewrite <-Hgo in Hmsgs.
    by apply Forall_app in Hmsgs as [? _].
Qed.

(** Nothing is left to be sent: a heartbeat may be next. *)
Lemma stream_rest_nil sent msgs FS tail part :
  stream sent msgs FS tail part [] → part = [] ∧ tail = [].
Proof.
  intros [_ Ht Hp Hok _]. apply Forall_app in Hok as [_ Hok]. rewrite app_nil_r in Ht. by eapply partial_whole.
Qed.

Lemma stream_hb sent msgs FS tail part hb :
  stream sent msgs FS tail part [] → frame_ok hb → is_hb hb = true → stream sent msgs FS [hb] [] hb.
Proof.
  intros Hs Hok Hhb. destruct (stream_rest_nil _ _ _ _ _ Hs) as [-> ->]. destruct Hs as [Hse _ Hp HF Hu].
  rewrite app_nil_r in HF, Hu. constructor; try done.
  - simpl. by rewrite app_nil_r.
  - apply Forall_app. split; [done|]. by apply Forall_singleton.
  - rewrite user_frames_app. unfold user_frames at 2. rewrite filter_cons_False by (by rewrite Hhb).
    by rewrite app_nil_r.
Qed.

(** One more message to be sent. *)
Lemma stream_more sent msgs FS tail part rest m :
  stream sent msgs FS tail part rest → stream sent (msgs ++ [m]) FS tail part rest.
Proof. intros []. constructor; try done. by apply prefix_app_r. Qed.

Lemma stream_push sent msgs FS tail part rest m :
  Forall (λ m, is_hb m = false) msgs → is_hb m = false → frame_ok m →
  stream sent msgs FS tail part rest → stream_goes_on msgs FS tail →
  stream sent (msgs ++ [m]) FS (tail ++ [m]) part (rest ++ m) ∧ stream_goes_on (msgs ++ [m]) FS (tail ++ [m]).
Proof.
  intros Hmsgs Hm Hok [Hse Ht Hp HF Hu] Hgo. unfold stream_goes_on in *.
  assert (user_frames tail = tail) as Htail.
  { apply user_frames_all. rewrite Hgo. by apply Forall_drop. }
  rewrite user_frames_app, Htail in Hu. pose proof (prefix_length _ _ Hu) as Hl. rewrite length_app in Hl.
  assert (msgs = user_frames FS ++ tail) as Heq.
  { destruct Hu as [k Hk]. rewrite Hk in Hgo |- *. rewrite <-app_assoc, drop_app_length in Hgo. by rewrite <-app_assoc, <-Hgo. }
  split.
  - constructor; try done.
    + by rewrite concat_app, app_assoc, Ht; simpl; rewrite app_nil_r.
    + rewrite app_assoc. apply Forall_app. split; [done|]. by apply Forall_singleton.
    + rewrite app_assoc, user_frames_app, user_frames_app, Htail, (user_frames_all [m]) by by apply Forall_singleton.
      by rewrite Heq.
  - rewrite drop_app_le by lia. by rewrite <-Hgo.
Qed.
End streams.
