(* ===== verification/Link.v ===== *)
(** * Two hosts and the TCP between them

    [link] is the two ends of a persistent connection, each an object
    [PTCPConnection] with its queue, that talk over sockets; [link_step] is
    what can happen: the user of an end pushes, the end is polled, the user
    pops what it was given, the socket breaks, the process crashes and comes
    back with its file, one end accepts the login of the other.  The sockets
    are those of the operating system [W]; [TcpLaws] is what TCP guarantees.

    [l_pushed] and [l_popped] only record what the users did. *)

From stdpp Require Export functions.
From S2P Require Import Prelude.
From S2P Require Import Arrays.
From S2P Require Import MsgHeader.
From S2P Require Import PtcpQueue.
From S2P Require Import PtcpQueueSpec.
From S2P Require Import Platform.
From S2P Require Import PtcpConn.
From S2P Require Import Wire.

#[global] Open Scope Z_scope.

(** The bytes read from a socket are the first that were written to the
    socket at the other end; every connection has two ends of its own. *)
Class TcpLaws (W : Type) (os : Os W) (log : OsLog W) (peer : Z → Z) : Prop := {
  tcp_peer fd : peer (peer fd) = fd;
  tcp_readv fd lens w data w' :
    os_readv fd lens w = (SysOk data, w') → (os_received fd w ++ data) `prefix_of` os_sent (peer fd) w;
  tcp_close_sent fd w fd' : os_sent fd' (os_close fd w) = os_sent fd' w;
  tcp_close_received fd w fd' : os_received fd' (os_close fd w) = os_received fd' w
}.

(** ** The user of a connection *)

Section user.
Context {conf : Conf}.

(** [header = conn.Alloc(size); header->msg_type = t; memcpy(header + 1, ...);
    conn.PushMore()]; [false] when [Alloc] returns null.  [Push] is this and
    [SendPending]. *)
Definition user_push (c : PTCPConnection) (t size : Z) (body : list MsgHeader)
    : outcome (bool * PTCPConnection) :=
  '(p, c) ← Conn_Alloc c size;
  match p, q_ c with
  | None, _ => Ret (false, c)
  | Some _, None => Undef
  | Some i, Some q =>
      blk ← fill (blk_ q) i t body;
      c ← PushMore (set_q c (Some (set_blk q blk)));
      Ret (true, c)
  end.

(** The bytes of the message that [Front] returned. *)
Definition message_at (c : PTCPConnection) (p : Z) : outcome (list Z) :=
  header ← read_header (recvbuf_ c) p;
  Ret (slice p (p + round8 (mh_size header)) (recvbuf_ c)).

(** The process ends and starts again: the object is new, the file is not. *)
Definition restart (c : PTCPConnection) : PTCPConnection := set_q new_PTCPConnection (q_ c).
End user.

(** The ack in a login message. *)
Definition conn_ack (c : PTCPConnection) : Z := match q_ c with Some q => MyAck q | None => 0 end.

(** ** The two ends, [true] and [false] *)

Record link := mkLink {
  l_conn : bool → PTCPConnection;
  l_head : bool → option Z;               (* what [Front] returned and was not popped *)
  l_login : option (bool * Z * Z);        (* the end inside [Connect], its socket, the ack in the reply *)
  l_pushed : bool → list user_msg;        (* by the user of the end *)
  l_popped : bool → list (list Z)         (* by the user of the end *)
}.

Definition set_conn (l : link) (b : bool) (c : PTCPConnection) : link :=
  mkLink (<[b := c]> (l_conn l)) (l_head l) (l_login l) (l_pushed l) (l_popped l).
Definition set_head (l : link) (b : bool) (p : option Z) : link :=
  mkLink (l_conn l) (<[b := p]> (l_head l)) (l_login l) (l_pushed l) (l_popped l).
Definition set_login (l : link) (a : option (bool * Z * Z)) : link :=
  mkLink (l_conn l) (l_head l) a (l_pushed l) (l_popped l).
Definition add_pushed (l : link) (b : bool) (m : user_msg) : link :=
  mkLink (l_conn l) (l_head l) (l_login l) (<[b := l_pushed l b ++ [m]]> (l_pushed l)) (l_popped l).
Definition add_popped (l : link) (b : bool) (m : list Z) : link :=
  mkLink (l_conn l) (l_head l) (l_login l) (l_pushed l) (<[b := l_popped l b ++ [m]]> (l_popped l)).

(** [Connect] blocks the thread of its end. *)
Definition connecting (l : link) (b : bool) : bool :=
  match l_login l with Some (b', _, _) => eqb b b' | None => false end.

Definition no_head : bool → option Z := λ _, None.

Section steps.
Context (conf : bool → Conf) {W : Type} {os : Os W} {log : OsLog W} (peer : Z → Z).

(** Both files are new. *)
Definition new_link : link :=
  mkLink (λ b, set_q (new_PTCPConnection (conf := conf b)) (Some (new_PTCPQueue (@TcpQueueSize (conf b)))))
    no_head None (λ _, []) (λ _, []).

(** What the user must respect: types that are not 0, sizes that fit 16 bits
    with the header and the buffer of the other end.  The histories are
    shorter than half the circle of sequence numbers. *)
Definition push_ok (l : link) (b : bool) (t size : Z) (body : list MsgHeader) : Prop :=
  0 < t < 65536 ∧ 0 ≤ size ≤ 65527 ∧ zlen body = blocks (size + 8) - 1 ∧
  8 * blocks (size + 8) ≤ @TcpRecvBufMaxSize (conf (negb b)) ∧
  Z.of_nat (length (l_pushed l b)) + 1 < 2147483648.

Inductive link_step (l : link) (w : W) : link → W → Prop :=
  | step_push b t size body c' :
      connecting l b = false → push_ok l b t size body →
      user_push (conf := conf b) (l_conn l b) t size body = Ret (true, c') →
      link_step l w (add_pushed (set_conn l b c') b (mkMsg (conn_ack (l_conn l b)) t size body)) w
  | step_full b t size body c' :
      connecting l b = false → push_ok l b t size body →
      user_push (conf := conf b) (l_conn l b) t size body = Ret (false, c') → link_step l w (set_conn l b c') w
  | step_flush b r c' w' :
      connecting l b = false →
      SendPending (conf := conf b) (l_conn l b) w = Ret (r, c', w') → link_step l w (set_conn l b c') w'
  | step_heartbeat b now c' w' :
      connecting l b = false →
      SendHB (conf := conf b) (l_conn l b) now w = Ret (c', w') → link_step l w (set_conn l b c') w'
  | step_front b r c' w' :
      connecting l b = false →
      Front (conf := conf b) (l_conn l b) w = Ret (r, c', w') →
      link_step l w (set_head (set_conn l b c') b r) w'
  | step_pop b p m c' :
      connecting l b = false → l_head l b = Some p → message_at (conf := conf b) (l_conn l b) p = Ret m →
      Pop (conf := conf b) (l_conn l b) = Ret c' →
      link_step l w (add_popped (set_head (set_conn l b c') b None) b m) w
  | step_close b reason errno :              (* the user, or an error *)
      link_step l w (set_conn l b (Close (l_conn l b) reason errno)) w
  | step_close_fd b r c' w' :
      TryCloseFd (l_conn l b) w = (r, c', w') → link_step l w (set_conn l b c') w'
  | step_crash b :
      link_step l w (set_login (set_head (set_conn l b (restart (conf := conf b) (l_conn l b))) b None)
                       (if connecting l b then None else l_login l)) w
  | step_accept b fd now c' w' :             (* the server's end takes the client's ack *)
      IsClosed (l_conn l b) = true → IsClosed (l_conn l (negb b)) = true →
      0 ≤ fd → 0 ≤ peer fd → peer fd ≠ fd →
      os_sent fd w = [] → os_received fd w = [] → os_sent (peer fd) w = [] → os_received (peer fd) w = [] →
      Open (conf := conf b) (l_conn l b) fd (conn_ack (l_conn l (negb b))) now w = Ret (c', w') →
      link_step l w
        (mkLink (<[b := c']> (l_conn l)) no_head (Some (negb b, peer fd, conn_ack (l_conn l b)))
           (l_pushed l) (l_popped l)) w'
  | step_connected b fd ack now c' w' :      (* the client's end gets the reply *)
      l_login l = Some (b, fd, ack) →
      Open (conf := conf b) (l_conn l b) fd ack now w = Ret (c', w') →
      link_step l w (set_login (set_head (set_conn l b c') b None) None) w'
  | step_refused b fd ack :                  (* the reply is lost *)
      l_login l = Some (b, fd, ack) → link_step l w (set_login l None) w.

Inductive link_reachable : link → W → Prop :=
  | link_new w : link_reachable new_link w
  | link_next l w l' w' : link_reachable l w → link_step l w l' w' → link_reachable l' w'.
End steps.
