(* ===== verification/LinkInv.v ===== *)
(** * The invariant of one direction

    [dir] relates, for the messages from one end of a [link] to the other,
    what the user of the sender pushed, the queue of the sender, the bytes
    that went to its socket, the bytes that the reader took from its socket,
    its buffer, and what its user popped.  The lemmas give the effect of the
    operations of either end on it. *)

From S2P Require Import Prelude.
From S2P Require Import Arrays.
From S2P Require Import MsgHeader.
From S2P Require Import PtcpQueue.
From S2P Require Import PtcpQueueInv.
From S2P Require Import PtcpQueueSpec.
From S2P Require Import Platform.
From S2P Require Import PtcpConn.
From S2P Require Import Framing.
From S2P Require Import PtcpConnRecv.
From S2P Require Import PtcpConnSend.
From S2P Require Import Wire.
From S2P Require Import Link.

(** What only the proof knows of a direction: the queue and how many of the
    messages it has dropped; the socket of the sender and the number of the
    first message that goes over it; the stream on this socket; what the
    reader has received from it, and holds. *)
Record ghost := mkGhost {
  g_q : PTCPQueue;
  g_n : nat;
  g_sock : Z;
  g_start : nat;
  g_FS : list (list Z);
  g_tail : list (list Z);
  g_part : list Z;
  g_rest : list Z;
  g_RS : list (list Z);
  g_fs : list (list Z);
  g_t : list Z
}.

Definition g_set_queue (g : ghost) (q : PTCPQueue) (n : nat) : ghost :=
  mkGhost q n (g_sock g) (g_start g) (g_FS g) (g_tail g) (g_part g) (g_rest g) (g_RS g) (g_fs g) (g_t g).
Definition g_set_stream (g : ghost) (FS tail : list (list Z)) (part rest : list Z) : ghost :=
  mkGhost (g_q g) (g_n g) (g_sock g) (g_start g) FS tail part rest (g_RS g) (g_fs g) (g_t g).
Definition g_set_read (g : ghost) (RS fs : list (list Z)) (t : list Z) : ghost :=
  mkGhost (g_q g) (g_n g) (g_sock g) (g_start g) (g_FS g) (g_tail g) (g_part g) (g_rest g) RS fs t.

(** The messages sent whole, by number. *)
Definition g_sent `{Conf} (g : ghost) : nat := g_start g + length (user_frames (g_FS g)).

(** A connection that was never opened. *)
Definition unopened (c : PTCPConnection) : Prop :=
  recvbuf_ c = [] ∧ recvbuf_size_ c = 0 ∧ readidx_ c = 0 ∧ nextmsg_idx_ c = 0 ∧ writeidx_ c = 0 ∧ sockfd_ c < 0.

Lemma unopened_same c c' : unopened c → same_recv c c' → sockfd_ c' < 0 → unopened c'.
Proof. intros (? & ? & ? & ? & ? & _) (? & ? & ? & ? & ?) ?. split_and!; congruence || done. Qed.

Section dir.
Context {cs cr : Conf}.
Context (HCs : @Conf_ok cs) (HCr : @Conf_ok cr).
Context (Hle : @ToLittleEndian cs = @ToLittleEndian cr).

Abbreviation um_bytes := (um_bytes (cs := cs)).
Abbreviation um_words := (um_words (cs := cs)).
Abbreviation um_ok := (um_ok (cr := cr)).
Abbreviation um_delivered := (um_delivered (cs := cs) (cr := cr)).
Abbreviation frame_ack m := (mh_ack_seq (wire_hdr (conf := cr) m)).
Abbreviation wqueue_rep := (queue_rep (@TcpQueueSize cs) (@ToLittleEndian cs) (@is_little_endian cs)).

(** From [c], whose user pushed [H] and popped [d'] messages, to [r], whose
    user popped [P]; [sent] and [recvd] are the logs of their sockets. *)
Record dir (c r : PTCPConnection) (head : option Z) (H : list user_msg) (P : list (list Z)) (d' : nat)
    (sent recvd : list Z) (fr : Z) (g : ghost) : Prop := {
  dr_q : q_ c = Some (g_q g);
  dr_rep : wqueue_rep (g_q g) (um_words <$> drop (g_n g) H);
  dr_seq : read_seq_num_ (g_q g) = Z.of_nat (g_n g);
  dr_ack : ack_seq_num_ (g_q g) = Z.of_nat d';
  dr_hb : hb_ok (conf := cs) c;
  dr_msgs : Forall (λ m, um_ok m ∧ um_ack m ≤ Z.of_nat d') H;
  dr_n : (g_n g ≤ length P)%nat;
  dr_len : (length P ≤ length H)%nat ∧ Z.of_nat (length H) < 2147483648 ∧ Z.of_nat d' < 2147483648;
  dr_stream : stream (conf := cr) sent (um_bytes <$> drop (g_start g) H) (g_FS g) (g_tail g) (g_part g) (g_rest g);
  dr_acks m : m ∈ g_FS g ++ g_tail g → 0 ≤ frame_ack m ≤ Z.of_nat d';
  dr_open : 0 ≤ sockfd_ c → sockfd_ c = g_sock g ∧
    stream_goes_on (conf := cr) (um_bytes <$> drop (g_start g) H) (g_FS g) (g_tail g) ∧
    g_rest g = words_bytes (conf := cs) (unsent (g_q g));
  dr_start : (g_start g ≤ length P)%nat;
  dr_popped : P = um_delivered <$> take (length P) H;
  dr_buf : recv_rep (conf := cr) r (g_fs g) (g_t g) ∨ unopened r ∧ g_fs g = [];
  dr_pend : user_frames (conf := cr) (g_fs g) `prefix_of` (um_bytes <$> drop (length P) H);
  dr_head p : head = Some p → p = readidx_ r ∧ ∃ m fs, g_fs g = m :: fs ∧ is_hb (conf := cr) m = false;
  dr_read : 0 ≤ sockfd_ r → recv_rep (conf := cr) r (g_fs g) (g_t g) ∧ sockfd_ r = fr ∧
    recvd = concat (g_RS g) ++ g_t g ∧ Forall (frame_ok (conf := cr)) (g_RS g) ∧
    user_frames (conf := cr) (g_RS g) =
      (um_bytes <$> take (length P - g_start g) (drop (g_start g) H)) ++ user_frames (conf := cr) (g_fs g) ∧
    recvd `prefix_of` sent
}.

Lemma history_not_hb H d' k :
  Forall (λ m, um_ok m ∧ um_ack m ≤ d') H → Forall (λ m, is_hb (conf := cr) m = false) (um_bytes <$> drop k H).
Proof.
  intros HH. apply Forall_fmap. apply (Forall_drop _ k) in HH. revert HH. apply Forall_impl.
  intros m [Hm _]. simpl. by apply (um_not_hb Hle).
Qed.

(** ** What the sender does *)

(** The bytes that [c] handed to its socket, at once or in part. *)
Inductive emitted (c c' : PTCPConnection) (q q' : PTCPQueue) (sent : list Z) : list Z → Prop :=
  | em_none :
      (0 ≤ sockfd_ c → unsent q' = unsent q) → sockfd_ c' = sockfd_ c ∨ sockfd_ c' < 0 → emitted c c' q q' sent sent
  | em_words ws :
      0 ≤ sockfd_ c → sockfd_ c' = sockfd_ c → unsent q = ws ++ unsent q' →
      emitted c c' q q' sent (sent ++ words_bytes (conf := cs) ws)
  | em_hb :
      0 ≤ sockfd_ c → sockfd_ c' = sockfd_ c → unsent q = [] → unsent q' = [] →
      emitted c c' q q' sent (sent ++ hb_frame (conf := cs) (ack_seq_num_ q))
  | em_broken bs rest :
      0 ≤ sockfd_ c → sockfd_ c' < 0 →
      (if decide (unsent q = []) then hb_frame (conf := cs) (ack_seq_num_ q)
       else words_bytes (conf := cs) (unsent q)) = bs ++ rest →
      emitted c c' q q' sent (sent ++ bs).

(** The stream on the socket of [c] after that: it is longer, and what is new
    in it carries the current ack. *)
Lemma emitted_stream c c' q q' sent sent' msgs FS tail part rest :
  emitted c c' q q' sent sent' → 0 ≤ sockfd_ c → 0 ≤ ack_seq_num_ q < 4294967296 →
  Forall (λ m, is_hb (conf := cr) m = false) msgs →
  stream (conf := cr) sent msgs FS tail part rest → stream_goes_on (conf := cr) msgs FS tail →
  rest = words_bytes (conf := cs) (unsent q) →
  ∃ ms tail' part' rest', stream (conf := cr) sent' msgs (FS ++ ms) tail' part' rest' ∧
    (0 ≤ sockfd_ c' → stream_goes_on (conf := cr) msgs (FS ++ ms) tail' ∧
                      rest' = words_bytes (conf := cs) (unsent q')) ∧
    (∀ m, m ∈ (FS ++ ms) ++ tail' → m ∈ FS ++ tail ∨ frame_ack m = ack_seq_num_ q).
Proof.
  intros He Hop Hack Hmsgs Hs Hgo ->.
  pose proof (hb_frame_ok HCr Hle _ Hack) as Hhok. pose proof (hb_is_hb Hle _ Hack) as Hhb.
  pose proof (hb_wire_hdr Hle _ Hack) as Hhdr. set (hb := hb_frame (conf := cs) (ack_seq_num_ q)) in *.
  destruct He as [Hu Hsk|ws _ Hsk Hu|_ Hsk Hu Hu'|bs rest _ Hcl Hbs].
  - exists [], tail, part. eexists. rewrite app_nil_r. split; [exact Hs|]. split; [intros _; by rewrite Hu by done|]. by left.
  - rewrite Hu, words_bytes_app in Hs.
    destruct (stream_advance _ _ _ _ _ _ _ Hs) as (ms & tail' & part' & Hs' & -> & _).
    exists ms, tail', part'. eexists. split; [exact Hs'|].
    split; [intros _; split; [by apply goes_on_advance|done]|]. intros m Hm. left. by rewrite <-app_assoc in Hm.
  - rewrite Hu in Hs. change (words_bytes []) with (@nil Z) in Hs.
    destruct (stream_rest_nil _ _ _ _ _ Hs) as [-> ->]. pose proof (stream_hb _ _ _ _ _ _ Hs Hhok Hhb) as Hs1.
    rewrite <-(app_nil_r hb) in Hs1 at 2.
    destruct (stream_advance _ _ _ _ _ _ _ Hs1) as (ms & tail' & part' & Hs' & Hcut & Hnil).
    rewrite (Hnil eq_refl) in Hcut, Hs'. rewrite app_nil_r in Hcut. subst ms.
    exists [hb], [], part', []. split; [exact Hs'|]. split.
    + intros _. rewrite Hu'. split; [|done]. unfold stream_goes_on in *. rewrite user_frames_app.
      unfold user_frames at 2. rewrite filter_cons_False, app_nil_r by (by rewrite Hhb). done.
    + intros m Hm. rewrite app_nil_r in Hm. apply elem_of_app in Hm as [Hm|Hm].
      * left. by rewrite app_nil_r.
      * right. apply list_elem_of_singleton in Hm as ->. by rewrite Hhdr.
  - destruct (decide (unsent q = [])) as [Hu|_].
    + rewrite Hu in Hs. change (words_bytes []) with (@nil Z) in Hs.
      destruct (stream_rest_nil _ _ _ _ _ Hs) as [-> ->]. pose proof (stream_hb _ _ _ _ _ _ Hs Hhok Hhb) as Hs1.
      change (hb = bs ++ rest) in Hbs. rewrite Hbs in Hs1 at 2.
      destruct (stream_advance _ _ _ _ _ _ _ Hs1) as (ms & tail' & part' & Hs' & Hcut & _).
      exists ms, tail', part', rest. split; [exact Hs'|]. split; [lia|]. intros m Hm.
      rewrite <-app_assoc, <-Hcut in Hm. apply elem_of_app in Hm as [Hm|Hm]; [left; apply elem_of_app; by left|].
      right. apply list_elem_of_singleton in Hm as ->. by rewrite Hhdr.
    + rewrite Hbs in Hs. destruct (stream_advance _ _ _ _ _ _ _ Hs) as (ms & tail' & part' & Hs' & -> & _).
      exists ms, tail', part', rest. split; [exact Hs'|]. split; [lia|]. intros m Hm. left. by rewrite <-app_assoc in Hm.
Qed.

Lemma dir_emit c c' r head H P d' sent sent' recvd fr g q' :
  dir c r head H P d' sent recvd fr g → emitted c c' (g_q g) q' sent sent' →
  q_ c' = Some q' → wqueue_rep q' (um_words <$> drop (g_n g) H) →
  read_seq_num_ q' = read_seq_num_ (g_q g) → ack_seq_num_ q' = ack_seq_num_ (g_q g) → hb_ok (conf := cs) c' →
  ∃ ms tail' part' rest',
    dir c' r head H P d' sent' recvd fr
      (g_set_stream (g_set_queue g q' (g_n g)) (g_FS g ++ ms) tail' part' rest') ∧
    (∀ m, m ∈ (g_FS g ++ ms) ++ tail' →
       m ∈ g_FS g ++ g_tail g ∨ 0 ≤ sockfd_ c ∧ frame_ack m = Z.of_nat d') ∧
    (sockfd_ c < 0 → ms = []).
Proof.
  intros Hd He Hq' Hrep' Hseq' Hack' Hhb'. pose proof Hd as [].
  assert (∃ bs, sent' = sent ++ bs) as [bs Hbs].
  { destruct He; [exists []; by rewrite app_nil_r|by eexists..]. }
  assert (∃ ms tail' part' rest',
    stream (conf := cr) sent' (um_bytes <$> drop (g_start g) H) (g_FS g ++ ms) tail' part' rest' ∧
    (0 ≤ sockfd_ c' → sockfd_ c' = g_sock g ∧
       stream_goes_on (conf := cr) (um_bytes <$> drop (g_start g) H) (g_FS g ++ ms) tail' ∧
       rest' = words_bytes (conf := cs) (unsent q')) ∧
    (∀ m, m ∈ (g_FS g ++ ms) ++ tail' →
       m ∈ g_FS g ++ g_tail g ∨ 0 ≤ sockfd_ c ∧ frame_ack m = Z.of_nat d') ∧
    (sockfd_ c < 0 → ms = []))
    as (ms & tail' & part' & rest' & Hs' & Hopen' & Hm & Hms).
  { destruct (Z.leb_spec 0 (sockfd_ c)) as [Hop|Hcl].
    - destruct (dr_open0 Hop) as (Hsk & Hgo & Hrest).
      destruct (emitted_stream c c' (g_q g) q' sent sent' (um_bytes <$> drop (g_start g) H) (g_FS g) (g_tail g)
        (g_part g) (g_rest g) He Hop) as (ms & tail' & part' & rest' & Hs' & Hgo' & Hm);
        [lia|by eapply history_not_hb|done..|].
      exists ms, tail', part', rest'. split; [done|]. split.
      + intros Hop'. split; [|by apply Hgo']. destruct He; lia.
      + split; [|lia]. intros m Hin. destruct (Hm m Hin); [by left|right]. split; [done|congruence].
    - assert (sent' = sent ∧ sockfd_ c' < 0) as [-> Hcl'] by (destruct He; [split; [done|]|..]; lia).
      exists [], (g_tail g), (g_part g), (g_rest g). rewrite app_nil_r. split; [done|]. split; [lia|]. split; [by left|done]. }
  exists ms, tail', part', rest'. split; [|done]. constructor; simpl; try done; try congruence.
  - intros m Hin. destruct (Hm m Hin) as [Hin'|[_ Ha]]; [by apply dr_acks0|].
    change (0 ≤ frame_ack m ≤ Z.of_nat d'). lia.
  - intros Hr. destruct (dr_read0 Hr) as (? & ? & ? & ? & ? & ?). split_and!; try done.
    rewrite Hbs. by apply prefix_app_r.
Qed.

(** A new message. *)
Lemma dir_push c c' r head H P d' sent recvd fr g q' m :
  dir c r head H P d' sent recvd fr g → um_ok m → um_ack m = Z.of_nat d' →
  Z.of_nat (length H) + 1 < 2147483648 →
  q_ c' = Some q' → wqueue_rep q' ((um_words <$> drop (g_n g) H) ++ [um_words m]) →
  unsent q' = unsent (g_q g) ++ um_words m → sockfd_ c' = sockfd_ c →
  read_seq_num_ q' = read_seq_num_ (g_q g) → ack_seq_num_ q' = ack_seq_num_ (g_q g) → hb_ok (conf := cs) c' →
  ∃ tail' rest',
    dir c' r head (H ++ [m]) P d' sent recvd fr
      (g_set_stream (g_set_queue g q' (g_n g)) (g_FS g) tail' (g_part g) rest') ∧
    (∀ x, x ∈ g_FS g ++ tail' → x ∈ g_FS g ++ g_tail g ∨ 0 ≤ sockfd_ c ∧ frame_ack x = Z.of_nat d').
Proof.
  intros Hd Hm Hma Hlen Hq' Hrep' Hun Hsk Hseq' Hack' Hhb'. pose proof Hd as [].
  assert (∀ k, (k ≤ length H)%nat → um_bytes <$> drop k (H ++ [m]) = (um_bytes <$> drop k H) ++ [um_bytes m]) as Hdrop.
  { intros k Hk. by rewrite drop_app_le, fmap_app by done. }
  assert (∃ tail' rest',
    stream (conf := cr) sent (um_bytes <$> drop (g_start g) (H ++ [m])) (g_FS g) tail' (g_part g) rest' ∧
    (0 ≤ sockfd_ c' → sockfd_ c' = g_sock g ∧
       stream_goes_on (conf := cr) (um_bytes <$> drop (g_start g) (H ++ [m])) (g_FS g) tail' ∧
       rest' = words_bytes (conf := cs) (unsent q')) ∧
    (∀ x, x ∈ g_FS g ++ tail' → x ∈ g_FS g ++ g_tail g ∨ 0 ≤ sockfd_ c ∧ frame_ack x = Z.of_nat d'))
    as (tail' & rest' & Hs' & Hopen' & Hx).
  { rewrite Hdrop, Hsk by lia. destruct (Z.leb_spec 0 (sockfd_ c)) as [Hop|Hcl].
    - destruct (dr_open0 Hop) as (Hf & Hgo & Hrest).
      destruct (stream_push (conf := cr) sent (um_bytes <$> drop (g_start g) H) (g_FS g) (g_tail g) (g_part g)
        (g_rest g) (um_bytes m)) as [Hs' Hgo']; try done;
        [by eapply history_not_hb|by apply (um_not_hb Hle)|by apply (um_frame_ok Hle)|].
      do 2 eexists. split; [exact Hs'|]. split.
      + intros _. split; [done|]. split; [exact Hgo'|]. by rewrite Hun, words_bytes_app, Hrest.
      + intros x. rewrite app_assoc. intros [Hin|Hin]%elem_of_app; [by left|right].
        apply list_elem_of_singleton in Hin as ->. split; [done|]. rewrite (um_wire_hdr Hle) by done. done.
    - exists (g_tail g), (g_rest g). split; [by apply stream_more|]. split; [lia|]. by left. }
  exists tail', rest'. split; [|done]. constructor; simpl; try done; try congruence.
  - rewrite drop_app_le, fmap_app by lia. done.
  - apply Forall_app. split; [done|]. apply Forall_singleton. split; [done|lia].
  - rewrite length_app. simpl. lia.
  - intros x Hin. destruct (Hx x Hin) as [Hin'|[_ Ha]]; [by apply dr_acks0|].
    change (0 ≤ frame_ack x ≤ Z.of_nat d'). lia.
  - by rewrite take_app_le by lia.
  - rewrite Hdrop by lia. by apply prefix_app_r.
  - intros Hr. destruct (dr_read0 Hr) as (? & ? & ? & ? & Hu & ?). split_and!; try done.
    rewrite drop_app_le by lia. rewrite take_app_le; [done|]. rewrite length_drop. lia.
Qed.

(** An ack that arrived: the first messages are dropped. *)
Lemma dir_acked c c' r head H P d' sent recvd fr g q' n' :
  dir c r head H P d' sent recvd fr g → (n' ≤ length P)%nat →
  q_ c' = Some q' → wqueue_rep q' (um_words <$> drop n' H) → unsent q' = unsent (g_q g) →
  read_seq_num_ q' = Z.of_nat n' → ack_seq_num_ q' = ack_seq_num_ (g_q g) →
  sockfd_ c' = sockfd_ c ∨ sockfd_ c' < 0 → hb_ok (conf := cs) c' →
  dir c' r head H P d' sent recvd fr (g_set_queue g q' n').
Proof.
  intros [] Hn' Hq' Hrep' Hun Hseq Hack Hsk Hhb. constructor; simpl; try done; try congruence.
  intros Hop. destruct Hsk as [Hsk|?]; [|lia]. rewrite Hsk in Hop |- *. by rewrite Hun; apply dr_open0.
Qed.

(** The user of the sender popped a message. *)
Lemma dir_my_ack c c' r head H P d' sent recvd fr g :
  dir c r head H P d' sent recvd fr g → Z.of_nat (S d') < 2147483648 →
  q_ c' = Some (MyAck_incr (g_q g)) → sockfd_ c' = sockfd_ c → hb_ok (conf := cs) c' →
  dir c' r head H P (S d') sent recvd fr (g_set_queue g (MyAck_incr (g_q g)) (g_n g)).
Proof.
  intros [] Hlt Hq' Hsk Hhb. destruct (MyAck_incr_correct _ _ _ _ _ dr_rep0) as (Hrep' & Hun & Hack).
  constructor; simpl; try done.
  - rewrite dr_ack0, u32_small; lia.
  - revert dr_msgs0. apply Forall_impl. intros m [? ?]. split; [done|lia].
  - lia.
  - intros m Hm. apply dr_acks0 in Hm. change (0 ≤ frame_ack m ≤ Z.of_nat (S d')). lia.
  - rewrite Hsk. intros Hop. by apply dr_open0.
Qed.
(** ** What the reader does *)

Lemma recv_rep_same_recv r r' fs t :
  recv_rep (conf := cr) r fs t → same_recv r r' → recv_rep (conf := cr) r' fs t.
Proof. intros Hr (? & ? & ? & ? & ?). by eapply recv_rep_same. Qed.

Lemma dir_reader_same c r r' head head' H P d' sent recvd fr g :
  dir c r head H P d' sent recvd fr g → same_recv r r' → sockfd_ r' = sockfd_ r ∨ sockfd_ r' < 0 →
  head' = head ∨ head' = None → dir c r' head' H P d' sent recvd fr g.
Proof.
  intros [] Hs Hsk Hh. constructor; try done.
  - destruct dr_buf0 as [Hb|[Hu Hfs]]; [left; by eapply recv_rep_same_recv|right].
    split; [|done]. pose proof Hu as (_ & _ & _ & _ & _ & Hneg). eapply unopened_same; [done|done|lia].
  - intros p Hp. destruct Hh as [->| ->]; [|done]. destruct (dr_head0 p Hp) as [-> Hm].
    split; [|done]. by destruct Hs as (_ & _ & -> & _).
  - intros Hop. destruct Hsk as [Hsk|?]; [|lia]. rewrite Hsk in *.
    destruct (dr_read0 Hop) as (? & ? & ? & ? & ? & ?). split_and!; try done. by eapply recv_rep_same_recv.
Qed.

(** The bytes that can come next are cut into frames of the stream. *)
Lemma dir_next c r head H P d' sent recvd fr g data :
  dir c r head H P d' sent recvd fr g → 0 ≤ sockfd_ r → (recvd ++ data) `prefix_of` sent →
  ∃ ms rest t' k, g_t g ++ data = concat ms ++ t' ∧ Forall (frame_ok (conf := cr)) ms ∧
    partial (conf := cr) t' ∧ g_FS g ++ g_tail g = (g_RS g ++ ms) ++ rest ∧
    Forall (frame_ok (conf := cr)) rest ∧ concat rest = t' ++ k ∧ (rest = [] → t' = []).
Proof.
  intros [] Hop [k Hk]. destruct (dr_read0 Hop) as (_ & _ & -> & HRS & _ & _).
  pose proof (stream_frames _ _ _ _ _ _ dr_stream0) as Hfr. pose proof (st_ok _ _ _ _ _ _ dr_stream0) as Hok.
  rewrite Hk, <-!app_assoc in Hfr. destruct (frames_strip _ _ _ HRS Hok (eq_sym Hfr)) as (G & HG & Hcat).
  rewrite HG in Hok |- *. apply Forall_app in Hok as [_ HGok]. rewrite app_assoc in Hcat.
  destruct (prefix_frames G _ _ HGok Hcat) as (ms & rest & t' & -> & Hcut & Hp & Hnil & Hrest).
  apply Forall_app in HGok as [Hms Hrok].
  exists ms, rest, t', (k ++ g_rest g). split_and!; try done. by rewrite app_assoc.
Qed.

(** The number of user messages received: those popped and those in the
    buffer, all of which were sent. *)
Lemma dir_received c r head H P d' sent recvd fr g :
  dir c r head H P d' sent recvd fr g → 0 ≤ sockfd_ r → (length P ≤ g_sent g)%nat.
Proof.
  intros [] Hop. destruct (dr_read0 Hop) as (_ & _ & -> & HRS & Hu & [k Hk]).
  destruct dr_stream0 as [-> _ Hp Hok _]. apply Forall_app in Hok as [HFS _].
  destruct (frames_prefix (g_RS g) (g_t g) (g_FS g) (g_part g) k HRS HFS Hp Hk) as [G HG].
  apply (f_equal length) in Hu. unfold g_sent. rewrite HG, user_frames_app, length_app, Hu.
  rewrite !length_app, length_fmap, length_take, length_drop. lia.
Qed.

Lemma take_drop_split {A} (l : list A) i j : (i ≤ j)%nat → drop i l = take (j - i) (drop i l) ++ drop j l.
Proof.
  intros. rewrite <-(take_drop (j - i) (drop i l)) at 1. f_equal. rewrite drop_drop. f_equal. lia.
Qed.

Lemma dir_front c r r' head H P d' sent recvd fr g ms data t' :
  dir c r head H P d' sent recvd fr g →
  recv_rep (conf := cr) r' (arrive (conf := cr) (skip_hb (conf := cr) (g_fs g)) ms) t' →
  sockfd_ r' = sockfd_ r ∨ sockfd_ r' < 0 → (sockfd_ r < 0 → ms = []) →
  (0 ≤ sockfd_ r → (recvd ++ data) `prefix_of` sent ∧ g_t g ++ data = concat ms ++ t' ∧
                   Forall (frame_ok (conf := cr)) ms) →
  let fs' := arrive (conf := cr) (skip_hb (conf := cr) (g_fs g)) ms in
  dir c r' (front_of r' fs') H P d' sent (recvd ++ data) fr (g_set_read g (g_RS g ++ ms) fs' t').
Proof.
  intros Hd Hrep Hsk Hclosed Hopen fs'. pose proof Hd as [].
  assert (user_frames (conf := cr) fs' = user_frames (conf := cr) (g_fs g) ++ user_frames (conf := cr) ms) as Hfs'.
  { unfold fs'. rewrite user_frames_arrive, user_frames_app, user_frames_skip. done. }
  assert (0 ≤ sockfd_ r →
    user_frames (conf := cr) (g_RS g ++ ms) =
      (um_bytes <$> take (length P - g_start g) (drop (g_start g) H)) ++ user_frames (conf := cr) fs' ∧
    user_frames (conf := cr) fs' `prefix_of` (um_bytes <$> drop (length P) H)) as Hread.
  { intros Hop. destruct (Hopen Hop) as ([k Hk] & Hcut & Hms). destruct (dr_read0 Hop) as (_ & _ & Hlog & HRS & Hu & _).
    rewrite user_frames_app, Hu, Hfs', <-app_assoc. split; [done|].
    destruct dr_stream0 as [Hsent Htail _ Hok Hupre].
    assert (concat (g_FS g ++ g_tail g) = concat (g_RS g ++ ms) ++ t' ++ k ++ g_rest g) as Hcat.
    { rewrite concat_app, <-Htail, app_assoc, <-Hsent, Hk, Hlog, concat_app, <-!app_assoc. f_equal.
      rewrite (app_assoc (g_t g)), Hcut. by rewrite <-!app_assoc. }
    destruct (frames_strip (g_RS g ++ ms) _ _ (proj2 (Forall_app _ _ _) (conj HRS Hms)) Hok Hcat) as (G & HG & _).
    rewrite HG, user_frames_app, user_frames_app, Hu, <-!app_assoc in Hupre.
    apply (prefix_app_inv (um_bytes <$> take (length P - g_start g) (drop (g_start g) H))).
    rewrite <-fmap_app, <-take_drop_split by lia. etrans; [|exact Hupre].
    rewrite !app_assoc. apply prefix_app_r. done. }
  constructor; simpl; try done.
  - by left.
  - destruct (Z.leb_spec 0 (sockfd_ r)) as [Hop|Hcl]; [by apply Hread|].
    rewrite (Hclosed Hcl) in Hfs'. rewrite Hfs'. change (user_frames []) with (@nil (list Z)). by rewrite app_nil_r.
  - intros p Hp. pose proof (arrive_no_lead (conf := cr) ms _ (skip_hb_no_lead (conf := cr) (g_fs g))) as Hn.
    fold fs' in Hn. destruct fs' as [|m fs2]; [done|]. simpl in Hp. injection Hp as <-. split; [done|]. by exists m, fs2.
  - intros Hop'. destruct Hsk as [Hsk|?]; [|lia]. rewrite Hsk in Hop' |- *.
    destruct (Hopen Hop') as (Hpre & Hcut & Hms). destruct (dr_read0 Hop') as (_ & Hf & Hlog & HRS & _ & _).
    split_and!; try done.
    + rewrite Hlog, <-app_assoc, Hcut, concat_app, app_assoc. done.
    + by apply Forall_app.
    + by apply Hread.
Qed.

(** What [Front] returned is the next message. *)
Lemma dir_head c r p H P d' sent recvd fr g :
  dir c r (Some p) H P d' sent recvd fr g →
  ∃ u fs, H !! length P = Some u ∧ um_ok u ∧ p = readidx_ r ∧ g_fs g = um_bytes u :: fs ∧
    recv_rep (conf := cr) r (um_bytes u :: fs) (g_t g) ∧
    user_frames (conf := cr) fs `prefix_of` (um_bytes <$> drop (S (length P)) H).
Proof.
  intros []. destruct (dr_head0 p eq_refl) as (-> & m & fs & Hfs & Hm).
  assert (recv_rep (conf := cr) r (m :: fs) (g_t g)) as Hrep.
  { destruct dr_buf0 as [Hr|[_ Hr]]; by rewrite Hfs in Hr. }
  assert (user_frames (conf := cr) (g_fs g) = m :: user_frames (conf := cr) fs) as Hufs.
  { rewrite Hfs. unfold user_frames. by rewrite filter_cons_True. }
  rewrite Hufs in dr_pend0. destruct (H !! length P) as [u|] eqn:Hlook.
  - rewrite (drop_S _ _ _ Hlook), fmap_cons in dr_pend0.
    pose proof (prefix_cons_inv_1 _ _ _ _ dr_pend0) as ->. apply prefix_cons_inv_2 in dr_pend0.
    exists u, fs. split_and!; try done. by eapply Forall_lookup_1 in dr_msgs0 as [Hu _].
  - apply lookup_ge_None in Hlook. rewrite drop_ge in dr_pend0 by done. by apply prefix_nil_not in dr_pend0.
Qed.

(** Where it lies in the buffer. *)
Lemma head_mem r u fs t :
  um_ok u → recv_rep (conf := cr) r (um_bytes u :: fs) t →
  read_header (conf := cr) (recvbuf_ r) (readidx_ r) = Ret (um_header u) ∧
  slice (readidx_ r) (readidx_ r + 8 * blocks (um_size u + 8)) (recvbuf_ r) = um_delivered u ∧
  message_at (conf := cr) r (readidx_ r) = Ret (um_delivered u) ∧
  0 ≤ readidx_ r ∧ readidx_ r + 8 * blocks (um_size u + 8) ≤ zlen (recvbuf_ r).
Proof.
  intros Hu Hrep. destruct (recv_rep_head _ _ _ _ Hrep) as (Hread & _ & Hslice & Hle').
  destruct (rp_buf _ _ _ Hrep) as [Hlen Hsize Hidx].
  rewrite (um_wire_hdr Hle) in Hread by done. rewrite (um_host_frame Hle), (um_bytes_zlen (cr := cr)) in Hslice by done.
  rewrite (um_bytes_zlen (cr := cr)) in Hle' by done.
  split_and!; try done; try lia. unfold message_at. rewrite Hread, outcome_bind_Ret, round8_blocks. simpl.
  by rewrite Hslice.
Qed.

(** The user pops what [Front] returned. *)
Lemma dir_pop c r r' p H P d' sent recvd fr g :
  dir c r (Some p) H P d' sent recvd fr g →
  ∃ m fs, g_fs g = m :: fs ∧ recv_rep (conf := cr) r (m :: fs) (g_t g) ∧
    message_at (conf := cr) r p = Ret (host_frame (conf := cr) m) ∧
    (recv_rep (conf := cr) r' fs (g_t g) → sockfd_ r' = sockfd_ r →
     dir c r' None H (P ++ [host_frame (conf := cr) m]) d' sent recvd fr (g_set_read g (g_RS g) fs (g_t g)) ∧
     Z.of_nat (S (length P)) < 2147483648).
Proof.
  intros Hd. destruct (dir_head _ _ _ _ _ _ _ _ _ _ Hd) as (u & fs & Hlook & Hu & -> & Hfs & Hrep & Hpre).
  destruct (head_mem _ _ _ _ Hu Hrep) as (_ & _ & Hm & _). exists (um_bytes u), fs.
  rewrite (um_host_frame Hle) by done. do 3 (split; [done|]). destruct Hd. intros Hrep' Hsk.
  assert (user_frames (conf := cr) (g_fs g) = um_bytes u :: user_frames (conf := cr) fs) as Hufs.
  { rewrite Hfs. unfold user_frames. rewrite filter_cons_True; [done|]. by apply (um_not_hb Hle). }
  assert (length P < length H)%nat by (by eapply lookup_lt_Some).
  assert (length (P ++ [um_delivered u]) = S (length P)) as Hlen by (rewrite length_app; simpl; lia).
  split; [|lia]. constructor; simpl; rewrite ?Hlen; try done; try lia.
  - rewrite (take_S_r _ _ _ Hlook), fmap_app. simpl. by rewrite <-dr_popped0.
  - by left.
  - rewrite Hsk. intros Hop. destruct (dr_read0 Hop) as (_ & ? & ? & ? & HuR & ?). split_and!; try done.
    rewrite HuR, Hufs. replace (S (length P) - g_start g)%nat with (S (length P - g_start g)) by lia.
    rewrite (take_S_r _ _ u).
    + rewrite fmap_app, <-app_assoc. done.
    + rewrite lookup_drop. by replace (g_start g + (length P - g_start g))%nat with (length P) by lia.
Qed.
End dir.
