(* ===== verification/LinkOpen.v ===== *)
(** * Acks and logins of one direction

    Which acks the queue of the sender takes ([dir_take_acks]), and how a
    direction starts again on a new socket: the sender drops what the reader
    has and sends the rest ([dir_open_sender]), the reader starts with an
    empty buffer ([dir_open_reader]). *)

From S2P Require Import Prelude.
From S2P Require Import Arrays.
From S2P Require Import MsgHeader.
From S2P Require Import PtcpQueue.
From S2P Require Import PtcpQueueInv.
From S2P Require Import PtcpQueueSpec.
From S2P Require Import Platform.
From S2P Require Import PtcpConn.
From S2P Require Import Framing.
From S2P Require Import PtcpConnRecv.
From S2P Require Import PtcpConnSend.
From S2P Require Import Wire.
From S2P Require Import Link.
From S2P Require Import LinkInv.

Section acks.
Context {cs cr : Conf}.
Context (HCs : @Conf_ok cs) (HCr : @Conf_ok cr).
Context (Hle : @ToLittleEndian cs = @ToLittleEndian cr).

Abbreviation um_bytes := (um_bytes (cs := cs)).
Abbreviation um_words := (um_words (cs := cs)).
Abbreviation wqueue_rep := (queue_rep (@TcpQueueSize cs) (@ToLittleEndian cs) (@is_little_endian cs)).
Abbreviation dir := (dir (cs := cs) (cr := cr)).
Implicit Types (H : list user_msg).

Lemma concat_bytes_zlen H : zlen (concat (um_bytes <$> H)) = 8 * zlen (concat (um_words <$> H)).
Proof.
  induction H as [|m H IH]; [done|]. rewrite !fmap_cons, !concat_cons, !zlen_app, IH.
  change (um_bytes m) with (words_bytes (conf := cs) (um_words m)). rewrite words_bytes_zlen. lia.
Qed.

Lemma concat_words_mono H i j : (i ≤ j)%nat → zlen (concat (um_words <$> drop j H)) ≤ zlen (concat (um_words <$> drop i H)).
Proof.
  intros Hij. rewrite (take_drop_split H i j Hij), fmap_app, concat_app, zlen_app.
  pose proof (zlen_nonneg (concat (um_words <$> take (j - i) (drop i H)))). lia.
Qed.

(** [q] has dropped [n] messages of [H], and at least the first [k] are sent. *)
Record sent_upto (q : PTCPQueue) H (n k : nat) : Prop := {
  su_rep : wqueue_rep q (um_words <$> drop n H);
  su_seq : read_seq_num_ q = Z.of_nat n;
  su_len : (n ≤ length H)%nat ∧ (k ≤ length H)%nat ∧ Z.of_nat (length H) < 2147483648;
  su_sent : zlen (unsent q) ≤ zlen (concat (um_words <$> drop k H))
}.

Lemma small_ack_dist q n a :
  read_seq_num_ q = Z.of_nat n → Z.of_nat n < 2147483648 → 0 ≤ a < 2147483648 → ack_dist q a = a - Z.of_nat n.
Proof. intros Hq Hn Ha. unfold ack_dist. rewrite Hq. apply i32_u32. lia. Qed.

Lemma take_ack q H n k a :
  sent_upto q H n k → 0 ≤ a ≤ Z.of_nat k →
  ∃ q' n', Ack (@ToLittleEndian cs) (@is_little_endian cs) q a = Ret q' ∧ n' = Nat.max n (Z.to_nat a) ∧
    sent_upto q' H n' k ∧ unsent q' = unsent q ∧ ack_seq_num_ q' = ack_seq_num_ q.
Proof.
  intros [Hrep Hseq Hlen Hsent] Ha. pose proof (small_ack_dist q n a Hseq ltac:(lia) ltac:(lia)) as Hd.
  set (msgs := um_words <$> drop n H) in *. assert (length msgs = length H - n)%nat as Hml.
  { unfold msgs. by rewrite length_fmap, length_drop. }
  destruct (Ack_acked (conf := cs) HCs q msgs a Hrep) as (q' & ms1 & ms2 & Hack & Hms & Hacked & Hcount & _).
  { split; [lia|]. split; [lia|]. intros Hpos. set (j := (Z.to_nat a - n)%nat).
    exists (take j msgs), (drop j msgs). rewrite take_drop. split; [done|]. split.
    { rewrite length_take. lia. }
    destruct Hrep as [Hl Hs]. pose proof (live_rep_zlen _ _ _ _ _ Hl) as Hz.
    assert (zlen (unsent q) = write_idx_ q - send_idx_ q) as Hu.
    { destruct Hl. unfold unsent. apply slice_zlen; lia. }
    rewrite <-(take_drop j msgs), concat_app, zlen_app in Hz.
    assert (drop j msgs = um_words <$> drop (Z.to_nat a) H) as Hdrop.
    { unfold msgs. rewrite <-fmap_drop, drop_drop. do 2 f_equal. lia. }
    pose proof (concat_words_mono H (Z.to_nat a) k ltac:(lia)). rewrite Hdrop in Hz. lia. }
  exists q', (Nat.max n (Z.to_nat a)). split; [done|]. split; [done|].
  destruct Hacked as (Hrep' & Hun & Hmy & Hseq'). split; [|done].
  assert (Nat.max n (Z.to_nat a) = n + length ms1)%nat as Hn' by lia.
  assert (length msgs = length ms1 + length ms2)%nat by (by rewrite Hms, length_app).
  constructor.
  - assert (um_words <$> drop (Nat.max n (Z.to_nat a)) H = ms2) as ->; [|done].
    rewrite Hn', <-drop_drop, fmap_drop. fold msgs. by rewrite Hms, drop_app_length.
  - rewrite Hseq', Hseq, Hn', u32_small; lia.
  - lia.
  - by rewrite Hun.
Qed.

Lemma take_acks acks : ∀ q H n k D,
  sent_upto q H n k → (n ≤ D)%nat → Forall (λ a, 0 ≤ a ≤ Z.of_nat k ∧ a ≤ Z.of_nat D) acks →
  ∃ q' n', Ack_all (conf := cs) q acks = Ret q' ∧ (n' ≤ D)%nat ∧ sent_upto q' H n' k ∧
    unsent q' = unsent q ∧ ack_seq_num_ q' = ack_seq_num_ q.
Proof.
  induction acks as [|a acks IH]; intros q H n k D Hs Hn Ha; [by exists q, n|].
  apply Forall_cons_1 in Ha as [Ha Hacks].
  destruct (take_ack q H n k a Hs) as (q1 & n1 & Hq1 & -> & Hs1 & Hu1 & Hm1); [lia|].
  destruct (IH q1 H _ k D Hs1) as (q' & n' & Hq' & Hn' & Hs' & Hu' & Hm'); [lia|done|].
  exists q', n'. simpl. rewrite Hq1, outcome_bind_Ret. split_and!; try done; congruence.
Qed.

Lemma dir_sent_upto c r head H P d' sent recvd fr g :
  dir c r head H P d' sent recvd fr g → 0 ≤ sockfd_ c → sent_upto (g_q g) H (g_n g) (g_sent (H := cr) g).
Proof.
  intros [_ Hrep Hseq _ _ _ Hn Hlen Hst _ Hopen Hstart _ _ _ _ _] Hop. destruct (Hopen Hop) as (_ & Hgo & Hrest).
  pose proof (prefix_length _ _ (st_user _ _ _ _ _ _ Hst)) as Hl.
  rewrite user_frames_app, length_app, length_fmap, length_drop in Hl.
  assert (g_sent (H := cr) g ≤ length H)%nat as Hk by (unfold g_sent; lia).
  constructor; [done|done|lia|].
  assert (concat (g_tail g) = concat (um_bytes <$> drop (g_sent (H := cr) g) H)) as Htail.
  { unfold stream_goes_on in Hgo. rewrite Hgo, <-fmap_drop, drop_drop. done. }
  pose proof (concat_bytes_zlen (drop (g_sent (H := cr) g) H)) as Hz. rewrite <-Htail in Hz.
  rewrite <-(st_tail _ _ _ _ _ _ Hst), Hrest, zlen_app, words_bytes_zlen in Hz.
  pose proof (zlen_nonneg (g_part g)). lia.
Qed.

(** The acks that come in on the socket of the sender. *)
Lemma dir_take_acks c r head H P d' sent recvd fr g acks :
  dir c r head H P d' sent recvd fr g → 0 ≤ sockfd_ c →
  Forall (λ a, 0 ≤ a ≤ Z.of_nat (g_sent (H := cr) g) ∧ a ≤ Z.of_nat (length P)) acks →
  ∃ q' n', Ack_all (conf := cs) (g_q g) acks = Ret q' ∧ (n' ≤ length P)%nat ∧
    wqueue_rep q' (um_words <$> drop n' H) ∧ read_seq_num_ q' = Z.of_nat n' ∧
    unsent q' = unsent (g_q g) ∧ ack_seq_num_ q' = ack_seq_num_ (g_q g).
Proof.
  intros Hd Hop Hacks.
  destruct (take_acks acks _ _ _ _ _ (dir_sent_upto _ _ _ _ _ _ _ _ _ _ Hd Hop) (dr_n _ _ _ _ _ _ _ _ _ _ Hd) Hacks)
    as (q' & n' & Hq' & Hn' & Hs' & Hu & Hm).
  exists q', n'. destruct Hs'. by split_and!.
Qed.

(** ** A new connection *)

(** Both ends are closed; the next messages go over new sockets. *)
Lemma dir_new_stream c r head H P d' sent recvd fr g f fr' :
  dir c r head H P d' sent recvd fr g → sockfd_ c < 0 → sockfd_ r < 0 →
  dir c r None H P d' [] [] fr'
    (mkGhost (g_q g) (g_n g) f (length P) [] [] [] [] [] (g_fs g) (g_t g)).
Proof.
  intros [] Hc Hr. constructor; simpl; try done; try lia; [apply stream_nil|].
  intros m Hm. by apply not_elem_of_nil in Hm.
Qed.

(** The stream that the first [ws] blocks of the queue start. *)
Lemma first_stream bs rest H :
  Forall (λ m, um_ok (cr := cr) m) H → words_bytes (conf := cs) (concat (um_words <$> H)) = bs ++ rest →
  ∃ FS tail part, stream (conf := cr) bs (um_bytes <$> H) FS tail part rest ∧
    stream_goes_on (conf := cr) (um_bytes <$> H) FS tail ∧ (∀ m, m ∈ FS ++ tail → m ∈ um_bytes <$> H).
Proof.
  intros HH Hbs. set (msgs := um_bytes <$> H).
  assert (Forall (λ m, is_hb (conf := cr) m = false) msgs) as Hmsgs.
  { apply Forall_fmap. revert HH. apply Forall_impl. intros m. apply (um_not_hb Hle). }
  assert (words_bytes (conf := cs) (concat (um_words <$> H)) = concat msgs) as Hcat.
  { unfold msgs. clear. induction H as [|m H IH]; [done|].
    rewrite !fmap_cons, !concat_cons, words_bytes_app, IH. done. }
  assert (stream (conf := cr) [] msgs [] msgs [] (bs ++ rest)) as Hs.
  { constructor; [done|by rewrite <-Hbs, Hcat|apply (stream_nil (conf := cr) [])| |].
    - apply Forall_fmap. revert HH. apply Forall_impl. intros m. apply (um_frame_ok Hle).
    - simpl. by rewrite user_frames_all. }
  destruct (stream_advance _ _ _ _ _ _ _ Hs) as (ms & tail & part & Hs' & Hcut & _).
  exists ms, tail, part. split; [done|]. split; [|by rewrite <-Hcut].
  apply (goes_on_advance msgs [] ms tail Hmsgs). unfold stream_goes_on. by rewrite <-Hcut.
Qed.

Lemma dir_open_sender {W} {os : Os W} {log : OsLog W} {laws : OsLaws W} c r head H P d' recvd fr g now (w : W) :
  dir c r head H P d' [] recvd fr g → g_start g = length P → g_FS g = [] → 0 ≤ g_sock g →
  os_sent (g_sock g) w = [] →
  ∃ c' w' q' FS tail part rest bs,
    Open (conf := cs) c (g_sock g) (Z.of_nat (length P)) now w = Ret (c', w') ∧
    only_sent (g_sock g) w w' bs ∧
    dir c' r head H P d' (os_sent (g_sock g) w') recvd fr
      (g_set_stream (g_set_queue g q' (length P)) FS tail part rest) ∧
    (∀ m, m ∈ FS ++ tail → m ∈ um_bytes <$> H) ∧
    (sockfd_ c' = g_sock g ∨ sockfd_ c' < 0) ∧
    (recvbuf_size_ c' = if recvbuf_size_ c =? 0 then @TcpRecvBufInitSize cs else recvbuf_size_ c) ∧
    (recvbuf_ c' = if recvbuf_size_ c =? 0 then repeat 0 (Z.to_nat (@TcpRecvBufInitSize cs)) else recvbuf_ c) ∧
    readidx_ c' = 0 ∧ nextmsg_idx_ c' = 0 ∧ writeidx_ c' = 0.
Proof.
  intros Hd Hstart HFS Hf Hsent0. pose proof Hd as [Hq Hrep Hseq Hack Hhb Hmsgs Hn Hlen _ _ _ _ Hpop Hbuf Hpend Hhead Hread].
  assert (ack_dist (g_q g) (Z.of_nat (length P)) = Z.of_nat (length P - g_n g)) as Hdist.
  { rewrite (small_ack_dist _ (g_n g)) by (done || lia). lia. }
  set (ms1 := um_words <$> take (length P - g_n g) (drop (g_n g) H)). set (ms2 := um_words <$> drop (length P) H).
  assert (um_words <$> drop (g_n g) H = ms1 ++ ms2) as Hms.
  { unfold ms1, ms2. rewrite <-fmap_app, <-take_drop_split by lia. done. }
  rewrite Hms in Hrep. destruct Hrep as [Hl _].
  destruct (Open_ok (conf := cs) HCs c (g_sock g) (Z.of_nat (length P)) now w (g_q g) ms1 ms2 Hq Hl)
    as (c' & w' & _ & q' & Hopen & _ & Hq' & Hrep' & Hseq' & Hack' & Hsk & _ & Hhb' & Hr0 & Hn0 & Hw0 & Hsz & Hbf);
    [lia|done|..].
  { unfold ms1. rewrite length_fmap, length_take, length_drop. lia. }
  assert (Forall (um_ok (cr := cr)) (drop (length P) H)) as Hok.
  { apply Forall_drop. revert Hmsgs. apply Forall_impl. by intros m [? _]. }
  assert (∃ bs rest, words_bytes (conf := cs) (concat ms2) = bs ++ rest ∧ only_sent (g_sock g) w w' bs ∧
    (0 ≤ sockfd_ c' → sockfd_ c' = g_sock g ∧ rest = words_bytes (conf := cs) (unsent q')) ∧
    (sockfd_ c' = g_sock g ∨ sockfd_ c' < 0)) as (bs & rest & Hbs & Ho & Hrest & Hsk').
  { destruct Hsk as [(-> & ws & Hws & Ho)|(-> & bs & rest & Hbs & Ho)].
    - exists (words_bytes (conf := cs) ws), (words_bytes (conf := cs) (unsent q')).
      rewrite Hws, words_bytes_app. split_and!; try done. by left.
    - exists bs, rest. split_and!; try done. right. lia. }
  destruct (first_stream bs rest _ Hok Hbs) as (FS & tail & part & Hs & Hgo & Hin).
  assert (os_sent (g_sock g) w' = bs) as Hsent by (rewrite (proj1 Ho), Hsent0; done).
  exists c', w', q', FS, tail, part, rest, bs. split; [done|]. split; [done|]. split.
  - constructor; simpl; rewrite ?Hsent, ?Hstart; try done; try congruence; try lia.
    + unfold hb_ok. by rewrite Hhb'.
    + intros m Hm. apply Hin in Hm. apply list_elem_of_fmap in Hm as (u & -> & Hu).
      apply list_elem_of_lookup in Hu as [i Hu]. rewrite lookup_drop in Hu.
      destruct (proj1 (Forall_lookup _ _) Hmsgs _ _ Hu) as [Huok Hua].
      change (0 ≤ mh_ack_seq (wire_hdr (conf := cr) (um_bytes u)) ≤ Z.of_nat d').
      rewrite (um_wire_hdr Hle) by done. destruct Huok. simpl. lia.
    + intros Hop. destruct (Hrest Hop) as [Hf' Hr']. by split_and!.
    + intros Hop. destruct (Hread Hop) as (? & ? & ? & ? & ? & Hpre). rewrite Hstart in *. split_and!; try done.
      destruct Hpre as [k Hk]. symmetry in Hk. apply app_nil in Hk as [-> _]. by exists bs.
  - split; [|by split_and!]. intros m Hm. apply Hin in Hm. apply list_elem_of_fmap in Hm as (u & -> & Hu).
    apply list_elem_of_fmap. exists u. split; [done|]. apply list_elem_of_lookup in Hu as [i Hu].
    rewrite lookup_drop in Hu. by eapply list_elem_of_lookup_2.
Qed.

Lemma dir_open_reader c r r' head H P d' sent recvd fr g :
  dir c r head H P d' sent recvd fr g → g_start g = length P → recv_rep (conf := cr) r' [] [] →
  sockfd_ r' = fr ∨ sockfd_ r' < 0 → dir c r' None H P d' sent [] fr (g_set_read g [] [] []).
Proof.
  intros [] Hstart Hr Hsk. constructor; simpl; try done; [by left|apply prefix_nil|].
  intros Hop. destruct Hsk as [->|?]; [|lia]. split_and!; try done; [|apply prefix_nil].
  by rewrite Hstart, Nat.sub_diag.
Qed.

Lemma dir_restart_reader c r r' head H P d' sent recvd fr g :
  dir c r head H P d' sent recvd fr g → unopened r' →
  dir c r' None H P d' sent recvd fr (g_set_read g (g_RS g) [] []).
Proof.
  intros [] Hu. constructor; simpl; try done; [by right|apply prefix_nil|].
  destruct Hu as (_ & _ & _ & _ & _ & ?). lia.
Qed.
End acks.

(** The receive buffer after [Open]. *)
Lemma opened_rep {conf : Conf} (HC : Conf_ok) c c' fs t :
  recv_rep c fs t ∨ unopened c ∧ fs = [] →
  (recvbuf_size_ c' = if recvbuf_size_ c =? 0 then TcpRecvBufInitSize else recvbuf_size_ c) →
  (recvbuf_ c' = if recvbuf_size_ c =? 0 then repeat 0 (Z.to_nat TcpRecvBufInitSize) else recvbuf_ c) →
  readidx_ c' = 0 → nextmsg_idx_ c' = 0 → writeidx_ c' = 0 → recv_rep c' [] [].
Proof.
  intros Hc Hsz Hb Hr Hn Hw. pose proof (conf_init HC). pose proof (conf_max HC).
  assert (zlen (recvbuf_ c') = recvbuf_size_ c' ∧ 0 < recvbuf_size_ c' ≤ TcpRecvBufMaxSize) as [Hl Hs].
  { rewrite Hsz, Hb. destruct Hc as [[[Hlen Hsize _] _ _ _ _]|[(_ & -> & _) _]].
    - rewrite (proj2 (Z.eqb_neq _ _)) by lia. done.
    - simpl. rewrite zlen_repeat. lia. }
  constructor; rewrite ?Hr, ?Hn, ?Hw, ?slice_nil by lia; [constructor; lia|done|done|constructor|].
  apply (stream_nil []).
Qed.
