(* ===== verification/LinkStep.v ===== *)
(** * Every step keeps the invariant

    [link_inv]: both directions of a [link] satisfy [dir], over the two
    sockets of one connection; the acks in either stream are of messages that
    the other has sent whole; while an end is inside [Connect] nothing has
    come from it. *)

From S2P Require Import Prelude.
From S2P Require Import Arrays.
From S2P Require Import MsgHeader.
From S2P Require Import PtcpQueue.
From S2P Require Import PtcpQueueInv.
From S2P Require Import PtcpQueueSpec.
From S2P Require Import Platform.
From S2P Require Import PtcpConn.
From S2P Require Import Framing.
From S2P Require Import PtcpConnRecv.
From S2P Require Import PtcpConnSend.
From S2P Require Import Wire.
From S2P Require Import Link.
From S2P Require Import LinkInv.
From S2P Require Import LinkOpen.

(** ** The logs of a socket, empty before the first connection *)

Definition sent_on {W} {log : OsLog W} (f : Z) (w : W) : list Z := if f <? 0 then [] else os_sent f w.
Definition recv_on {W} {log : OsLog W} (f : Z) (w : W) : list Z := if f <? 0 then [] else os_received f w.

(** ** What an operation that sends does *)

Section emits.
Context {conf : Conf} {W : Type} {os : Os W} {log : OsLog W} {laws : OsLaws W}.
Context (HC : Conf_ok).
Abbreviation queue_rep := (queue_rep TcpQueueSize ToLittleEndian is_little_endian).

Record emits (c c' : PTCPConnection) (q q' : PTCPQueue) (msgs : list (list MsgHeader)) (f : Z) (w w' : W)
    : Prop := {
  es_emitted : emitted (cs := conf) c c' q q' (sent_on f w) (sent_on f w');
  es_q : q_ c' = Some q';
  es_rep : queue_rep q' msgs;
  es_seq : read_seq_num_ q' = read_seq_num_ q;
  es_ack : ack_seq_num_ q' = ack_seq_num_ q;
  es_hb : hb_ok c → hb_ok c';
  es_recv : same_recv c c';
  es_sock : sockfd_ c' = sockfd_ c ∨ sockfd_ c' < 0;
  es_others f' : 0 ≤ f' → f' ≠ f → os_sent f' w' = os_sent f' w;
  es_received f' : os_received f' w' = os_received f' w
}.

(** The socket of the connection is [f], unless it is closed. *)
Lemma only_sent_on c f w w' bs :
  (0 ≤ sockfd_ c → sockfd_ c = f) → only_sent (sockfd_ c) w w' bs →
  (0 ≤ sockfd_ c → sent_on f w' = sent_on f w ++ bs) ∧ (sockfd_ c < 0 → sent_on f w' = sent_on f w) ∧
  (∀ f', 0 ≤ f' → f' ≠ f → os_sent f' w' = os_sent f' w) ∧ (∀ f', os_received f' w' = os_received f' w).
Proof.
  intros Hf (Hs & Hr & Ho). unfold sent_on. split_and!; try done.
  - intros Hop. rewrite <-(Hf Hop). rewrite (proj2 (Z.ltb_ge _ _)) by done. done.
  - intros Hcl. destruct (Z.ltb_spec f 0); [done|]. apply Ho. lia.
  - intros f' Hf' Hne. apply Ho. destruct (Z.leb_spec 0 (sockfd_ c)) as [Hop|]; [by rewrite Hf|lia].
Qed.

Lemma emits_nothing c c' q q' msgs f w w' :
  q_ c' = Some q' → queue_rep q' msgs → unsent q' = unsent q →
  read_seq_num_ q' = read_seq_num_ q → ack_seq_num_ q' = ack_seq_num_ q →
  same_recv c c' → sockfd_ c' = sockfd_ c ∨ sockfd_ c' < 0 → (hb_ok c → hb_ok c') →
  (∀ f', os_sent f' w' = os_sent f' w) → (∀ f', os_received f' w' = os_received f' w) →
  emits c c' q q' msgs f w w'.
Proof.
  intros Hq Hrep Hu Hs Ha Hr Hsk Hhb Hsent Hrecv. constructor; try done.
  assert (sent_on f w' = sent_on f w) as -> by (unfold sent_on; by rewrite Hsent). by apply em_none.
Qed.

Lemma Close_sockfd c r e : sockfd_ (Close c r e) < 0.
Proof. pose proof (IsClosed_Close c r e) as Hc. by apply Z.ltb_lt in Hc. Qed.

Lemma Close_recv c r e : same_recv c (Close c r e).
Proof. unfold Close. destruct (_ <? _); by repeat split. Qed.

Lemma Close_hb c r e : hb_ok c → hb_ok (Close c r e).
Proof. unfold Close. by destruct (_ <? _). Qed.

Lemma sent_blocks_emits c c' q q' msgs f w w' ws :
  (0 ≤ sockfd_ c → sockfd_ c = f) → 0 ≤ sockfd_ c → same_recv c c' →
  sent_blocks c c' w w' q q' msgs ws → emits c c' q q' msgs f w w'.
Proof.
  intros Hf Hop Hr [Hq Hrep Hu Hlog Hseq Hack Hsk _ Hhb].
  destruct (only_sent_on c f w w' _ Hf Hlog) as (Hs & _ & Ho & Hrv). constructor; try done.
  - rewrite (Hs Hop). by apply em_words.
  - unfold hb_ok. by rewrite Hhb.
  - by left.
Qed.

Lemma broken_emits c c' q msgs f w w' bs rest :
  (0 ≤ sockfd_ c → sockfd_ c = f) → 0 ≤ sockfd_ c → same_recv c c' → (hb_ok c → hb_ok c') →
  q_ c' = Some q → queue_rep q msgs → sockfd_ c' < 0 → only_sent (sockfd_ c) w w' bs →
  (if decide (unsent q = []) then hb_frame (ack_seq_num_ q) else words_bytes (unsent q)) = bs ++ rest →
  emits c c' q q msgs f w w'.
Proof.
  intros Hf Hop Hr Hhb Hq Hrep Hcl Hlog Hbs.
  destruct (only_sent_on c f w w' _ Hf Hlog) as (Hs & _ & Ho & Hrv). constructor; try done.
  - rewrite (Hs Hop). by eapply em_broken.
  - by right.
Qed.

Lemma SendPending_emits c q msgs w f r c' w' :
  q_ c = Some q → queue_rep q msgs → (0 ≤ sockfd_ c → sockfd_ c = f) →
  SendPending c w = Ret (r, c', w') → ∃ q', emits c c' q q' msgs f w w'.
Proof.
  intros Hq Hrep Hf Hsp. destruct (SendPending_ok HC c q msgs w Hq Hrep) as (r1 & c1 & w1 & Hsp1 & Hr & Hcase).
  rewrite Hsp in Hsp1. injection Hsp1 as <- <- <-.
  destruct Hcase as [(_ & _ & -> & ->)|[(_ & _ & _ & -> & ->)|[(Hop & _ & _ & q' & ws & Hsb)|
    (Hop & Hne & _ & e & bs & rest & -> & Ho & Hbs)]]].
  - exists q. by apply emits_nothing; try done; left.
  - exists q. by apply emits_nothing; try done; left.
  - exists q'. apply Z.ltb_ge in Hop. by eapply sent_blocks_emits.
  - exists q. apply Z.ltb_ge in Hop. eapply broken_emits; try done.
    + by apply Close_hb.
    + by rewrite Close_q.
    + apply Close_sockfd.
    + by rewrite decide_False.
Qed.

Lemma SendHB_emits c q msgs now w f c' w' :
  q_ c = Some q → queue_rep q msgs → hb_ok c → (0 ≤ sockfd_ c → sockfd_ c = f) →
  SendHB c now w = Ret (c', w') → ∃ q', emits c c' q q' msgs f w w'.
Proof.
  intros Hq Hrep Hhb Hf Hsp.
  destruct (SendHB_ok HC c now w q msgs Hq Hrep Hhb) as (c1 & w1 & Hsp1 & Hr & _ & Hhb' & Hres).
  rewrite Hsp in Hsp1. injection Hsp1 as <- <-.
  destruct (Z.leb_spec 0 (sockfd_ c)) as [Hop|Hcl].
  - destruct Hres as [Ho Hq' Hsk|q' ws Hne Hsb|Hu Ho Hq' Hsk|bs rest Hbs Ho Hq' Hcl].
    + destruct (only_sent_on c f w w' _ Hf Ho) as (Hs & _ & Hot & Hrv). exists q. constructor; try done; [|by left].
      rewrite (Hs Hop), app_nil_r. apply em_none; [done|by left].
    + exists q'. by eapply sent_blocks_emits.
    + destruct (only_sent_on c f w w' _ Hf Ho) as (Hs & _ & Hot & Hrv). exists q. constructor; try done; [|by left].
      rewrite (Hs Hop). by apply em_hb.
    + exists q. apply Z.ltb_lt in Hcl. by eapply broken_emits.
  - assert (∃ q' bs, only_sent (sockfd_ c) w w' bs ∧ q_ c' = Some q' ∧ queue_rep q' msgs ∧
      read_seq_num_ q' = read_seq_num_ q ∧ ack_seq_num_ q' = ack_seq_num_ q ∧ sockfd_ c' < 0)
      as (q' & bs & Ho & Hq' & Hrep' & Hseq & Hack & Hcl').
    { destruct Hres as [Ho Hq' Hsk|q' ws Hne Hsb|Hu Ho Hq' Hsk|bs rest Hbs Ho Hq' Hcl'].
      - exists q, []. split_and!; try done. lia.
      - destruct Hsb as [? ? _ ? ? ? Hsk _ _]. exists q', (words_bytes ws). split_and!; try done. lia.
      - eexists q, _. split_and!; try done. lia.
      - exists q, bs. split_and!; try done. by apply Z.ltb_lt. }
    destruct (only_sent_on c f w w' _ Hf Ho) as (_ & Hs & Hot & Hrv). exists q'. constructor; try done; [|by right].
    rewrite (Hs Hcl). apply em_none; [lia|by right].
Qed.
End emits.

(** ** The two sides *)

Lemma both_sides (y : bool) (P : bool → Prop) : P y → P (negb y) → ∀ x, P x.
Proof. intros ?? x. by destruct x, y. Qed.

Lemma upd_same {A} (f : bool → A) y v : (<[y := v]> f) y = v.
Proof. apply fn_lookup_insert. Qed.
Lemma upd_other {A} (f : bool → A) y v : (<[y := v]> f) (negb y) = f (negb y).
Proof. apply fn_lookup_insert_ne. by destruct y. Qed.

Ltac side :=
  cbn [set_conn set_head set_login add_pushed add_popped l_conn l_head l_login l_pushed l_popped];
  rewrite ?negb_involutive, ?upd_same, ?upd_other.
Ltac gsimpl :=
  cbn [g_set_queue g_set_stream g_set_read g_q g_n g_sock g_start g_FS g_tail g_part g_rest g_RS g_fs g_t].

(** ** The invariant *)

Section inv.
Context (conf : bool → Conf) {W : Type} {os : Os W} {log : OsLog W} {laws : OsLaws W}.
Context (peer : Z → Z) {tcp : TcpLaws W os log peer}.
Context (HC : ∀ b, @Conf_ok (conf b)) (Hle : ∀ b, @ToLittleEndian (conf b) = @ToLittleEndian (conf (negb b))).
Implicit Types (l : link) (w : W) (g : bool → ghost).

Abbreviation frame_ack b m := (mh_ack_seq (wire_hdr (conf := conf b) m)).
Definition sent_by g (x : bool) : nat := g_sent (H := conf (negb x)) (g x).

Definition dir_at l w g (x : bool) : Prop :=
  dir (cs := conf x) (cr := conf (negb x)) (l_conn l x) (l_conn l (negb x)) (l_head l (negb x))
    (l_pushed l x) (l_popped l (negb x)) (length (l_popped l x))
    (sent_on (g_sock (g x)) w) (recv_on (g_sock (g (negb x))) w) (g_sock (g (negb x))) (g x).

Definition socks_at g x : Prop :=
  g_sock (g x) < 0 ∧ g_sock (g (negb x)) < 0 ∨
  0 ≤ g_sock (g x) ∧ 0 ≤ g_sock (g (negb x)) ∧
  peer (g_sock (g x)) = g_sock (g (negb x)) ∧ g_sock (g (negb x)) ≠ g_sock (g x).

Definition acks_at l g x : Prop :=
  0 ≤ sockfd_ (l_conn l (negb x)) → ∀ m, m ∈ g_FS (g x) ++ g_tail (g x) →
  frame_ack (negb x) m ≤ Z.of_nat (sent_by g (negb x)).

(** The end [b] waits in [Connect] for the reply on the socket [f]. *)
Record login_at l w g (b : bool) (f a : Z) : Prop := {
  lg_sock : f = g_sock (g b);
  lg_f : 0 ≤ f;
  lg_closed : sockfd_ (l_conn l b) < 0;
  lg_sent : os_sent f w = [];
  lg_received : os_received f w = [];
  lg_ack : a = Z.of_nat (length (l_popped l (negb b)));
  lg_start : g_start (g b) = length (l_popped l (negb b));
  lg_FS : g_FS (g b) = [];
  lg_start' : g_start (g (negb b)) = length (l_popped l b);
  lg_fs : g_fs (g b) = []
}.

Record link_inv l w g : Prop := {
  li_dir x : dir_at l w g x;
  li_socks x : socks_at g x;
  li_acks x : acks_at l g x;
  li_login : match l_login l with Some (b, f, a) => login_at l w g b f a | None => True end
}.

Lemma recv_on_same f w w' : (0 ≤ f → os_received f w' = os_received f w) → recv_on f w' = recv_on f w.
Proof. intros Hf. unfold recv_on. destruct (Z.ltb_spec f 0); [done|by apply Hf]. Qed.
Lemma sent_on_same f w w' : (0 ≤ f → os_sent f w' = os_sent f w) → sent_on f w' = sent_on f w.
Proof. intros Hf. unfold sent_on. destruct (Z.ltb_spec f 0); [done|by apply Hf]. Qed.

Lemma socks_ne g x : socks_at g x → 0 ≤ g_sock (g (negb x)) → g_sock (g (negb x)) ≠ g_sock (g x).
Proof. intros [[_ ?]|(_ & _ & _ & ?)] ?; [lia|done]. Qed.

Lemma socks_sym g x : socks_at g x → socks_at g (negb x).
Proof.
  intros [[? ?]|(? & ? & Hp & ?)]; unfold socks_at; rewrite negb_involutive; [by left|right].
  split_and!; try done. rewrite <-Hp. apply tcp_peer.
Qed.

Lemma conn_socket l w g y : link_inv l w g → 0 ≤ sockfd_ (l_conn l y) → sockfd_ (l_conn l y) = g_sock (g y).
Proof. intros Hi Hop. by apply (dr_open _ _ _ _ _ _ _ _ _ _ (li_dir _ _ _ Hi y)). Qed.

(** The socket of a direction and its ghost change. *)
Lemma socks_upd g y (g1 : ghost) : (∀ x, socks_at g x) → g_sock g1 = g_sock (g y) → ∀ x, socks_at (<[y := g1]> g) x.
Proof.
  intros Hs H1. apply (both_sides y); unfold socks_at; side; rewrite H1; [apply (Hs y)|].
  pose proof (Hs (negb y)) as H'. unfold socks_at in H'. by rewrite negb_involutive in H'.
Qed.

(** ** The end [y] sends, or nothing happens *)

Lemma emitted_closed {cs : Conf} c c' q q' sent sent' :
  emitted (cs := cs) c c' q q' sent sent' → sockfd_ c < 0 → sent' = sent ∧ sockfd_ c' < 0.
Proof. intros [] ?; split; lia || done. Qed.

(** The two directions, seen from the end [y]. *)
Lemma inv_dir l w g y : link_inv l w g → dir_at l w g y.
Proof. intros Hi. apply Hi. Qed.
Lemma inv_dir_back l w g y :
  link_inv l w g →
  dir (cs := conf (negb y)) (cr := conf y) (l_conn l (negb y)) (l_conn l y) (l_head l y)
    (l_pushed l (negb y)) (l_popped l y) (length (l_popped l (negb y)))
    (sent_on (g_sock (g (negb y))) w) (recv_on (g_sock (g y)) w) (g_sock (g y)) (g (negb y)).
Proof. intros Hi. pose proof (li_dir _ _ _ Hi (negb y)) as Hd. unfold dir_at in Hd. by rewrite negb_involutive in Hd. Qed.

Lemma inv_acks l w g y m :
  link_inv l w g → 0 ≤ sockfd_ (l_conn l (negb y)) → m ∈ g_FS (g y) ++ g_tail (g y) →
  frame_ack (negb y) m ≤ Z.of_nat (g_sent (H := conf y) (g (negb y))).
Proof.
  intros Hi Hop Hm. pose proof (li_acks _ _ _ Hi y Hop m Hm) as Ha. unfold sent_by in Ha.
  by rewrite negb_involutive in Ha.
Qed.
Lemma inv_acks_back l w g y m :
  link_inv l w g → 0 ≤ sockfd_ (l_conn l y) → m ∈ g_FS (g (negb y)) ++ g_tail (g (negb y)) →
  frame_ack y m ≤ Z.of_nat (g_sent (H := conf (negb y)) (g y)).
Proof.
  intros Hi Hop Hm. pose proof (li_acks _ _ _ Hi (negb y)) as Ha. unfold acks_at, sent_by in Ha.
  rewrite negb_involutive in Ha. by apply Ha.
Qed.

(** What [y] has popped, [negb y] has sent. *)
Lemma inv_popped_sent l w g y :
  link_inv l w g → 0 ≤ sockfd_ (l_conn l y) → (length (l_popped l y) ≤ g_sent (H := conf y) (g (negb y)))%nat.
Proof. intros Hi Hop. by eapply dir_received; [apply inv_dir_back|]. Qed.

(** The part of the sender changes at the end [y]. *)
Lemma inv_sender l l' w w' g y c' (g1 : ghost) ms :
  link_inv l w g →
  l_conn l' = <[y := c']> (l_conn l) → l_head l' = l_head l → l_login l' = l_login l → l_popped l' = l_popped l →
  l_pushed l' (negb y) = l_pushed l (negb y) →
  dir (cs := conf y) (cr := conf (negb y)) c' (l_conn l (negb y)) (l_head l (negb y)) (l_pushed l' y)
    (l_popped l (negb y)) (length (l_popped l y)) (sent_on (g_sock (g y)) w')
    (recv_on (g_sock (g (negb y))) w) (g_sock (g (negb y))) g1 →
  g_sock g1 = g_sock (g y) → g_start g1 = g_start (g y) → g_fs g1 = g_fs (g y) → g_FS g1 = g_FS (g y) ++ ms →
  (∀ m, m ∈ g_FS g1 ++ g_tail g1 → m ∈ g_FS (g y) ++ g_tail (g y) ∨
     0 ≤ sockfd_ (l_conn l y) ∧ frame_ack (negb y) m = Z.of_nat (length (l_popped l y))) →
  (sockfd_ (l_conn l y) < 0 → ms = [] ∧ sockfd_ c' < 0 ∧ sent_on (g_sock (g y)) w' = sent_on (g_sock (g y)) w) →
  same_recv (l_conn l y) c' → sockfd_ c' = sockfd_ (l_conn l y) ∨ sockfd_ c' < 0 →
  (∀ f', 0 ≤ f' → f' ≠ g_sock (g y) → os_sent f' w' = os_sent f' w) →
  (∀ f', os_received f' w' = os_received f' w) →
  link_inv l' w' (<[y := g1]> g).
Proof.
  intros Hi Ec Eh El Ep Epu Hd' Esock Estart Efs EFS Hm Hclosed Hr Hsk Ho Hrv.
  assert (∀ f, recv_on f w' = recv_on f w) as Hrecv by (intros f; apply recv_on_same; done).
  assert (sent_on (g_sock (g (negb y))) w' = sent_on (g_sock (g (negb y))) w) as Hsent'.
  { apply sent_on_same. intros Hf. apply Ho; [done|]. apply socks_ne; [apply Hi|done]. }
  constructor.
  - apply (both_sides y); unfold dir_at; rewrite Ec, Eh, Ep; side; rewrite Hrecv, ?Esock; [done|].
    rewrite Hsent', Epu. eapply dir_reader_same; [by apply inv_dir_back|done|done|by left].
  - apply socks_upd; [apply Hi|done].
  - apply (both_sides y); unfold acks_at, sent_by; rewrite Ec; side.
    + intros Hop m Hin. destruct (Hm m Hin) as [Hin'|[Hop' ->]]; [by eapply inv_acks|].
      pose proof (inv_popped_sent _ _ _ _ Hi Hop'). lia.
    + intros Hop m Hin. destruct Hsk as [Hsk|?]; [|lia]. rewrite Hsk in Hop.
      pose proof (inv_acks_back _ _ _ _ _ Hi Hop Hin) as Ha. unfold g_sent in *.
      rewrite Estart, EFS, user_frames_app, length_app. lia.
  - rewrite El. pose proof (li_login _ _ _ Hi) as Hl. destruct (l_login l) as [[[b f] a]|]; [|done].
    destruct Hl as [-> Hf Hcl Hse Hre -> Hst HFS Hst' Hfs].
    assert (b = y ∨ b = negb y) as [->| ->] by (destruct b, y; auto).
    + destruct (Hclosed Hcl) as (-> & Hcl' & Hsame). unfold sent_on in Hsame.
      rewrite (proj2 (Z.ltb_ge _ _)) in Hsame by done.
      constructor; rewrite ?Ec, ?Ep; side; rewrite ?Hrv; try done; try congruence. by rewrite EFS, HFS.
    + rewrite negb_involutive in *. constructor; rewrite ?Ec, ?Ep; side; rewrite ?Hrv; try done; try congruence.
      rewrite Ho; [done..|]. apply socks_ne; [apply Hi|done].
Qed.

Lemma inv_emit l w g y c' w' q' :
  link_inv l w g →
  emits (conf := conf y) (l_conn l y) c' (g_q (g y)) q' (um_words (cs := conf y) <$> drop (g_n (g y)) (l_pushed l y))
    (g_sock (g y)) w w' →
  ∃ g', link_inv (set_conn l y c') w' g'.
Proof.
  intros Hi [He Hq Hrep Hseq Hack Hhb Hr Hsk Ho Hrv]. pose proof (inv_dir _ _ _ y Hi) as Hd.
  destruct (dir_emit (HC (negb y)) (Hle y) _ c' _ _ _ _ _ _ _ _ _ _ _ Hd He Hq Hrep Hseq Hack)
    as (ms & tail' & part' & rest' & Hd' & Hm & Hms); [by apply Hhb, Hd|].
  eexists. eapply (inv_sender l _ w w' g y c' _ ms Hi); try exact Hd'; try exact Hm; try done.
  intros Hcl. destruct (emitted_closed _ _ _ _ _ _ He Hcl) as [-> Hcl']. by split_and!; [apply Hms|..].
Qed.

(** ** The user of [y] pushes *)

Lemma user_push_ok {cs : Conf} (HCs : Conf_ok) c q msgs t size body :
  q_ c = Some q → queue_rep TcpQueueSize ToLittleEndian is_little_endian q msgs →
  0 ≤ size ≤ 65527 → 0 ≤ t < 65536 → zlen body = blocks (size + 8) - 1 →
  ∃ r q', user_push c t size body = Ret (r, set_q c (Some q')) ∧
    read_seq_num_ q' = read_seq_num_ q ∧ ack_seq_num_ q' = ack_seq_num_ q ∧
    if r then let m := wire_msg ToLittleEndian is_little_endian (ack_seq_num_ q) t size body in
              queue_rep TcpQueueSize ToLittleEndian is_little_endian q' (msgs ++ [m]) ∧ unsent q' = unsent q ++ m
    else queue_rep TcpQueueSize ToLittleEndian is_little_endian q' msgs ∧ unsent q' = unsent q.
Proof.
  intros Hq Hrep Hsize Ht Hb. unfold user_push, Conn_Alloc. rewrite Hq.
  destruct (Alloc_correct _ _ _ (conf_queue HCs) q msgs size Hrep Hsize) as [Hfit Hfull].
  assert (fits TcpQueueSize q size ∨ ¬ fits TcpQueueSize q size) as [Hf|Hf] by (unfold fits; lia).
  - destruct (Hfit Hf) as (i & q1 & -> & Hok). rewrite !outcome_bind_Ret. simpl.
    destruct (fill_Push_correct _ _ _ (conf_queue HCs) q msgs size i q1 t body Hok Hsize Ht Hb)
      as (blk & q2 & -> & HP & Hrep2 & Hun & _ & Hseq & Hack).
    rewrite outcome_bind_Ret. unfold PushMore. simpl. rewrite HP, !outcome_bind_Ret.
    exists true, q2. by split_and!.
  - rewrite (Hfull Hf), !outcome_bind_Ret. simpl. exists false, q. by split_and!.
Qed.

Lemma inv_push l w g y t size body r c' :
  link_inv l w g → push_ok conf l y t size body →
  user_push (conf := conf y) (l_conn l y) t size body = Ret (r, c') →
  ∃ g', link_inv (if r then add_pushed (set_conn l y c') y (mkMsg (conn_ack (l_conn l y)) t size body)
                  else set_conn l y c') w g'.
Proof.
  intros Hi (Ht & Hsize & Hb & Hfits & Hlen) Hp. pose proof (inv_dir _ _ _ y Hi) as Hd.
  destruct (user_push_ok (HC y) _ _ _ t size body (dr_q _ _ _ _ _ _ _ _ _ _ Hd) (dr_rep _ _ _ _ _ _ _ _ _ _ Hd))
    as (r1 & q' & Hp1 & Hseq & Hack & Hcase); [done|lia|done|].
  rewrite Hp in Hp1. injection Hp1 as <- ->. pose proof (dr_ack _ _ _ _ _ _ _ _ _ _ Hd) as Hda.
  pose proof (dr_len _ _ _ _ _ _ _ _ _ _ Hd) as Hdl.
  destruct r.
  - destruct Hcase as [Hrep' Hun].
    assert (conn_ack (l_conn l y) = ack_seq_num_ (g_q (g y))) as ->
      by (unfold conn_ack; by rewrite (dr_q _ _ _ _ _ _ _ _ _ _ Hd)).
    set (m := mkMsg (ack_seq_num_ (g_q (g y))) t size body).
    assert (um_ok (cr := conf (negb y)) m) as Hm by (constructor; simpl; lia || done).
    destruct (dir_push (Hle y) _ (set_q (l_conn l y) (Some q')) _ _ _ _ _ _ _ _ _ q' m Hd Hm) as (tail' & rest' & Hd' & Hx);
      try done; [by apply Hd|].
    eexists. eapply (inv_sender l _ w w g y _ _ [] Hi); side; try exact Hd'; try exact Hx; try done.
    + simpl. by rewrite app_nil_r.
    + by left.
  - destruct Hcase as [Hrep' Hun]. eapply inv_emit; [done|]. apply emits_nothing with (q' := q'); try done. by left.
Qed.
End inv.
