(* ===== verification/LinkRun.v ===== *)
(** * Runs of two hosts

    The steps that read, open and restart a connection keep [link_inv], and
    so do all the steps of [link_step]: it holds in every reachable state
    ([link_reachable_inv]). *)

From S2P Require Import Prelude.
From S2P Require Import Arrays.
From S2P Require Import MsgHeader.
From S2P Require Import PtcpQueue.
From S2P Require Import PtcpQueueInv.
From S2P Require Import PtcpQueueSpec.
From S2P Require Import Platform.
From S2P Require Import PtcpConn.
From S2P Require Import Framing.
From S2P Require Import PtcpConnRecv.
From S2P Require Import PtcpConnSend.
From S2P Require Import Wire.
From S2P Require Import Link.
From S2P Require Import LinkInv.
From S2P Require Import LinkOpen.
From S2P Require Import LinkStep.

(** ** Reading *)

(** The acks that [Front] finds are those of frames of the stream. *)
Lemma dir_acks_of {cs cr : Conf} c r head H P d' sent recvd fr g ms data t' a :
  dir (cs := cs) (cr := cr) c r head H P d' sent recvd fr g → 0 ≤ sockfd_ r → (recvd ++ data) `prefix_of` sent →
  g_t g ++ data = concat ms ++ t' → Forall (frame_ok (conf := cr)) ms → a ∈ acks_of (conf := cr) ms t' →
  ∃ m, m ∈ g_FS g ++ g_tail g ∧ a = mh_ack_seq (wire_hdr (conf := cr) m).
Proof.
  intros [_ _ _ _ _ _ _ _ Hst _ _ _ _ _ _ _ Hread] Hop [k Hk] Hcut Hms Ha.
  destruct (Hread Hop) as (_ & _ & Hlog & HRS & _ & _). destruct Hst as [Hsent Htail _ Hok _].
  assert (concat (g_FS g ++ g_tail g) = concat (g_RS g ++ ms) ++ t' ++ k ++ g_rest g) as Hcat.
  { rewrite concat_app, <-Htail, app_assoc, <-Hsent, Hk, Hlog, concat_app, <-!app_assoc. f_equal.
    rewrite (app_assoc (g_t g)), Hcut. by rewrite <-!app_assoc. }
  destruct (frames_strip (g_RS g ++ ms) _ _ (proj2 (Forall_app _ _ _) (conj HRS Hms)) Hok Hcat) as (G & HG & Hrest).
  rewrite HG in Hok |- *. apply Forall_app in Hok as [_ HGok].
  destruct (acks_of_elem (conf := cr) ms G t' (k ++ g_rest g) a HGok Hrest) as (m & Hm & ->); [|done|].
  - intros ->. symmetry in Hrest. by apply app_nil in Hrest as [-> _].
  - exists m. split; [|done]. rewrite <-app_assoc. apply elem_of_app. by right.
Qed.

(** [Front] of a connection that was never opened. *)
Lemma Front_unopened {conf : Conf} {W} {os : Os W} c q w :
  unopened c → q_ c = Some q → Front c w = Ret (None, c, w).
Proof.
  intros (Hb & Hsz & Hr & Hn & Hw & _) Hq. unfold Front, UseShm. rewrite Hq. unfold loop_fuel.
  rewrite Hb. cbn [length Front_skip]. rewrite Hn, Hr, Z.eqb_refl, outcome_bind_Ret.
  assert (DoRecv c w = Ret (0, c, w)) as ->.
  { unfold DoRecv. cbv zeta. rewrite !Hr. change (0 <? 0) with false. cbn [andb]. rewrite Hsz, Hw, Hr. reflexivity. }
  rewrite outcome_bind_Ret. unfold Front_result. by rewrite Hr, Hn.
Qed.

Section run.
Context (conf : bool → Conf) {W : Type} {os : Os W} {log : OsLog W} {laws : OsLaws W}.
Context (peer : Z → Z) {tcp : TcpLaws W os log peer}.
Context (HC : ∀ b, @Conf_ok (conf b)) (Hle : ∀ b, @ToLittleEndian (conf b) = @ToLittleEndian (conf (negb b))).
Implicit Types (l : link) (w : W) (g : bool → ghost).
Abbreviation link_inv := (link_inv conf peer).
Abbreviation frame_ack b m := (mh_ack_seq (wire_hdr (conf := conf b) m)).

(** What a read on the socket of [y] returns was sent by the other end. *)
Lemma inv_readv l w g y lens data w' :
  link_inv l w g → 0 ≤ sockfd_ (l_conn l y) →
  os_readv (sockfd_ (l_conn l y)) lens w = (SysOk data, w') →
  (recv_on (g_sock (g y)) w ++ data) `prefix_of` sent_on (g_sock (g (negb y))) w.
Proof.
  intros Hi Hop Hr. pose proof (conn_socket _ _ _ _ _ _ Hi Hop) as Hsk. rewrite Hsk in Hr, Hop.
  apply tcp_readv in Hr. destruct (li_socks _ _ _ _ _ Hi y) as [[? _]|(_ & Hn & Hp & _)]; [lia|].
  unfold recv_on, sent_on. rewrite !(proj2 (Z.ltb_ge _ _)) by done. by rewrite <-Hp.
Qed.

Lemma inv_take_acks l w g y ms data t' :
  link_inv l w g → 0 ≤ sockfd_ (l_conn l y) →
  (recv_on (g_sock (g y)) w ++ data) `prefix_of` sent_on (g_sock (g (negb y))) w →
  g_t (g (negb y)) ++ data = concat ms ++ t' → Forall (frame_ok (conf := conf y)) ms →
  ∃ q' n', Ack_all (conf := conf y) (g_q (g y)) (acks_of (conf := conf y) ms t') = Ret q' ∧
    (n' ≤ length (l_popped l (negb y)))%nat ∧
    queue_rep (@TcpQueueSize (conf y)) (@ToLittleEndian (conf y)) (@is_little_endian (conf y)) q'
      (um_words (cs := conf y) <$> drop n' (l_pushed l y)) ∧
    read_seq_num_ q' = Z.of_nat n' ∧ unsent q' = unsent (g_q (g y)) ∧
    ack_seq_num_ q' = ack_seq_num_ (g_q (g y)).
Proof.
  intros Hi Hop Hpre Hcut Hms. pose proof (inv_dir_back _ _ _ _ _ y Hi) as Hdn.
  apply (dir_take_acks (HC y) _ _ _ _ _ _ _ _ _ _ _ (inv_dir _ _ _ _ _ y Hi) Hop).
  apply Forall_forall. intros a Ha%list_elem_of_In.
  destruct (dir_acks_of _ _ _ _ _ _ _ _ _ _ _ _ _ _ Hdn Hop Hpre Hcut Hms Ha) as (m & Hm & ->).
  pose proof (dr_acks _ _ _ _ _ _ _ _ _ _ Hdn m Hm). pose proof (inv_acks_back _ _ _ _ _ _ _ Hi Hop Hm). lia.
Qed.

Lemma inv_reads_frames l w g y :
  link_inv l w g → reads_frames (conf := conf y) (l_conn l y) (g_t (g (negb y))) (g_q (g y)) w.
Proof.
  intros Hi lens data w' Hr Hne. destruct (Z.leb_spec 0 (sockfd_ (l_conn l y))) as [Hop|Hcl].
  - pose proof (inv_readv _ _ _ _ _ _ _ Hi Hop Hr) as Hpre.
    destruct (dir_next _ _ _ _ _ _ _ _ _ _ data (inv_dir_back _ _ _ _ _ y Hi) Hop Hpre)
      as (ms & _ & t' & _ & Hcut & Hms & Hp & _).
    destruct (inv_take_acks _ _ _ _ _ _ _ Hi Hop Hpre Hcut Hms) as (q' & _ & Hq' & _). by exists ms, t', q'.
  - destruct (os_readv_closed _ lens w Hcl) as (e & He & _). by rewrite He in Hr.
Qed.

(** Nothing is changed but what [Front] returned. *)
Lemma inv_head_none l w g y : link_inv l w g → link_inv (set_head l y None) w g.
Proof.
  intros Hi. constructor; [|apply Hi|apply Hi|].
  - apply (both_sides y); unfold dir_at; side; [apply (inv_dir _ _ _ _ _ y Hi)|].
    eapply dir_reader_same; [by eapply inv_dir_back|done|by left|by right].
  - simpl. pose proof (li_login _ _ _ _ _ Hi) as Hl. destruct (l_login l) as [[[b f] a]|]; [|done].
    by destruct Hl.
Qed.

(** The end [y] has read: the other direction gets its frames, its own queue
    the acks. *)
Lemma inv_reader l l' w w' g y c' q' n' head' P' RS fs t :
  link_inv l w g →
  l_conn l' = <[y := c']> (l_conn l) → l_head l' = <[y := head']> (l_head l) → l_pushed l' = l_pushed l →
  (∀ x, l_popped l' x = (<[y := P']> (l_popped l)) x) → l_login l' = l_login l → connecting l y = false →
  sockfd_ c' = sockfd_ (l_conn l y) ∨ sockfd_ c' < 0 →
  (∀ f, os_sent f w' = os_sent f w) → (∀ f, 0 ≤ f → f ≠ g_sock (g y) → os_received f w' = os_received f w) →
  dir (cs := conf y) (cr := conf (negb y)) c' (l_conn l (negb y)) (l_head l (negb y)) (l_pushed l y)
    (l_popped l (negb y)) (length P') (sent_on (g_sock (g y)) w) (recv_on (g_sock (g (negb y))) w)
    (g_sock (g (negb y))) (g_set_queue (g y) q' n') →
  dir (cs := conf (negb y)) (cr := conf y) (l_conn l (negb y)) c' head' (l_pushed l (negb y)) P'
    (length (l_popped l (negb y))) (sent_on (g_sock (g (negb y))) w) (recv_on (g_sock (g y)) w')
    (g_sock (g y)) (g_set_read (g (negb y)) RS fs t) →
  (∀ b f a, l_login l = Some (b, f, a) → g_fs (g (negb y)) = [] → os_sent (g_sock (g (negb y))) w = [] →
     length P' = length (l_popped l y) ∧ fs = []) →
  link_inv l' w' (<[negb y := g_set_read (g (negb y)) RS fs t]> (<[y := g_set_queue (g y) q' n']> g)).
Proof.
  intros Hi Ec Eh Epu Epo El Hcon Hsk Hsent Hrv Hd1 Hd2 Hlog.
  assert (∀ f, sent_on f w' = sent_on f w) as Hso by (intros f; apply sent_on_same; done).
  assert (recv_on (g_sock (g (negb y))) w' = recv_on (g_sock (g (negb y))) w) as Hro.
  { apply recv_on_same. intros Hf. apply Hrv; [done|]. eapply socks_ne; [apply Hi|done]. }
  set (G := <[negb y := _]> _). assert (G y = g_set_queue (g y) q' n') as HGy.
  { unfold G. rewrite fn_lookup_insert_ne by (by destruct y). apply upd_same. }
  assert (G (negb y) = g_set_read (g (negb y)) RS fs t) as HGn by apply upd_same.
  constructor.
  - apply (both_sides y); unfold dir_at; rewrite Ec, Eh, Epu, !Epo; side; rewrite HGy, HGn, Hso; gsimpl;
      rewrite ?Hro; done.
  - apply (both_sides y); unfold socks_at; side; rewrite HGy, HGn; gsimpl; [apply (li_socks _ _ _ _ _ Hi y)|].
    pose proof (li_socks _ _ _ _ _ Hi (negb y)) as Hs. unfold socks_at in Hs. by rewrite negb_involutive in Hs.
  - apply (both_sides y); unfold acks_at, sent_by; rewrite Ec; side; rewrite HGy, HGn; gsimpl.
    + intros Hop m Hm. by eapply inv_acks.
    + intros Hop m Hm. destruct Hsk as [Hsk|?]; [|lia]. rewrite Hsk in Hop. by eapply inv_acks_back.
  - rewrite El. pose proof (li_login _ _ _ _ _ Hi) as Hl. unfold connecting in Hcon.
    destruct (l_login l) as [[[b f] a]|] eqn:Ell; [|done].
    assert (b = negb y) as -> by (destruct b, y; done).
    destruct Hl as [-> Hf Hcl Hse Hre -> Hst HFS Hst' Hfs]. rewrite negb_involutive in *.
    destruct (Hlog _ _ _ eq_refl Hfs Hse) as [HP ->].
    constructor; rewrite ?Ec, ?negb_involutive, ?Epo; side; rewrite ?HGy, ?HGn, ?HP, ?Hsent; gsimpl; try done.
    rewrite Hrv; [done..|]. eapply socks_ne; [apply Hi|done].
Qed.

(** What [Front] read, on a closed connection nothing. *)
Lemma inv_front_data l w g y c' w' q' ms data t' :
  link_inv l w g →
  fronted (conf := conf y) (g_sock (g y)) (l_conn l y) c' w w' (g_q (g y)) q' (g_fs (g (negb y))) ms
    (g_t (g (negb y))) data t' →
  (sockfd_ (l_conn l y) < 0 → data = []) ∧
  (0 ≤ sockfd_ (l_conn l y) →
     (recv_on (g_sock (g y)) w ++ data) `prefix_of` sent_on (g_sock (g (negb y))) w) ∧
  recv_on (g_sock (g y)) w' = recv_on (g_sock (g y)) w ++ data.
Proof.
  intros Hi [_ _ _ Hlog _ _ Hread _ _ _ _ _ _].
  assert (sockfd_ (l_conn l y) < 0 → data = []) as Hclosed.
  { intros Hcl. destruct (decide (data = [])) as [|Hne]; [done|]. destruct (Hread Hne) as [lens Hr].
    destruct (os_readv_closed _ lens w Hcl) as (e & He & _). by rewrite He in Hr. }
  split; [done|]. split.
  - intros Hop. destruct (decide (data = [])) as [->|Hne].
    + rewrite app_nil_r. by apply (dr_read _ _ _ _ _ _ _ _ _ _ (inv_dir_back _ _ _ _ _ y Hi)).
    + destruct (Hread Hne) as [lens Hr]. by eapply inv_readv.
  - unfold recv_on. destruct (Z.ltb_spec (g_sock (g y)) 0); [|done].
    rewrite Hclosed; [done|]. destruct (Z.leb_spec 0 (sockfd_ (l_conn l y))) as [Hop|]; [|done].
    rewrite (conn_socket _ _ _ _ _ _ Hi Hop) in Hop. lia.
Qed.

(** The acks that [Front] found drop messages that the other end has. *)
Lemma inv_front_queue l w g y c' w' q' ms data t' :
  link_inv l w g →
  fronted (conf := conf y) (g_sock (g y)) (l_conn l y) c' w w' (g_q (g y)) q' (g_fs (g (negb y))) ms
    (g_t (g (negb y))) data t' →
  ∃ n', (n' ≤ length (l_popped l (negb y)))%nat ∧
    queue_rep (@TcpQueueSize (conf y)) (@ToLittleEndian (conf y)) (@is_little_endian (conf y)) q'
      (um_words (cs := conf y) <$> drop n' (l_pushed l y)) ∧
    read_seq_num_ q' = Z.of_nat n' ∧ unsent q' = unsent (g_q (g y)) ∧
    ack_seq_num_ q' = ack_seq_num_ (g_q (g y)).
Proof.
  intros Hi Hfr. destruct (inv_front_data _ _ _ _ _ _ _ _ _ _ Hi Hfr) as (Hclosed & Hpre & _).
  destruct Hfr as [_ Hcut Hms _ _ Hacks _ _ _ _ _ _ _]. destruct Hacks as [(_ & -> & _)|[Hne Hacks]].
  - exists (g_n (g y)). destruct (inv_dir _ _ _ _ _ y Hi). by split_and!.
  - destruct (Z.leb_spec 0 (sockfd_ (l_conn l y))) as [Hop|Hcl]; [|by rewrite Hclosed in Hne].
    destruct (inv_take_acks _ _ _ _ _ _ _ Hi Hop (Hpre Hop) Hcut Hms) as (q1 & n' & Hq1 & ? & ? & ? & ? & ?).
    rewrite Hacks in Hq1. injection Hq1 as <-. exists n'. by split_and!.
Qed.

Lemma inv_fronted l w g y c' w' q' ms data t' :
  link_inv l w g → connecting l y = false → conn_fd (l_conn l y) (g_sock (g y)) →
  fronted (conf := conf y) (g_sock (g y)) (l_conn l y) c' w w' (g_q (g y)) q' (g_fs (g (negb y))) ms
    (g_t (g (negb y))) data t' →
  let fs' := arrive (conf := conf y) (skip_hb (conf := conf y) (g_fs (g (negb y)))) ms in
  ∃ g', link_inv (set_head (set_conn l y c') y (front_of c' fs')) w' g'.
Proof.
  intros Hi Hcon Hfd Hfr fs'. pose proof (inv_dir _ _ _ _ _ y Hi) as Hd. pose proof (inv_dir_back _ _ _ _ _ y Hi) as Hdn.
  destruct (inv_front_data _ _ _ _ _ _ _ _ _ _ Hi Hfr) as (Hclosed & Hpre & Hrecv).
  destruct (inv_front_queue _ _ _ _ _ _ _ _ _ _ Hi Hfr) as (n' & Hn' & Hrepq & Hseq & Hun & Hack).
  destruct Hfr as [Hrep' Hcut Hms Hlog Hq' Hacks Hread Hsent Hother Hsk _ Hhb' _].
  assert (data = [] → ms = []) as Hnil by (intros Hdata; by destruct Hacks as [(_ & _ & ?)|[? _]]).
  eexists. eapply (inv_reader l _ w w' g y c' q' n' _ (l_popped l y) (g_RS (g (negb y)) ++ ms) fs' t' Hi);
    side; try done.
  - apply (both_sides y); by side.
  - intros f Hf0 Hne. apply Hother. destruct Hfd as [->|?]; [done|lia].
  - eapply dir_acked; try done. unfold hb_ok. rewrite Hhb'. apply Hd.
  - rewrite Hrecv. eapply dir_front; try done; [by intros Hcl; apply Hnil, Hclosed|].
    intros Hop. split_and!; [by apply Hpre|done..].
  - intros b f a _ Hfs Hnone. split; [done|]. unfold fs'. rewrite Hfs, Hnil; [done|].
    destruct (Z.leb_spec 0 (sockfd_ (l_conn l y))) as [Hop|Hcl]; [|by apply Hclosed].
    specialize (Hpre Hop). unfold sent_on in Hpre. rewrite Hnone, Tauto.if_same in Hpre.
    by apply prefix_nil_inv, app_nil in Hpre as [_ ?].
Qed.

Lemma inv_front l w g y r c' w' :
  link_inv l w g → connecting l y = false →
  Front (conf := conf y) (l_conn l y) w = Ret (r, c', w') →
  ∃ g', link_inv (set_head (set_conn l y c') y r) w' g'.
Proof.
  intros Hi Hcon Hf. pose proof (inv_dir _ _ _ _ _ y Hi) as Hd. pose proof (inv_dir_back _ _ _ _ _ y Hi) as Hdn.
  pose proof (dr_q _ _ _ _ _ _ _ _ _ _ Hd) as Hq.
  destruct (dr_buf _ _ _ _ _ _ _ _ _ _ Hdn) as [Hrep|[Hu _]].
  - assert (conn_fd (l_conn l y) (g_sock (g y))) as Hfd.
    { destruct (Z.leb_spec 0 (sockfd_ (l_conn l y))) as [Hop|]; [left|by right]. by eapply conn_socket. }
    destruct (Front_ok (conf := conf y) (HC y) _ (g_sock (g y)) _ _ _ w Hrep Hq Hfd (inv_reads_frames _ _ _ y Hi))
      as (r1 & c1 & w1 & q' & ms & data & t' & Hf1 & Hfr & ->).
    rewrite Hf in Hf1. injection Hf1 as -> <- <-. by eapply inv_fronted.
  - rewrite (Front_unopened _ _ _ Hu Hq) in Hf. injection Hf as <- <- <-.
    destruct (inv_emit conf peer HC Hle l w g y (l_conn l y) w (g_q (g y)) Hi) as [g' Hi'].
    { apply emits_nothing; try done; [apply Hd|by left]. }
    exists g'. by apply inv_head_none.
Qed.

Lemma inv_pop l w g y p m c' :
  link_inv l w g → connecting l y = false → l_head l y = Some p →
  message_at (conf := conf y) (l_conn l y) p = Ret m → Pop (conf := conf y) (l_conn l y) = Ret c' →
  ∃ g', link_inv (add_popped (set_head (set_conn l y c') y None) y m) w g'.
Proof.
  intros Hi Hcon Hh Hm Hp. pose proof (inv_dir _ _ _ _ _ y Hi) as Hd. pose proof (inv_dir_back _ _ _ _ _ y Hi) as Hdn.
  rewrite Hh in Hdn.
  destruct (dir_pop (eq_sym (Hle y)) _ _ c' _ _ _ _ _ _ _ _ Hdn)
    as (m1 & fs & Hfs & Hrep & Hm1 & Hnext).
  rewrite Hm in Hm1. injection Hm1 as ->.
  destruct (Pop_ok (conf := conf y) (HC y) _ _ _ _ _ Hrep (dr_q _ _ _ _ _ _ _ _ _ _ Hd))
    as (c1 & Hp1 & Hrep' & Hq' & Hsk & _ & Hhb). rewrite Hp in Hp1. injection Hp1 as <-.
  destruct (Hnext Hrep' Hsk) as [Hdn' Hlt].
  eexists. eapply (inv_reader l _ w w g y c' _ (g_n (g y)) None
    (l_popped l y ++ [host_frame (conf := conf y) m1]) _ _ _ Hi); side; try exact Hdn'; try done.
  - by left.
  - rewrite length_app, Nat.add_1_r. eapply dir_my_ack; try done. unfold hb_ok. rewrite Hhb. apply Hd.
  - intros b f a _ Hnil. by rewrite Hfs in Hnil.
Qed.

(** ** Closing and crashing *)

Lemma inv_close l w g y reason errno :
  link_inv l w g → ∃ g', link_inv (set_conn l y (Close (l_conn l y) reason errno)) w g'.
Proof.
  intros Hi. pose proof (inv_dir _ _ _ _ _ y Hi) as Hd. eapply inv_emit; [done..|].
  apply emits_nothing with (q' := g_q (g y)); try done; try apply Hd.
  - rewrite Close_q. apply Hd.
  - apply Close_recv.
  - right. apply Close_sockfd.
  - apply Close_hb.
Qed.

Lemma inv_close_fd l w g y r c' w' :
  link_inv l w g → TryCloseFd (l_conn l y) w = (r, c', w') → ∃ g', link_inv (set_conn l y c') w' g'.
Proof.
  intros Hi Ht. pose proof (inv_dir _ _ _ _ _ y Hi) as Hd. eapply inv_emit; [done..|].
  unfold TryCloseFd in Ht. destruct (_ && _); injection Ht as _ <- <-;
    apply emits_nothing with (q' := g_q (g y)); try done; try apply Hd; try (by left); intros f;
    [apply tcp_close_sent|apply tcp_close_received].
Qed.

Lemma restart_unopened {cs : Conf} c : unopened (restart c).
Proof. by split_and!. Qed.

Lemma inv_crash l w g y :
  link_inv l w g →
  ∃ g', link_inv (set_login (set_head (set_conn l y (restart (conf := conf y) (l_conn l y))) y None)
                    (if connecting l y then None else l_login l)) w g'.
Proof.
  intros Hi. pose proof (inv_dir _ _ _ _ _ y Hi) as Hd. pose proof (inv_dir_back _ _ _ _ _ y Hi) as Hdn.
  set (l0 := set_login l (if connecting l y then None else l_login l)).
  assert (link_inv l0 w g) as Hi0.
  { constructor; [apply Hi..|]. unfold l0, set_login. cbn [l_login].
    destruct (connecting l y); [done|]. destruct (l_login l) as [[[b f] a]|] eqn:El; [|done].
    pose proof (li_login _ _ _ _ _ Hi) as Hl. rewrite El in Hl. by destruct Hl. }
  assert (connecting l0 y = false) as Hcon.
  { unfold l0, connecting. simpl. fold (connecting l y). destruct (connecting l y) eqn:Hc; [done|exact Hc]. }
  set (c' := restart (conf := conf y) (l_conn l y)).
  assert (dir (cs := conf y) (cr := conf (negb y)) c' (l_conn l (negb y)) (l_head l (negb y)) (l_pushed l y)
    (l_popped l (negb y)) (length (l_popped l y)) (sent_on (g_sock (g y)) w) (recv_on (g_sock (g (negb y))) w)
    (g_sock (g (negb y))) (g_set_queue (g y) (g_q (g y)) (g_n (g y)))) as Hd'.
  { apply (dir_acked (l_conn l y)); [exact Hd|apply Hd|apply Hd|apply Hd|done|apply Hd|done|by right|done]. }
  pose proof (dir_restart_reader _ _ c' _ _ _ _ _ _ _ _ Hdn (restart_unopened _)) as Hdn'.
  eexists. eapply (inv_reader l0 _ w w g y c' _ _ None (l_popped l y) _ _ _ Hi0); side; try exact Hd'; try exact Hdn'; try done.
  - apply (both_sides y); by side.
  - by right.
Qed.

Lemma inv_refused l w g : link_inv l w g → link_inv (set_login l None) w g.
Proof. intros []. by constructor. Qed.

(** ** Logins *)

Lemma inv_conn_ack l w g y : link_inv l w g → conn_ack (l_conn l y) = Z.of_nat (length (l_popped l y)).
Proof.
  intros Hi. pose proof (inv_dir _ _ _ _ _ y Hi) as [Hq _ _ Hack _ _ _ _ _ _ _ _ _ _ _ _ _].
  unfold conn_ack. by rewrite Hq.
Qed.

Lemma inv_logon l w g b fd now c' w' :
  link_inv l w g → IsClosed (l_conn l b) = true → IsClosed (l_conn l (negb b)) = true →
  0 ≤ fd → 0 ≤ peer fd → peer fd ≠ fd →
  os_sent fd w = [] → os_received fd w = [] → os_sent (peer fd) w = [] → os_received (peer fd) w = [] →
  Open (conf := conf b) (l_conn l b) fd (conn_ack (l_conn l (negb b))) now w = Ret (c', w') →
  ∃ g', link_inv (mkLink (<[b := c']> (l_conn l)) no_head (Some (negb b, peer fd, conn_ack (l_conn l b)))
                    (l_pushed l) (l_popped l)) w' g'.
Proof.
  intros Hi Hb%Z.ltb_lt Hn%Z.ltb_lt Hfd Hp Hne Hs1 Hr1 Hs2 Hr2 Ho. rewrite (inv_conn_ack _ _ _ (negb b) Hi) in Ho.
  pose proof (dir_new_stream _ _ _ _ _ _ _ _ _ _ fd (peer fd) (inv_dir _ _ _ _ _ b Hi) Hb Hn) as Hd.
  pose proof (dir_new_stream _ _ _ _ _ _ _ _ _ _ (peer fd) fd (inv_dir_back _ _ _ _ _ b Hi) Hn Hb) as Hdn.
  destruct (dir_open_sender (HC b) (Hle b) _ _ _ _ _ _ _ _ _ now w Hd eq_refl eq_refl Hfd Hs1)
    as (c1 & w1 & q' & FS & tail & part & rest & bs & Ho1 & (_ & Hrv & Hso) & Hd' & _ & Hsk & Hsz & Hbf & Hb1 & Hb2 & Hb3).
  simpl in Ho1, Hso, Hd', Hsk. rewrite Ho in Ho1. injection Ho1 as <- <-.
  pose proof (opened_rep (HC b) _ c' _ _ (dr_buf _ _ _ _ _ _ _ _ _ _ Hdn) Hsz Hbf Hb1 Hb2 Hb3) as Hopened.
  pose proof (dir_open_reader _ _ c' _ _ _ _ _ _ _ _ Hdn eq_refl Hopened Hsk) as Hdn'.
  match type of Hd' with context [g_set_stream ?x ?y ?z ?t ?u] => set (gb := g_set_stream x y z t u) in * end.
  match type of Hdn' with context [g_set_read ?x ?y ?z ?t] => set (gn := g_set_read x y z t) in * end.
  exists (<[negb b := gn]> (<[b := gb]> g)).
  set (G := <[negb b := gn]> _).
  assert (G b = gb) as HGb by (unfold G; rewrite fn_lookup_insert_ne by (by destruct b); apply upd_same).
  assert (G (negb b) = gn) as HGn by apply upd_same.
  assert (socks_at peer G b) as Hsocks by (right; rewrite HGb, HGn; by split_and!).
  assert (os_sent (peer fd) w' = []) as Hs2' by (by rewrite (Hso _ Hne)).
  constructor.
  - apply (both_sides b); unfold dir_at; side; rewrite HGb, HGn; unfold sent_on, recv_on; simpl;
      rewrite !(proj2 (Z.ltb_ge _ _)) by done; rewrite !Hrv, ?Hr1, ?Hr2, ?Hs2'; done.
  - apply (both_sides b); [done|]. by eapply socks_sym.
  - apply (both_sides b); unfold acks_at; side; [lia|]. intros _ m. rewrite HGn.
    by intros Hm%not_elem_of_nil.
  - constructor; side; rewrite ?HGb, ?HGn, ?Hrv; try done. by apply inv_conn_ack with (g := g) (w := w).
Qed.

Lemma inv_connected l w g b fd ack now c' w' :
  link_inv l w g → l_login l = Some (b, fd, ack) →
  Open (conf := conf b) (l_conn l b) fd ack now w = Ret (c', w') →
  ∃ g', link_inv (set_login (set_head (set_conn l b c') b None) None) w' g'.
Proof.
  intros Hi El Ho. pose proof (li_login _ _ _ _ _ Hi) as Hl. rewrite El in Hl.
  destruct Hl as [-> Hf Hcl Hse Hre -> Hst HFS Hst' Hfs].
  pose proof (inv_dir _ _ _ _ _ b Hi) as Hd. pose proof (inv_dir_back _ _ _ _ _ b Hi) as Hdn.
  assert (sent_on (g_sock (g b)) w = []) as Hso by (unfold sent_on; by rewrite Hse, (proj2 (Z.ltb_ge _ _))).
  assert (recv_on (g_sock (g b)) w = []) as Hro by (unfold recv_on; by rewrite Hre, (proj2 (Z.ltb_ge _ _))).
  unfold dir_at in Hd. rewrite Hso in Hd. rewrite Hro in Hdn.
  destruct (dir_open_sender (HC b) (Hle b) _ _ _ _ _ _ _ _ _ now w Hd Hst HFS Hf Hse)
    as (c1 & w1 & q' & FS & tail & part & rest & bs & Ho1 & (_ & Hrv & Hoth) & Hd' & _ & Hsk & Hsz & Hbf & Hb1 & Hb2 & Hb3).
  rewrite Ho in Ho1. injection Ho1 as <- <-.
  pose proof (opened_rep (HC b) _ c' _ _ (dr_buf _ _ _ _ _ _ _ _ _ _ Hdn) Hsz Hbf Hb1 Hb2 Hb3) as Hopened.
  pose proof (dir_open_reader _ _ c' _ _ _ _ _ _ _ _ Hdn Hst' Hopened Hsk) as Hdn'.
  match type of Hd' with context [g_set_stream ?x ?y ?z ?t ?u] => set (gb := g_set_stream x y z t u) in * end.
  match type of Hdn' with context [g_set_read ?x ?y ?z ?t] => set (gn := g_set_read x y z t) in * end.
  set (G := <[negb b := gn]> (<[b := gb]> g)).
  assert (G b = gb) as HGb by (unfold G; rewrite fn_lookup_insert_ne by (by destruct b); apply upd_same).
  assert (G (negb b) = gn) as HGn by apply upd_same.
  assert (∀ f, recv_on f w' = recv_on f w) as Hrecv by (intros f; by apply recv_on_same).
  assert (sent_on (g_sock (g (negb b))) w' = sent_on (g_sock (g (negb b))) w) as Hsn.
  { apply sent_on_same. intros Hf'. apply Hoth. eapply socks_ne; [apply Hi|done]. }
  assert (sent_on (g_sock (g b)) w' = os_sent (g_sock (g b)) w') as Hsb.
  { unfold sent_on. by rewrite (proj2 (Z.ltb_ge _ _)). }
  exists G. constructor; [| | |done].
  - apply (both_sides b); unfold dir_at; side; rewrite HGb, HGn; gsimpl; rewrite Hrecv; unfold gb, gn; gsimpl.
    + by rewrite Hsb.
    + by rewrite Hsn, Hro.
  - assert (socks_at peer G b) as Hsocks by (unfold socks_at; rewrite HGb, HGn; apply (li_socks _ _ _ _ _ Hi b)).
    apply (both_sides b); [done|]. by eapply socks_sym.
  - apply (both_sides b); unfold acks_at, sent_by; side; rewrite HGb, HGn; intros Hop m Hm; unfold g_sent;
      unfold gb, gn in Hm |- *; gsimpl; simpl in Hm.
    + pose proof (dr_acks _ _ _ _ _ _ _ _ _ _ Hd' m Hm). lia.
    + pose proof (dr_acks _ _ _ _ _ _ _ _ _ _ Hdn m Hm). lia.
Qed.

(** ** Every reachable state *)

Definition new_ghost (y : bool) : ghost :=
  mkGhost (new_PTCPQueue (@TcpQueueSize (conf y))) 0 (-1) 0 [] [] [] [] [] [] [].

Lemma new_link_inv w : link_inv (new_link conf) w new_ghost.
Proof.
  constructor; [| |by intros y ? m Hm%not_elem_of_nil|done].
  - intros y. pose proof (new_PTCPQueue_rep _ (@ToLittleEndian (conf y)) (@is_little_endian (conf y)) (conf_queue (HC y))) as Hrep.
    constructor; simpl; try done; try lia.
    + by intros m Hm%not_elem_of_nil.
    + by right.
  - by left.
Qed.

Lemma link_step_inv l w l' w' g :
  link_inv l w g → link_step conf peer l w l' w' → ∃ g', link_inv l' w' g'.
Proof.
  intros Hi Hs. destruct Hs.
  - by eapply (inv_push _ _ HC Hle _ _ _ _ _ _ _ true).
  - by eapply (inv_push _ _ HC Hle _ _ _ _ _ _ _ false).
  - pose proof (inv_dir _ _ _ _ _ b Hi) as Hd.
    destruct (SendPending_emits (HC b) _ _ _ _ (g_sock (g b)) _ _ _ (dr_q _ _ _ _ _ _ _ _ _ _ Hd)
      (dr_rep _ _ _ _ _ _ _ _ _ _ Hd) (conn_socket _ _ _ _ _ _ Hi) H0) as [q' He].
    by eapply inv_emit.
  - pose proof (inv_dir _ _ _ _ _ b Hi) as Hd.
    destruct (SendHB_emits (HC b) _ _ _ _ _ (g_sock (g b)) _ _ (dr_q _ _ _ _ _ _ _ _ _ _ Hd)
      (dr_rep _ _ _ _ _ _ _ _ _ _ Hd) (dr_hb _ _ _ _ _ _ _ _ _ _ Hd) (conn_socket _ _ _ _ _ _ Hi) H0) as [q' He].
    by eapply inv_emit.
  - by eapply inv_front.
  - by eapply inv_pop.
  - by eapply inv_close.
  - by eapply inv_close_fd.
  - by eapply inv_crash.
  - by eapply inv_logon.
  - by eapply inv_connected.
  - eexists. by apply inv_refused.
Qed.

Theorem link_reachable_inv l w : link_reachable conf peer l w → ∃ g, link_inv l w g.
Proof.
  induction 1 as [w|l w l' w' _ [g Hi] Hs]; [eexists; apply new_link_inv|by eapply link_step_inv].
Qed.
End run.
