(* ===== verification/Scripted.v ===== *)
(** * A scripted operating system

    An instance of the interface [Os] that follows a script: the results of
    the next sends and reads.  It shows that [OsLaws] can hold, and runs the
    instances of the theorems. *)

From S2P Require Import Prelude.
From S2P Require Import Arrays.
From S2P Require Import MsgHeader.
From S2P Require Import Platform.

Record script := mkScript {
  s_sends : list (sysret Z);
  s_reads : list (sysret (list Z));
  s_sent : list (Z * list Z);
  s_received : list (Z * list Z);
  s_closed : list Z
}.

Definition log_of (fd : Z) (l : list (Z * list Z)) : list Z :=
  concat ((λ e, if e.1 =? fd then e.2 else []) <$> l).

(** A send accepts what the script says, but at least one byte and no more
    than there are; an exhausted script is EAGAIN. *)
Definition script_send (fd : Z) (bs : list Z) (w : script) : sysret Z * script :=
  if fd <? 0 then (SysErr 9, w) else
  match s_sends w with
  | [] => (SysErr EAGAIN, w)
  | SysErr e :: r => (SysErr e, mkScript r (s_reads w) (s_sent w) (s_received w) (s_closed w))
  | SysOk n :: r =>
      let n := Z.max (Z.min 1 (zlen bs)) (Z.min n (zlen bs)) in
      (SysOk n, mkScript r (s_reads w) (s_sent w ++ [(fd, slice 0 n bs)]) (s_received w) (s_closed w))
  end.

(** A read returns the next chunk of the script, or as much as fits. *)
Definition script_readv (fd : Z) (lens : list Z) (w : script) : sysret (list Z) * script :=
  if fd <? 0 then (SysErr 9, w) else
  if foldr Z.add 0 lens <? 0 then (SysErr 22, w) else
  match s_reads w with
  | [] => (SysErr EAGAIN, w)
  | SysErr e :: r => (SysErr e, mkScript (s_sends w) r (s_sent w) (s_received w) (s_closed w))
  | SysOk bs :: r =>
      let n := foldr Z.add 0 lens in
      let d := (λ b, b mod 256) <$> slice 0 n bs in
      let r := if n <? zlen bs then SysOk (slice n (zlen bs) bs) :: r else r in
      (SysOk d, mkScript (s_sends w) r (s_sent w) (s_received w ++ [(fd, d)]) (s_closed w))
  end.

#[export] Instance script_os : Os script := {
  os_send := script_send;
  os_readv := script_readv;
  os_close := fun fd w => mkScript (s_sends w) (s_reads w) (s_sent w) (s_received w) (fd :: s_closed w)
}.

#[export] Instance script_log : OsLog script := {
  os_sent := fun fd w => log_of fd (s_sent w);
  os_received := fun fd w => log_of fd (s_received w)
}.

Lemma log_of_snoc fd fd' l bs :
  log_of fd (l ++ [(fd', bs)]) = log_of fd l ++ (if fd' =? fd then bs else []).
Proof. unfold log_of. rewrite fmap_app, concat_app. simpl. by rewrite app_nil_r. Qed.

#[export] Instance script_laws : OsLaws script.
Proof.
  constructor; simpl.
  - intros fd bs w n w'. unfold script_send. destruct (fd <? 0); [done|].
    destruct (s_sends w) as [|[n'|e] r]; try done. intros [= <- <-] Hne.
    assert (0 < zlen bs) by (destruct bs; [done|unfold zlen; simpl; lia]). lia.
  - intros fd bs w r w'. unfold script_send. destruct (fd <? 0); [by intros [= <- <-]; rewrite app_nil_r|].
    destruct (s_sends w) as [|[n'|e] l]; intros [= <- <-]; simpl; rewrite ?app_nil_r; try done.
    by rewrite log_of_snoc, Z.eqb_refl.
  - intros fd bs w fd'. unfold script_send. destruct (fd <? 0); [done|].
    by destruct (s_sends w) as [|[n'|e] l].
  - intros fd bs w fd' Hne. unfold script_send. destruct (fd <? 0); [done|].
    destruct (s_sends w) as [|[n'|e] l]; simpl; try done.
    by rewrite log_of_snoc, (proj2 (Z.eqb_neq _ _)), app_nil_r by congruence.
  - intros fd bs w Hfd. unfold script_send. rewrite (proj2 (Z.ltb_lt _ _)) by done. by exists 9.
  - intros fd lens w bs w'. unfold script_readv. destruct (fd <? 0); [done|].
    destruct (Z.ltb_spec (foldr Z.add 0 lens) 0); [done|].
    destruct (s_reads w) as [|[d|e] l]; try done. intros [= <- <-]. split.
    + unfold zlen. rewrite length_fmap. fold (zlen (slice 0 (foldr Z.add 0 lens) d)).
      pose proof (slice_zlen_le 0 (foldr Z.add 0 lens) d). lia.
    + apply Forall_fmap, Forall_true. intros b. apply Z.mod_pos_bound. lia.
  - intros fd lens w r w'. unfold script_readv. destruct (fd <? 0); [by intros [= <- <-]; rewrite app_nil_r|].
    destruct (_ <? 0); [by intros [= <- <-]; rewrite app_nil_r|].
    destruct (s_reads w) as [|[d|e] l]; intros [= <- <-]; simpl; rewrite ?app_nil_r; try done.
    by rewrite log_of_snoc, Z.eqb_refl.
  - intros fd lens w fd'. unfold script_readv. destruct (fd <? 0); [done|].
    destruct (_ <? 0); [done|]. by destruct (s_reads w) as [|[d|e] l].
  - intros fd lens w fd' Hne. unfold script_readv. destruct (fd <? 0); [done|].
    destruct (_ <? 0); [done|]. destruct (s_reads w) as [|[d|e] l]; simpl; try done.
    by rewrite log_of_snoc, (proj2 (Z.eqb_neq _ _)), app_nil_r by congruence.
  - intros fd lens w Hfd. unfold script_readv. rewrite (proj2 (Z.ltb_lt _ _)) by done. by exists 9.
Qed.

Lemma bytes_mod bs : Forall byte_ok bs → (λ b, b mod 256) <$> bs = bs.
Proof.
  induction 1 as [|b bs Hb _ IH]; [done|]. rewrite fmap_cons, IH. f_equal.
  apply Z.mod_small, Hb.
Qed.

(** A read returns the front of the next chunk. *)
Lemma script_readv_chunk fd lens w d w' bs r :
  os_readv fd lens w = (SysOk d, w') → s_reads w = SysOk bs :: r → Forall byte_ok bs →
  ∃ rest, bs = d ++ rest.
Proof.
  simpl. unfold script_readv. destruct (fd <? 0); [done|].
  destruct (Z.ltb_spec (foldr Z.add 0 lens) 0); [done|].
  intros Hr Hs Hb. rewrite Hs in Hr. injection Hr as <- _.
  set (n := foldr Z.add 0 lens) in *. exists (drop (Z.to_nat n) bs).
  unfold slice. rewrite drop_0, Z.sub_0_r, bytes_mod by by apply Forall_take.
  by rewrite take_drop.
Qed.

(** A small configuration: 8 blocks, a receive buffer of 32 to 64 bytes. *)
Definition ex_conf : Conf := {|
  NameSize := 16;
  ShmQueueSize := 512;
  ToLittleEndian := true;
  TcpQueueSize := 64;
  TcpRecvBufInitSize := 32;
  TcpRecvBufMaxSize := 64;
  TcpNoDelay := true;
  ConnectionTimeout := 10;
  HeartBeatInverval := 3;
  NewConnectionTimeout := 3;
  MaxNewConnections := 2;
  MaxShmConnsPerGrp := 2;
  MaxShmGrps := 1;
  MaxTcpConnsPerGrp := 2;
  MaxTcpGrps := 1;
  is_little_endian := true
|}.

Lemma ex_conf_ok : @Conf_ok ex_conf.
Proof.
  constructor; simpl; try lia; [by split; [lia|]|by split; [lia|exists 3]|done|done].
Qed.

Definition ex_script (sends : list (sysret Z)) (reads : list (sysret (list Z))) : script :=
  mkScript sends reads [] [] [].
