(* ===== verification/PtcpConnProps.v ===== *)
(** * Properties of the TCP connection

    The instances run a connection of [ex_conf] on a scripted socket. *)

From S2P Require Import Prelude.
From S2P Require Import Arrays.
From S2P Require Import MsgHeader.
From S2P Require Import PtcpQueue.
From S2P Require Import PtcpQueueInv.
From S2P Require Import Platform.
From S2P Require Import PtcpConn.
From S2P Require Import Framing.
From S2P Require Import PtcpConnRecv.
From S2P Require Import PtcpConnSend.
From S2P Require Import Scripted.

(** ** An open connection *)

#[local] Existing Instance ex_conf.

(** The world of an open connection, with the results of its sends and reads. *)
Definition ex_q : PTCPQueue := new_PTCPQueue 64.
Definition ex_open : PTCPConnection :=
  match Open (set_q new_PTCPConnection (Some ex_q)) 5 0 100 (ex_script [] []) with
  | Ret (c, _) => c
  | _ => new_PTCPConnection
  end.

(** A user message of 12 bytes, padded to 16, and a heartbeat. *)
Definition ex_frame : list Z := [12; 0; 7; 0; 0; 0; 0; 0; 1; 2; 3; 4; 0; 0; 0; 0].
Definition ex_hb : list Z := [8; 0; 0; 0; 0; 0; 0; 0].

Lemma Forall_byte_okb l : forallb (λ b, (0 <=? b) && (b <? 256)) l = true → Forall byte_ok l.
Proof.
  intros H. apply Forall_forall. intros b Hb. rewrite forallb_forall in H.
  apply list_elem_of_In in Hb. specialize (H b Hb). unfold byte_ok. lia.
Qed.

Lemma ex_frame_ok : frame_ok ex_frame.
Proof.
  split; [by apply Forall_byte_okb|]. split; [done|]. split; [done|]. split; [done|].
  vm_compute. discriminate.
Qed.
Lemma ex_hb_ok : frame_ok ex_hb.
Proof. split; [by apply Forall_byte_okb|]. repeat (split; [done|]). done. Qed.

Lemma partial_nil : partial [].
Proof. split; [constructor|]. intros H. vm_compute in H. done. Qed.

Lemma ex_open_rep : recv_rep ex_open [] [].
Proof.
  constructor; [constructor; vm_compute; repeat split; discriminate|reflexivity|reflexivity|
    constructor|apply partial_nil].
Qed.

Lemma ex_q_rep : queue_rep 64 true true ex_q [].
Proof. apply new_PTCPQueue_rep. by split. Qed.

(** The stream of the examples: a heartbeat and two messages. *)
Definition ex_stream : list (list Z) := [ex_hb; ex_frame; ex_frame].

Lemma ex_stream_ok : Forall frame_ok ex_stream.
Proof. repeat constructor; try apply ex_frame_ok; apply ex_hb_ok. Qed.

(** All of a heartbeat and a message, and part of the next, come at once. *)
Definition ex_reading : script := ex_script [] [SysOk (take 30 (concat ex_stream)); SysErr EAGAIN].

Lemma ex_reads : reads_frames ex_open [] ex_q ex_reading.
Proof.
  apply (reads_frames_prefix _ _ _ _ ex_stream ex_stream_ok).
  - apply Forall_forall. by repeat constructor.
  - intros lens data w' Hr.
    destruct (script_readv_chunk _ _ _ _ _ (take 30 (concat ex_stream)) [SysErr EAGAIN] Hr) as [r Hcut];
      [done|by apply Forall_byte_okb|].
    exists (r ++ drop 30 (concat ex_stream)).
    change ([] ++ data) with data. by rewrite app_assoc, <-Hcut, take_drop.
Qed.

(** ** Receiving *)

(** C28: [DoRecv] always returns.  It appends exactly the bytes the socket
    returned behind the bytes it holds, restarting, moving or growing the
    buffer when needed; the bytes between its indices, the queue and the
    heartbeat are kept, the buffer never exceeds [TcpRecvBufMaxSize], and no
    access leaves it. *)
Theorem conn_DoRecv_correct `{conf : Conf} {W} `{laws : OsLaws W} c w :
  Conf_ok → buf_ok c →
  ∃ data c' w', DoRecv c w = Ret (zlen data, c', w') ∧ received c c' w w' data.
Proof. intros HC Hb. by apply DoRecv_ok. Qed.

Lemma conn_DoRecv_correct_witness :
  ∃ data c' w', DoRecv ex_open ex_reading = Ret (zlen data, c', w') ∧
                received ex_open c' ex_reading w' data.
Proof. apply conn_DoRecv_correct; [exact ex_conf_ok|apply ex_open_rep]. Defined.

(** C20: as long as what arrives continues a stream of frames with acceptable
    acks, [Front] returns and cuts the stream into its frames: the frames
    [ms] that arrived follow those already there, in order and with nothing
    lost but heartbeats, the ack of every complete header goes to the queue,
    and the result is the first user message there is, its header in host
    order, or null when there is none; a heartbeat is never returned. *)
Theorem conn_Front_correct `{conf : Conf} {W} `{laws : OsLaws W} c fd fs t q w :
  Conf_ok → recv_rep c fs t → q_ c = Some q → conn_fd c fd → reads_frames c t q w →
  ∃ c' w' q' ms data t' pend, Front c w = Ret (front_of c' pend, c', w') ∧
    fronted fd c c' w w' q q' fs ms t data t' ∧ recv_rep c' pend t' ∧
    user_frames pend = user_frames (fs ++ ms) ∧
    (∀ m rest, pend = m :: rest → is_hb m = false ∧
       slice (readidx_ c') (readidx_ c' + zlen m) (recvbuf_ c') = host_frame m).
Proof.
  intros HC Hrep Hq Hfd Hr.
  destruct (Front_ok HC c fd fs t q w Hrep Hq Hfd Hr) as (r & c' & w' & q' & ms & data & t' & Hf & Hfr & ->).
  exists c', w', q', ms, data, t', (arrive (skip_hb fs) ms). split; [done|]. split; [done|].
  split; [apply Hfr|]. split.
  - rewrite user_frames_arrive. unfold user_frames. rewrite !filter_app.
    f_equal. apply user_frames_skip.
  - intros m rest Hm. pose proof (arrive_no_lead ms _ (skip_hb_no_lead fs)) as Hn.
    pose proof (fr_rep _ _ _ _ _ _ _ _ _ _ _ _ Hfr) as Hrep'. rewrite Hm in Hn, Hrep'.
    split; [done|]. by destruct (recv_rep_head _ _ _ _ Hrep') as (_ & _ & ? & _).
Qed.

Lemma conn_Front_correct_witness :
  ∃ c' w' q' ms data t' pend, Front ex_open ex_reading = Ret (front_of c' pend, c', w') ∧
    fronted 5 ex_open c' ex_reading w' ex_q q' [] ms [] data t' ∧ recv_rep c' pend t' ∧
    user_frames pend = user_frames ([] ++ ms) ∧
    (∀ m rest, pend = m :: rest → is_hb m = false ∧
       slice (readidx_ c') (readidx_ c' + zlen m) (recvbuf_ c') = host_frame m).
Proof.
  apply conn_Front_correct; [exact ex_conf_ok|exact ex_open_rep|reflexivity|by left|exact ex_reads].
Defined.

(** A header that announces a message larger than [TcpRecvBufMaxSize]
    closes the connection, with that reason, and [Front] returns null,
    before any byte of the message is waited for. *)
Theorem conn_Front_oversize `{conf : Conf} {W} `{laws : OsLaws W} c t q w :
  Conf_ok → recv_rep c [] t → q_ c = Some q → IsClosed c = false →
  ∃ data c1 w1, DoRecv c w = Ret (zlen data, c1, w1) ∧ received c c1 w w1 data ∧
    (data ≠ [] → 8 ≤ zlen (t ++ data) → TcpRecvBufMaxSize < frame_size (t ++ data) →
     ack_dist q (mh_ack_seq (wire_hdr (t ++ data))) ≤ 0 →
     ∃ c', Front c w = Ret (None, c', w1) ∧ IsClosed c' = true ∧
           GetCloseReason c' = ("Msg size larger than recv buf max size"%string, 0)).
Proof.
  intros HC Hrep Hq Hop. destruct (Front_reads HC c t q w Hrep Hq) as (data & c1 & w1 & Hdr & Hrc & Hfr).
  exists data, c1, w1. split; [done|]. split; [done|]. intros Hne H8 Hbig Hack.
  destruct (Hfr Hne) as (Hps & Hq2 & ->).
  edestruct (Front_parse_oversize HC) as (c' & Hc' & _ & Hs'); [exact Hps|done|done|exact Hq2|by apply Ack_stale|].
  unfold loop_fuel. rewrite Hc', outcome_bind_Ret.
  eexists. split; [done|]. split; [apply IsClosed_Close|].
  assert (sockfd_ c' = sockfd_ c) as Hs by (rewrite Hs'; apply (rc_data _ _ _ _ _ Hrc Hne)).
  unfold IsClosed in Hop. unfold Close. by rewrite Hs, Hop.
Qed.

(** The peer announces 65 bytes; the buffer may grow to 64. *)
Definition ex_oversize : script := ex_script [] [SysOk [65; 0; 7; 0; 0; 0; 0; 0]].

Lemma conn_Front_oversize_witness :
  ∃ data c1 w1, DoRecv ex_open ex_oversize = Ret (zlen data, c1, w1) ∧
    received ex_open c1 ex_oversize w1 data ∧
    (data ≠ [] → 8 ≤ zlen ([] ++ data) → TcpRecvBufMaxSize < frame_size ([] ++ data) →
     ack_dist ex_q (mh_ack_seq (wire_hdr ([] ++ data))) ≤ 0 →
     ∃ c', Front ex_open ex_oversize = Ret (None, c', w1) ∧ IsClosed c' = true ∧
           GetCloseReason c' = ("Msg size larger than recv buf max size"%string, 0)).
Proof. apply conn_Front_oversize; [exact ex_conf_ok|exact ex_open_rep|reflexivity|reflexivity]. Defined.

(** The hypotheses of the inner implication hold for these bytes. *)
Example ex_oversize_closes :
  ∃ c' w', Front ex_open ex_oversize = Ret (None, c', w') ∧ IsClosed c' = true.
Proof. do 2 eexists. split; [vm_compute; reflexivity|reflexivity]. Qed.

(** A header of size 0 from the peer hangs [Front]: the loop cuts off
    zero bytes for ever, whatever number of iterations it is given. *)
Theorem conn_Front_hangs `{conf : Conf} {W} `{laws : OsLaws W} c t q w :
  Conf_ok → recv_rep c [] t → q_ c = Some q → ToLittleEndian = is_little_endian →
  ∃ data c1 w1, DoRecv c w = Ret (zlen data, c1, w1) ∧ received c c1 w w1 data ∧
    (data ≠ [] → 8 ≤ zlen (t ++ data) → mh_size (wire_hdr (t ++ data)) = 0 →
     ack_dist q (mh_ack_seq (wire_hdr (t ++ data))) ≤ 0 →
     Front c w = NoFuel ∧
     ∀ fuel, Front_parse fuel (i32 (writeidx_ c1))
               (set_writeidx c1 (u32 (writeidx_ c1 + zlen data))) = NoFuel).
Proof.
  intros HC Hrep Hq Hnat. destruct (Front_reads HC c t q w Hrep Hq) as (data & c1 & w1 & Hdr & Hrc & Hfr).
  exists data, c1, w1. split; [done|]. split; [done|]. intros Hne H8 Hz Hack.
  destruct (Hfr Hne) as (Hps & Hq2 & ->).
  pose proof (parsing_zero HC _ _ _ _ q Hps H8 Hq2 Hnat Hz Hack) as Hzs.
  split; [by rewrite (Front_parse_zero HC _ _ _ q Hzs)|].
  intros fuel. by apply (Front_parse_zero HC fuel _ _ q).
Qed.

Definition ex_zero : script := ex_script [] [SysOk (repeat 0 8%nat)].

Lemma conn_Front_hangs_witness :
  ∃ data c1 w1, DoRecv ex_open ex_zero = Ret (zlen data, c1, w1) ∧
    received ex_open c1 ex_zero w1 data ∧
    (data ≠ [] → 8 ≤ zlen ([] ++ data) → mh_size (wire_hdr ([] ++ data)) = 0 →
     ack_dist ex_q (mh_ack_seq (wire_hdr ([] ++ data))) ≤ 0 →
     Front ex_open ex_zero = NoFuel ∧
     ∀ fuel, Front_parse fuel (i32 (writeidx_ c1))
               (set_writeidx c1 (u32 (writeidx_ c1 + zlen data))) = NoFuel).
Proof. apply conn_Front_hangs; [exact ex_conf_ok|exact ex_open_rep|reflexivity|reflexivity]. Defined.

Example ex_zero_hangs : Front ex_open ex_zero = NoFuel.
Proof. vm_compute. reflexivity. Qed.

(** ** Sending *)

(** C21: [SendPending] ends on every socket.  It returns [true] exactly when
    blocks were pending and the socket did not fail: then the bytes sent are
    whole blocks, the next ones of the queue, and the queue counts exactly
    these as sent.  When the socket fails, maybe inside a block, the
    connection is closed and the queue still counts the blocks as unsent, so
    that the next login sends them again. *)
Theorem conn_SendPending_correct `{conf : Conf} {W} `{laws : OsLaws W} c q msgs w :
  Conf_ok → q_ c = Some q → queue_rep TcpQueueSize ToLittleEndian is_little_endian q msgs →
  ∃ r c' w', SendPending c w = Ret (r, c', w') ∧ same_recv c c' ∧
    ((IsClosed c = true ∧ r = false ∧ c' = c ∧ w' = w) ∨
     (IsClosed c = false ∧ unsent q = [] ∧ r = false ∧ c' = c ∧ w' = w) ∨
     (IsClosed c = false ∧ unsent q ≠ [] ∧ r = true ∧
      ∃ q' ws, sent_blocks c c' w w' q q' msgs ws) ∨
     (IsClosed c = false ∧ unsent q ≠ [] ∧ r = false ∧
      ∃ e bs rest, c' = Close c "Send error" e ∧ only_sent (sockfd_ c) w w' bs ∧
        words_bytes (unsent q) = bs ++ rest)).
Proof. intros HC Hq Hrep. by apply SendPending_ok. Qed.

(** One message of two blocks, pushed and not sent. *)
Definition ex_msg : list MsgHeader := [mkMsgHeader 16 7 0; mkMsgHeader 1 2 3].
Definition ex_q1 : PTCPQueue :=
  mkPTCPQueue (ex_msg ++ repeat zero_header 6) 2 0 0 0 0.
Definition ex_pending : PTCPConnection := set_q ex_open (Some ex_q1).

Lemma ex_q1_rep : queue_rep 64 true true ex_q1 [ex_msg].
Proof.
  split; [|simpl; lia]. constructor; simpl; try lia; [reflexivity|vm_compute; discriminate|reflexivity|].
  constructor; [|constructor]. split; [vm_compute; repeat split; done || discriminate|].
  split; [reflexivity|reflexivity].
Qed.

Lemma conn_SendPending_correct_witness :
  ∃ r c' w', SendPending ex_pending (ex_script [SysOk 5; SysOk 11] []) = Ret (r, c', w') ∧
    same_recv ex_pending c' ∧
    ((IsClosed ex_pending = true ∧ r = false ∧ c' = ex_pending ∧ w' = ex_script [SysOk 5; SysOk 11] []) ∨
     (IsClosed ex_pending = false ∧ unsent ex_q1 = [] ∧ r = false ∧ c' = ex_pending ∧
      w' = ex_script [SysOk 5; SysOk 11] []) ∨
     (IsClosed ex_pending = false ∧ unsent ex_q1 ≠ [] ∧ r = true ∧
      ∃ q' ws, sent_blocks ex_pending c' (ex_script [SysOk 5; SysOk 11] []) w' ex_q1 q' [ex_msg] ws) ∨
     (IsClosed ex_pending = false ∧ unsent ex_q1 ≠ [] ∧ r = false ∧
      ∃ e bs rest, c' = Close ex_pending "Send error" e ∧
        only_sent (sockfd_ ex_pending) (ex_script [SysOk 5; SysOk 11] []) w' bs ∧
        words_bytes (unsent ex_q1) = bs ++ rest)).
Proof. apply conn_SendPending_correct; [exact ex_conf_ok|reflexivity|exact ex_q1_rep]. Defined.

(** A heartbeat goes out only when every block of the queue is sent, so
    never inside a message, and carries the current ack; when blocks are
    pending they are sent instead; a heartbeat that is sent in part closes
    the connection. *)
Theorem conn_SendHB_correct `{conf : Conf} {W} `{laws : OsLaws W} c now w q msgs :
  Conf_ok → q_ c = Some q → queue_rep TcpQueueSize ToLittleEndian is_little_endian q msgs → hb_ok c →
  ∃ c' w', SendHB c now w = Ret (c', w') ∧ same_recv c c' ∧ fd_to_close_ c' = fd_to_close_ c ∧
           hb_ok c' ∧ hb_result c c' w w' q msgs.
Proof. intros HC Hq Hrep Hhb. by apply SendHB_ok. Qed.

Lemma conn_SendHB_correct_witness :
  ∃ c' w', SendHB ex_pending 200 (ex_script [SysOk 16] []) = Ret (c', w') ∧ same_recv ex_pending c' ∧
           fd_to_close_ c' = fd_to_close_ ex_pending ∧ hb_ok c' ∧
           hb_result ex_pending c' (ex_script [SysOk 16] []) w' ex_q1 [ex_msg].
Proof. apply conn_SendHB_correct; [exact ex_conf_ok|reflexivity|exact ex_q1_rep|done]. Defined.

(** [Open] after a login: the messages [ms1] the peer has acknowledged
    are dropped, all of the others [ms2] are sendable again from the first
    one on, whatever had been sent before (the queue may come from a file,
    with any send index), and the receive buffer starts empty. *)
Theorem conn_Open_correct `{conf : Conf} {W} `{laws : OsLaws W} c fd ack now w q ms1 ms2 :
  Conf_ok → q_ c = Some q →
  live_rep TcpQueueSize ToLittleEndian is_little_endian q (ms1 ++ ms2) →
  0 ≤ ack < 4294967296 → 0 ≤ fd → ack_dist q ack = Z.of_nat (length ms1) →
  (recvbuf_size_ c = 0 ∨
   zlen (recvbuf_ c) = recvbuf_size_ c ∧ 0 < recvbuf_size_ c ≤ TcpRecvBufMaxSize) →
  ∃ c' w' q', Open c fd ack now w = Ret (c', w') ∧ q_ c' = Some q' ∧
    queue_rep TcpQueueSize ToLittleEndian is_little_endian q' ms2 ∧ read_seq_num_ q' = ack ∧
    recv_rep c' [] [] ∧
    (sockfd_ c' = fd ∧ (∃ ws, concat ms2 = ws ++ unsent q' ∧ only_sent fd w w' (words_bytes ws)) ∨
     sockfd_ c' = -1 ∧ (∃ bs rest, words_bytes (concat ms2) = bs ++ rest ∧ only_sent fd w w' bs)).
Proof.
  intros HC Hq Hrep Hack Hfd Hd Hbuf.
  destruct (Open_ok HC c fd ack now w q ms1 ms2 Hq Hrep Hack Hfd Hd) as
    (c' & w' & q1 & q' & Hopen & _ & Hq' & Hrep' & Hseq & _ & Hsent & _ & _ & Hr & Hn & Hw & Hsz & Hb).
  exists c', w', q'. do 4 (split; [done|]). split; [|done].
  pose proof (conf_init HC). pose proof (conf_max HC).
  constructor; rewrite ?Hr, ?Hn, ?Hw, ?slice_nil by lia; try done.
  destruct (Z.eqb_spec (recvbuf_size_ c) 0); destruct Hbuf as [?|[? ?]]; try lia;
    constructor; rewrite ?Hb, ?Hsz, ?Hr, ?Hn, ?Hw, ?zlen_repeat; lia.
Qed.

Lemma conn_Open_correct_witness :
  ∃ c' w' q', Open ex_pending 6 1 300 (ex_script [] []) = Ret (c', w') ∧ q_ c' = Some q' ∧
    queue_rep TcpQueueSize ToLittleEndian is_little_endian q' [] ∧ read_seq_num_ q' = 1 ∧ recv_rep c' [] [] ∧
    (sockfd_ c' = 6 ∧ (∃ ws, concat [] = ws ++ unsent q' ∧
                         only_sent 6 (ex_script [] []) w' (words_bytes ws)) ∨
     sockfd_ c' = -1 ∧ (∃ bs rest, words_bytes (concat []) = bs ++ rest ∧
                         only_sent 6 (ex_script [] []) w' bs)).
Proof.
  apply (conn_Open_correct ex_pending 6 1 300 (ex_script [] []) ex_q1 [ex_msg] []);
    [exact ex_conf_ok|reflexivity|exact (proj1 ex_q1_rep)|lia|lia|reflexivity|
     right; vm_compute; repeat split; discriminate].
Defined.
