(* ===== verification/TcpShmConn.v ===== *)
(** * The connection of the user ([tcpshm_conn.h])

    [TcpShmConnection] is the class of the same name: a TCP connection and,
    when shared memory is used, the two mapped queues ([None] for [nullptr]).
    [char] arrays are lists of bytes, and [strncpy] and [strncmp] those of C;
    [std::string]s are lists of bytes without the terminator.  The value of a
    shared queue is what its memory holds when the member function runs; the
    interleaving with the other process is the subject of [SpscConcurrent]. *)

From S2P Require Import Prelude.
From S2P Require Import Arrays.
From S2P Require Import MsgHeader.
From S2P Require Import PtcpQueue.
From S2P Require Import SpscQueue.
From S2P Require Import Platform.
From S2P Require Import PtcpConn.

(** ** C strings *)

(** The characters before the terminator. *)
Fixpoint c_str (s : list Z) : list Z :=
  match s with
  | [] => []
  | ch :: s => if ch =? 0 then [] else ch :: c_str s
  end.

(** [strncpy(dst, src, n)]: at most [n] characters, then zeros up to [n]. *)
Definition strncpy (dst src : list Z) (n : Z) : outcome (list Z) :=
  let s := take (Z.to_nat n) (c_str src) in
  memcpy dst 0 (s ++ repeat 0 (Z.to_nat n - length s)).

(** [strncmp(a, b, n) == 0] *)
Definition strncmp_eq (a b : list Z) (n : Z) : bool :=
  bool_decide (take (Z.to_nat n) (c_str a) = take (Z.to_nat n) (c_str b)).

(** A string literal. *)
Definition chars (s : string) : list Z :=
  (λ a, Z.of_N (Ascii.N_of_ascii a)) <$> String.list_ascii_of_string s.

(** [s[0]] *)
Definition first_char (s : list Z) : outcome Z := get s 0.

(** ** The connection *)

Record TcpShmConnection := mkTcpShmConnection {
  local_name_ : list Z;
  remote_name_ : list Z;
  ptcp_dir_ : list Z;
  ptcp_conn_ : PTCPConnection;
  shm_sendq_ : option SPSCVarQueue;
  shm_recvq_ : option SPSCVarQueue
}.

Definition set_remote_name (c : TcpShmConnection) (n : list Z) : TcpShmConnection :=
  mkTcpShmConnection (local_name_ c) n (ptcp_dir_ c) (ptcp_conn_ c) (shm_sendq_ c) (shm_recvq_ c).
Definition set_ptcp_conn (c : TcpShmConnection) (p : PTCPConnection) : TcpShmConnection :=
  mkTcpShmConnection (local_name_ c) (remote_name_ c) (ptcp_dir_ c) p (shm_sendq_ c) (shm_recvq_ c).
Definition set_shm_sendq (c : TcpShmConnection) (q : option SPSCVarQueue) : TcpShmConnection :=
  mkTcpShmConnection (local_name_ c) (remote_name_ c) (ptcp_dir_ c) (ptcp_conn_ c) q (shm_recvq_ c).
Definition set_shm_recvq (c : TcpShmConnection) (q : option SPSCVarQueue) : TcpShmConnection :=
  mkTcpShmConnection (local_name_ c) (remote_name_ c) (ptcp_dir_ c) (ptcp_conn_ c) (shm_sendq_ c) q.

Section TcpShmConnection.
Context {conf : Conf} {W : Type} {os : Os W}.
Context {mmq : MmapOs W PTCPQueue} {mms : MmapOs W SPSCVarQueue}.

(** [TcpShmConnection()]: only the first character of [remote_name_] is
    initialised, the rest of the array is [junk]. *)
Definition new_TcpShmConnection (junk : list Z) : TcpShmConnection :=
  mkTcpShmConnection [] (0 :: junk) [] new_PTCPConnection None None.

Definition init (c : TcpShmConnection) (ptcp_dir local_name : list Z) : TcpShmConnection :=
  mkTcpShmConnection local_name (remote_name_ c) ptcp_dir (ptcp_conn_ c) (shm_sendq_ c) (shm_recvq_ c).

Definition GetPtcpFile (c : TcpShmConnection) : list Z :=
  ptcp_dir_ c ++ chars "/" ++ c_str (local_name_ c) ++ chars "_" ++ c_str (remote_name_ c) ++ chars ".ptcp".

Definition GetRemoteName (c : TcpShmConnection) : list Z := remote_name_ c.
Definition GetLocalName (c : TcpShmConnection) : list Z := local_name_ c.
Definition GetPtcpDir (c : TcpShmConnection) : list Z := ptcp_dir_ c.

(** The names of the two queues as [a] sees them. *)
Definition shm_file (a b : list Z) : list Z :=
  chars "/" ++ c_str a ++ chars "_" ++ c_str b ++ chars ".shm".

Definition IsClosed (c : TcpShmConnection) : bool := PtcpConn.IsClosed (ptcp_conn_ c).
Definition Close (c : TcpShmConnection) : TcpShmConnection :=
  set_ptcp_conn c (RequestClose (ptcp_conn_ c)).
Definition GetCloseReason (c : TcpShmConnection) : string * Z := PtcpConn.GetCloseReason (ptcp_conn_ c).

Definition Alloc (c : TcpShmConnection) (size : Z) : outcome (option Z * TcpShmConnection) :=
  match shm_sendq_ c with
  | Some q => '(p, q) ← SpscQueue.Alloc ShmQueueSize q size; Ret (p, set_shm_sendq c (Some q))
  | None => '(p, t) ← Conn_Alloc (ptcp_conn_ c) size; Ret (p, set_ptcp_conn c t)
  end.

Definition Push (c : TcpShmConnection) (w : W) : outcome (TcpShmConnection * W) :=
  match shm_sendq_ c with
  | Some q => q ← SpscQueue.Push ShmQueueSize q; Ret (set_shm_sendq c (Some q), w)
  | None => '(t, w) ← Conn_Push (ptcp_conn_ c) w; Ret (set_ptcp_conn c t, w)
  end.

Definition PushMore (c : TcpShmConnection) : outcome TcpShmConnection :=
  match shm_sendq_ c with
  | Some q => q ← SpscQueue.Push ShmQueueSize q; Ret (set_shm_sendq c (Some q))
  | None => t ← PtcpConn.PushMore (ptcp_conn_ c); Ret (set_ptcp_conn c t)
  end.

Definition Front (c : TcpShmConnection) (w : W) : outcome (option Z * TcpShmConnection * W) :=
  match shm_recvq_ c with
  | Some q => '(p, q) ← SpscQueue.Front ShmQueueSize q; Ret (p, set_shm_recvq c (Some q), w)
  | None => '(p, t, w) ← PtcpConn.Front (ptcp_conn_ c) w; Ret (p, set_ptcp_conn c t, w)
  end.

Definition Pop (c : TcpShmConnection) : outcome TcpShmConnection :=
  match shm_recvq_ c with
  | Some q => q ← SpscQueue.Pop ShmQueueSize q; Ret (set_shm_recvq c (Some q))
  | None => t ← PtcpConn.Pop (ptcp_conn_ c); Ret (set_ptcp_conn c t)
  end.

(** [sizeof(SHMQ)]: the blocks and three groups of indices, each at an
    alignment of 128, padded to 128. *)
Definition sizeof_SPSCVarQueue : Z := div_up ShmQueueSize 128 * 128 + 384.

(** Mapping one of the shared queues unless it is. *)
Definition open_shm (q : option SPSCVarQueue) (file : list Z) (w : W)
    : (SPSCVarQueue + string) * W :=
  match q with
  | Some q => (inl q, w)
  | None => my_mmap sizeof_SPSCVarQueue file true w
  end.

(** The error message, [None] for [true]. *)
Definition OpenFile (c : TcpShmConnection) (use_shm : bool) (w : W)
    : option string * TcpShmConnection * W :=
  if use_shm then
    let shm_send_file := shm_file (local_name_ c) (remote_name_ c) in
    let shm_recv_file := shm_file (remote_name_ c) (local_name_ c) in
    match open_shm (shm_sendq_ c) shm_send_file w with
    | (inr error_msg, w) => (Some error_msg, c, w)
    | (inl q, w) =>
        let c := set_shm_sendq c (Some q) in
        match open_shm (shm_recvq_ c) shm_recv_file w with
        | (inr error_msg, w) => (Some error_msg, c, w)
        | (inl q, w) => (None, set_shm_recvq c (Some q), w)
        end
    end
  else
    let '(error_msg, t, w) := PtcpConn.OpenFile (ptcp_conn_ c) (GetPtcpFile c) w in
    (error_msg, set_ptcp_conn c t, w).

(** The numbers a [GetSeq] is given to overwrite: local ack, first and last
    sequence number. *)
Record seqs := mkSeqs { sq_local_ack : Z; sq_start : Z; sq_end : Z }.

(** [false]: "Ptcp file corrupt". *)
Definition GetSeq (c : TcpShmConnection) (s : seqs) : outcome (bool * seqs) :=
  match shm_sendq_ c with
  | Some _ => Ret (true, s)
  | None =>
      '(ack, r) ← PtcpConn.GetSeq (ptcp_conn_ c);
      match r with
      | Some (start, end_) => Ret (true, mkSeqs ack start end_)
      | None => Ret (false, mkSeqs ack (sq_start s) (sq_end s))
      end
  end.

Definition Reset (c : TcpShmConnection) : outcome TcpShmConnection :=
  match shm_sendq_ c with
  | Some _ =>
      match shm_recvq_ c with
      | Some _ => Ret (set_shm_recvq (set_shm_sendq c (Some (new_SPSCVarQueue ShmQueueSize)))
                         (Some (new_SPSCVarQueue ShmQueueSize)))
      | None => Undef
      end
  | None => t ← PtcpConn.Reset (ptcp_conn_ c); Ret (set_ptcp_conn c t)
  end.

(** [if(q) { my_munmap(q); q = nullptr; }] *)
Definition unmap_shm (q : option SPSCVarQueue) (w : W) : W :=
  match q with Some q => my_munmap q w | None => w end.

Definition Release (c : TcpShmConnection) (w : W) : outcome (TcpShmConnection * W) :=
  name ← put (remote_name_ c) 0 0;
  let c := set_remote_name c name in
  let w := unmap_shm (shm_sendq_ c) w in
  let c := set_shm_sendq c None in
  let w := unmap_shm (shm_recvq_ c) w in
  let c := set_shm_recvq c None in
  let '(t, w) := PtcpConn.Release (ptcp_conn_ c) w in
  Ret (set_ptcp_conn c t, w).

Definition Open (c : TcpShmConnection) (sock_fd remote_ack_seq now : Z) (w : W)
    : outcome (TcpShmConnection * W) :=
  '(t, w) ← PtcpConn.Open (ptcp_conn_ c) sock_fd remote_ack_seq now w;
  Ret (set_ptcp_conn c t, w).

Definition TryCloseFd (c : TcpShmConnection) (w : W) : bool * TcpShmConnection * W :=
  let '(r, t, w) := PtcpConn.TryCloseFd (ptcp_conn_ c) w in (r, set_ptcp_conn c t, w).

Definition TcpFront (c : TcpShmConnection) (now : Z) (w : W)
    : outcome (option Z * TcpShmConnection * W) :=
  '(t, w) ← SendHB (ptcp_conn_ c) now w;
  '(p, t, w) ← PtcpConn.Front t w;
  Ret (p, set_ptcp_conn c t, w).

Definition ShmFront (c : TcpShmConnection) : outcome (option Z * TcpShmConnection) :=
  match shm_recvq_ c with
  | None => Undef
  | Some q => '(p, q) ← SpscQueue.Front ShmQueueSize q; Ret (p, set_shm_recvq c (Some q))
  end.
End TcpShmConnection.
