(* ===== verification/ShmLink.v ===== *)
(** * Two processes over shared memory

    A client and a server whose [TcpShmConnection]s use shared memory: the
    queues are objects of the system with a name ([shm_mem]), the members
    [shm_sendq_] and [shm_recvq_] say whether they are mapped.  A step
    ([shm_step]) is one access of one of the four threads to its queue, as in
    [SpscConcurrent], a call of [OpenFile] or [Reset] of [tcpshm_conn.h], or
    the end of a process at any of its stores, as in [SpscCrash].  A login is
    [OpenFile] on both sides, and [Reset] when the client does not come from
    this server; a socket that breaks does not touch the queues. *)

From stdpp Require Import gmap.
From S2P Require Import Prelude.
From S2P Require Import Arrays.
From S2P Require Import MsgHeader.
From S2P Require Import PtcpQueue.
From S2P Require Import SpscQueue.
From S2P Require Import SpscConcurrent.
From S2P Require Import SpscCrash.
From S2P Require Import Platform.
From S2P Require PtcpConn.
From S2P Require Import TcpShmConn.

(** ** Named shared memory *)

Abbreviation shm_mem := (gmap (list Z) SPSCVarQueue).

(** The world of a call: the memory, the names of the descriptors that were
    opened, and which of the next [shm_open]s succeed. *)
Record shm_world := mkShmWorld { sw_mem : shm_mem; sw_names : list (list Z); sw_opens : list bool }.

Section world.
Context {conf : Conf}.

(** A new object is filled with zeros by [ftruncate]; an old one keeps its
    bytes. *)
Definition truncate (m : shm_mem) (name : list Z) : shm_mem :=
  match m !! name with
  | Some _ => m
  | None => <[name := new_SPSCVarQueue ShmQueueSize]> m
  end.

#[export] Instance shm_mmap : MmapOs shm_world SPSCVarQueue := {
  os_open name _ w :=
    if default false (head (sw_opens w)) then
      (SysOk (zlen (sw_names w)), mkShmWorld (sw_mem w) (sw_names w ++ [name]) (tail (sw_opens w)))
    else (SysErr 13, mkShmWorld (sw_mem w) (sw_names w) (tail (sw_opens w)));
  os_ftruncate fd _ w :=
    match sw_names w !! Z.to_nat fd with
    | Some name => (false, mkShmWorld (truncate (sw_mem w) name) (sw_names w) (sw_opens w))
    | None => (true, w)
    end;
  os_mmap fd w :=
    (name ← sw_names w !! Z.to_nat fd; sw_mem w !! name, w);
  os_close_file _ w := w;
  os_munmap _ w := w
}.

(** A connection over shared memory has no other mapped file. *)
#[export] Instance shm_no_ptcp : MmapOs shm_world PTCPQueue := {
  os_open _ _ w := (SysErr 13, w);
  os_ftruncate _ _ w := (true, w);
  os_mmap _ w := (None, w);
  os_close_file _ w := w;
  os_munmap _ w := w
}.
End world.

(** ** The system *)

Record host := mkHost { h_conn : TcpShmConnection; h_wr : writer; h_rd : reader }.
Record shm_link := mkShmLink { sl_mem : shm_mem; sl_client : host; sl_server : host }.

(** [true] is the server. *)
Definition host_of (s : shm_link) (b : bool) : host := if b then sl_server s else sl_client s.
Definition set_host (s : shm_link) (b : bool) (m : shm_mem) (h : host) : shm_link :=
  if b then mkShmLink m (sl_client s) h else mkShmLink m h (sl_server s).

Definition send_file (c : TcpShmConnection) : list Z := shm_file (local_name_ c) (remote_name_ c).
Definition recv_file (c : TcpShmConnection) : list Z := shm_file (remote_name_ c) (local_name_ c).

Definition is_writer (a : action) : bool :=
  match a with AStart _ | ALoad | ARewind | AHeader | AType _ | ACell _ _ | APush => true | _ => false end.

Inductive shm_action : Type :=
  | SThread (b : bool) (a : action)            (* a step of the writing or the reading thread of [b] *)
  | SOpenFile (b : bool) (opens : list bool)
  | SReset (b : bool)
  | SDie (b : bool) (cut : crash_action).      (* the process ends; [cut]: where its writing thread is *)

Section shm_link.
Context {conf : Conf}.
Abbreviation Bytes := ShmQueueSize.

(** The queues of a connection are what the memory holds. *)
Definition load (m : shm_mem) (c : TcpShmConnection) : TcpShmConnection :=
  let c := set_shm_sendq c (_ ← shm_sendq_ c; m !! send_file c) in
  set_shm_recvq c (_ ← shm_recvq_ c; m !! recv_file c).

Definition put_queue (name : list Z) (q : option SPSCVarQueue) (m : shm_mem) : shm_mem :=
  match q with Some q => <[name := q]> m | None => m end.
Definition store (c : TcpShmConnection) (m : shm_mem) : shm_mem :=
  put_queue (recv_file c) (shm_recvq_ c) (put_queue (send_file c) (shm_sendq_ c) m).

(** A process that starts again; its peer has the name it had. *)
Definition restarted (c : TcpShmConnection) : TcpShmConnection :=
  mkTcpShmConnection (local_name_ c) (remote_name_ c) (ptcp_dir_ c) PtcpConn.new_PTCPConnection None None.

(** What a step shows of the queue that [true] or [false] writes. *)
Abbreviation shm_event := (bool * crash_event)%type.

(** [None]: the thread has no such step, or the queue is not mapped. *)
Definition shm_step (s : shm_link) (a : shm_action) : option (outcome (list shm_event * shm_link)) :=
  match a with
  | SThread b a =>
      let h := host_of s b in
      let c := load (sl_mem s) (h_conn h) in
      if is_writer a then
        q ← shm_sendq_ c;
        o ← do_action Bytes (mkSys q (h_wr h) RIdle) a;
        Some ('(e, sy) ← o;
              Ret ([(b, CEvent e)],
                   set_host s b (<[send_file c := queue sy]> (sl_mem s)) (mkHost (h_conn h) (wr sy) (h_rd h))))
      else
        q ← shm_recvq_ c;
        o ← do_action Bytes (mkSys q WIdle (h_rd h)) a;
        Some ('(e, sy) ← o;
              Ret ([(negb b, CEvent e)],
                   set_host s b (<[recv_file c := queue sy]> (sl_mem s)) (mkHost (h_conn h) (h_wr h) (rd sy))))
  | SOpenFile b opens =>
      let h := host_of s b in
      let '(_, c, w) := OpenFile (load (sl_mem s) (h_conn h)) true (mkShmWorld (sl_mem s) [] opens) in
      Some (Ret ([], set_host s b (sw_mem w) (mkHost c (h_wr h) (h_rd h))))
  | SReset b =>
      let h := host_of s b in
      Some (c ← Reset (load (sl_mem s) (h_conn h));
            Ret ([], set_host s b (store c (sl_mem s)) (mkHost c (h_wr h) (h_rd h))))
  | SDie b cut =>
      let h := host_of s b in
      let c := load (sl_mem s) (h_conn h) in
      match shm_sendq_ c, cut with
      | Some q, (CWriter | CRewind | CPush) =>
          o ← do_crash Bytes (mkSys q (h_wr h) RIdle) cut;
          Some ('(e, sy) ← o;
                Ret ([(b, e); (negb b, CDied)],
                     set_host s b (<[send_file c := queue sy]> (sl_mem s)) (mkHost (restarted (h_conn h)) WIdle RIdle)))
      | None, CWriter =>
          Some (Ret ([(b, CDied); (negb b, CDied)], set_host s b (sl_mem s) (mkHost (restarted (h_conn h)) WIdle RIdle)))
      | _, _ => None
      end
  end.

Fixpoint shm_run (s : shm_link) (acts : list shm_action) : option (outcome (list shm_event * shm_link)) :=
  match acts with
  | [] => Some (Ret ([], s))
  | a :: acts =>
      match shm_step s a with
      | Some (Ret (e, s)) =>
          match shm_run s acts with
          | Some (Ret (es, s)) => Some (Ret (e ++ es, s))
          | r => r
          end
      | Some Undef => Some Undef
      | Some NoFuel => Some NoFuel
      | None => None
      end
  end.

(** Two connections that know each other's names, and nothing mapped. *)
Definition new_conn (local remote : list Z) : TcpShmConnection :=
  mkTcpShmConnection local remote [] PtcpConn.new_PTCPConnection None None.
Definition start_link (client server : list Z) : shm_link :=
  mkShmLink ∅ (mkHost (new_conn client server) WIdle RIdle) (mkHost (new_conn server client) WIdle RIdle).

(** The first login: [HandleLogin] maps and resets and sends the reply; then
    [Connect] does so. *)
Definition handle_login : list shm_action := [SOpenFile true [true; true]; SReset true].
Definition connect_new : list shm_action := [SOpenFile false [true; true]; SReset false].

(** What is shown of the queue that [b] writes. *)
Definition dir (b : bool) (es : list shm_event) : list crash_event :=
  omap (λ '(b', e), if eqb b b' then Some e else None) es.
End shm_link.
