(* ===== verification/ShmLinkProps.v ===== *)
(** * Properties of two processes over shared memory

    Each queue of a [shm_link] is one of [SpscCrash], and the two do not
    meet: [shm_step_ok] projects every step to both.  From the first login
    on each user gets what the other pushed ([shm_delivery]); a message that
    the server pushes during the first login is lost
    ([shm_first_login_loses]). *)

From stdpp Require Import gmap.
From S2P Require Import Prelude.
From S2P Require Import Arrays.
From S2P Require Import MsgHeader.
From S2P Require Import PtcpQueue.
From S2P Require Import SpscQueue.
From S2P Require Import SpscConcurrent.
From S2P Require Import SpscInv.
From S2P Require Import SpscProps.
From S2P Require Import SpscCrash.
From S2P Require Import Platform.
From S2P Require PtcpConn.
From S2P Require Import TcpShmConn.
From S2P Require Import ShmLink.
From S2P Require Import Scripted.

(** ** The threads of a queue do not look at each other *)

Section frame.
Context (Bytes : Z).

Definition with_rd (r : reader) (s : sys) : sys := mkSys (queue s) (wr s) r.
Definition with_wr (v : writer) (s : sys) : sys := mkSys (queue s) v (rd s).
Definition on_sys {E} (f : sys → sys) (o : outcome (E * sys)) : outcome (E * sys) := '(e, s) ← o; Ret (e, f s).

(** Runs what both sides run. *)
Ltac both_sides :=
  repeat first
    [ done
    | match goal with |- context [mbind (M := outcome) ?f ?x] => destruct x eqn:?; simpl end
    | case_match ].

Lemma writer_frame q v r a :
  is_writer a = true →
  do_action Bytes (mkSys q v r) a = on_sys (with_rd r) <$> do_action Bytes (mkSys q v RIdle) a.
Proof.
  destruct a; try done; intros _; destruct v; try done; cbn [do_action queue wr rd];
    unfold Alloc_rewind, Alloc_header, Push; both_sides.
Qed.

Lemma reader_frame q v r a :
  is_writer a = false →
  do_action Bytes (mkSys q v r) a = on_sys (with_wr v) <$> do_action Bytes (mkSys q WIdle r) a.
Proof.
  destruct a; try done; intros _; destruct v, r; try done; cbn [do_action queue wr rd];
    unfold Front_check, Pop; both_sides.
Qed.

Lemma cut_frame q v r cut :
  match cut with CWriter | CRewind | CPush => True | _ => False end →
  do_crash Bytes (mkSys q v r) cut = on_sys (with_rd r) <$> do_crash Bytes (mkSys q v RIdle) cut.
Proof.
  destruct cut; try done; intros _; destruct v; try done; cbn [do_crash queue wr rd];
    unfold Alloc_rewind_cut, Push_cut; both_sides.
Qed.
End frame.

(** ** The two queues *)

Section link.
Context {conf : Conf} (HC : Conf_ok) (client server : list Z).
Context (Hne : shm_file client server ≠ shm_file server client).
Abbreviation Bytes := ShmQueueSize.
Abbreviation messages := (list (list MsgHeader)).
Implicit Types (q : bool → SPSCVarQueue) (P L : bool → messages).

(** The object that [b] writes. *)
Definition file (b : bool) : list Z := if b then shm_file server client else shm_file client server.

Lemma file_ne b : file b ≠ file (negb b).
Proof. destruct b; [by apply not_eq_sym|done]. Qed.

Record wired (s : shm_link) q : Prop := {
  w_send b : send_file (h_conn (host_of s b)) = file b;
  w_recv b : recv_file (h_conn (host_of s b)) = file (negb b);
  w_mem b : sl_mem s !! file b = Some (q b)
}.

Definition upd {A} (f : bool → A) (d : bool) (x : A) : bool → A := λ b, if eqb d b then x else f b.
Lemma upd_at {A} (f : bool → A) d x : upd f d x d = x.
Proof. unfold upd. by rewrite eqb_reflx. Qed.
Lemma upd_neg {A} (f : bool → A) d x : upd f d x (negb d) = f (negb d).
Proof. by destruct d. Qed.

(** The system of the queue that [b] writes. *)
Definition dsys q (s : shm_link) (b : bool) : sys := mkSys (q b) (h_wr (host_of s b)) (h_rd (host_of s (negb b))).

Definition linked (s : shm_link) P L : Prop :=
  ∃ q, wired s q ∧ ∀ b, Inv Bytes (dsys q s b) (P b) (L b).

Lemma host_same s b m h : host_of (set_host s b m h) b = h.
Proof. by destruct b. Qed.
Lemma host_neg s b m h : host_of (set_host s b m h) (negb b) = host_of s (negb b).
Proof. by destruct b. Qed.
Lemma set_mem s b m h : sl_mem (set_host s b m h) = m.
Proof. by destruct b. Qed.

(** What holds of [d] and of the other one holds of both. *)
Lemma both (d : bool) (Q : bool → Prop) : Q d → Q (negb d) → ∀ b, Q b.
Proof. intros H1 H2 b. destruct (eqb d b) eqn:E; [by apply eqb_prop in E as <-|]. by destruct d, b. Qed.

Lemma wired_set s q b d c v r x :
  wired s q → send_file c = file b → recv_file c = file (negb b) →
  wired (set_host s b (<[file d := x]> (sl_mem s)) (mkHost c v r)) (upd q d x).
Proof.
  intros [Hs Hr Hm] Hsc Hrc. constructor.
  - apply (both b); [by rewrite host_same|by rewrite host_neg].
  - apply (both b); [by rewrite host_same|by rewrite host_neg].
  - intros d'. rewrite set_mem. revert d'. apply (both d); rewrite ?upd_at, ?upd_neg.
    + by rewrite lookup_insert_eq.
    + rewrite lookup_insert_ne by apply file_ne. apply Hm.
Qed.

Lemma wired_conn s q b h :
  wired s q → send_file (h_conn h) = file b → recv_file (h_conn h) = file (negb b) →
  wired (set_host s b (sl_mem s) h) q.
Proof.
  intros [Hs Hr Hm] Hsc Hrc. constructor.
  - apply (both b); [by rewrite host_same|by rewrite host_neg].
  - apply (both b); [by rewrite host_same|by rewrite host_neg].
  - intros d'. by rewrite set_mem.
Qed.

Lemma dir_same b e : dir b [(b, e)] = [e].
Proof. by destruct b. Qed.
Lemma dir_neg b e : dir (negb b) [(b, e)] = [].
Proof. by destruct b. Qed.

(** A step on the queue that [d] writes, made by [b]. *)
Lemma one_dir s q P L b d c v r e x p l :
  wired s q → send_file c = file b → recv_file c = file (negb b) →
  (∀ b', Inv Bytes (dsys q s b') (P b') (L b')) →
  fifo_crash_step (P d) (L d) e = Some (p, l) →
  let s' := set_host s b (<[file d := x]> (sl_mem s)) (mkHost c v r) in
  Inv Bytes (dsys (upd q d x) s' d) p l → dsys (upd q d x) s' (negb d) = dsys q s (negb d) →
  linked s' (upd P d p) (upd L d l) ∧
  ∀ b', fifo_crash_run (P b') (L b') (dir b' [(d, e)]) = Some (upd P d p b', upd L d l b').
Proof.
  intros Hw Hs Hr Hinv Hf s' Hd Hn. split.
  - exists (upd q d x). split; [by apply wired_set|]. apply (both d); rewrite ?upd_at, ?upd_neg; [done|by rewrite Hn].
  - apply (both d); rewrite ?upd_at, ?upd_neg, ?dir_same, ?dir_neg; [|done]. simpl. by rewrite Hf.
Qed.

(** *** [OpenFile] *)

Lemma my_mmap_known name n w :
  is_Some (sw_mem w !! name) → sw_mem (my_mmap (T := SPSCVarQueue) n name true w).2 = sw_mem w.
Proof.
  intros [q0 Hq]. destruct w as [m names opens]. unfold my_mmap. simpl in *. destruct (default _ _); [|done]. simpl.
  assert ((names ++ [name]) !! Z.to_nat (zlen names) = Some name) as Hn.
  { unfold zlen. rewrite Nat2Z.id. by apply list_lookup_middle. }
  rewrite Hn. simpl. rewrite Hn. simpl. unfold truncate. rewrite Hq, Hq. done.
Qed.

Lemma open_shm_known o name w : is_Some (sw_mem w !! name) → sw_mem (open_shm o name w).2 = sw_mem w.
Proof. intros Hn. unfold open_shm. destruct o; [done|]. by apply my_mmap_known. Qed.

Lemma OpenFile_known c w :
  is_Some (sw_mem w !! send_file c) → is_Some (sw_mem w !! recv_file c) →
  sw_mem (OpenFile c true w).2 = sw_mem w ∧
  send_file (OpenFile c true w).1.2 = send_file c ∧ recv_file (OpenFile c true w).1.2 = recv_file c.
Proof.
  intros Hs Hr. unfold OpenFile. unfold send_file, recv_file in *.
  pose proof (open_shm_known (shm_sendq_ c) _ w Hs) as H1.
  destruct (open_shm (shm_sendq_ c) _ w) as [[q1|e1] w1]; simpl in *; [|done].
  rewrite <-H1 in Hr. pose proof (open_shm_known (shm_recvq_ c) _ w1 Hr) as H2.
  destruct (open_shm (shm_recvq_ c) _ w1) as [[q2|e2] w2]; simpl in *; by rewrite H2.
Qed.

(** ** The steps *)

Lemma dsys_frame q s b m h :
  h_wr h = h_wr (host_of s b) → h_rd h = h_rd (host_of s b) → ∀ b', dsys q (set_host s b m h) b' = dsys q s b'.
Proof.
  intros Hw Hr. unfold dsys. apply (both b); rewrite ?negb_involutive, ?host_same, ?host_neg; by rewrite ?Hw, ?Hr.
Qed.

Definition keeps (a : shm_action) : Prop := match a with SReset _ => False | _ => True end.

Definition step_ok (o : outcome (list (bool * crash_event) * shm_link)) P L : Prop :=
  ∃ es s' P' L', o = Ret (es, s') ∧ linked s' P' L' ∧
    ∀ b, fifo_crash_run (P b) (L b) (dir b es) = Some (P' b, L' b).

Lemma thread_writer_ok s q P L b a o0 :
  wired s q → (∀ b', Inv Bytes (dsys q s b') (P b') (L b')) → is_writer a = true →
  do_action Bytes (mkSys (q b) (h_wr (host_of s b)) RIdle) a = Some o0 →
  step_ok ('(e, sy) ← o0;
           Ret ([(b, CEvent e)], set_host s b (<[file b := queue sy]> (sl_mem s))
                                   (mkHost (h_conn (host_of s b)) (wr sy) (h_rd (host_of s b))))) P L.
Proof.
  intros Hw Hinv Ha Ho.
  assert (do_crash Bytes (dsys q s b) (CStep a) =
    Some ('(e, sy) ← on_sys (with_rd (h_rd (host_of s (negb b)))) o0; Ret (CEvent e, sy))) as Hc.
  { unfold dsys, do_crash. simpl. by rewrite (writer_frame _ _ _ _ _ Ha), Ho. }
  destruct (do_crash_ok Bytes (conf_shm HC) _ _ _ _ _ (Hinv b) Hc) as (ev & s1 & p & l & He & Hf & Hi).
  destruct o0 as [[e sy]| |]; try done. injection He as <- <-. rewrite outcome_bind_Ret.
  destruct (one_dir s q P L b b (h_conn (host_of s b)) (wr sy) (h_rd (host_of s b)) (CEvent e) (queue sy) p l Hw)
    as [Hl Hd]; [apply Hw|apply Hw|done|done| | |by eexists _, _, _, _].
  - unfold dsys. rewrite upd_at, host_same, host_neg. exact Hi.
  - unfold dsys. rewrite upd_neg, negb_involutive, host_same, host_neg. done.
Qed.

Lemma thread_reader_ok s q P L b a o0 :
  wired s q → (∀ b', Inv Bytes (dsys q s b') (P b') (L b')) → is_writer a = false →
  do_action Bytes (mkSys (q (negb b)) WIdle (h_rd (host_of s b))) a = Some o0 →
  step_ok ('(e, sy) ← o0;
           Ret ([(negb b, CEvent e)], set_host s b (<[file (negb b) := queue sy]> (sl_mem s))
                                        (mkHost (h_conn (host_of s b)) (h_wr (host_of s b)) (rd sy)))) P L.
Proof.
  intros Hw Hinv Ha Ho.
  assert (do_crash Bytes (dsys q s (negb b)) (CStep a) =
    Some ('(e, sy) ← on_sys (with_wr (h_wr (host_of s (negb b)))) o0; Ret (CEvent e, sy))) as Hc.
  { unfold dsys, do_crash. rewrite negb_involutive. simpl. by rewrite (reader_frame _ _ _ _ _ Ha), Ho. }
  destruct (do_crash_ok Bytes (conf_shm HC) _ _ _ _ _ (Hinv (negb b)) Hc) as (ev & s1 & p & l & He & Hf & Hi).
  destruct o0 as [[e sy]| |]; try done. injection He as <- <-. rewrite outcome_bind_Ret.
  destruct (one_dir s q P L b (negb b) (h_conn (host_of s b)) (h_wr (host_of s b)) (rd sy) (CEvent e) (queue sy) p l Hw)
    as [Hl Hd]; [apply Hw|apply Hw|done|done| | |by eexists _, _, _, _].
  - unfold dsys. rewrite upd_at, negb_involutive, host_same, host_neg. exact Hi.
  - unfold dsys. rewrite upd_neg, negb_involutive, host_same, host_neg. done.
Qed.

Lemma die_ok s q P L b e x p l :
  wired s q → (∀ b', Inv Bytes (dsys q s b') (P b') (L b')) →
  fifo_crash_step (P b) (L b) e = Some (p, l) → Inv Bytes (mkSys x WIdle (h_rd (host_of s (negb b)))) p l →
  step_ok (Ret ([(b, e); (negb b, CDied)],
                set_host s b (<[file b := x]> (sl_mem s)) (mkHost (restarted (h_conn (host_of s b))) WIdle RIdle))) P L.
Proof.
  intros Hw Hinv Hf Hi. eexists _, _, (upd P b p), (upd L b l). split; [done|]. split.
  - exists (upd q b x). split; [apply wired_set; [done|apply Hw..]|].
    apply (both b); unfold dsys; rewrite ?upd_at, ?upd_neg, ?negb_involutive, ?host_same, ?host_neg; [exact Hi|].
    destruct (Hinv (negb b)) as (R & A & E & W & C & Hn). unfold dsys in Hn. rewrite negb_involutive in Hn.
    exists R, A, E, W, C. by apply inv_reader_died in Hn.
  - apply (both b); rewrite ?upd_at, ?upd_neg; destruct b; simpl; rewrite ?Hf; done.
Qed.

Lemma load_names m c : send_file (load m c) = send_file c ∧ recv_file (load m c) = recv_file c.
Proof. done. Qed.

Lemma load_sendq s q b x : wired s q → shm_sendq_ (load (sl_mem s) (h_conn (host_of s b))) = Some x → x = q b.
Proof.
  intros Hw. simpl. destruct (shm_sendq_ _); [|done]. simpl. rewrite (w_send _ _ Hw), (w_mem _ _ Hw). by intros [= <-].
Qed.
Lemma load_recvq s q b x : wired s q → shm_recvq_ (load (sl_mem s) (h_conn (host_of s b))) = Some x → x = q (negb b).
Proof.
  intros Hw. simpl. destruct (shm_recvq_ _); [|done]. simpl.
  change (recv_file (set_shm_sendq ?c _)) with (recv_file c). rewrite (w_recv _ _ Hw), (w_mem _ _ Hw). by intros [= <-].
Qed.

Lemma shm_step_ok s P L a o :
  keeps a → linked s P L → shm_step s a = Some o → step_ok o P L.
Proof.
  intros Hk (q & Hw & Hinv) H. destruct a as [b a|b opens|b|b cut]; [| |done|]; cbn [shm_step] in H; cbv zeta in H.
  - destruct (is_writer a) eqn:Ha.
    + destruct (shm_sendq_ _) as [x|] eqn:Hq; [|done]. apply (load_sendq _ _ _ _ Hw) in Hq as ->. simpl in H.
      destruct (do_action _ _ _) as [o0|] eqn:Ho; [|done]. injection H as <-.
      rewrite (proj1 (load_names _ _)), (w_send _ _ Hw). by apply (thread_writer_ok s q P L b a).
    + destruct (shm_recvq_ _) as [x|] eqn:Hq; [|done]. apply (load_recvq _ _ _ _ Hw) in Hq as ->. simpl in H.
      destruct (do_action _ _ _) as [o0|] eqn:Ho; [|done]. injection H as <-.
      rewrite (proj2 (load_names _ _)), (w_recv _ _ Hw). by apply (thread_reader_ok s q P L b a).
  - destruct (OpenFile_known (load (sl_mem s) (h_conn (host_of s b))) (mkShmWorld (sl_mem s) [] opens)) as (Hm & Hs & Hr).
    { rewrite (proj1 (load_names _ _)), (w_send _ _ Hw), (w_mem _ _ Hw). by eexists. }
    { rewrite (proj2 (load_names _ _)), (w_recv _ _ Hw), (w_mem _ _ Hw). by eexists. }
    destruct (OpenFile _ _ _) as [[e c] w]. injection H as <-. simpl in Hm, Hs, Hr.
    eexists [], _, P, L. split; [done|]. split; [|done]. rewrite Hm. exists q. split.
    + apply wired_conn; [done|simpl; rewrite Hs; apply Hw|simpl; rewrite Hr; apply Hw].
    + intros b'. by rewrite dsys_frame.
  - destruct (shm_sendq_ _) as [x|] eqn:Hq.
    + apply (load_sendq _ _ _ _ Hw) in Hq as ->. rewrite (proj1 (load_names _ _)), (w_send _ _ Hw) in H.
      assert (∃ o0, do_crash Bytes (mkSys (q b) (h_wr (host_of s b)) RIdle) cut = Some o0 ∧
        match cut with CWriter | CRewind | CPush => True | _ => False end ∧
        o = ('(e, sy) ← o0; Ret ([(b, e); (negb b, CDied)], set_host s b (<[file b := queue sy]> (sl_mem s))
               (mkHost (restarted (h_conn (host_of s b))) WIdle RIdle)))) as (o0 & Ho & Hcut & ->).
      { destruct cut; try done; (destruct (do_crash _ _ _) as [o0|] eqn:Ho; [|done]); injection H as <-; by exists o0. }
      assert (do_crash Bytes (dsys q s b) cut = Some (on_sys (with_rd (h_rd (host_of s (negb b)))) o0)) as Hc.
      { unfold dsys. by rewrite (cut_frame _ _ _ _ _ Hcut), Ho. }
      destruct (do_crash_ok Bytes (conf_shm HC) _ _ _ _ _ (Hinv b) Hc) as (ev & s1 & p & l & He & Hf & Hi).
      destruct o0 as [[e sy]| |]; try done. injection He as <- <-. rewrite outcome_bind_Ret.
      apply (die_ok s q P L b e (queue sy) p l Hw Hinv Hf).
      assert (wr sy = WIdle) as Hidle; [|by rewrite <-Hidle].
      clear -Ho Hcut. destruct cut; try done; cbn [do_crash wr queue rd] in Ho.
      * by simplify_eq.
      * destruct (h_wr _); try done. destruct (Alloc_rewind_cut _ _); simpl in Ho; by simplify_eq.
      * destruct (h_wr _); try done. destruct (message_at _ _ _); [|done..]. simpl in Ho.
        destruct (Push_cut _ _); simpl in Ho; by simplify_eq.
    + destruct cut; try done. injection H as <-.
      rewrite <-(insert_id (sl_mem s) (file b) (q b)) by apply Hw. apply (die_ok s q P L b CDied (q b) (P b) (L b) Hw Hinv); [done|].
      destruct (Hinv b) as (R & A & E & W & C & Hn). exists R, A, E, W, C. by apply inv_writer_died in Hn.
Qed.

Lemma shm_run_ok acts : ∀ s P L o,
  Forall keeps acts → linked s P L → shm_run s acts = Some o → step_ok o P L.
Proof.
  induction acts as [|a acts IH]; intros s P L o Hk Hl H; simpl in H.
  { injection H as <-. by exists [], s, P, L. }
  apply Forall_cons_1 in Hk as [Ha Hk]. destruct (shm_step s a) as [o1|] eqn:Hs; [|done].
  destruct (shm_step_ok s P L a o1 Ha Hl Hs) as (es1 & s1 & P1 & L1 & -> & Hl1 & Hf1).
  destruct (shm_run s1 acts) as [o2|] eqn:Hr; [|done].
  destruct (IH s1 P1 L1 o2 Hk Hl1 Hr) as (es2 & s2 & P2 & L2 & -> & Hl2 & Hf2). injection H as <-.
  exists (es1 ++ es2), s2, P2, L2. split; [done|]. split; [done|]. intros b. unfold dir. rewrite omap_app.
  etransitivity; [apply fifo_crash_run_app, Hf1|apply Hf2].
Qed.

(** ** A login with a new server *)

Abbreviation new_queue := (new_SPSCVarQueue Bytes).

Lemma my_mmap_opened name n m names opens :
  ∃ x : SPSCVarQueue, my_mmap n name true (mkShmWorld m names (true :: opens)) =
    (inl x, mkShmWorld (truncate m name) (names ++ [name]) opens).
Proof.
  unfold my_mmap. simpl.
  assert ((names ++ [name]) !! Z.to_nat (zlen names) = Some name) as Hn.
  { unfold zlen. rewrite Nat2Z.id. by apply list_lookup_middle. }
  rewrite Hn. simpl. rewrite Hn. simpl. unfold truncate. destruct (m !! name) as [q0|] eqn:Hq.
  - rewrite Hq. by exists q0.
  - rewrite lookup_insert_eq. by eexists.
Qed.

Lemma truncate_known m name name' : is_Some (m !! name') → is_Some (truncate m name !! name').
Proof.
  intros Hm. unfold truncate. destruct (m !! name) eqn:Hn; [done|].
  destruct (decide (name' = name)) as [->|]; [rewrite lookup_insert_eq; by eexists|by rewrite lookup_insert_ne].
Qed.
Lemma truncate_there m name : is_Some (truncate m name !! name).
Proof. unfold truncate. destruct (m !! name) eqn:Hn; [by rewrite Hn|]. rewrite lookup_insert_eq. by eexists. Qed.

Record named (s : shm_link) : Prop := {
  n_send b : send_file (h_conn (host_of s b)) = file b;
  n_recv b : recv_file (h_conn (host_of s b)) = file (negb b)
}.

Definition unmapped (h : host) : Prop := shm_sendq_ (h_conn h) = None ∧ shm_recvq_ (h_conn h) = None.
Definition idle (h : host) : Prop := h_wr h = WIdle ∧ h_rd h = RIdle.

Lemma login_new_ok s b :
  named s → unmapped (host_of s b) →
  ∃ s', shm_run s [SOpenFile b [true; true]; SReset b] = Some (Ret ([], s')) ∧ wired s' (λ _, new_queue) ∧
    host_of s' (negb b) = host_of s (negb b) ∧ h_wr (host_of s' b) = h_wr (host_of s b) ∧ h_rd (host_of s' b) = h_rd (host_of s b).
Proof.
  intros [Hns Hnr] [Hs Hr]. pose proof (Hns b) as Hsf. pose proof (Hnr b) as Hrf.
  set (h := host_of s b) in *. destruct h as [[ln rn dirn t sq rq] v r] eqn:Hh.
  unfold send_file, recv_file in Hsf, Hrf. simpl in Hs, Hr, Hsf, Hrf. subst sq rq.
  cbn [shm_run shm_step]. fold h. rewrite Hh. cbv zeta. unfold OpenFile.
  cbn [h_conn load set_shm_sendq set_shm_recvq shm_sendq_ shm_recvq_ local_name_ remote_name_ mbind option_bind open_shm].
  rewrite Hsf, Hrf.
  destruct (my_mmap_opened (file b) sizeof_SPSCVarQueue (sl_mem s) [] [true]) as [q1 ->].
  cbn [open_shm shm_recvq_ set_shm_sendq].
  destruct (my_mmap_opened (file (negb b)) sizeof_SPSCVarQueue (truncate (sl_mem s) (file b)) ([] ++ [file b]) []) as [q2 ->].
  cbn [sw_mem]. rewrite host_same, set_mem. unfold load, send_file, recv_file.
  cbn [h_conn set_shm_sendq set_shm_recvq shm_sendq_ shm_recvq_ local_name_ remote_name_ mbind option_bind ptcp_dir_ ptcp_conn_ h_wr h_rd].
  rewrite Hsf, Hrf. set (m := truncate (truncate _ _) _).
  destruct (truncate_known _ (file (negb b)) _ (truncate_there (sl_mem s) (file b))) as [x1 Hx1].
  destruct (truncate_there (truncate (sl_mem s) (file b)) (file (negb b))) as [x2 Hx2]. fold m in Hx1, Hx2.
  rewrite Hx1, Hx2. eexists. split; [reflexivity|].
  unfold store, put_queue, send_file, recv_file.
  cbn [set_shm_sendq set_shm_recvq shm_sendq_ shm_recvq_ local_name_ remote_name_].
  rewrite Hsf, Hrf, host_neg, host_neg, host_same. split_and!; [|done..].
  constructor.
  - apply (both b); rewrite ?host_same, ?host_neg; [exact Hsf|apply Hns].
  - apply (both b); rewrite ?host_same, ?host_neg; [exact Hrf|apply Hnr].
  - rewrite set_mem. apply (both b); [|by rewrite lookup_insert_eq].
    rewrite lookup_insert_ne by apply not_eq_sym, file_ne. by rewrite lookup_insert_eq.
Qed.

Lemma start_new : start Bytes 0 = mkSys new_queue WIdle RIdle.
Proof. done. Qed.

Lemma idle_linked s : wired s (λ _, new_queue) → (∀ b, idle (host_of s b)) → linked s (λ _, []) (λ _, []).
Proof.
  intros Hw Hi. exists (λ _, new_queue). split; [done|]. intros b. unfold dsys.
  rewrite (proj1 (Hi b)), (proj2 (Hi (negb b))), <-start_new. apply start_inv, (conf_shm HC).
Qed.

Lemma start_named : named (start_link client server) ∧ (∀ b, unmapped (host_of (start_link client server) b)) ∧
  ∀ b, idle (host_of (start_link client server) b).
Proof. split_and!; [constructor; by intros []|by intros []..]. Qed.

(** The two ends are mapped, and nothing is in the queues. *)
Lemma login_linked s b :
  named s → unmapped (host_of s b) → (∀ b', idle (host_of s b')) →
  ∃ s', shm_run s [SOpenFile b [true; true]; SReset b] = Some (Ret ([], s')) ∧ named s' ∧
    linked s' (λ _, []) (λ _, []) ∧ host_of s' (negb b) = host_of s (negb b) ∧ ∀ b', idle (host_of s' b').
Proof.
  intros Hn Hu Hi. destruct (login_new_ok s b Hn Hu) as (s' & Hr & Hw & Hneg & Hwr & Hrd).
  assert (∀ b', idle (host_of s' b')) as Hi'.
  { apply (both b); [split; rewrite ?Hwr, ?Hrd; apply Hi|rewrite Hneg; apply Hi]. }
  exists s'. split_and!; [done| |by apply idle_linked|done|done].
  destruct Hw as [H1 H2 _]. by constructor.
Qed.

Lemma shm_run_app l1 l2 : ∀ s,
  shm_run s (l1 ++ l2) =
    match shm_run s l1 with
    | Some (Ret (es1, s1)) =>
        match shm_run s1 l2 with Some (Ret (es2, s2)) => Some (Ret (es1 ++ es2, s2)) | r => r end
    | r => r
    end.
Proof.
  induction l1 as [|a l1 IH]; intros s; simpl; [by destruct (shm_run s l2) as [[[]| |]|]|].
  destruct (shm_step s a) as [[[e s1]| |]|]; [|done..]. rewrite IH.
  destruct (shm_run s1 l1) as [[[es1 s2]| |]|]; [|done..].
  destruct (shm_run s2 l2) as [[[es2 s3]| |]|]; [|done..]. by rewrite app_assoc.
Qed.

(** What a run without [Reset] from empty queues shows. *)
Lemma linked_delivery s acts o :
  linked s (λ _, []) (λ _, []) → Forall keeps acts → shm_run s acts = Some o →
  ∃ es s', o = Ret (es, s') ∧ ∀ b, ∃ pending late,
    fifo_crash_run [] [] (dir b es) = Some (pending, late) ∧
    written (dir b es) = popped (dir b es) ++ pending ++ late.
Proof.
  intros Hl Hk Hr. destruct (shm_run_ok acts _ _ _ _ Hk Hl Hr) as (es & s' & P & L & -> & _ & Hf).
  exists es, s'. split; [done|]. intros b. exists (P b), (L b). split; [apply Hf|]. by apply (fifo_crash_order (dir b es) [] []), Hf.
Qed.

(** C5: a client and a server of one machine, from their first login on:
    however the accesses of their four threads to the two queues interleave,
    whichever process dies at whatever store, starts again and logs in again,
    and whichever mapping fails, no access leaves the queues, and in each
    direction what was popped, what may be seen and what a dead writer left
    unpublished are together what the other end pushed, in order. *)
Theorem shm_delivery acts o :
  Forall keeps acts → shm_run (start_link client server) (handle_login ++ connect_new ++ acts) = Some o →
  ∃ es s, o = Ret (es, s) ∧ ∀ b, ∃ pending late,
    fifo_crash_run [] [] (dir b es) = Some (pending, late) ∧
    written (dir b es) = popped (dir b es) ++ pending ++ late.
Proof.
  intros Hk H. destruct start_named as (Hn & Hu & Hi).
  destruct (login_linked _ true Hn (Hu true) Hi) as (s1 & H1 & Hn1 & _ & Hc1 & Hi1).
  destruct (login_linked s1 false Hn1) as (s2 & H2 & _ & Hl2 & _ & _); [|done|].
  { change (host_of s1 false) with (host_of s1 (negb true)). rewrite Hc1. apply Hu. }
  unfold handle_login, connect_new in H. rewrite shm_run_app, H1, shm_run_app, H2 in H.
  destruct (shm_run s2 acts) as [o2|] eqn:Hr; [|done].
  destruct (linked_delivery s2 acts o2 Hl2 Hk Hr) as (es & s & -> & Hd). injection H as <-. by exists es, s.
Qed.

Lemma thread_step_conn s b a e s1 :
  shm_step s (SThread b a) = Some (Ret (e, s1)) →
  host_of s1 (negb b) = host_of s (negb b) ∧ h_conn (host_of s1 b) = h_conn (host_of s b).
Proof.
  intros Hs. cbn [shm_step] in Hs. cbv zeta in Hs. destruct (is_writer a).
  - destruct (shm_sendq_ (load _ _)) as [x|]; [|done]. cbn [mbind option_bind] in Hs.
    destruct (do_action _ _ a) as [[[e0 sy]| |]|]; [|done..]. injection Hs as _ <-. by rewrite host_same, host_neg.
  - destruct (shm_recvq_ (load _ _)) as [x|]; [|done]. cbn [mbind option_bind] in Hs.
    destruct (do_action _ _ a) as [[[e0 sy]| |]|]; [|done..]. injection Hs as _ <-. by rewrite host_same, host_neg.
Qed.

Lemma thread_run_conn b l : ∀ s es s1,
  shm_run s (SThread b <$> l) = Some (Ret (es, s1)) →
  host_of s1 (negb b) = host_of s (negb b) ∧ h_conn (host_of s1 b) = h_conn (host_of s b).
Proof.
  induction l as [|a l IH]; intros s es s1 H; rewrite ?fmap_cons in H; cbn [shm_run fmap list_fmap] in H; [by simplify_eq|].
  destruct (shm_step s (SThread b a)) as [[[e s2]| |]|] eqn:Ha; [|done..].
  destruct (shm_run s2 _) as [[[es2 s3]| |]|] eqn:Hr; [|done..]. injection H as _ <-.
  destruct (IH _ _ _ Hr) as [-> ->]. by eapply thread_step_conn.
Qed.

(** C19: the first login over shared memory loses what the server pushes
    before the client has mapped the queues: [HandleLogin] makes the client
    live and lets the user push as soon as it has sent the reply, and
    [Connect], when it gets the reply of a server it does not come from,
    resets the queues that both sides use.  Whatever happens after that, the
    client pops only messages that were pushed after it. *)
Theorem shm_first_login_loses pushes es1 s1 acts o :
  shm_run (start_link client server) (handle_login ++ (SThread true <$> pushes)) = Some (Ret (es1, s1)) →
  idle (sl_server s1) → Forall keeps acts → shm_run s1 (connect_new ++ acts) = Some o →
  ∃ es s, o = Ret (es, s) ∧ ∀ b, ∃ pending late,
    fifo_crash_run [] [] (dir b es) = Some (pending, late) ∧
    written (dir b es) = popped (dir b es) ++ pending ++ late.
Proof.
  intros H Hidle Hk Hr. destruct start_named as (Hn & Hu & Hi).
  destruct (login_linked _ true Hn (Hu true) Hi) as (s0 & H0 & Hn0 & _ & Hc0 & Hi0).
  unfold handle_login, connect_new in *. rewrite shm_run_app, H0 in H.
  destruct (shm_run s0 (SThread true <$> pushes)) as [[[es2 s2]| |]|] eqn:Hp; [|done..]. injection H as <- ->.
  destruct (thread_run_conn _ _ _ _ _ Hp) as [Hcl Hco].
  assert (named s1) as Hn1.
  { constructor; apply (both true); rewrite ?Hcl, ?Hco; apply Hn0. }
  destruct (login_linked s1 false Hn1) as (s3 & H3 & _ & Hl3 & _ & _).
  { change (host_of s1 false) with (host_of s1 (negb true)). rewrite Hcl, Hc0. apply Hu. }
  { apply (both true); [exact Hidle|]. rewrite Hcl, Hc0. apply Hi. }
  rewrite shm_run_app, H3 in Hr. destruct (shm_run s3 acts) as [o2|] eqn:Hr2; [|done].
  destruct (linked_delivery s3 acts o2 Hl3 Hk Hr2) as (es & s & -> & Hd). injection Hr as <-. by exists es, s.
Qed.
End link.

(** ** Instances *)

#[local] Existing Instance ex_conf.

Definition ex_names : list Z * list Z := (chars "bob", chars "srv").
Lemma ex_names_ok : shm_file ex_names.1 ex_names.2 ≠ shm_file ex_names.2 ex_names.1.
Proof. vm_compute. discriminate. Qed.

Definition ex_push : list action := [AStart 16; AHeader; AType 7; APush].
Definition ex_pop : list action := [RLoad; RCheck; RPop].

(** The server pushes twice, the second time it dies in [Push]; it logs in
    again and pushes, and the client pops three messages and answers. *)
Definition ex_shm_acts : list shm_action :=
  (SThread true <$> ex_push ++ [AStart 40; AHeader; AType 8]) ++ [SDie true CPush; SOpenFile true [true; true]] ++
  (SThread true <$> ex_push) ++ (SThread false <$> ex_pop ++ ex_pop ++ ex_pop ++ ex_push).

Abbreviation ex_delivered :=
  (shm_run (start_link ex_names.1 ex_names.2) (handle_login ++ connect_new ++ ex_shm_acts)).

Lemma ex_delivered_returns :
  ∃ es s, ex_delivered = Some (Ret (es, s)) ∧ length (popped (dir true es)) = 3%nat ∧ length (written (dir true es)) = 3%nat.
Proof.
  assert (match ex_delivered with
          | Some (Ret (es, s)) => (length (popped (dir true es)) =? 3)%nat && (length (written (dir true es)) =? 3)%nat
          | _ => false end = true) as Hc by (vm_compute; reflexivity).
  destruct ex_delivered as [[[es s]| |]|]; try discriminate Hc. apply andb_true_iff in Hc as [H1 H2].
  exists es, s. split; [reflexivity|]. split; by apply Nat.eqb_eq.
Qed.

Lemma shm_delivery_witness :
  ∃ es s, ex_delivered = Some (Ret (es, s)) ∧ length (popped (dir true es)) = 3%nat ∧ length (written (dir true es)) = 3%nat ∧
    ∀ b, ∃ pending late, written (dir b es) = popped (dir b es) ++ pending ++ late.
Proof.
  destruct ex_delivered_returns as (es & s & Hr & H1 & H2). exists es, s. do 3 (split; [assumption|]).
  assert (Forall keeps ex_shm_acts) as Hk by (repeat constructor).
  destruct (shm_delivery ex_conf_ok ex_names.1 ex_names.2 ex_names_ok ex_shm_acts _ Hk Hr) as (es' & s' & Ho & Hd).
  injection Ho as <- <-. intros b. destruct (Hd b) as (p & l & _ & H). by exists p, l.
Defined.

(** The server pushes as soon as the client is live; the client never sees
    the message. *)
Abbreviation ex_pushed := (shm_run (start_link ex_names.1 ex_names.2) (handle_login ++ (SThread true <$> ex_push))).
Abbreviation ex_looks s := (shm_run s (connect_new ++ (SThread false <$> [RLoad]))).

Lemma ex_lost_returns :
  ∃ es1 s1 es s, ex_pushed = Some (Ret (es1, s1)) ∧ length (written (dir true es1)) = 1%nat ∧ idle (sl_server s1) ∧
    ex_looks s1 = Some (Ret (es, s)) ∧ dir true es = [CEvent (EFront None)].
Proof.
  assert (match ex_pushed with
          | Some (Ret (es1, s1)) =>
              (length (written (dir true es1)) =? 1)%nat &&
              match h_wr (sl_server s1), h_rd (sl_server s1) with WIdle, RIdle => true | _, _ => false end &&
              match ex_looks s1 with
              | Some (Ret (es, s)) => match dir true es with [CEvent (EFront None)] => true | _ => false end
              | _ => false end
          | _ => false end = true) as Hc by (vm_compute; reflexivity).
  destruct ex_pushed as [[[es1 s1]| |]|]; try discriminate Hc.
  apply andb_true_iff in Hc as [[H1 H2]%andb_true_iff H3].
  destruct (ex_looks s1) as [[[es s]| |]|] eqn:H4; try discriminate H3.
  exists es1, s1, es, s. split; [reflexivity|]. split; [by apply Nat.eqb_eq|]. split; [|split; [exact H4|]].
  - destruct (sl_server s1) as [c v r]. simpl in H2. by destruct v, r.
  - by destruct (dir true es) as [|[[| | |[]| |]| |] []].
Qed.

Lemma shm_first_login_loses_witness :
  ∃ es1 s1 es s, ex_pushed = Some (Ret (es1, s1)) ∧ length (written (dir true es1)) = 1%nat ∧
    ex_looks s1 = Some (Ret (es, s)) ∧ dir true es = [CEvent (EFront None)] ∧
    ∀ b, ∃ pending late, written (dir b es) = popped (dir b es) ++ pending ++ late.
Proof.
  destruct ex_lost_returns as (es1 & s1 & es & s & H1 & Hw & Hi & H2 & Hd). exists es1, s1, es, s.
  do 4 (split; [assumption|]).
  assert (Forall keeps (SThread false <$> [RLoad])) as Hk by (repeat constructor).
  destruct (shm_first_login_loses ex_conf_ok ex_names.1 ex_names.2 ex_names_ok ex_push es1 s1 _ _ H1 Hi Hk H2)
    as (es' & s' & Ho & Hdel). injection Ho as <- <-. intros b. destruct (Hdel b) as (p & l & _ & H). by exists p, l.
Defined.

(** The names of the objects are not unambiguous: these two have one queue
    for both directions. *)
Lemma shm_file_collides : shm_file (chars "x") (chars "x_x") = shm_file (chars "x_x") (chars "x").
Proof. reflexivity. Qed.
