(* ===== verification/Login.v ===== *)
(** * Login messages and the sockets that carry them

    [LoginMsgTpl] and [LoginRspMsgTpl] of [ptcp_conn.h].  The layout the
    compiler gives the structures, with the user's data inside, is not
    modelled: the system calls carry the structures themselves. *)

From S2P Require Import Prelude.
From S2P Require Import Arrays.
From S2P Require Import MsgHeader.
From S2P Require Import Platform.
From S2P Require Import TcpShmConn.

(** The user's part of the messages: [Conf::LoginUserData],
    [Conf::LoginRspUserData]. *)
Class UserData := { LoginUserData : Type; LoginRspUserData : Type }.

Section login.
Context {conf : Conf} {user : UserData}.

Record LoginMsg := mkLoginMsg {
  client_seq_start : Z;
  client_seq_end : Z;
  login_user_data : LoginUserData;
  use_shm : Z;                     (* char *)
  client_name : list Z;            (* char[NameSize] *)
  last_server_name : list Z        (* char[NameSize] *)
}.

Definition LoginMsg_msg_type : Z := 1.

Definition LoginMsg_ConvertByteOrder (m : LoginMsg) : LoginMsg :=
  mkLoginMsg (Convert is_little_endian ToLittleEndian 4 (client_seq_start m))
    (Convert is_little_endian ToLittleEndian 4 (client_seq_end m))
    (login_user_data m) (use_shm m) (client_name m) (last_server_name m).

Record LoginRspMsg := mkLoginRspMsg {
  server_seq_start : Z;
  server_seq_end : Z;
  rsp_user_data : LoginRspUserData;
  status : Z;                      (* char: 0 OK, 1 seqnum mismatch, 2 other error *)
  server_name : list Z;            (* char[NameSize] *)
  error_msg : list Z               (* char[32] *)
}.

Definition LoginRspMsg_msg_type : Z := 2.

Definition LoginRspMsg_ConvertByteOrder (m : LoginRspMsg) : LoginRspMsg :=
  mkLoginRspMsg (Convert is_little_endian ToLittleEndian 4 (server_seq_start m))
    (Convert is_little_endian ToLittleEndian 4 (server_seq_end m))
    (rsp_user_data m) (status m) (server_name m) (error_msg m).

(** [sizeof(login_rsp->error_msg)] *)
Definition sizeof_error_msg : Z := 32.

Definition set_status (m : LoginRspMsg) (s : Z) : LoginRspMsg :=
  mkLoginRspMsg (server_seq_start m) (server_seq_end m) (rsp_user_data m) s (server_name m) (error_msg m).
Definition set_server_name (m : LoginRspMsg) (n : list Z) : LoginRspMsg :=
  mkLoginRspMsg (server_seq_start m) (server_seq_end m) (rsp_user_data m) (status m) n (error_msg m).
Definition set_error_msg (m : LoginRspMsg) (e : list Z) : LoginRspMsg :=
  mkLoginRspMsg (server_seq_start m) (server_seq_end m) (rsp_user_data m) (status m) (server_name m) e.
Definition set_server_seqs (m : LoginRspMsg) (s e : Z) : LoginRspMsg :=
  mkLoginRspMsg s e (rsp_user_data m) (status m) (server_name m) (error_msg m).
Definition set_client_name (m : LoginMsg) (n : list Z) : LoginMsg :=
  mkLoginMsg (client_seq_start m) (client_seq_end m) (login_user_data m) (use_shm m) n (last_server_name m).
Definition set_client_seqs (m : LoginMsg) (s e : Z) : LoginMsg :=
  mkLoginMsg s e (login_user_data m) (use_shm m) (client_name m) (last_server_name m).
End login.

(** ** The sockets *)

(** A [recv] into a buffer for a header and a [T]: the whole buffer, a
    number of bytes that is not its size (0 at the end of the stream), or
    -1. *)
Inductive recv_result (T : Type) : Type :=
  | RecvFull (header : MsgHeader) (msg : T)
  | RecvShort (n : Z)
  | RecvErr (errno : Z).
Arguments RecvFull {T} header msg.
Arguments RecvShort {T} n.
Arguments RecvErr {T} errno.

(** The sizes of the two structures, chosen by the compiler, and the calls of
    the login; addresses are those of the peer. *)
Class LoginOs (W : Type) `{Conf, UserData} := {
  sizeof_LoginMsg : Z;
  sizeof_LoginRspMsg : Z;
  sockaddr : Type;
  os_socket : W → sysret Z * W;
  os_setsockopt : Z → string → W → sysret Z * W;       (* fd, option *)
  os_bind : Z → list Z → Z → W → sysret Z * W;         (* fd, address, port *)
  os_listen : Z → W → sysret Z * W;
  os_accept : Z → W → sysret (Z * sockaddr) * W;
  os_connect : Z → list Z → Z → W → sysret Z * W;
  os_set_nonblock : Z → W → W;
  os_send_login : Z → MsgHeader * LoginMsg → W → sysret Z * W;
  os_recv_login : Z → W → recv_result LoginMsg * W;
  os_send_rsp : Z → MsgHeader * LoginRspMsg → W → sysret Z * W;
  os_recv_rsp : Z → W → recv_result LoginRspMsg * W;
  os_mkdir : list Z → W → W;
  os_errno : W → Z
}.

(** [sizeof] of the buffers [MsgHeader x[1 + (sizeof(T) + 7) / 8]]. *)
Definition buffer_size (sizeof_T : Z) : Z := sizeof_MsgHeader * (1 + div_up sizeof_T 8).

(** [send(...) == n] *)
Definition sent_all (r : sysret Z) (n : Z) : bool :=
  match r with SysOk m => m =? n | SysErr _ => false end.
