(* ===== verification/Descriptors.v ===== *)
(** * Socket descriptors

    [open_fds w] are the sockets that are open in the world [w]; [FdLaws],
    [MmapFdLaws] and [LoginFdLaws] say which calls open and close one.  A
    connection owns the descriptor in [fd_to_close_]; only [Open],
    [TryCloseFd] and [Release] change it, every other operation at most marks
    the connection closed ([fds_kept]).  [user_calls] are the public calls a
    user's callback may make on a connection it is given. *)

From stdpp Require Import fin_sets gmap.
From S2P Require Import Prelude.
From S2P Require Import Arrays.
From S2P Require Import MsgHeader.
From S2P Require Import PtcpQueue.
From S2P Require Import SpscQueue.
From S2P Require Import Platform.
From S2P Require Import PtcpConn.
From S2P Require TcpShmConn.
From S2P Require Import Login.

(** ** What the system calls do to the open sockets *)

Class FdView (W : Type) := open_fds : W → gset Z.

Class FdLaws (W : Type) `{Os W, FdView W} : Prop := {
  fd_send fd bs w : open_fds (os_send fd bs w).2 = open_fds w;
  fd_readv fd lens w : open_fds (os_readv fd lens w).2 = open_fds w;
  fd_close fd w : open_fds (os_close fd w) = (open_fds w) ∖ {[fd]}
}.

(** The files that are mapped are opened and closed inside [my_mmap]. *)
Class MmapFdLaws (W T : Type) `{MmapOs W T, FdView W} : Prop := {
  fd_open f b w : open_fds (os_open (T := T) f b w).2 = open_fds w;
  fd_ftruncate fd n w : open_fds (os_ftruncate (T := T) fd n w).2 = open_fds w;
  fd_mmap fd w : open_fds (os_mmap (T := T) fd w).2 = open_fds w;
  fd_close_file fd w : open_fds (os_close_file (T := T) fd w) = open_fds w;
  fd_munmap (t : T) w : open_fds (os_munmap t w) = open_fds w
}.

(** [w'] after a call with the result [r]: a new descriptor is open. *)
Definition fd_opened (w w' : gset Z) (r : option Z) : Prop :=
  match r with
  | Some fd => 0 ≤ fd ∧ (fd ∉ w) ∧ w' = {[fd]} ∪ w
  | None => w' = w
  end.

Class LoginFdLaws (W : Type) `{LoginOs W, FdView W} : Prop := {
  fd_socket w r w' :
    os_socket w = (r, w') →
    fd_opened (open_fds w) (open_fds w') (match r with SysOk fd => Some fd | SysErr _ => None end);
  fd_accept fd w r w' :
    os_accept fd w = (r, w') →
    fd_opened (open_fds w) (open_fds w') (match r with SysOk (fd, _) => Some fd | SysErr _ => None end);
  fd_setsockopt fd o w : open_fds (os_setsockopt fd o w).2 = open_fds w;
  fd_bind fd a p w : open_fds (os_bind fd a p w).2 = open_fds w;
  fd_listen fd w : open_fds (os_listen fd w).2 = open_fds w;
  fd_connect fd a p w : open_fds (os_connect fd a p w).2 = open_fds w;
  fd_set_nonblock fd w : open_fds (os_set_nonblock fd w) = open_fds w;
  fd_send_login fd m w : open_fds (os_send_login fd m w).2 = open_fds w;
  fd_recv_login fd w : open_fds (os_recv_login fd w).2 = open_fds w;
  fd_send_rsp fd m w : open_fds (os_send_rsp fd m w).2 = open_fds w;
  fd_recv_rsp fd w : open_fds (os_recv_rsp fd w).2 = open_fds w;
  fd_mkdir d w : open_fds (os_mkdir d w) = open_fds w
}.

Create Rewrite HintDb fds.
#[export] Hint Rewrite @fd_send @fd_readv @fd_close @fd_open @fd_ftruncate @fd_mmap @fd_close_file
  @fd_munmap @fd_setsockopt @fd_bind @fd_listen @fd_connect @fd_set_nonblock @fd_send_login
  @fd_recv_login @fd_send_rsp @fd_recv_rsp @fd_mkdir using apply _ : fds.

(** ** The connection of [ptcp_conn.h] *)

(** [c'] has the descriptors of [c], and may have been closed. *)
Definition fds_kept (c c' : PTCPConnection) : Prop :=
  fd_to_close_ c' = fd_to_close_ c ∧ (sockfd_ c' = sockfd_ c ∨ sockfd_ c' = -1).

#[export] Instance fds_kept_preorder : PreOrder fds_kept.
Proof.
  split; [intros c; by split; [|left]|].
  intros c1 c2 c3 [H1 H2] [H3 H4]. split; [congruence|].
  destruct H4 as [->|]; [|by right]. exact H2.
Qed.

Lemma fds_kept_same c c' : fd_to_close_ c' = fd_to_close_ c → sockfd_ c' = sockfd_ c → fds_kept c c'.
Proof. by split; [|left]. Qed.

Lemma fds_kept_Close c r e : fds_kept c (Close c r e).
Proof. unfold Close. destruct (sockfd_ c <? 0); [reflexivity|]. by split; [|right]. Qed.
#[export] Hint Resolve fds_kept_same fds_kept_Close : tcpshm.

Section ptcp.
Context {conf : Conf} {W : Type} {os : Os W} {fv : FdView W} {laws : FdLaws W}.

Lemma SendPending_loop_fds fuel : ∀ fd p size w r size' w',
  SendPending_loop fuel fd p size w = Ret (r, size', w') → open_fds w' = open_fds w.
Proof.
  induction fuel as [|fuel IH]; intros fd p size w r size' w' H; simpl in H; [done|].
  pose proof (fd_send fd (slice 0 size p) w) as Hfd.
  destruct (os_send _ _ _) as [[n|e] w1]; simpl in *.
  - destruct (0 <? _); [apply IH in H; congruence|by simplify_eq].
  - destruct (_ || _); by simplify_eq.
Qed.

Lemma SendPending_fds c w b c' w' :
  SendPending c w = Ret (b, c', w') → fds_kept c c' ∧ open_fds w' = open_fds w.
Proof.
  unfold SendPending. destruct (IsClosed c); [by intros [= <- <- <-]|].
  destruct (q_ c) as [q|]; [|done]. destruct (GetSendable q) as [p n].
  destruct (n =? 0); [by intros [= <- <- <-]|]. intros H. run H. run H. destruct r0 as [[err size] w1].
  apply SendPending_loop_fds in Hrun0. destruct err; [run H; auto with tcpshm|].
  destruct (0 <? _); run H; auto with tcpshm.
Qed.

Lemma SendHB_send_fds c w c' w' :
  SendHB_send c w = (c', w') → fds_kept c c' ∧ open_fds w' = open_fds w.
Proof.
  unfold SendHB_send. pose proof (fd_send (sockfd_ c) (header_bytes is_little_endian (hbmsg_ c)) w) as Hfd.
  destruct (os_send _ _ _) as [[n|e] w1]; simpl in *; [destruct (negb _)|destruct (_ =? _)];
    intros [= <- <-]; auto with tcpshm.
Qed.

Lemma SendHB_fds c now w c' w' :
  SendHB c now w = Ret (c', w') → fds_kept c c' ∧ open_fds w' = open_fds w.
Proof.
  unfold SendHB. set (c0 := set_times _ _ _ _). assert (fds_kept c c0) as H0 by by apply fds_kept_same.
  destruct (_ <? _); [by intros [= <- <-]|]. destruct (q_ c0).
  - intros H. run H. destruct r as [[pending c1] w1]. apply SendPending_fds in Hrun as [H1 Hw].
    destruct pending; [run H; split; [by rewrite H0|done]|]. destruct (q_ c1); [|done].
    run H. destruct (SendHB_send _ _) as [c2 w2] eqn:Hs. simplify_eq.
    apply SendHB_send_fds in Hs as [H2 Hw2]. split; [|congruence]. rewrite H0, H1, <-H2.
    by apply fds_kept_same.
  - intros H. run H. destruct (SendHB_send c0 w) as [c2 w2] eqn:Hs. simplify_eq.
    apply SendHB_send_fds in Hs as [H2 Hw2]. by split; [rewrite H0|].
Qed.

Lemma DoRecv_spill_fds c s a n c' : DoRecv_spill c s a n = Ret c' → fds_kept c c'.
Proof.
  unfold DoRecv_spill. intros H. run H. run H. apply fds_kept_same; simpl;
    (destruct (_ <=? _); run Hrun; run Hrun; by run Hrun).
Qed.

Lemma DoRecv_error_fds c e : fds_kept c (DoRecv_error c e).
Proof.
  destruct e as [e|]; simpl; [|auto with tcpshm]. destruct (_ =? _); [destruct (_ <? _)|];
    auto with tcpshm.
Qed.

Lemma DoRecv_fds c w n c' w' :
  DoRecv c w = Ret (n, c', w') → fds_kept c c' ∧ open_fds w' = open_fds w.
Proof.
  unfold DoRecv. set (c0 := if _ && _ then _ else c). assert (fds_kept c c0) as H0.
  { subst c0. destruct (_ && _); by apply fds_kept_same. }
  destruct (_ =? 0); [intros [= <- <- <-]; by split|].
  set (lens := if _ : bool then _ else _). pose proof (fd_readv (sockfd_ c0) lens w) as Hfd.
  destruct (os_readv _ _ _) as [[data|e] w1]; simpl in Hfd; cbv zeta.
  - destruct (zlen data =? 0); [intros H; run H; split; [rewrite H0; auto with tcpshm|done]|].
    intros H. run H. destruct (_ <=? _).
    + run H. split; [|done]. rewrite H0. by apply fds_kept_same.
    + run H. run H. apply DoRecv_spill_fds in Hrun0. split; [|done]. rewrite H0, <-Hrun0.
      by apply fds_kept_same.
  - intros H. run H. split; [rewrite H0; exact (DoRecv_error_fds _ (Some e))|done].
Qed.

Lemma Front_skip_fds fuel : ∀ c p c', Front_skip fuel c = Ret (p, c') → fds_kept c c'.
Proof.
  induction fuel as [|fuel IH]; intros c p c' H; simpl in H; [done|].
  destruct (_ =? _); [by simplify_eq|]. run H. destruct (_ =? _).
  - apply IH in H. rewrite <-H. by apply fds_kept_same.
  - destruct (q_ c); [|done]. destruct (_ =? _); run H; auto with tcpshm.
Qed.

Lemma Front_parse_fds fuel : ∀ old c b c', Front_parse fuel old c = Ret (b, c') → fds_kept c c'.
Proof.
  induction fuel as [|fuel IH]; intros old c b c' H; cbn [Front_parse] in H; [done|].
  destruct (8 <=? _); [|by run H]. run H. destruct r as [h c1].
  assert (fds_kept c c1) as H1.
  { unfold Front_header in Hrun. run Hrun. destruct (_ <? _); [run Hrun|]; run Hrun; auto with tcpshm. }
  rewrite H1. destruct (q_ c1); [|done]. run H. destruct (_ <? _).
  - run H. rewrite <-fds_kept_Close. by apply fds_kept_same.
  - destruct (_ <? _); [run H; auto with tcpshm|]. apply IH in H. rewrite <-H.
    destruct (_ && _); by apply fds_kept_same.
Qed.

Lemma Front_fds c w p c' w' :
  PtcpConn.Front c w = Ret (p, c', w') → fds_kept c c' ∧ open_fds w' = open_fds w.
Proof.
  unfold PtcpConn.Front. destruct (UseShm c).
  - intros H. run H. destruct r as [[n c1] w1]. run H. by apply DoRecv_fds in Hrun.
  - intros H. run H. destruct r as [h c1]. apply Front_skip_fds in Hrun.
    destruct h; [by run H|]. run H. destruct r as [[len c2] w2]. apply DoRecv_fds in Hrun0 as [H2 Hw].
    destruct (len =? 0); [run H; split; [by rewrite Hrun, H2|done]|]. run H. destruct r as [closed c3].
    apply Front_parse_fds in Hrun0. assert (fds_kept c2 c3) as H3.
    { rewrite <-Hrun0. by apply fds_kept_same. }
    destruct closed; run H; (split; [by rewrite Hrun, H2, H3|done]).
Qed.

Lemma Pop_fds c c' : PtcpConn.Pop c = Ret c' → fds_kept c c'.
Proof. unfold PtcpConn.Pop. intros H. run H. destruct (q_ c); run H. auto with tcpshm. Qed.

Lemma Conn_Alloc_fds c n p c' : Conn_Alloc c n = Ret (p, c') → fds_kept c c'.
Proof.
  unfold Conn_Alloc. destruct (q_ c); [|done]. intros H. run H. destruct r. run H. auto with tcpshm.
Qed.

Lemma PushMore_fds c c' : PtcpConn.PushMore c = Ret c' → fds_kept c c'.
Proof. unfold PtcpConn.PushMore. destruct (q_ c); [|done]. intros H. run H. run H. auto with tcpshm. Qed.

Lemma Conn_Push_fds c w c' w' :
  Conn_Push c w = Ret (c', w') → fds_kept c c' ∧ open_fds w' = open_fds w.
Proof.
  unfold Conn_Push. intros H. run H. run H. destruct r0 as [[b c1] w1]. run H.
  apply PushMore_fds in Hrun. apply SendPending_fds in Hrun0 as [H1 Hw]. by split; [rewrite Hrun|].
Qed.

(** [TryCloseFd] hands back the descriptor of a closed connection. *)
Lemma TryCloseFd_fds c w b c' w' :
  PtcpConn.TryCloseFd c w = (b, c', w') →
  sockfd_ c' = sockfd_ c ∧ q_ c' = q_ c ∧
  (if b then sockfd_ c < 0 ∧ 0 ≤ fd_to_close_ c ∧ fd_to_close_ c' = -1 ∧
             open_fds w' = (open_fds w) ∖ {[fd_to_close_ c]}
   else (sockfd_ c < 0 → fd_to_close_ c < 0) ∧ fd_to_close_ c' = fd_to_close_ c ∧ w' = w).
Proof.
  unfold PtcpConn.TryCloseFd. destruct (Z.ltb_spec (sockfd_ c) 0), (Z.leb_spec 0 (fd_to_close_ c));
    intros [= <- <- <-]; simpl; rewrite ?fd_close; repeat split; auto; lia.
Qed.

(** [Open] takes the descriptor over; sending the backlog may close it. *)
Lemma Open_fds c fd ack now w c' w' :
  PtcpConn.Open c fd ack now w = Ret (c', w') →
  fd_to_close_ c' = fd ∧ (sockfd_ c' = fd ∨ sockfd_ c' = -1) ∧ open_fds w' = open_fds w.
Proof.
  unfold PtcpConn.Open. set (c0 := set_times _ _ _ _). intros H. run H. destruct r as [c1 w1].
  assert (fds_kept c0 c1 ∧ open_fds w1 = open_fds w) as [[H1 H2] Hw].
  { destruct (q_ c0); [|by run Hrun]. run Hrun. run Hrun. destruct r0 as [[b c2] w2]. run Hrun.
    apply SendPending_fds in Hrun1 as [H1 Hw]. split; [|done]. rewrite <-H1. by apply fds_kept_same. }
  assert (fd_to_close_ c' = fd_to_close_ c1 ∧ sockfd_ c' = sockfd_ c1 ∧ w' = w1) as (-> & -> & ->).
  { destruct (_ =? 0); by run H. }
  done.
Qed.
End ptcp.

(** ** The connection of [tcpshm_conn.h] *)

Import TcpShmConn.

Abbreviation conn_fd c := (fd_to_close_ (ptcp_conn_ c)).
Abbreviation conn_sock c := (sockfd_ (ptcp_conn_ c)).

(** [c'] is the same connection after some calls, perhaps closed by them. *)
Record conn_kept (c c' : TcpShmConnection) : Prop := {
  ck_local : local_name_ c' = local_name_ c;
  ck_remote : remote_name_ c' = remote_name_ c;
  ck_dir : ptcp_dir_ c' = ptcp_dir_ c;
  ck_fds : fds_kept (ptcp_conn_ c) (ptcp_conn_ c')
}.

#[export] Instance conn_kept_preorder : PreOrder conn_kept.
Proof.
  split; [by constructor|]. intros c1 c2 c3 [] []. constructor; try congruence. by etrans.
Qed.

Lemma conn_kept_ptcp c t : fds_kept (ptcp_conn_ c) t → conn_kept c (set_ptcp_conn c t).
Proof. by constructor. Qed.
Lemma conn_kept_sendq c q : conn_kept c (set_shm_sendq c q).
Proof. by constructor. Qed.
Lemma conn_kept_recvq c q : conn_kept c (set_shm_recvq c q).
Proof. by constructor. Qed.
#[export] Hint Resolve conn_kept_ptcp conn_kept_sendq conn_kept_recvq : tcpshm.

Section tcpshm.
Context {conf : Conf} {W : Type} {os : Os W} {mmq : MmapOs W PTCPQueue} {mms : MmapOs W SPSCVarQueue}.
Context {fv : FdView W} {laws : FdLaws W}.
Context {qlaws : MmapFdLaws W PTCPQueue} {slaws : MmapFdLaws W SPSCVarQueue}.

Lemma Alloc_kept c n p c' : Alloc c n = Ret (p, c') → conn_kept c c'.
Proof.
  unfold Alloc. destruct (shm_sendq_ c); intros H; run H; destruct r; run H; auto with tcpshm.
  apply conn_kept_ptcp. by eapply Conn_Alloc_fds.
Qed.

Lemma Push_kept c w c' w' : Push c w = Ret (c', w') → conn_kept c c' ∧ open_fds w' = open_fds w.
Proof.
  unfold Push. destruct (shm_sendq_ c); intros H; run H; [run H; auto with tcpshm|].
  destruct r. run H. apply Conn_Push_fds in Hrun as []. auto with tcpshm.
Qed.

Lemma PushMore_kept c c' : PushMore c = Ret c' → conn_kept c c'.
Proof.
  unfold PushMore. destruct (shm_sendq_ c); intros H; run H; run H; auto with tcpshm.
  by apply conn_kept_ptcp, PushMore_fds.
Qed.

Lemma Front_kept c w p c' w' :
  Front c w = Ret (p, c', w') → conn_kept c c' ∧ open_fds w' = open_fds w.
Proof.
  unfold Front. destruct (shm_recvq_ c); intros H; run H; [destruct r; run H; auto with tcpshm|].
  destruct r as [[? ?] ?]. run H. apply Front_fds in Hrun as []. auto with tcpshm.
Qed.

Lemma Pop_kept c c' : Pop c = Ret c' → conn_kept c c'.
Proof.
  unfold Pop. destruct (shm_recvq_ c); intros H; run H; run H; auto with tcpshm.
  by apply conn_kept_ptcp, Pop_fds.
Qed.

Lemma Close_kept c : conn_kept c (Close c).
Proof. apply conn_kept_ptcp, fds_kept_Close. Qed.

Lemma TcpFront_kept c now w p c' w' :
  TcpFront c now w = Ret (p, c', w') → conn_kept c c' ∧ open_fds w' = open_fds w.
Proof.
  unfold TcpFront. intros H. run H. destruct r as [t1 w1]. apply SendHB_fds in Hrun as [H1 Hw1].
  run H. destruct r as [[p2 t2] w2]. apply Front_fds in Hrun as [H2 Hw2]. run H.
  split; [|congruence]. apply conn_kept_ptcp. by etrans.
Qed.

Lemma ShmFront_kept c p c' : ShmFront c = Ret (p, c') → conn_kept c c'.
Proof.
  unfold ShmFront. destruct (shm_recvq_ c); [|done]. intros H. run H. destruct r. run H.
  auto with tcpshm.
Qed.

Lemma my_mmap_fds {T} `{Hmm : MmapFdLaws W T} n f b w : open_fds (my_mmap (T := T) n f b w).2 = open_fds w.
Proof.
  unfold my_mmap. pose proof (fd_open (T := T) f b w) as H1. destruct (os_open f b w) as [[fd|] w1]; [|done].
  simpl in H1. pose proof (fd_ftruncate (T := T) fd n w1) as H2. destruct (os_ftruncate fd n w1) as [[] w2];
    simpl in H2; [simpl; rewrite fd_close_file; congruence|].
  pose proof (fd_mmap (T := T) fd w2) as H3. destruct (os_mmap fd w2) as [[] w3]; simpl in *;
    rewrite fd_close_file; congruence.
Qed.

Lemma open_shm_fds q f w : open_fds (open_shm q f w).2 = open_fds w.
Proof. unfold open_shm. destruct q; [done|]. apply my_mmap_fds. Qed.

Lemma PtcpOpenFile_fds c f w e c' w' :
  PtcpConn.OpenFile c f w = (e, c', w') → fds_kept c c' ∧ open_fds w' = open_fds w.
Proof.
  unfold PtcpConn.OpenFile. destruct (q_ c); [by intros [= <- <- <-]|].
  pose proof (my_mmap_fds (T := PTCPQueue) sizeof_PTCPQueue f false w) as Hm.
  destruct (my_mmap _ _ _ _) as [[]]; intros [= <- <- <-]; auto with tcpshm.
Qed.

Lemma OpenFile_kept c b w e c' w' :
  OpenFile c b w = (e, c', w') → conn_kept c c' ∧ open_fds w' = open_fds w.
Proof.
  unfold OpenFile. destruct b.
  - set (f1 := shm_file _ _). set (f2 := shm_file _ _). pose proof (open_shm_fds (shm_sendq_ c) f1 w) as H1.
    destruct (open_shm (shm_sendq_ c) f1 w) as [[q|] w1]; [|by intros [= <- <- <-]].
    simpl. pose proof (open_shm_fds (shm_recvq_ c) f2 w1) as H2.
    destruct (open_shm (shm_recvq_ c) f2 w1) as [[q'|] w2]; intros [= <- <- <-]; simpl in *;
      (split; [|congruence]); auto with tcpshm.
    by transitivity (set_shm_sendq c (Some q)); auto with tcpshm.
  - destruct (PtcpConn.OpenFile _ _ _) as [[e1 t1] w1] eqn:Ho. apply PtcpOpenFile_fds in Ho as [].
    intros [= <- <- <-]. auto with tcpshm.
Qed.

Lemma Reset_kept c c' : Reset c = Ret c' → conn_kept c c'.
Proof.
  unfold Reset. destruct (shm_sendq_ c); [destruct (shm_recvq_ c); [|done]|].
  - intros H. run H. by transitivity (set_shm_sendq c (Some (new_SPSCVarQueue ShmQueueSize)));
      auto with tcpshm.
  - intros H. run H. unfold PtcpConn.Reset in Hrun. destruct (q_ _); run Hrun. run H. auto with tcpshm.
Qed.

(** [Release] closes the socket and forgets the peer's name. *)
Lemma Release_fds c w c' w' :
  Release c w = Ret (c', w') →
  conn_sock c' = (if conn_sock c <? 0 then conn_sock c else -1) ∧
  (if 0 <=? conn_fd c then conn_fd c' = -1 ∧ open_fds w' = (open_fds w) ∖ {[conn_fd c]}
   else conn_fd c' = conn_fd c ∧ open_fds w' = open_fds w) ∧
  put (remote_name_ c) 0 0 = Ret (remote_name_ c') ∧
  local_name_ c' = local_name_ c ∧ ptcp_dir_ c' = ptcp_dir_ c.
Proof.
  unfold Release. intros H. run H. set (c1 := set_remote_name c r) in *.
  assert (∀ q w0, open_fds (unmap_shm q w0) = open_fds w0) as Hu.
  { intros [q|] w0; [apply fd_munmap|done]. }
  set (c2 := set_shm_recvq _ _) in *. set (w2 := unmap_shm _ _) in *.
  assert (open_fds w2 = open_fds w) as Hw2 by (subst w2; by rewrite !Hu).
  assert (ptcp_conn_ c2 = ptcp_conn_ c) as Hc2 by done. rewrite Hc2 in H.
  unfold PtcpConn.Release in H.
  assert ((conn_sock c <? 0) = false → sockfd_ (PtcpConn.Close (ptcp_conn_ c) "Release" 0) = -1) as Hs.
  { unfold PtcpConn.Close. by destruct (_ <? _). }
  assert ((conn_sock c <? 0) = true → sockfd_ (PtcpConn.Close (ptcp_conn_ c) "Release" 0) = conn_sock c) as Hs'.
  { unfold PtcpConn.Close. by destruct (_ <? _). }
  assert (sockfd_ (PtcpConn.Close (ptcp_conn_ c) "Release" 0) < 0 ∧
          fd_to_close_ (PtcpConn.Close (ptcp_conn_ c) "Release" 0) = conn_fd c) as [Hneg Hfd].
  { unfold PtcpConn.Close. destruct (Z.ltb_spec (conn_sock c) 0); by split. }
  destruct (PtcpConn.TryCloseFd _ _) as [[b t] w3] eqn:Ht.
  apply TryCloseFd_fds in Ht as (Hts & _ & Htf).
  assert (conn_sock c' = sockfd_ t ∧ conn_fd c' = fd_to_close_ t ∧ open_fds w' = open_fds w3 ∧
          remote_name_ c' = r ∧ local_name_ c' = local_name_ c ∧ ptcp_dir_ c' = ptcp_dir_ c)
    as (-> & -> & -> & -> & -> & ->).
  { destruct (q_ t); run H; repeat split; try done. apply fd_munmap. }
  rewrite Hts. split; [destruct (_ <? _); auto|]. rewrite Hfd in Htf. split; [|done].
  destruct b, (Z.leb_spec 0 (conn_fd c)); try lia.
  - destruct Htf as (_ & _ & -> & ->). by rewrite Hw2.
  - destruct Htf as (? & -> & ->). done.
Qed.

Lemma Open_conn_fds c fd ack now w c' w' :
  Open c fd ack now w = Ret (c', w') →
  conn_fd c' = fd ∧ (conn_sock c' = fd ∨ conn_sock c' = -1) ∧ open_fds w' = open_fds w ∧
  local_name_ c' = local_name_ c ∧ remote_name_ c' = remote_name_ c ∧ ptcp_dir_ c' = ptcp_dir_ c.
Proof.
  unfold Open. intros H. run H. destruct r as [t w1]. run H. apply Open_fds in Hrun as (?&?&?).
  by repeat split.
Qed.

Lemma TryCloseFd_conn_fds c w b c' w' :
  TryCloseFd c w = (b, c', w') →
  conn_sock c' = conn_sock c ∧ local_name_ c' = local_name_ c ∧ remote_name_ c' = remote_name_ c ∧
  ptcp_dir_ c' = ptcp_dir_ c ∧
  (if b then conn_sock c < 0 ∧ 0 ≤ conn_fd c ∧ conn_fd c' = -1 ∧
             open_fds w' = (open_fds w) ∖ {[conn_fd c]}
   else (conn_sock c < 0 → conn_fd c < 0) ∧ conn_fd c' = conn_fd c ∧ w' = w).
Proof.
  unfold TryCloseFd. destruct (PtcpConn.TryCloseFd _ _) as [[b1 t] w1] eqn:Ht.
  intros [= <- <- <-]. apply TryCloseFd_fds in Ht as (?&_&?). by repeat split.
Qed.

(** ** What a callback may do *)

(** One public call on the connection [c], a store through a pointer that
    [Alloc] or [Front] returned, or something that concerns neither the
    connection nor the sockets. *)
Inductive user_call (c : TcpShmConnection) (w : W) : TcpShmConnection → W → Prop :=
  | call_Alloc size p c' : Alloc c size = Ret (p, c') → user_call c w c' w
  | call_Push c' w' : Push c w = Ret (c', w') → user_call c w c' w'
  | call_PushMore c' : PushMore c = Ret c' → user_call c w c' w
  | call_Front p c' w' : Front c w = Ret (p, c', w') → user_call c w c' w'
  | call_Pop c' : Pop c = Ret c' → user_call c w c' w
  | call_Close : user_call c w (Close c) w
  | store_ptcp q q' :
      q_ (ptcp_conn_ c) = Some q → user_call c w (set_ptcp_conn c (set_q (ptcp_conn_ c) (Some q'))) w
  | store_recvbuf buf :
      user_call c w (set_ptcp_conn c (set_recvbuf (ptcp_conn_ c) buf (recvbuf_size_ (ptcp_conn_ c)))) w
  | store_sendq q q' : shm_sendq_ c = Some q → user_call c w (set_shm_sendq c (Some q')) w
  | store_recvq q q' : shm_recvq_ c = Some q → user_call c w (set_shm_recvq c (Some q')) w
  | elsewhere w' : open_fds w' = open_fds w → user_call c w c w'.

Inductive user_calls : TcpShmConnection → W → TcpShmConnection → W → Prop :=
  | calls_done c w : user_calls c w c w
  | calls_next c w c' w' c'' w'' :
      user_call c w c' w' → user_calls c' w' c'' w'' → user_calls c w c'' w''.

Lemma user_call_kept c w c' w' : user_call c w c' w' → conn_kept c c' ∧ open_fds w' = open_fds w.
Proof.
  destruct 1; eauto using Alloc_kept, Push_kept, PushMore_kept, Front_kept, Pop_kept, Close_kept,
    conn_kept_sendq, conn_kept_recvq, conn_kept_ptcp, fds_kept_same.
  by split; [reflexivity|].
Qed.

Lemma user_calls_kept c w c' w' : user_calls c w c' w' → conn_kept c c' ∧ open_fds w' = open_fds w.
Proof.
  induction 1 as [c w|c w c1 w1 c2 w2 H1 _ [IHc IHw]]; [by split; [reflexivity|]|].
  apply user_call_kept in H1 as [H1 Hw]. split; [by etrans|congruence].
Qed.

Lemma user_calls_trans c w c1 w1 c2 w2 : user_calls c w c1 w1 → user_calls c1 w1 c2 w2 → user_calls c w c2 w2.
Proof. induction 1; [done|eauto using calls_next]. Qed.
End tcpshm.

(** ** Owned descriptors *)

(** A descriptor when it is one. *)
Definition own (fd : Z) : list Z := if 0 <=? fd then [fd] else [].

Lemma own_neg fd : fd < 0 → own fd = [].
Proof. unfold own. by destruct (Z.leb_spec 0 fd); [lia|]. Qed.
Lemma own_nonneg fd : 0 ≤ fd → own fd = [fd].
Proof. unfold own. by destruct (Z.leb_spec 0 fd); [|lia]. Qed.

(** [l] lists the open sockets, each once. *)
Definition owns (l : list Z) (X : gset Z) : Prop := l ≡ₚ elements X.

#[export] Instance owns_proper : Proper ((≡ₚ) ==> (=) ==> iff) owns.
Proof. intros l l' Hl X ? <-. unfold owns. by rewrite Hl. Qed.

Lemma owns_spec l X : owns l X ↔ NoDup l ∧ ∀ fd, fd ∈ l ↔ fd ∈ X.
Proof.
  unfold owns. split.
  - intros Hl. split; [rewrite Hl; apply NoDup_elements|]. intros fd. rewrite Hl. apply elem_of_elements.
  - intros [Hd Hl]. apply NoDup_Permutation; [done|apply NoDup_elements|]. intros fd.
    by rewrite Hl, elem_of_elements.
Qed.

Lemma owns_closed fd l X : owns (fd :: l) X → owns l (X ∖ {[fd]}).
Proof.
  rewrite !owns_spec. intros [[Hfd Hd]%NoDup_cons Hl]. split; [done|]. intros fd'.
  rewrite elem_of_difference, elem_of_singleton, <-Hl, elem_of_cons.
  split; [intros Hin; split; [by right|by intros ->]|by intros [[->|?] ?]].
Qed.

Lemma owns_opened fd l X : owns l X → fd ∉ X → owns (fd :: l) ({[fd]} ∪ X).
Proof.
  rewrite !owns_spec. intros [Hd Hl] Hfd. split; [constructor; [by rewrite Hl|done]|].
  intros fd'. by rewrite elem_of_union, elem_of_singleton, <-Hl, elem_of_cons.
Qed.

(** Replacing an element of a table. *)
Lemma bind_insert {A} (f : A → list Z) (l : list A) i x y :
  l !! i = Some x → f y ++ (l ≫= f) ≡ₚ f x ++ (<[i := y]> l ≫= f).
Proof.
  intros Hi. rewrite (insert_take_drop _ _ _ (lookup_lt_Some _ _ _ Hi)).
  rewrite <-(take_drop_middle l i x Hi) at 1. rewrite !bind_app. simpl.
  rewrite !app_assoc, !(Permutation_app_comm _ (take i l ≫= f)), <-!app_assoc.
  apply Permutation_app_head. rewrite !app_assoc. apply Permutation_app_tail, Permutation_app_comm.
Qed.
