(* ===== verification/Server.v ===== *)
(** * The server ([tcpshm_server.h])

    [TcpShmServer] is the class of the same name.  A [Connection*] of a group
    is the index of the connection in [conn_pool_].  The callbacks of the
    user's class are the operations of [ServerUser]; a callback that is given
    a connection may use it, and returns it. *)

From S2P Require Import Prelude.
From S2P Require Import Arrays.
From S2P Require Import MsgHeader.
From S2P Require Import PtcpQueue.
From S2P Require Import SpscQueue.
From S2P Require Import Platform.
From S2P Require Import PtcpConn.
From S2P Require Import TcpShmConn.
From S2P Require Import Login.

Class ServerUser (W : Type) `{LoginOs W} := {
  OnSystemError : string → Z → W → W;
  OnNewConnection : sockaddr → LoginMsg → LoginRspMsg → W → Z * LoginRspMsg * W;
  OnClientFileError : TcpShmConnection → string → Z → W → outcome (TcpShmConnection * W);
  (* the local numbers; the remote ack, first and last number *)
  OnSeqNumberMismatch : TcpShmConnection → seqs → seqs → W → outcome (TcpShmConnection * W);
  OnClientLogon : sockaddr → TcpShmConnection → W → outcome (TcpShmConnection * W);
  OnClientDisconnected : TcpShmConnection → string → Z → W → outcome (TcpShmConnection * W);
  OnClientMsg : TcpShmConnection → Z → W → outcome (TcpShmConnection * W)
}.

(** [std::swap(l[i], l[j])] *)
Definition swap {A} (l : list A) (i j : Z) : outcome (list A) :=
  x ← get l i;
  y ← get l j;
  l ← put l i y;
  put l j x.

(** [seq_start <= ack_seq <= seq_end] on the number circle. *)
Definition CheckAckInQueue (ack_seq seq_start seq_end : Z) : bool :=
  (0 <=? i32 (u32 (ack_seq - seq_start))) && (0 <=? i32 (u32 (seq_end - ack_seq))).

Record ConnectionGroup := mkGroup { live_cnt : Z; conns : list Z }.

Section TcpShmServer.
Context {conf : Conf} {ud : UserData} {W : Type} {os : Os W}.
Context {mmq : MmapOs W PTCPQueue} {mms : MmapOs W SPSCVarQueue}.
Context {los : LoginOs W} {user : ServerUser W}.

(** What the stack holds where [HandleLogin] puts its reply. *)
Context (stack_header : MsgHeader) (stack_rsp : LoginRspMsg).

Record NewConn := mkNewConn {
  nc_time : Z;
  nc_fd : Z;
  nc_addr : sockaddr;
  nc_header : MsgHeader;    (* recvbuf[0] *)
  nc_login : LoginMsg       (* recvbuf + 1 *)
}.

Record TcpShmServer := mkServer {
  server_name_ : list Z;
  ptcp_dir_ : list Z;
  listenfd_ : Z;
  new_conns_ : list NewConn;
  avail_idx_ : Z;
  conn_pool_ : list TcpShmConnection;
  shm_grps_ : list ConnectionGroup;
  tcp_grps_ : list ConnectionGroup
}.

Definition set_listenfd (s : TcpShmServer) (fd : Z) : TcpShmServer :=
  mkServer (server_name_ s) (ptcp_dir_ s) fd (new_conns_ s) (avail_idx_ s) (conn_pool_ s)
    (shm_grps_ s) (tcp_grps_ s).
Definition set_new_conns (s : TcpShmServer) (l : list NewConn) : TcpShmServer :=
  mkServer (server_name_ s) (ptcp_dir_ s) (listenfd_ s) l (avail_idx_ s) (conn_pool_ s)
    (shm_grps_ s) (tcp_grps_ s).
Definition set_avail_idx (s : TcpShmServer) (i : Z) : TcpShmServer :=
  mkServer (server_name_ s) (ptcp_dir_ s) (listenfd_ s) (new_conns_ s) i (conn_pool_ s)
    (shm_grps_ s) (tcp_grps_ s).
Definition set_conn_pool (s : TcpShmServer) (l : list TcpShmConnection) : TcpShmServer :=
  mkServer (server_name_ s) (ptcp_dir_ s) (listenfd_ s) (new_conns_ s) (avail_idx_ s) l
    (shm_grps_ s) (tcp_grps_ s).

(** [shm_grps_] or [tcp_grps_]. *)
Definition grps (s : TcpShmServer) (shm : bool) : list ConnectionGroup :=
  if shm then shm_grps_ s else tcp_grps_ s.
Definition set_grps (s : TcpShmServer) (shm : bool) (l : list ConnectionGroup) : TcpShmServer :=
  mkServer (server_name_ s) (ptcp_dir_ s) (listenfd_ s) (new_conns_ s) (avail_idx_ s) (conn_pool_ s)
    (if shm then l else shm_grps_ s) (if shm then tcp_grps_ s else l).

Definition set_nc_fd (c : NewConn) (fd : Z) : NewConn :=
  mkNewConn (nc_time c) fd (nc_addr c) (nc_header c) (nc_login c).
Definition set_nc_recvbuf (c : NewConn) (h : MsgHeader) (m : LoginMsg) : NewConn :=
  mkNewConn (nc_time c) (nc_fd c) (nc_addr c) h m.

Definition put_new_conn (s : TcpShmServer) (k : Z) (c : NewConn) : outcome TcpShmServer :=
  l ← put (new_conns_ s) k c; Ret (set_new_conns s l).
Definition put_conn (s : TcpShmServer) (cid : Z) (c : TcpShmConnection) : outcome TcpShmServer :=
  l ← put (conn_pool_ s) cid c; Ret (set_conn_pool s l).
Definition put_grp (s : TcpShmServer) (shm : bool) (g : Z) (grp : ConnectionGroup)
    : outcome TcpShmServer :=
  l ← put (grps s shm) g grp; Ret (set_grps s shm l).

(** *** Construction *)

(** [n] groups of [m] connections, numbered from [cnt] on. *)
Fixpoint new_groups (n : nat) (m cnt : Z) : list ConnectionGroup :=
  match n with
  | O => []
  | S n => mkGroup 0 (seqZ cnt m) :: new_groups n m (cnt + m)
  end.

(** [TcpShmServer(server_name, ptcp_dir)]; [junk] is uninitialised memory. *)
Definition new_TcpShmServer (server_name ptcp_dir : list Z) (junk_name : list Z) (junk_conn : NewConn)
    (w : W) : outcome (TcpShmServer * W) :=
  name ← strncpy junk_name server_name (NameSize - 1);
  name ← put name (NameSize - 1) 0;
  let w := os_mkdir ptcp_dir w in
  let n := MaxShmConnsPerGrp * MaxShmGrps + MaxTcpConnsPerGrp * MaxTcpGrps in
  let conn := init (new_TcpShmConnection (tail junk_name)) ptcp_dir name in
  Ret (mkServer name ptcp_dir (-1)
         (repeat (set_nc_fd junk_conn (-1)) (Z.to_nat MaxNewConnections)) 0
         (repeat conn (Z.to_nat n))
         (new_groups (Z.to_nat MaxShmGrps) MaxShmConnsPerGrp 0)
         (new_groups (Z.to_nat MaxTcpGrps) MaxTcpConnsPerGrp (MaxShmConnsPerGrp * MaxShmGrps)), w).

(** *** Start *)

(** [if(f() < 0) { OnSystemError(name, errno); return false; }] *)
Definition start_check (r : sysret Z * W) (name : string) (next : W → bool * W) : bool * W :=
  match r with
  | (SysErr errno, w) => (false, OnSystemError name errno w)
  | (SysOk _, w) => next w
  end.

Definition Start (s : TcpShmServer) (listen_ipv4 : list Z) (listen_port : Z) (w : W)
    : bool * TcpShmServer * W :=
  if 0 <=? listenfd_ s then (false, s, OnSystemError "already started" 0 w) else
  match os_socket w with
  | (SysErr errno, w) => (false, set_listenfd s (-1), OnSystemError "socket" errno w)
  | (SysOk fd, w) =>
      let w := os_set_nonblock fd w in
      let '(r, w) :=
        start_check (os_setsockopt fd "SO_REUSEADDR" w) "setsockopt SO_REUSEADDR" (λ w,
        (if TcpNoDelay
         then start_check (os_setsockopt fd "TCP_NODELAY" w) "setsockopt TCP_NODELAY"
         else λ next, next w) (λ w,
        start_check (os_bind fd listen_ipv4 listen_port w) "bind" (λ w,
        start_check (os_listen fd w) "listen" (λ w, (true, w))))) in
      (r, set_listenfd s fd, w)
  end.

(** *** HandleLogin *)

(** [strncpy(login_rsp->error_msg, msg, sizeof(login_rsp->error_msg))] *)
Definition set_error (rsp : LoginRspMsg) (msg : string) : outcome LoginRspMsg :=
  e ← strncpy (error_msg rsp) (chars msg) sizeof_error_msg; Ret (set_error_msg rsp e).

(** [::send(conn.fd, sendbuf, sizeof(sendbuf), MSG_NOSIGNAL)], unchecked. *)
Definition reply (conn : NewConn) (header : MsgHeader) (rsp : LoginRspMsg) (w : W) : W :=
  (os_send_rsp (nc_fd conn) (header, rsp) w).2.

(** The connection is [curconn], at [i] in its group and not live; the files
    are open and the numbers of both sides known. *)
Definition HandleLogin_finish (s : TcpShmServer) (shm : bool) (g i cid k : Z) (header : MsgHeader)
    (rsp : LoginRspMsg) (curconn : TcpShmConnection) (local remote : seqs) (now : Z) (w : W)
    : outcome (TcpShmServer * W) :=
  conn ← get (new_conns_ s) k;
  let header := mkMsgHeader (mh_size header) (mh_msg_type header)
                  (Convert is_little_endian ToLittleEndian 4 (sq_local_ack local)) in
  let rsp := LoginRspMsg_ConvertByteOrder (set_server_seqs rsp (sq_start local) (sq_end local)) in
  if negb (CheckAckInQueue (sq_local_ack remote) (sq_start local) (sq_end local)) ||
     negb (CheckAckInQueue (sq_local_ack local) (sq_start remote) (sq_end remote))
  then
    '(curconn, w) ← OnSeqNumberMismatch curconn local remote w;
    s ← put_conn s cid curconn;
    Ret (s, reply conn header (set_status rsp 1) w)
  else
    let '(sent, w) := os_send_rsp (nc_fd conn) (header, set_status rsp 0) w in
    if sent_all sent (buffer_size sizeof_LoginRspMsg) then
      '(curconn, w) ← Open curconn (nc_fd conn) (sq_local_ack remote) now w;
      s ← put_conn s cid curconn;
      s ← put_new_conn s k (set_nc_fd conn (-1));
      grp ← get (grps s shm) g;
      cs ← swap (conns grp) i (live_cnt grp);
      s ← put_grp s shm g (mkGroup (u32 (live_cnt grp + 1)) cs);
      '(curconn, w) ← OnClientLogon (nc_addr conn) curconn w;
      s ← put_conn s cid curconn;
      Ret (s, w)
    else
      s ← put_conn s cid curconn;
      Ret (s, w).

(** "System error", after [OnClientFileError]. *)
Definition HandleLogin_file_error (s : TcpShmServer) (cid k : Z) (header : MsgHeader) (rsp : LoginRspMsg)
    (curconn : TcpShmConnection) (error_msg : string) (errno : Z) (w : W)
    : outcome (TcpShmServer * W) :=
  conn ← get (new_conns_ s) k;
  '(curconn, w) ← OnClientFileError curconn error_msg errno w;
  s ← put_conn s cid curconn;
  rsp ← set_error rsp "System error";
  Ret (s, reply conn header rsp w).

(** The name of connection [cid], at [i] in its group, is the client's. *)
Definition HandleLogin_match (s : TcpShmServer) (shm : bool) (g i cid k : Z) (header : MsgHeader)
    (rsp : LoginRspMsg) (now : Z) (w : W) : outcome (TcpShmServer * W) :=
  conn ← get (new_conns_ s) k;
  grp ← get (grps s shm) g;
  curconn ← get (conn_pool_ s) cid;
  let login := nc_login conn in
  if i <? live_cnt grp then
    rsp ← set_error rsp "Already loggned on";
    Ret (s, reply conn header rsp w)
  else
    let '(err, curconn, w) := OpenFile curconn (negb (use_shm login =? 0)) w in
    match err with
    | Some error_msg =>
        HandleLogin_file_error s cid k header rsp curconn error_msg (os_errno w) w
    | None =>
        if negb (strncmp_eq (last_server_name login) (server_name_ s) NameSize) then
          curconn ← Reset curconn;
          HandleLogin_finish s shm g i cid k header rsp curconn (mkSeqs 0 0 0) (mkSeqs 0 0 0) now w
        else
          '(ok, local) ← GetSeq curconn (mkSeqs 0 0 0);
          if ok : bool then
            HandleLogin_finish s shm g i cid k header rsp curconn local
              (mkSeqs (mh_ack_seq (nc_header conn)) (client_seq_start login) (client_seq_end login)) now w
          else HandleLogin_file_error s cid k header rsp curconn "Ptcp file corrupt" 0 w
    end.

(** The loop over the group, from [i] on, with [n] connections left. *)
Fixpoint HandleLogin_scan (n : nat) (s : TcpShmServer) (shm : bool) (g i k : Z) (header : MsgHeader)
    (rsp : LoginRspMsg) (now : Z) (w : W) : outcome (TcpShmServer * W) :=
  conn ← get (new_conns_ s) k;
  match n with
  | O =>
      rsp ← set_error rsp "Max client cnt exceeded";
      Ret (s, reply conn header rsp w)
  | S n =>
      grp ← get (grps s shm) g;
      cid ← get (conns grp) i;
      curconn ← get (conn_pool_ s) cid;
      let name := client_name (nc_login conn) in
      ch ← first_char (remote_name_ curconn);
      remote_name ← (if ch =? 0 then strncpy (remote_name_ curconn) name NameSize
                     else Ret (remote_name_ curconn));
      s ← put_conn s cid (set_remote_name curconn remote_name);
      if negb (strncmp_eq remote_name name NameSize)
      then HandleLogin_scan n s shm g (i + 1) k header rsp now w
      else HandleLogin_match s shm g i cid k header rsp now w
  end.

(** [HandleLogin(now, new_conns_[k], shm ? shm_grps_ : tcp_grps_)] *)
Definition HandleLogin (s : TcpShmServer) (shm : bool) (k now : Z) (w : W)
    : outcome (TcpShmServer * W) :=
  conn ← get (new_conns_ s) k;
  let header := ConvertByteOrder is_little_endian ToLittleEndian
                  (mkMsgHeader (u16 (sizeof_MsgHeader + sizeof_LoginRspMsg)) LoginRspMsg_msg_type
                     (mh_ack_seq stack_header)) in
  name ← strncpy (server_name stack_rsp) (server_name_ s) NameSize;
  let rsp := set_status (set_server_name stack_rsp name) 2 in
  e ← put (error_msg rsp) 0 0;
  let rsp := set_error_msg rsp e in
  let login := nc_login conn in
  ch ← first_char (client_name login);
  if ch =? 0 then
    rsp ← set_error rsp "Invalid client name";
    Ret (s, reply conn header rsp w)
  else
    name ← put (client_name login) (NameSize - 1) 0;
    let conn := set_nc_recvbuf conn (nc_header conn) (set_client_name login name) in
    s ← put_new_conn s k conn;
    let '(grpid, rsp, w) := OnNewConnection (nc_addr conn) (nc_login conn) rsp w in
    if grpid <? 0 then
      e ← get (error_msg rsp) 0;
      rsp ← (if e =? 0 then set_error rsp "Login Reject" else Ret rsp);
      Ret (s, reply conn header rsp w)
    else
      grp ← get (grps s shm) grpid;
      HandleLogin_scan (length (conns grp)) s shm grpid 0 k header rsp now w.

(** *** PollCtl *)

Definition PollCtl_accept (s : TcpShmServer) (now : Z) (w : W) : outcome (TcpShmServer * W) :=
  if avail_idx_ s =? MaxNewConnections then Ret (s, w) else
  conn ← get (new_conns_ s) (avail_idx_ s);
  let '(r, w) := os_accept (listenfd_ s) w in
  match r with
  | SysErr _ =>
      s ← put_new_conn s (avail_idx_ s) (set_nc_fd conn (-1));
      Ret (s, w)
  | SysOk (fd, addr) =>
      let w := os_set_nonblock fd w in
      s ← put_new_conn s (avail_idx_ s) (mkNewConn now fd addr (nc_header conn) (nc_login conn));
      Ret (set_avail_idx s MaxNewConnections, w)
  end.

(** What arrived on the new connection [k]: a login is handled. *)
Definition PollCtl_login (s : TcpShmServer) (k now : Z) (header : MsgHeader) (login : LoginMsg) (w : W)
    : outcome (TcpShmServer * W) :=
  conn ← get (new_conns_ s) k;
  let header := ConvertByteOrder is_little_endian ToLittleEndian header in
  if (mh_size header =? sizeof_MsgHeader + sizeof_LoginMsg) && (mh_msg_type header =? LoginMsg_msg_type)
  then
    let login := LoginMsg_ConvertByteOrder login in
    s ← put_new_conn s k (set_nc_recvbuf conn header login);
    HandleLogin s (negb (use_shm login =? 0)) k now w
  else
    s ← put_new_conn s k (set_nc_recvbuf conn header login);
    Ret (s, w).

(** The end of the loop's body: the new connection [k] is closed, unless its
    socket went to a connection of a group. *)
Definition PollCtl_close (s : TcpShmServer) (k : Z) (w : W) : outcome (TcpShmServer * W) :=
  conn ← get (new_conns_ s) k;
  if 0 <=? nc_fd conn then
    s ← put_new_conn s k (set_nc_fd conn (-1));
    Ret (set_avail_idx s k, os_close (nc_fd conn) w)
  else Ret (set_avail_idx s k, w).

(** The body of the loop over the new connections. *)
Definition PollCtl_new (s : TcpShmServer) (k now : Z) (w : W) : outcome (TcpShmServer * W) :=
  conn ← get (new_conns_ s) k;
  if nc_fd conn <? 0 then Ret (set_avail_idx s k, w) else
  let '(r, w) := os_recv_login (nc_fd conn) w in
  match r with
  | RecvErr errno =>
      if (errno =? EAGAIN) && (now - nc_time conn <=? NewConnectionTimeout)
      then Ret (s, w) else PollCtl_close s k w
  | RecvShort _ => PollCtl_close s k w
  | RecvFull header login =>
      '(s, w) ← PollCtl_login s k now header login w;
      PollCtl_close s k w
  end.

(** [n] new connections are left, from [k] on. *)
Fixpoint PollCtl_news (n : nat) (s : TcpShmServer) (k now : Z) (w : W) : outcome (TcpShmServer * W) :=
  match n with
  | O => Ret (s, w)
  | S n => '(s, w) ← PollCtl_new s k now w; PollCtl_news n s (k + 1) now w
  end.

(** [std::swap(grp.conns[i], grp.conns[--grp.live_cnt])] *)
Definition remove_live (grp : ConnectionGroup) (i : Z) : outcome ConnectionGroup :=
  let cnt := u32 (live_cnt grp - 1) in
  cs ← swap (conns grp) i cnt;
  Ret (mkGroup cnt cs).

(** The loop over a group, from [i] on: a closed connection is handed back
    and removed from the live ones.  Every iteration leaves one live
    connection less to visit. *)
Fixpoint PollCtl_group (n : nat) (s : TcpShmServer) (shm : bool) (g i now : Z) (w : W)
    : outcome (TcpShmServer * W) :=
  grp ← get (grps s shm) g;
  if i <? live_cnt grp then
    match n with
    | O => NoFuel
    | S n =>
        cid ← get (conns grp) i;
        conn ← get (conn_pool_ s) cid;
        '(conn, w) ← (if shm then '(_, conn, w) ← TcpFront conn now w; Ret (conn, w)
                      else Ret (conn, w));
        let '(closed, conn, w) := TryCloseFd conn w in
        if closed : bool then
          let '(reason, sys_errno) := GetCloseReason conn in
          '(conn, w) ← OnClientDisconnected conn reason sys_errno w;
          s ← put_conn s cid conn;
          grp ← remove_live grp i;
          s ← put_grp s shm g grp;
          PollCtl_group n s shm g i now w
        else
          s ← put_conn s cid conn;
          PollCtl_group n s shm g (i + 1) now w
    end
  else Ret (s, w).

(** [n] groups are left, from [g] on. *)
Fixpoint PollCtl_groups (n : nat) (s : TcpShmServer) (shm : bool) (g now : Z) (w : W)
    : outcome (TcpShmServer * W) :=
  match n with
  | O => Ret (s, w)
  | S n =>
      grp ← get (grps s shm) g;
      '(s, w) ← PollCtl_group (Z.to_nat (live_cnt grp)) s shm g 0 now w;
      PollCtl_groups n s shm (g + 1) now w
  end.

Definition PollCtl (s : TcpShmServer) (now : Z) (w : W) : outcome (TcpShmServer * W) :=
  '(s, w) ← PollCtl_accept s now w;
  '(s, w) ← PollCtl_news (Z.to_nat MaxNewConnections) s 0 now w;
  '(s, w) ← PollCtl_groups (length (shm_grps_ s)) s true 0 now w;
  PollCtl_groups (length (tcp_grps_ s)) s false 0 now w.

(** *** PollTcp and PollShm *)

(** [if(head) OnClientMsg(conn, head)] *)
Definition deliver (conn : TcpShmConnection) (head : option Z) (w : W)
    : outcome (TcpShmConnection * W) :=
  match head with Some p => OnClientMsg conn p w | None => Ret (conn, w) end.

(** The loop over the live connections of a group, [n] of them left. *)
Fixpoint poll_group (n : nat) (s : TcpShmServer) (shm : bool) (g i now : Z) (w : W)
    : outcome (TcpShmServer * W) :=
  match n with
  | O => Ret (s, w)
  | S n =>
      grp ← get (grps s shm) g;
      cid ← get (conns grp) i;
      conn ← get (conn_pool_ s) cid;
      '(head, conn, w) ← (if shm then '(head, conn) ← ShmFront conn; Ret (head, conn, w)
                          else TcpFront conn now w);
      '(conn, w) ← deliver conn head w;
      s ← put_conn s cid conn;
      poll_group n s shm g (i + 1) now w
  end.

Definition PollTcp (s : TcpShmServer) (now grpid : Z) (w : W) : outcome (TcpShmServer * W) :=
  grp ← get (tcp_grps_ s) grpid;
  poll_group (Z.to_nat (live_cnt grp)) s false grpid 0 now w.

Definition PollShm (s : TcpShmServer) (grpid : Z) (w : W) : outcome (TcpShmServer * W) :=
  grp ← get (shm_grps_ s) grpid;
  poll_group (Z.to_nat (live_cnt grp)) s true grpid 0 0 w.

(** *** Stop *)

Fixpoint close_new_conns (l : list NewConn) (w : W) : list NewConn * W :=
  match l with
  | [] => ([], w)
  | c :: l =>
      let '(c, w) := if 0 <=? nc_fd c then (set_nc_fd c (-1), os_close (nc_fd c) w) else (c, w) in
      let '(l, w) := close_new_conns l w in
      (c :: l, w)
  end.

Fixpoint release_conns (cids : list Z) (s : TcpShmServer) (w : W) : outcome (TcpShmServer * W) :=
  match cids with
  | [] => Ret (s, w)
  | cid :: cids =>
      conn ← get (conn_pool_ s) cid;
      '(conn, w) ← Release conn w;
      s ← put_conn s cid conn;
      release_conns cids s w
  end.

Fixpoint stop_groups (n : nat) (s : TcpShmServer) (shm : bool) (g : Z) (w : W)
    : outcome (TcpShmServer * W) :=
  match n with
  | O => Ret (s, w)
  | S n =>
      grp ← get (grps s shm) g;
      '(s, w) ← release_conns (conns grp) s w;
      s ← put_grp s shm g (mkGroup 0 (conns grp));
      stop_groups n s shm (g + 1) w
  end.

Definition Stop (s : TcpShmServer) (w : W) : outcome (TcpShmServer * W) :=
  if listenfd_ s <? 0 then Ret (s, w) else
  let w := os_close (listenfd_ s) w in
  let s := set_listenfd s (-1) in
  let '(l, w) := close_new_conns (new_conns_ s) w in
  let s := set_avail_idx (set_new_conns s l) 0 in
  '(s, w) ← stop_groups (length (shm_grps_ s)) s true 0 w;
  stop_groups (length (tcp_grps_ s)) s false 0 w.
End TcpShmServer.
