(* ===== verification/ServerTable.v ===== *)
(** * The connections of the server's groups

    A group is seen as the row of its connections, the live ones first
    ([row_ok]): a live connection owns a socket, the others do not; the
    connections that have a peer's name come before those that have none, and
    the names are different.  [table_ok]: every connection of the pool is in
    one slot of one group, and every group is such a row. *)

From S2P Require Import Prelude.
From S2P Require Import Arrays.
From S2P Require Import Platform.
From S2P Require Import PtcpConn.
From S2P Require Import TcpShmConn.
From S2P Require Import Login.
From S2P Require Import Server.
From S2P Require Import Descriptors.

(** ** Arrays as lists *)

Lemma put_insert {A} (l : list A) i x l' :
  put l i x = Ret l' → 0 ≤ i < zlen l ∧ l' = <[Z.to_nat i := x]> l.
Proof. unfold put. case_decide; [|done]. by intros [= <-]. Qed.

Lemma get_lookup {A} (l : list A) i x : get l i = Ret x → 0 ≤ i ∧ l !! Z.to_nat i = Some x.
Proof. by intros ?%get_Ret. Qed.

(** [swap] as two stores. *)
Definition swapped {A} (l l' : list A) (i j : nat) : Prop :=
  ∃ x y, l !! i = Some x ∧ l !! j = Some y ∧ l' = <[j := x]> (<[i := y]> l).

Lemma swap_swapped {A} (l l' : list A) i j :
  swap l i j = Ret l' → 0 ≤ i ∧ 0 ≤ j ∧ swapped l l' (Z.to_nat i) (Z.to_nat j).
Proof.
  unfold swap. intros H. run H. run H. run H. apply get_lookup in Hrun as [? Hx], Hrun0 as [? Hy].
  apply put_insert in Hrun1 as [? ->], H as [? ->]. split; [done|]. split; [done|]. by eexists _, _.
Qed.

Lemma swapped_perm {A} (l l' : list A) i j : swapped l l' i j → l' ≡ₚ l.
Proof.
  intros (x & y & Hx & Hy & ->). symmetry. apply Permutation_inj. split.
  { by rewrite !length_insert. }
  exists (λ k, if decide (k = i) then j else if decide (k = j) then i else k). split.
  - intros k1 k2. repeat case_decide; congruence.
  - intros k. pose proof (lookup_lt_Some _ _ _ Hx). pose proof (lookup_lt_Some _ _ _ Hy).
    repeat case_decide; subst.
    + rewrite list_lookup_insert_eq by (by rewrite length_insert). done.
    + destruct (decide (i = j)) as [->|]; [done|].
      rewrite list_lookup_insert_ne by done. rewrite list_lookup_insert_eq by done. done.
    + by rewrite !list_lookup_insert_ne by done.
Qed.

Lemma swapped_lookup {A} (l l' : list A) i j k z :
  swapped l l' i j → l' !! k = Some z →
  ∃ k', l !! k' = Some z ∧ (k = i ∧ k' = j ∨ k = j ∧ k' = i ∨ k ≠ i ∧ k ≠ j ∧ k' = k).
Proof.
  intros (x & y & Hx & Hy & ->). rewrite list_lookup_insert_Some, length_insert, list_lookup_insert_Some.
  intros [(<- & <- & _)|(? & [(<- & <- & _)|[? ?]])]; eauto 10.
Qed.

Lemma Forall2_swapped {A B} (R : A → B → Prop) l k l' i j :
  Forall2 R l k → swapped l l' i j → ∃ k', swapped k k' i j ∧ Forall2 R l' k'.
Proof.
  intros HR (x & y & Hx & Hy & ->).
  destruct (Forall2_lookup_l _ _ _ _ _ HR Hx) as (x' & Hx' & ?).
  destruct (Forall2_lookup_l _ _ _ _ _ HR Hy) as (y' & Hy' & ?).
  exists (<[j := x']> (<[i := y']> k)). split; [by eexists _, _|]. by repeat apply Forall2_insert.
Qed.

Lemma bind_lookup_ne {A B} (f : A → list B) (l : list A) i j x y z :
  NoDup (l ≫= f) → l !! i = Some x → l !! j = Some y → z ∈ f x → z ∈ f y → i = j.
Proof.
  revert i j. induction l as [|a l IH]; intros i j Hd Hi Hj Hx Hy; [done|].
  simpl in Hd. apply NoDup_app in Hd as (_ & Hd & Hl).
  assert (∀ k b, l !! k = Some b → z ∈ f b → z ∈ (l ≫= f)) as Hin.
  { intros k b Hk Hb. apply list_elem_of_bind. exists b. split; [done|]. by eapply list_elem_of_lookup_2. }
  destruct i as [|i], j as [|j]; simpl in *; simplify_eq; [done| | |].
  - exfalso. by eapply Hd, Hin.
  - exfalso. by eapply Hd, Hin.
  - f_equal. by eapply IH.
Qed.

Section table.
Context {conf : Conf}.
Context (HN : 1 < NameSize).

(** ** Names *)

(** The peer's name as the code compares it. *)
Definition conn_name (c : TcpShmConnection) : list Z := take (Z.to_nat NameSize) (c_str (remote_name_ c)).

Lemma conn_name_kept c c' : conn_kept c c' → conn_name c' = conn_name c.
Proof. intros H. unfold conn_name. by rewrite (ck_remote _ _ H). Qed.

Lemma strncmp_eq_spec a b :
  strncmp_eq a b NameSize = true ↔ take (Z.to_nat NameSize) (c_str a) = take (Z.to_nat NameSize) (c_str b).
Proof. unfold strncmp_eq. by rewrite bool_decide_eq_true. Qed.

Lemma first_char_name s ch :
  first_char s = Ret ch → (ch = 0 ↔ take (Z.to_nat NameSize) (c_str s) = []).
Proof.
  unfold first_char. intros [_ Hs]%get_lookup. destruct s as [|x s]; simpl in Hs; [done|].
  injection Hs as ->. simpl. destruct (Z.eqb_spec ch 0); [by rewrite take_nil|].
  replace (Z.to_nat NameSize) with (S (Z.to_nat NameSize - 1)) by lia. done.
Qed.

Lemma c_str_nonzero s : Forall (λ x, x ≠ 0) (c_str s).
Proof.
  induction s as [|x s IH]; simpl; [constructor|]. destruct (Z.eqb_spec x 0); by constructor.
Qed.

Lemma c_str_app s r : Forall (λ x, x ≠ 0) s → c_str (s ++ r) = s ++ c_str r.
Proof.
  induction 1 as [|x s Hx _ IH]; [done|]. simpl. destruct (Z.eqb_spec x 0); [done|]. by rewrite IH.
Qed.

(** What is copied by [strncpy] compares equal. *)
Lemma strncpy_name dst src d :
  strncpy dst src NameSize = Ret d →
  take (Z.to_nat NameSize) (c_str d) = take (Z.to_nat NameSize) (c_str src).
Proof.
  unfold strncpy, memcpy. case_decide; [|done]. intros [= <-]. unfold blit. simpl.
  set (n := Z.to_nat NameSize). set (s := take n (c_str src)).
  rewrite <-app_assoc. rewrite c_str_app by apply Forall_take, c_str_nonzero.
  assert (length s ≤ n)%nat by (subst s; rewrite length_take; lia).
  rewrite take_app, (take_ge s) by done.
  destruct (n - length s)%nat; simpl; by rewrite app_nil_r.
Qed.

Lemma c_str_nil_put s d : put s 0 0 = Ret d → c_str d = [].
Proof. intros [? ->]%put_insert. by destruct s. Qed.

(** Ending a string that is not empty at its last place leaves it so. *)
Lemma put_end_name s ch d :
  first_char s = Ret ch → ch ≠ 0 → put s (NameSize - 1) 0 = Ret d →
  take (Z.to_nat NameSize) (c_str d) ≠ [].
Proof.
  intros Hs Hch [? ->]%put_insert. assert (first_char (<[Z.to_nat (NameSize - 1) := 0]> s) = Ret ch) as Hd.
  { unfold first_char in *. apply get_Ret in Hs as [? Hs]. apply get_Ret. split; [lia|].
    rewrite list_lookup_insert_ne by lia. done. }
  by intros ?%(first_char_name _ _ Hd).
Qed.

(** ** Rows *)

Definition conn_live (c : TcpShmConnection) : Prop :=
  0 ≤ conn_fd c ∧ (conn_sock c = conn_fd c ∨ conn_sock c < 0).
Definition conn_idle (c : TcpShmConnection) : Prop := conn_fd c < 0 ∧ conn_sock c < 0.

Lemma conn_live_kept c c' : conn_kept c c' → conn_live c → conn_live c'.
Proof. intros [_ _ _ [H1 H2]] [H3 H4]. unfold conn_live. rewrite H1. split; [done|]. lia. Qed.
Lemma conn_idle_kept c c' : conn_kept c c' → conn_idle c → conn_idle c'.
Proof. intros [_ _ _ [H1 H2]] [H3 H4]. unfold conn_idle. rewrite H1. split; [done|]. lia. Qed.

Record names_ok (row : list TcpShmConnection) : Prop := {
  n_first i j c c' : row !! i = Some c → row !! j = Some c' → (i < j)%nat →
    conn_name c' ≠ [] → conn_name c ≠ [];
  n_uniq i j c c' : row !! i = Some c → row !! j = Some c' →
    conn_name c = conn_name c' → conn_name c ≠ [] → i = j
}.

Record row_ok (live : Z) (row : list TcpShmConnection) : Prop := {
  r_live : 0 ≤ live ≤ zlen row;
  r_state i c : row !! i = Some c →
    if Z.of_nat i <? live then conn_live c ∧ conn_name c ≠ [] else conn_idle c;
  r_names : names_ok row
}.

(** Looking up in a row with one connection replaced. *)
Lemma row_insert (row : list TcpShmConnection) i c c' k d :
  row !! i = Some c → <[i := c']> row !! k = Some d →
  (k = i ∧ d = c') ∨ (k ≠ i ∧ row !! k = Some d).
Proof. intros Hi. rewrite list_lookup_insert_Some. intros [(?&?&_)|[? ?]]; auto. Qed.

Lemma names_ok_insert row i c c' :
  names_ok row → row !! i = Some c → conn_name c' = conn_name c → names_ok (<[i := c']> row).
Proof.
  intros [H3 H4] Hi Hn.
  assert (∀ k d, <[i := c']> row !! k = Some d → ∃ d', row !! k = Some d' ∧ conn_name d = conn_name d') as Hk.
  { intros k d [[-> ->]|[? ?]]%(row_insert _ _ _ _ _ _ Hi); eauto. }
  constructor.
  - intros k k' d d' (e & He & ->)%Hk (e' & He' & ->)%Hk. by apply (H3 k k').
  - intros k k' d d' (e & He & ->)%Hk (e' & He' & ->)%Hk. by apply (H4 k k').
Qed.

(** Two connections with names change places. *)
Lemma names_ok_swap row row' i j :
  names_ok row → swapped row row' i j →
  (∀ c, row !! i = Some c → conn_name c ≠ []) → (∀ c, row !! j = Some c → conn_name c ≠ []) →
  names_ok row'.
Proof.
  intros [H3 H4] Hs Hi Hj. pose proof (λ k z, swapped_lookup _ _ _ _ k z Hs) as Hl. constructor.
  - intros k k' c c' (m & Hm & Hk)%Hl (m' & Hm' & Hk')%Hl Hlt Hne.
    destruct Hk as [[-> ->]|[[-> ->]|(? & ? & ->)]]; [by apply Hj|by apply Hi|].
    destruct Hs as (x & y & Hx & Hy & _).
    destruct Hk' as [[-> ->]|[[-> ->]|(? & ? & ->)]];
      [apply (H3 k i c x); auto|apply (H3 k j c y); auto|by apply (H3 k k' c c')].
  - intros k k' c c' (m & Hm & Hk)%Hl (m' & Hm' & Hk')%Hl Heq Hne.
    assert (m = m') as <- by by eapply H4. lia.
Qed.

Lemma row_ok_named live row i j c c' :
  row_ok live row → row !! i = Some c → row !! j = Some c' → conn_name c ≠ [] →
  (j ≤ i)%nat → conn_name c' ≠ [].
Proof.
  intros Hr Hi Hj Hn Hle. destruct (decide (j = i)) as [->|]; [by simplify_eq|].
  eapply (n_first _ (r_names _ _ Hr) j i); eauto. lia.
Qed.

(** A connection replaced by itself after some calls. *)
Lemma row_ok_kept live row i c c' :
  row_ok live row → row !! i = Some c → conn_kept c c' → row_ok live (<[i := c']> row).
Proof.
  intros [H1 H2 H3] Hi Hk. pose proof (conn_name_kept _ _ Hk) as Hn. constructor.
  - unfold zlen in *. by rewrite length_insert.
  - intros k d [[-> ->]|[? Hd]]%(row_insert _ _ _ _ _ _ Hi); [|by apply H2].
    specialize (H2 _ _ Hi). rewrite Hn.
    destruct (_ <? _); [destruct H2|]; eauto using conn_live_kept, conn_idle_kept.
  - by eapply names_ok_insert.
Qed.

(** The first connection without a name gets one that no other has. *)
Lemma row_ok_name live row i c c' :
  row_ok live row → row !! i = Some c → conn_name c = [] → conn_name c' ≠ [] →
  conn_fd c' = conn_fd c → conn_sock c' = conn_sock c →
  (∀ j d, (j < i)%nat → row !! j = Some d → conn_name d ≠ [] ∧ conn_name d ≠ conn_name c') →
  row_ok live (<[i := c']> row).
Proof.
  intros [H1 H2 [H3 H4]] Hi Hn Hn' Hfd Hso Hpre.
  assert (∀ j d, (i < j)%nat → row !! j = Some d → conn_name d = []) as Hpost.
  { intros j d Hj Hd. destruct (conn_name d) eqn:He; [done|]. exfalso.
    apply (H3 i j c d); [done..|by rewrite He|done]. }
  pose proof (λ k d, row_insert row i c c' k d Hi) as Hk.
  constructor; [|intros k d [[-> ->]|[Hki Hd]]%Hk; [|by apply H2]|constructor].
  - unfold zlen in *. by rewrite length_insert.
  - specialize (H2 _ _ Hi).
    destruct (_ <? _); [by destruct H2|]. unfold conn_idle. by rewrite Hfd, Hso.
  - intros k k' d d' [[-> ->]|[? Hd]]%Hk [[-> ->]|[? Hd']]%Hk Hlt Hne; [lia|done|by eapply Hpre|by eapply H3].
  - intros k k' d d' [[-> ->]|[? Hd]]%Hk [[-> ->]|[? Hd']]%Hk Heq Hne; [done| | |by eapply H4].
    + destruct (decide (k' < i)%nat); [by edestruct (Hpre k' d')|].
      rewrite Heq in Hne. by rewrite (Hpost k' d') in Hne by (done || lia).
    + destruct (decide (k < i)%nat); [by edestruct (Hpre k d)|].
      by rewrite (Hpost k d) in Hne by (done || lia).
Qed.

(** The connection at [i], not live, gets a socket and becomes the last live
    one. *)
Lemma row_ok_login live row i c c' row' :
  row_ok live row → row !! i = Some c → live ≤ Z.of_nat i → conn_name c ≠ [] →
  conn_name c' = conn_name c → conn_live c' →
  swapped (<[i := c']> row) row' i (Z.to_nat live) → row_ok (live + 1) row'.
Proof.
  intros Hr Hi Hge Hn Hn' Hl Hs. pose proof (lookup_lt_Some _ _ _ Hi). pose proof (r_live _ _ Hr) as Hlive.
  assert (∀ j d, (j ≤ i)%nat → <[i := c']> row !! j = Some d → conn_name d ≠ []) as Hnm.
  { intros j d Hj [[-> ->]|[? Hd]]%(row_insert _ _ _ _ _ _ Hi); [by rewrite Hn'|].
    by eapply (row_ok_named live row i j c). }
  constructor.
  - pose proof (Permutation_length (swapped_perm _ _ _ _ Hs)) as Hlen. rewrite length_insert in Hlen.
    unfold zlen in *. lia.
  - intros k d (m & Hm & Hk)%(swapped_lookup _ _ _ _ _ _ Hs).
    apply (row_insert _ _ _ _ _ _ Hi) in Hm.
    destruct (Z.ltb_spec (Z.of_nat k) (live + 1)).
    + destruct Hm as [[-> ->]|[? Hm]]; [by rewrite Hn'|].
      assert (m = k) as -> by lia.
      pose proof (r_state _ _ Hr _ _ Hm) as Hst. by rewrite (proj2 (Z.ltb_lt _ _)) in Hst by lia.
    + destruct Hm as [[-> ->]|[? Hm]]; [lia|].
      pose proof (r_state _ _ Hr _ _ Hm) as Hst. by rewrite (proj2 (Z.ltb_ge _ _)) in Hst by lia.
  - eapply names_ok_swap; [by eapply names_ok_insert; first apply (r_names _ _ Hr)|done| |].
    + intros d. apply Hnm. lia.
    + intros d. apply Hnm. lia.
Qed.

(** The live connection at [i] loses its socket and is the first that is not
    live. *)
Lemma row_ok_logout live row i c c' row' :
  row_ok live row → row !! i = Some c → Z.of_nat i < live →
  conn_name c' = conn_name c → conn_idle c' →
  swapped (<[i := c']> row) row' i (Z.to_nat (live - 1)) → row_ok (live - 1) row'.
Proof.
  intros Hr Hi Hlt Hn' Hd Hs. pose proof (lookup_lt_Some _ _ _ Hi). pose proof (r_live _ _ Hr) as Hlive.
  assert (∀ j d, Z.of_nat j < live → <[i := c']> row !! j = Some d → conn_name d ≠ []) as Hnm.
  { intros j d Hj [[-> ->]|[? Hjd]]%(row_insert _ _ _ _ _ _ Hi).
    - rewrite Hn'. pose proof (r_state _ _ Hr _ _ Hi) as Hst. rewrite (proj2 (Z.ltb_lt _ _)) in Hst by lia. by destruct Hst.
    - pose proof (r_state _ _ Hr _ _ Hjd) as Hst. rewrite (proj2 (Z.ltb_lt _ _)) in Hst by lia. by destruct Hst. }
  constructor.
  - pose proof (Permutation_length (swapped_perm _ _ _ _ Hs)) as Hlen. rewrite length_insert in Hlen.
    unfold zlen in *. lia.
  - intros k d (m & Hm & Hk)%(swapped_lookup _ _ _ _ _ _ Hs).
    apply (row_insert _ _ _ _ _ _ Hi) in Hm.
    destruct (Z.ltb_spec (Z.of_nat k) (live - 1)); destruct Hm as [[-> ->]|[? Hm]]; [lia| |done|].
    + pose proof (r_state _ _ Hr _ _ Hm) as Hst. by rewrite (proj2 (Z.ltb_lt _ _)) in Hst by lia.
    + pose proof (r_state _ _ Hr _ _ Hm) as Hst. by rewrite (proj2 (Z.ltb_ge _ _)) in Hst by lia.
  - eapply names_ok_swap; [by eapply names_ok_insert; first apply (r_names _ _ Hr)|done| |].
    + intros d. apply Hnm. lia.
    + intros d. apply Hnm. lia.
Qed.

(** A row of connections that are all closed and forgotten. *)
Lemma row_ok_released row :
  Forall (λ c, conn_idle c ∧ conn_name c = []) row → row_ok 0 row.
Proof.
  intros Hf. rewrite Forall_lookup in Hf. constructor; [pose proof (zlen_nonneg row); lia| |constructor].
  - intros i c Hi. rewrite (proj2 (Z.ltb_ge _ _)) by lia. by apply (Hf i).
  - intros i j c c' _ Hj _ Hne. by destruct (Hf _ _ Hj).
  - intros i j c c' Hi _ _ Hne. by destruct (Hf _ _ Hi).
Qed.

(** ** The table of all groups *)

(** The row of a group: its slots hold numbers of connections of [P]. *)
Definition row_of (P : list TcpShmConnection) (cs : list Z) (row : list TcpShmConnection) : Prop :=
  Forall2 (λ cid c, get P cid = Ret c) cs row.

Definition grp_ok (P : list TcpShmConnection) (grp : ConnectionGroup) : Prop :=
  zlen (conns grp) < 4294967296 ∧ ∃ row, row_of P (conns grp) row ∧ row_ok (live_cnt grp) row.

Record table_ok (P : list TcpShmConnection) (G : list ConnectionGroup) : Prop := {
  t_slots : G ≫= conns ≡ₚ seqZ 0 (zlen P);
  t_groups : Forall (grp_ok P) G
}.

Lemma table_NoDup P G : table_ok P G → NoDup (G ≫= conns).
Proof. intros [-> _]. apply NoDup_seqZ. Qed.

Lemma table_grp_NoDup P G g grp : table_ok P G → G !! g = Some grp → NoDup (conns grp).
Proof.
  intros Ht Hg. pose proof (table_NoDup _ _ Ht) as Hd. rewrite <-(take_drop_middle _ _ _ Hg) in Hd.
  rewrite bind_app in Hd. apply NoDup_app in Hd as (_ & _ & Hd). by apply NoDup_app in Hd as [Hd _].
Qed.

Lemma row_of_other P cs row cid c :
  row_of P cs row → 0 ≤ cid → cid ∉ cs → row_of (<[Z.to_nat cid := c]> P) cs row.
Proof.
  intros Hr Hc Hn. induction Hr as [|x y cs row Hx _ IH]; [constructor|].
  apply not_elem_of_cons in Hn as [Hne Hn]. constructor; [|by apply IH].
  apply get_Ret in Hx as [? Hx]. apply get_Ret. split; [done|].
  rewrite list_lookup_insert_ne by lia. done.
Qed.

Lemma row_of_slot P cs row i cid c :
  row_of P cs row → NoDup cs → cs !! i = Some cid →
  row_of (<[Z.to_nat cid := c]> P) cs (<[i := c]> row).
Proof.
  intros Hr Hd Hi. apply Forall2_same_length_lookup. split.
  { rewrite length_insert. by eapply Forall2_length. }
  pose proof (proj2 (proj1 (Forall2_same_length_lookup _ _ _) Hr)) as Hl.
  intros k x y Hx Hy. apply list_lookup_insert_Some in Hy as [(<- & <- & Hk)|[Hne Hy]].
  - rewrite Hi in Hx. injection Hx as <-. destruct (lookup_lt_is_Some_2 row i Hk) as [y Hy].
    pose proof (Hl _ _ _ Hi Hy) as [? Hp]%get_Ret. apply get_Ret. split; [done|].
    apply list_lookup_insert_eq. by eapply lookup_lt_Some.
  - pose proof (Hl _ _ _ Hx Hy) as [? Hp]%get_Ret. apply get_Ret. split; [done|].
    destruct (Forall2_lookup_l _ _ _ _ _ Hr Hi) as (z & _ & [? _]%get_Ret).
    rewrite list_lookup_insert_ne; [done|]. intros He. apply Hne.
    eapply NoDup_lookup; [exact Hd|exact Hi|]. rewrite Hx. f_equal. lia.
Qed.

(** One connection of the group [g] is replaced, and the slots of the group
    permuted. *)
Lemma table_update P G g grp i cid c live' cs' row' :
  table_ok P G → G !! g = Some grp → conns grp !! i = Some cid → cs' ≡ₚ conns grp →
  row_of (<[Z.to_nat cid := c]> P) cs' row' → row_ok live' row' →
  table_ok (<[Z.to_nat cid := c]> P) (<[g := mkGroup live' cs']> G).
Proof.
  intros Ht Hg Hi Hcs Hrow Hok. pose proof (table_NoDup _ _ Ht) as Hd. destruct Ht as [Hs Hf]. constructor.
  - unfold zlen. rewrite length_insert. fold (zlen P). rewrite <-Hs.
    rewrite (insert_take_drop _ _ _ (lookup_lt_Some _ _ _ Hg)). rewrite <-(take_drop_middle _ _ _ Hg) at 3.
    rewrite !bind_app. simpl. by rewrite Hcs.
  - rewrite Forall_lookup in *. intros k grp' Hk.
    apply list_lookup_insert_Some in Hk as [(<- & <- & _)|[Hne Hk]].
    + destruct (Hf _ _ Hg) as [Hlen _]. split; [|by exists row'].
      simpl. unfold zlen in *. by rewrite Hcs.
    + destruct (Hf _ _ Hk) as [Hlen (row & Hr & ?)]. split; [done|]. exists row. split; [|done].
      destruct (Hf _ _ Hg) as [_ (row0 & Hr0 & _)].
      destruct (Forall2_lookup_l _ _ _ _ _ Hr0 Hi) as (z & _ & [? _]%get_Ret).
      apply row_of_other; [done..|]. intros Hin. apply Hne.
      eapply (bind_lookup_ne conns G); eauto. by eapply list_elem_of_lookup_2.
Qed.

(** The slot [i] of the group [g] and what it holds. *)
Lemma table_slot P G g grp i cid c :
  table_ok P G → G !! g = Some grp → conns grp !! i = Some cid → get P cid = Ret c →
  ∃ row, row_of P (conns grp) row ∧ row_ok (live_cnt grp) row ∧ row !! i = Some c ∧
         NoDup (conns grp) ∧ 0 ≤ live_cnt grp ≤ zlen (conns grp) ∧ zlen (conns grp) < 4294967296.
Proof.
  intros Ht Hg Hi Hc. pose proof (table_grp_NoDup _ _ _ _ Ht Hg). destruct Ht as [_ Hf].
  rewrite Forall_lookup in Hf. destruct (Hf _ _ Hg) as [? (row & Hr & Hok)].
  destruct (Forall2_lookup_l _ _ _ _ _ Hr Hi) as (c0 & ? & Hc0). rewrite Hc in Hc0. injection Hc0 as <-. exists row.
  pose proof (r_live _ _ Hok). pose proof (Forall2_length _ _ _ Hr). unfold zlen in *.
  split_and!; auto; lia.
Qed.

Lemma table_kept P G g grp i cid c c' :
  table_ok P G → G !! g = Some grp → conns grp !! i = Some cid → get P cid = Ret c → conn_kept c c' →
  table_ok (<[Z.to_nat cid := c']> P) G.
Proof.
  intros Ht Hg Hi Hc Hk. destruct (table_slot _ _ _ _ _ _ _ Ht Hg Hi Hc) as (row & Hr & Hok & Hrow & Hd & _).
  rewrite <-(list_insert_id G g grp Hg). destruct grp as [live cs].
  eapply table_update; [done..|reflexivity|by apply (row_of_slot _ _ row i)|by eapply row_ok_kept].
Qed.

Lemma table_name P G g grp i cid c c' :
  table_ok P G → G !! g = Some grp → conns grp !! i = Some cid → get P cid = Ret c →
  conn_name c = [] → conn_name c' ≠ [] → conn_fd c' = conn_fd c → conn_sock c' = conn_sock c →
  (∀ j cid' d, (j < i)%nat → conns grp !! j = Some cid' → get P cid' = Ret d →
     conn_name d ≠ [] ∧ conn_name d ≠ conn_name c') →
  table_ok (<[Z.to_nat cid := c']> P) G.
Proof.
  intros Ht Hg Hi Hc Hn Hn' Hfd Hso Hpre.
  destruct (table_slot _ _ _ _ _ _ _ Ht Hg Hi Hc) as (row & Hr & Hok & Hrow & Hd & _).
  rewrite <-(list_insert_id G g grp Hg). destruct grp as [live cs].
  eapply table_update; [done..|reflexivity|by apply (row_of_slot _ _ row i)|]. eapply row_ok_name; eauto.
  intros j d Hj Hjd. destruct (Forall2_lookup_r _ _ _ _ _ Hr Hjd) as (cid' & ? & ?). by eapply Hpre.
Qed.

Lemma table_login P G g grp i cid c c' cs' :
  table_ok P G → G !! g = Some grp → conns grp !! i = Some cid → get P cid = Ret c →
  live_cnt grp ≤ Z.of_nat i → conn_name c ≠ [] → conn_name c' = conn_name c → conn_live c' →
  swapped (conns grp) cs' i (Z.to_nat (live_cnt grp)) →
  table_ok (<[Z.to_nat cid := c']> P) (<[g := mkGroup (u32 (live_cnt grp + 1)) cs']> G).
Proof.
  intros Ht Hg Hi Hc Hge Hn Hn' Hl Hs. pose proof (lookup_lt_Some _ _ _ Hi).
  destruct (table_slot _ _ _ _ _ _ _ Ht Hg Hi Hc) as (row & Hr & Hok & Hrow & Hd & ? & ?).
  destruct (Forall2_swapped _ _ _ _ _ _ (row_of_slot _ _ _ _ _ c' Hr Hd Hi) Hs) as (row' & Hs' & Hr').
  unfold zlen in *. rewrite u32_small by lia.
  eapply table_update; eauto using swapped_perm. by eapply row_ok_login.
Qed.

Lemma table_logout P G g grp i cid c c' cs' :
  table_ok P G → G !! g = Some grp → conns grp !! i = Some cid → get P cid = Ret c →
  Z.of_nat i < live_cnt grp → conn_name c' = conn_name c → conn_idle c' →
  swapped (conns grp) cs' i (Z.to_nat (live_cnt grp - 1)) →
  table_ok (<[Z.to_nat cid := c']> P) (<[g := mkGroup (live_cnt grp - 1) cs']> G).
Proof.
  intros Ht Hg Hi Hc Hlt Hn' Hl Hs.
  destruct (table_slot _ _ _ _ _ _ _ Ht Hg Hi Hc) as (row & Hr & Hok & Hrow & Hd & ? & ?).
  destruct (Forall2_swapped _ _ _ _ _ _ (row_of_slot _ _ _ _ _ c' Hr Hd Hi) Hs) as (row' & Hs' & Hr').
  eapply table_update; eauto using swapped_perm. by eapply row_ok_logout.
Qed.

(** Every connection of the pool is in a group. *)
Lemma table_cover P G cid :
  table_ok P G → 0 ≤ cid < zlen P → ∃ g grp i, G !! g = Some grp ∧ conns grp !! i = Some cid.
Proof.
  intros [Hs _] Hc. assert (cid ∈ G ≫= conns) as Hin by (rewrite Hs; apply elem_of_seqZ; lia).
  apply list_elem_of_bind in Hin as (grp & Hi & Hg). apply list_elem_of_lookup in Hg as [g Hg].
  apply list_elem_of_lookup in Hi as [i Hi]. by exists g, grp, i.
Qed.
End table.
