(* ===== verification/ServerInv.v ===== *)
(** * The invariant of the server

    [server_inv]: the groups are a table of the connections of the pool
    ([table_ok]), a new connection that [avail_idx_] points to has no socket,
    and the sockets that are open are exactly those the server's objects
    own.  Every operation keeps it, whatever the peers send and the calls of
    the operating system return. *)

From stdpp Require Import gmap.
From S2P Require Import Prelude.
From S2P Require Import Arrays.
From S2P Require Import MsgHeader.
From S2P Require Import PtcpQueue.
From S2P Require Import SpscQueue.
From S2P Require Import Platform.
From S2P Require Import PtcpConn.
From S2P Require Import TcpShmConn.
From S2P Require Import Login.
From S2P Require Import Server.
From S2P Require Import Descriptors.
From S2P Require Import ServerTable.

(** The callbacks make public calls on the connection they are given, and
    leave the sockets alone. *)
Class ServerUserLaws (W : Type) `{ServerUser W} {os : Os W} {mmq : MmapOs W PTCPQueue}
    {mms : MmapOs W SPSCVarQueue} `{FdView W} : Prop := {
  user_system_error n e w : open_fds (OnSystemError n e w) = open_fds w;
  user_new a l r w : open_fds (OnNewConnection a l r w).2 = open_fds w;
  user_file_error c n e w c' w' : OnClientFileError c n e w = Ret (c', w') → user_calls c w c' w';
  user_mismatch c l r w c' w' : OnSeqNumberMismatch c l r w = Ret (c', w') → user_calls c w c' w';
  user_logon a c w c' w' : OnClientLogon a c w = Ret (c', w') → user_calls c w c' w';
  user_disconnected c n e w c' w' : OnClientDisconnected c n e w = Ret (c', w') → user_calls c w c' w';
  user_msg c p w c' w' : OnClientMsg c p w = Ret (c', w') → user_calls c w c' w'
}.

Section server.
Context {conf : Conf} {ud : UserData} {W : Type} {os : Os W}.
Context {mmq : MmapOs W PTCPQueue} {mms : MmapOs W SPSCVarQueue}.
Context {los : LoginOs W} {user : ServerUser W}.
Context {fv : FdView W} {laws : FdLaws W} {llaws : LoginFdLaws W}.
Context {qlaws : MmapFdLaws W PTCPQueue} {slaws : MmapFdLaws W SPSCVarQueue}.
Context {ulaws : ServerUserLaws W}.
Context (HN : 1 < NameSize).
Context (stack_header : MsgHeader) (stack_rsp : LoginRspMsg).

Definition all_grps (s : TcpShmServer) : list ConnectionGroup := shm_grps_ s ++ tcp_grps_ s.

(** The descriptors of the server's objects; [-1] where there is none. *)
Definition fds (s : TcpShmServer) : list Z :=
  listenfd_ s :: (nc_fd <$> new_conns_ s) ++ ((λ c, conn_fd c) <$> conn_pool_ s).
Definition owned (s : TcpShmServer) : list Z := fds s ≫= own.

Record server_inv (s : TcpShmServer) (w : W) : Prop := {
  inv_table : table_ok (conn_pool_ s) (all_grps s);
  inv_new : zlen (new_conns_ s) = MaxNewConnections;
  inv_avail : avail_idx_ s = MaxNewConnections ∨
    ∃ c, get (new_conns_ s) (avail_idx_ s) = Ret c ∧ nc_fd c < 0;
  inv_owned : owns (owned s) (open_fds w);
  inv_arrays : Forall (λ c, remote_name_ c ≠ []) (conn_pool_ s)
}.

(** ** The stores *)

Lemma put_conn_inv s cid c s' :
  put_conn s cid c = Ret s' →
  0 ≤ cid < zlen (conn_pool_ s) ∧ s' = set_conn_pool s (<[Z.to_nat cid := c]> (conn_pool_ s)).
Proof. unfold put_conn. intros H. run H. apply put_insert in Hrun as [? ->]. by simplify_eq. Qed.

Lemma put_new_conn_inv s k c s' :
  put_new_conn s k c = Ret s' →
  0 ≤ k < zlen (new_conns_ s) ∧ s' = set_new_conns s (<[Z.to_nat k := c]> (new_conns_ s)).
Proof. unfold put_new_conn. intros H. run H. apply put_insert in Hrun as [? ->]. by simplify_eq. Qed.

Lemma put_conn_get s cid c s' : put_conn s cid c = Ret s' → get (conn_pool_ s') cid = Ret c.
Proof.
  intros [? ->]%put_conn_inv. apply get_Ret. split; [lia|]. apply list_lookup_insert_eq. unfold zlen in *. lia.
Qed.

Lemma put_new_conn_get s k c s' : put_new_conn s k c = Ret s' → get (new_conns_ s') k = Ret c.
Proof.
  intros [? ->]%put_new_conn_inv. apply get_Ret. split; [lia|]. apply list_lookup_insert_eq. unfold zlen in *. lia.
Qed.

Definition grp_idx (s : TcpShmServer) (shm : bool) (g : Z) : nat :=
  if shm then Z.to_nat g else (length (shm_grps_ s) + Z.to_nat g)%nat.

Lemma grps_lookup s shm g grp :
  get (grps s shm) g = Ret grp → all_grps s !! grp_idx s shm g = Some grp.
Proof.
  intros [? Hg]%get_lookup. unfold all_grps, grp_idx. destruct shm; simpl in Hg.
  - by apply lookup_app_l_Some.
  - rewrite lookup_app_r by lia. by replace (_ - _)%nat with (Z.to_nat g) by lia.
Qed.

Lemma put_grp_inv s shm g grp s' :
  put_grp s shm g grp = Ret s' →
  all_grps s' = <[grp_idx s shm g := grp]> (all_grps s) ∧
  conn_pool_ s' = conn_pool_ s ∧ new_conns_ s' = new_conns_ s ∧ avail_idx_ s' = avail_idx_ s ∧
  listenfd_ s' = listenfd_ s.
Proof.
  unfold put_grp. intros H. run H. apply put_insert in Hrun as [Hg ->]. simplify_eq.
  unfold all_grps, grp_idx, set_grps, grps in *. destruct shm; simpl; split_and!; try done.
  - rewrite insert_app_l; [done|]. unfold zlen in *. lia.
  - by rewrite insert_app_r.
Qed.

(** ** The sockets of the tables *)

Lemma fds_pool s cid c c' :
  get (conn_pool_ s) cid = Ret c →
  ∃ i, fds s !! i = Some (conn_fd c) ∧
       fds (set_conn_pool s (<[Z.to_nat cid := c']> (conn_pool_ s))) = <[i := conn_fd c']> (fds s).
Proof.
  intros [_ Hc]%get_lookup. exists (S (length (nc_fd <$> new_conns_ s) + Z.to_nat cid)). unfold fds. simpl. split.
  - rewrite lookup_app_r by lia. rewrite Nat.add_sub', list_lookup_fmap, Hc. done.
  - by rewrite insert_app_r, list_fmap_insert.
Qed.

Lemma fds_new s k c c' :
  get (new_conns_ s) k = Ret c →
  ∃ i, fds s !! i = Some (nc_fd c) ∧
       fds (set_new_conns s (<[Z.to_nat k := c']> (new_conns_ s))) = <[i := nc_fd c']> (fds s).
Proof.
  intros [_ Hc]%get_lookup. exists (S (Z.to_nat k)). unfold fds. simpl. split.
  - apply lookup_app_l_Some. by rewrite list_lookup_fmap, Hc.
  - rewrite insert_app_l; [by rewrite list_fmap_insert|]. rewrite length_fmap. by eapply lookup_lt_Some.
Qed.

(** Replacing a descriptor by an equal one, closing one, opening one. *)
Lemma owns_same (l : list Z) i x y X :
  l !! i = Some x → own y = own x → owns (l ≫= own) X → owns (<[i := y]> l ≫= own) X.
Proof.
  intros Hi He Ho. pose proof (bind_insert own l i x y Hi) as Hp. rewrite He in Hp.
  apply Permutation_app_inv_l in Hp. by rewrite <-Hp.
Qed.

Lemma owns_close (l : list Z) i x y X :
  l !! i = Some x → 0 ≤ x → y < 0 → owns (l ≫= own) X → owns (<[i := y]> l ≫= own) (X ∖ {[x]}).
Proof.
  intros Hi Hx Hy Ho. pose proof (bind_insert own l i x y Hi) as Hp.
  rewrite (own_neg y), (own_nonneg x) in Hp by done. simpl in Hp. rewrite Hp in Ho. by apply owns_closed.
Qed.

Lemma owns_open (l : list Z) i x y X :
  l !! i = Some x → x < 0 → 0 ≤ y → y ∉ X → owns (l ≫= own) X → owns (<[i := y]> l ≫= own) ({[y]} ∪ X).
Proof.
  intros Hi Hx Hy Hn Ho. pose proof (bind_insert own l i x y Hi) as Hp.
  rewrite (own_neg x), (own_nonneg y) in Hp by done. simpl in Hp. rewrite <-Hp. by apply owns_opened.
Qed.

(** A descriptor handed from [i] to [j]. *)
Lemma owns_move (l : list Z) i j x y z X :
  l !! i = Some x → l !! j = Some y → i ≠ j → y < 0 → z < 0 → owns (l ≫= own) X →
  owns (<[j := x]> (<[i := z]> l) ≫= own) X.
Proof.
  intros Hi Hj Hne Hy Hz Ho.
  pose proof (bind_insert own l i x z Hi) as Hp. rewrite (own_neg z) in Hp by done. simpl in Hp.
  pose proof (bind_insert own (<[i := z]> l) j y x) as Hq.
  rewrite list_lookup_insert_ne in Hq by done. specialize (Hq Hj). rewrite (own_neg y) in Hq by done.
  simpl in Hq. by rewrite <-Hq, <-Hp.
Qed.

(** ** The steps the handlers are made of *)

Lemma inv_world s w w' : server_inv s w → open_fds w' = open_fds w → server_inv s w'.
Proof. intros [] Hw. constructor; try done. by rewrite Hw. Qed.

Lemma conn_name_array c : conn_name c ≠ [] → remote_name_ c ≠ [].
Proof. unfold conn_name. intros Hn He. apply Hn. rewrite He. apply take_nil. Qed.

(** A connection after some calls. *)
Lemma inv_put_conn s w cid c c' s' :
  server_inv s w → get (conn_pool_ s) cid = Ret c → conn_kept c c' → put_conn s cid c' = Ret s' →
  server_inv s' w.
Proof.
  intros [Ht Hn Ha Ho Hm] Hc Hk [Hr ->]%put_conn_inv.
  destruct (table_cover _ _ _ Ht Hr) as (g & grp & i & Hg & Hi). constructor; simpl; try done.
  - by eapply table_kept.
  - destruct (fds_pool s cid c c' Hc) as (j & Hj & He). unfold owned. rewrite He.
    destruct Hk as [_ _ _ [Hfd _]]. rewrite Hfd. by rewrite list_insert_id.
  - apply Forall_insert; [done|]. rewrite (ck_remote _ _ Hk). apply get_lookup in Hc as [_ Hc].
    by eapply Forall_lookup_1 in Hm.
Qed.

(** A new connection with the same socket. *)
Lemma inv_put_new s w k c c' s' :
  server_inv s w → get (new_conns_ s) k = Ret c → nc_fd c' = nc_fd c → put_new_conn s k c' = Ret s' →
  server_inv s' w.
Proof.
  intros [Ht Hn Ha Ho Hm] Hc Hfd [Hr ->]%put_new_conn_inv.
  destruct (fds_new s k c c' Hc) as (j & Hj & He). constructor; simpl; try done.
  - unfold zlen in *. by rewrite length_insert.
  - destruct Ha as [|(d & Hd & Hneg)]; [by left|right]. apply get_Ret in Hd as [? Hd].
    destruct (decide (Z.to_nat k = Z.to_nat (avail_idx_ s))) as [Heq|].
    + exists c'. split; [|apply get_Ret in Hc as [_ Hc]; rewrite Hfd; congruence].
      apply get_Ret. split; [done|]. rewrite <-Heq. apply list_lookup_insert_eq. unfold zlen in *. lia.
    + exists d. split; [|done]. apply get_Ret. by rewrite list_lookup_insert_ne.
  - unfold owned. rewrite He, Hfd. by rewrite list_insert_id.
Qed.

(** The first connection without a name is given one. *)
Lemma inv_name s w shm g grp i cid c name s' :
  server_inv s w → get (grps s shm) g = Ret grp → get (conns grp) i = Ret cid →
  get (conn_pool_ s) cid = Ret c → conn_name c = [] → conn_name (set_remote_name c name) ≠ [] →
  (∀ j cid' d, 0 ≤ j < i → get (conns grp) j = Ret cid' → get (conn_pool_ s) cid' = Ret d →
     conn_name d ≠ [] ∧ conn_name d ≠ conn_name (set_remote_name c name)) →
  put_conn s cid (set_remote_name c name) = Ret s' → server_inv s' w.
Proof.
  intros [Ht Hn Ha Ho Hm] Hg [? Hi]%get_lookup Hc Hnil Hne Hpre [Hr ->]%put_conn_inv.
  constructor; simpl; try done.
  - eapply table_name; eauto using grps_lookup. intros j cid' d Hj Hcid. apply (Hpre (Z.of_nat j)); [lia|].
    apply get_Ret. split; [lia|]. by rewrite Nat2Z.id.
  - destruct (fds_pool s cid c (set_remote_name c name) Hc) as (j & Hj & He). unfold owned. rewrite He.
    by rewrite list_insert_id.
  - apply Forall_insert; [done|]. by apply conn_name_array.
Qed.

(** The socket of the new connection [k] goes to the connection at [i] of a
    group, which becomes live. *)
Lemma inv_login s w shm g grp i cid k nc c c' s1 s2 s3 cs :
  server_inv s w → get (grps s shm) g = Ret grp → get (conns grp) i = Ret cid →
  get (conn_pool_ s) cid = Ret c → get (new_conns_ s) k = Ret nc → 0 ≤ nc_fd nc →
  live_cnt grp ≤ i → conn_name c ≠ [] → conn_name c' = conn_name c →
  conn_fd c' = nc_fd nc → (conn_sock c' = nc_fd nc ∨ conn_sock c' = -1) →
  put_conn s cid c' = Ret s1 → put_new_conn s1 k (set_nc_fd nc (-1)) = Ret s2 →
  swap (conns grp) i (live_cnt grp) = Ret cs →
  put_grp s2 shm g (mkGroup (u32 (live_cnt grp + 1)) cs) = Ret s3 → server_inv s3 w.
Proof.
  intros [Ht Hn Ha Ho Hm] Hg [Hi0 Hi]%get_lookup Hc Hk Hfd Hlive Hnm Hnm' Hcfd Hcs [Hr1 ->]%put_conn_inv
    [Hr2 ->]%put_new_conn_inv (_ & _ & Hsw)%swap_swapped (Hall & HP & HNc & Hav & Hli)%put_grp_inv.
  pose proof (grps_lookup _ _ _ _ Hg) as Hgi.
  assert (conn_idle c) as [Hidle _].
  { destruct (table_slot _ _ _ _ _ _ _ Ht Hgi Hi Hc) as (row & _ & Hok & Hrow & _).
    pose proof (r_state _ _ Hok _ _ Hrow) as Hst. by rewrite (proj2 (Z.ltb_ge _ _)) in Hst by lia. }
  constructor.
  - rewrite Hall, HP. eapply table_login; eauto; [lia|]. split; [lia|]. lia.
  - rewrite HNc. simpl. unfold zlen in *. by rewrite length_insert.
  - rewrite Hav, HNc. simpl. destruct Ha as [|(d & Hd & Hneg)]; [by left|right].
    exists d. split; [|done]. apply get_Ret in Hd as [? Hd], Hk as [? Hk]. apply get_Ret. split; [done|].
    rewrite list_lookup_insert_ne; [done|]. intros Heq. rewrite Heq in Hk. simplify_eq. lia.
  - unfold owned. assert (fds s3 = fds (set_new_conns (set_conn_pool s (<[Z.to_nat cid:=c']> (conn_pool_ s)))
      (<[Z.to_nat k:=set_nc_fd nc (-1)]> (new_conns_ s)))) as -> by (unfold fds; by rewrite Hli, HNc, HP).
    unfold fds in *. simpl. apply get_Ret in Hc as [_ Hc], Hk as [_ Hk].
    pose proof (lookup_lt_Some _ _ _ Hk). rewrite !list_fmap_insert. simpl. rewrite Hcfd.
    pose proof (owns_move (fds s) (S (Z.to_nat k)) (S (length (new_conns_ s) + Z.to_nat cid)) (nc_fd nc)
      (conn_fd c) (-1) (open_fds w)) as Hmv. unfold fds in Hmv. simpl in Hmv.
    rewrite insert_app_l in Hmv by (rewrite length_fmap; lia).
    replace (length (new_conns_ s)) with (length (<[Z.to_nat k:=-1]> (nc_fd <$> new_conns_ s))) in Hmv
      by by rewrite length_insert, length_fmap.
    rewrite insert_app_r in Hmv. apply Hmv; try done; try lia.
    + apply lookup_app_l_Some. by rewrite list_lookup_fmap, Hk.
    + rewrite length_insert, lookup_app_r by lia. rewrite Nat.add_sub', list_lookup_fmap, Hc. done.
    + rewrite length_insert, length_fmap. lia.
  - rewrite HP. simpl. apply Forall_insert; [done|]. apply conn_name_array. by rewrite Hnm'.
Qed.

(** A live connection whose socket was handed back leaves the live ones. *)
Lemma inv_logout s w w' shm g grp grp' i cid c c' s1 s2 :
  server_inv s w → get (grps s shm) g = Ret grp → get (conns grp) i = Ret cid →
  get (conn_pool_ s) cid = Ret c → i < live_cnt grp → 0 ≤ conn_fd c →
  conn_name c' = conn_name c → conn_fd c' = -1 → conn_sock c' < 0 →
  open_fds w' = (open_fds w) ∖ {[conn_fd c]} →
  put_conn s cid c' = Ret s1 → remove_live grp i = Ret grp' → put_grp s1 shm g grp' = Ret s2 →
  server_inv s2 w'.
Proof.
  intros [Ht Hn Ha Ho Hm] Hg [Hi0 Hi]%get_lookup Hc Hlive Hfd Hnm Hcfd Hcs Hw [Hr1 ->]%put_conn_inv Hrm
    (Hall & HP & HNc & Hav & Hli)%put_grp_inv.
  pose proof (grps_lookup _ _ _ _ Hg) as Hgi.
  destruct (table_slot _ _ _ _ _ _ _ Ht Hgi Hi Hc) as (row & _ & Hok & Hrow & _ & Hl1 & Hl2).
  unfold remove_live in Hrm. rewrite u32_small in Hrm by lia. run Hrm. run Hrm.
  apply swap_swapped in Hrun as (_ & _ & Hsw). constructor.
  - rewrite Hall, HP. eapply table_logout; eauto; [lia|]. split; lia.
  - by rewrite HNc.
  - by rewrite Hav, HNc.
  - unfold owned. assert (fds s2 = fds (set_conn_pool s (<[Z.to_nat cid:=c']> (conn_pool_ s)))) as ->
      by (unfold fds; by rewrite Hli, HNc, HP).
    destruct (fds_pool s cid c c' Hc) as (j & Hj & ->). rewrite Hw. apply owns_close; try done. lia.
  - rewrite HP. simpl. apply Forall_insert; [done|]. apply conn_name_array. rewrite Hnm.
    pose proof (r_state _ _ Hok _ _ Hrow) as Hst. rewrite (proj2 (Z.ltb_lt _ _)) in Hst by lia. by destruct Hst.
Qed.

(** ** HandleLogin *)

Lemma reply_fds (nc : NewConn) h r w : open_fds (reply nc h r w) = open_fds w.
Proof. apply fd_send_rsp. Qed.

Lemma user_kept c w c' w' c0 :
  conn_kept c0 c → user_calls c w c' w' → conn_kept c0 c' ∧ open_fds w' = open_fds w.
Proof. intros Hk [? ?]%user_calls_kept. split; [by etrans|done]. Qed.

(** What the steps of a login know: the connection [c] is at [i] in its
    group, not live, and has the client's name. *)
Record login_slot (s : TcpShmServer) (shm : bool) (g i cid k : Z) (grp : ConnectionGroup)
    (nc : NewConn) (c : TcpShmConnection) : Prop := {
  ls_grp : get (grps s shm) g = Ret grp;
  ls_slot : get (conns grp) i = Ret cid;
  ls_conn : get (conn_pool_ s) cid = Ret c;
  ls_new : get (new_conns_ s) k = Ret nc;
  ls_fd : 0 ≤ nc_fd nc;
  ls_name : conn_name c ≠ []
}.

Lemma HandleLogin_finish_inv s shm g i cid k grp nc c h r cc l rm now w s' w' :
  server_inv s w → login_slot s shm g i cid k grp nc c → live_cnt grp ≤ i → conn_kept c cc →
  HandleLogin_finish s shm g i cid k h r cc l rm now w = Ret (s', w') → server_inv s' w'.
Proof.
  intros Hinv [Hg Hi Hc Hk Hfd Hnm] Hlive Hcc. unfold HandleLogin_finish. intros H.
  rewrite Hk, outcome_bind_Ret in H. cbv zeta in H. destruct (_ || _).
  - run H. destruct r0 as [c1 w1]. run H. simplify_eq.
    apply user_mismatch in Hrun. destruct (user_kept _ _ _ _ _ Hcc Hrun) as [Hk1 Hw].
    eapply inv_world; [by eapply inv_put_conn|]. by rewrite reply_fds.
  - match type of H with context [os_send_rsp ?a ?b ?c] => pose proof (fd_send_rsp a b c) as Hs;
      destruct (os_send_rsp a b c) as [sent w1] end. simpl in Hs.
    destruct (sent_all _ _).
    + run H. destruct r0 as [c1 w2]. apply Open_conn_fds in Hrun as (Hfd1 & Hso1 & Hw2 & _ & Hnm1 & _).
      run H. run H. run H. run H. run H. run H. destruct r5 as [c2 w3]. run H. simplify_eq.
      rename Hrun into Hput, Hrun0 into Hnew, Hrun1 into Hgrp.
      assert (r2 = grp) as ->.
      { pose proof Hput as [_ ->]%put_conn_inv. pose proof Hnew as [_ ->]%put_new_conn_inv.
        unfold grps in *. simpl in Hgrp. rewrite Hg in Hgrp. by simplify_eq. }
      assert (conn_name c1 = conn_name c) as Hn1 by (unfold conn_name; by rewrite Hnm1, (ck_remote _ _ Hcc)).
      assert (server_inv r4 w) as Hinv4 by by eapply (inv_login s w shm g grp i cid k nc c c1).
      assert (get (conn_pool_ r4) cid = Ret c1) as Hc4.
      { apply put_grp_inv in Hrun3 as (_ & -> & _). apply put_new_conn_inv in Hnew as [_ ->].
        by eapply put_conn_get in Hput. }
      apply user_logon in Hrun4. apply user_calls_kept in Hrun4 as [Hk2 Hw3].
      eapply inv_world; [by eapply inv_put_conn|]. congruence.
    + run H. run H. eapply inv_world; [by eapply inv_put_conn|]. congruence.
Qed.

Lemma HandleLogin_file_error_inv s shm g i cid k grp nc c h r cc m e w s' w' :
  server_inv s w → login_slot s shm g i cid k grp nc c → conn_kept c cc →
  HandleLogin_file_error s cid k h r cc m e w = Ret (s', w') → server_inv s' w'.
Proof.
  intros Hinv [Hg Hi Hc Hk Hfd Hnm] Hcc. unfold HandleLogin_file_error. intros H.
  run H. run H. destruct r1 as [c1 w1]. run H. run H. run H.
  apply user_file_error in Hrun0. destruct (user_kept _ _ _ _ _ Hcc Hrun0) as [Hk1 Hw].
  eapply inv_world; [by eapply inv_put_conn|]. by rewrite reply_fds.
Qed.

Lemma HandleLogin_match_inv s shm g i cid k grp nc c h r now w s' w' :
  server_inv s w → login_slot s shm g i cid k grp nc c →
  HandleLogin_match s shm g i cid k h r now w = Ret (s', w') → server_inv s' w'.
Proof.
  intros Hinv Hls. pose proof Hls as [Hg Hi Hc Hk Hfd Hnm]. unfold HandleLogin_match. intros H.
  rewrite Hk, outcome_bind_Ret, Hg, outcome_bind_Ret, Hc, outcome_bind_Ret in H.
  destruct (Z.ltb_spec i (live_cnt grp)).
  - run H. run H. eapply inv_world; [done|]. by rewrite reply_fds.
  - destruct (OpenFile _ _ _) as [[err cc] w1] eqn:Hopen. apply OpenFile_kept in Hopen as [Hcc Hw1].
    assert (server_inv s w1) as Hinv1 by by eapply inv_world.
    destruct err; [by eapply HandleLogin_file_error_inv|]. destruct (negb _).
    + run H. apply Reset_kept in Hrun. eapply HandleLogin_finish_inv; [done..|by etrans|done].
    + run H. destruct r0 as [[] local]; [by eapply HandleLogin_finish_inv|].
      by eapply HandleLogin_file_error_inv.
Qed.

(** The scan has passed only connections with other names. *)
Lemma HandleLogin_scan_inv n : ∀ s shm g i k grp nc h r now w s' w',
  server_inv s w → get (grps s shm) g = Ret grp → get (new_conns_ s) k = Ret nc → 0 ≤ nc_fd nc →
  take (Z.to_nat NameSize) (c_str (client_name (nc_login nc))) ≠ [] → 0 ≤ i →
  (∀ j cid d, 0 ≤ j < i → get (conns grp) j = Ret cid → get (conn_pool_ s) cid = Ret d →
     conn_name d ≠ [] ∧ conn_name d ≠ take (Z.to_nat NameSize) (c_str (client_name (nc_login nc)))) →
  HandleLogin_scan n s shm g i k h r now w = Ret (s', w') → server_inv s' w'.
Proof.
  induction n as [|n IH]; intros s shm g i k grp nc h r now w s' w' Hinv Hg Hk Hfd Hcn Hi0 Hpre H;
    cbn [HandleLogin_scan] in H; rewrite Hk, outcome_bind_Ret in H.
  { run H. run H. eapply inv_world; [done|]. by rewrite reply_fds. }
  rewrite Hg, outcome_bind_Ret in H. run H. rename r0 into cid. run H. rename r0 into c.
  run H. rename r0 into ch. cbv zeta in H. run H. rename r0 into rn. run H. rename r0 into s1.
  set (cn := client_name (nc_login nc)) in *. set (c1 := set_remote_name c rn) in *.
  assert (conn_name c1 ≠ [] ∧ server_inv s1 w) as [Hn1 Hinv1].
  { pose proof (first_char_name HN _ _ Hrun1) as Hch. destruct (Z.eqb_spec ch 0).
    - apply (strncpy_name HN) in Hrun2. assert (conn_name c1 ≠ []) as Hne by (unfold conn_name; simpl; by rewrite Hrun2).
      split; [done|]. eapply (inv_name s w shm g grp i cid c rn); eauto.
      + by apply Hch.
      + intros j cid' d Hj Hcid Hd. destruct (Hpre j cid' d) as [? Hdn]; [done..|]. split; [done|].
        by unfold conn_name at 2; simpl; rewrite Hrun2.
    - run Hrun2. split; [by intros ?%Hch|]. apply (inv_put_conn s w cid c c1 s1); [done|done|by constructor|done]. }
  assert (grps s1 shm = grps s shm ∧ new_conns_ s1 = new_conns_ s ∧
          conn_pool_ s1 = <[Z.to_nat cid := c1]> (conn_pool_ s)) as (Hg1 & Hnc1 & Hp1).
  { by apply put_conn_inv in Hrun3 as [_ ->]. }
  assert (get (conn_pool_ s1) cid = Ret c1) as Hc1.
  { by eapply put_conn_get. }
  destruct (strncmp_eq rn cn NameSize) eqn:Hcmp; simpl in H.
  { apply (HandleLogin_match_inv s1 shm g i cid k grp nc c1 h r now w); [done| |done].
    constructor; rewrite ?Hg1, ?Hnc1; done. }
  eapply (IH s1 shm g (i + 1) k grp nc); rewrite ?Hg1, ?Hnc1; try done; [lia|].
  intros j cid' d Hj Hcid Hd. destruct (decide (j = i)) as [->|].
  { rewrite Hrun in Hcid. injection Hcid as <-. rewrite Hc1 in Hd. injection Hd as <-. split; [done|].
    intros Heq. assert (strncmp_eq rn cn NameSize = true) as Ht by by apply strncmp_eq_spec. congruence. }
  apply (Hpre j cid' d); [lia|done|]. rewrite Hp1 in Hd. apply get_Ret in Hd as [? Hd]. apply get_Ret.
  split; [done|]. rewrite list_lookup_insert_ne in Hd; [done|]. intros Heq. apply get_lookup in Hrun as [? Hrun].
  apply get_lookup in Hcid as [? Hcid].
  pose proof (table_grp_NoDup _ _ _ _ (inv_table _ _ Hinv) (grps_lookup _ _ _ _ Hg)) as Hnd.
  apply get_lookup in Hrun0 as [? _].
  assert (Z.to_nat j = Z.to_nat i); [|lia]. eapply NoDup_lookup; [exact Hnd|exact Hcid|].
  rewrite Hrun. f_equal. lia.
Qed.

Lemma HandleLogin_inv s shm k nc now w s' w' :
  server_inv s w → get (new_conns_ s) k = Ret nc → 0 ≤ nc_fd nc →
  HandleLogin stack_header stack_rsp s shm k now w = Ret (s', w') → server_inv s' w'.
Proof.
  intros Hinv Hk Hfd. unfold HandleLogin. intros H. rewrite Hk, outcome_bind_Ret in H.
  cbv zeta in H. run H. run H. run H. rename r1 into ch. destruct (Z.eqb_spec ch 0) as [|Hch].
  { run H. run H. eapply inv_world; [done|]. by rewrite reply_fds. }
  run H. rename r1 into name. run H. rename r1 into s1.
  set (nc1 := set_nc_recvbuf nc _ _) in *.
  assert (server_inv s1 w) as Hinv1 by by apply (inv_put_new s w k nc nc1 s1).
  assert (get (new_conns_ s1) k = Ret nc1) as Hk1.
  { by eapply put_new_conn_get. }
  match type of H with context [OnNewConnection ?a ?b ?c ?d] => pose proof (user_new a b c d) as Hu;
    destruct (OnNewConnection a b c d) as [[grpid rsp] w1] end. simpl in Hu.
  assert (server_inv s1 w1) as Hinv2 by by eapply inv_world.
  destruct (grpid <? 0).
  { run H. run H. run H. eapply inv_world; [done|]. by rewrite reply_fds. }
  run H. eapply (HandleLogin_scan_inv _ s1 shm grpid 0 k); [done..| |done| |done].
  - subst nc1. simpl. by eapply put_end_name.
  - intros j cid d Hj. lia.
Qed.

(** ** PollCtl *)

(** Putting a socket into the new connection that [avail_idx_] points to. *)
Lemma inv_accept s w w' c fd s' addr now :
  server_inv s w → avail_idx_ s ≠ MaxNewConnections → get (new_conns_ s) (avail_idx_ s) = Ret c →
  fd_opened (open_fds w) (open_fds w') (Some fd) →
  put_new_conn s (avail_idx_ s) (mkNewConn now fd addr (nc_header c) (nc_login c)) = Ret s' →
  server_inv (set_avail_idx s' MaxNewConnections) w'.
Proof.
  intros [Ht Hn Ha Ho Hm] Hav Hc (Hfd & Hnew & Hw) [Hr ->]%put_new_conn_inv.
  destruct Ha as [|(d & Hd & Hneg)]; [done|]. rewrite Hc in Hd. injection Hd as <-.
  constructor; simpl; try done; [|by left|].
  - unfold zlen in *. by rewrite length_insert.
  - destruct (fds_new s _ c (mkNewConn now fd addr (nc_header c) (nc_login c)) Hc) as (j & Hj & He).
    change (owns (owned (set_new_conns s (<[Z.to_nat (avail_idx_ s) :=
      mkNewConn now fd addr (nc_header c) (nc_login c)]> (new_conns_ s)))) (open_fds w')).
    unfold owned. rewrite He, Hw. by eapply owns_open.
Qed.

(** The new connection [k] has no socket (any more). *)
Lemma inv_avail_idx s w k c :
  server_inv s w → get (new_conns_ s) k = Ret c → nc_fd c < 0 → server_inv (set_avail_idx s k) w.
Proof. intros [] Hc Hneg. constructor; simpl; try done. right. by exists c. Qed.

(** A new connection is closed. *)
Lemma inv_close_new s w k c s' :
  server_inv s w → get (new_conns_ s) k = Ret c → 0 ≤ nc_fd c →
  put_new_conn s k (set_nc_fd c (-1)) = Ret s' → server_inv s' (os_close (nc_fd c) w).
Proof.
  intros [Ht Hn Ha Ho Hm] Hc Hfd [Hr ->]%put_new_conn_inv. constructor; simpl; try done.
  - unfold zlen in *. by rewrite length_insert.
  - destruct Ha as [|(d & Hd & Hneg)]; [by left|right]. exists d. split; [|done].
    apply get_Ret in Hd as [? Hd], Hc as [? Hc]. apply get_Ret. split; [done|].
    rewrite list_lookup_insert_ne; [done|]. intros Heq. rewrite Heq in Hc. simplify_eq. lia.
  - destruct (fds_new s k c (set_nc_fd c (-1)) Hc) as (j & Hj & He).
    unfold owned. rewrite He, fd_close. by apply owns_close.
Qed.

Lemma PollCtl_accept_inv s now w s' w' :
  server_inv s w → PollCtl_accept s now w = Ret (s', w') → server_inv s' w'.
Proof.
  intros Hinv. unfold PollCtl_accept. destruct (Z.eqb_spec (avail_idx_ s) MaxNewConnections) as [|Hav].
  { intros H. by run H. }
  intros H. run H. rename r into c. destruct (os_accept _ _) as [r w1] eqn:Hacc.
  apply fd_accept in Hacc. destruct r as [[fd addr]|e].
  - run H. rename r into s1. run H. eapply inv_world; [by eapply inv_accept|].
    apply fd_set_nonblock.
  - run H. rename r into s1. run H.
    assert (nc_fd c < 0) as Hneg.
    { destruct (inv_avail _ _ Hinv) as [|(d & Hd & ?)]; [done|]. rewrite Hrun in Hd. by injection Hd as ->. }
    eapply inv_world; [|exact Hacc]. destruct Hinv as [Ht Hn Ha Ho Hm].
    apply put_new_conn_inv in Hrun0 as [? ->]. constructor; simpl; try done.
    + unfold zlen in *. by rewrite length_insert.
    + right. exists (set_nc_fd c (-1)). split; [|done]. apply get_Ret. split; [lia|].
      apply list_lookup_insert_eq. unfold zlen in *. lia.
    + destruct (fds_new s _ c (set_nc_fd c (-1)) Hrun) as (j & Hj & He). unfold owned. rewrite He.
      eapply owns_same; [done| |done]. by rewrite !own_neg by done.
Qed.

Lemma PollCtl_close_inv s k w s' w' :
  server_inv s w → PollCtl_close s k w = Ret (s', w') → server_inv s' w'.
Proof.
  intros Hinv. unfold PollCtl_close. intros H. run H. rename r into c. destruct (Z.leb_spec 0 (nc_fd c)).
  - run H. rename r into s1. run H.
    eapply (inv_avail_idx _ _ _ (set_nc_fd c (-1))); [by eapply inv_close_new| |done].
    by eapply put_new_conn_get.
  - run H. by eapply inv_avail_idx.
Qed.

Lemma PollCtl_new_inv s k now w s' w' :
  server_inv s w → PollCtl_new stack_header stack_rsp s k now w = Ret (s', w') → server_inv s' w'.
Proof.
  intros Hinv. unfold PollCtl_new. intros H. run H. rename r into c.
  destruct (Z.ltb_spec (nc_fd c) 0) as [Hneg|Hfd]; [run H; by eapply inv_avail_idx|].
  pose proof (fd_recv_login (nc_fd c) w) as Hw. destruct (os_recv_login _ _) as [r w1]. simpl in Hw.
  assert (server_inv s w1) as Hinv1 by by eapply inv_world.
  destruct r as [h login|n|e]; [|by eapply PollCtl_close_inv|].
  - run H. destruct r as [s1 w2]. eapply PollCtl_close_inv; [|exact H]. unfold PollCtl_login in Hrun0.
    rewrite Hrun, outcome_bind_Ret in Hrun0. cbv zeta in Hrun0. destruct (_ && _).
    + run Hrun0. set (c1 := set_nc_recvbuf c _ _) in *.
      eapply (HandleLogin_inv _ _ k c1); [by apply (inv_put_new s w1 k c c1 r)| |done|exact Hrun0].
      by eapply put_new_conn_get.
    + run Hrun0. set (c1 := set_nc_recvbuf c _ _) in *. run Hrun0. by apply (inv_put_new s w2 k c c1 s1).
  - destruct (_ && _); [by run H|by eapply PollCtl_close_inv].
Qed.

Lemma PollCtl_news_inv n : ∀ s k now w s' w',
  server_inv s w → PollCtl_news stack_header stack_rsp n s k now w = Ret (s', w') → server_inv s' w'.
Proof.
  induction n as [|n IH]; intros s k now w s' w' Hinv H; simpl in H; [by run H|].
  run H. destruct r as [s1 w1]. eapply IH; [|exact H]. by eapply PollCtl_new_inv.
Qed.

Lemma PollCtl_group_inv n : ∀ s shm g i now w s' w',
  server_inv s w → PollCtl_group n s shm g i now w = Ret (s', w') → server_inv s' w'.
Proof.
  induction n as [|n IH]; intros s shm g i now w s' w' Hinv H; cbn [PollCtl_group] in H; run H;
    rename r into grp; (destruct (Z.ltb_spec i (live_cnt grp)); [|by run H]); [done|].
  run H. rename r into cid. run H. rename r into c. run H. destruct r as [c1 w1].
  assert (conn_kept c c1 ∧ open_fds w1 = open_fds w) as [Hk1 Hw1].
  { destruct shm; [|run Hrun2; by split]. run Hrun2. destruct r as [[p c2] w2]. run Hrun2.
    by eapply TcpFront_kept. }
  destruct (TryCloseFd c1 w1) as [[closed c2] w2] eqn:Ht. apply TryCloseFd_conn_fds in Ht as (Hso & Hln & Hrn & Hd & Hfd).
  destruct closed.
  - destruct Hfd as (Hneg & Hpos & Hfd2 & Hw2). destruct (GetCloseReason c2) as [reason e].
    run H. destruct r as [c3 w3]. apply user_disconnected, user_calls_kept in Hrun3 as [Hk3 Hw3].
    run H. rename r into s1. run H. rename r into grp'. run H. rename r into s2.
    eapply IH; [|exact H]. destruct Hk1 as [_ Hr1 _ [Hf1 Hs1]], Hk3 as [_ Hr3 _ [Hf3 Hs3]].
    eapply (inv_logout s w w3 shm g grp grp' i cid c c3); try done; try lia.
    + unfold conn_name. by rewrite Hr3, Hrn, Hr1.
    + rewrite Hw3, Hw2, Hf1. by rewrite Hw1.
  - destruct Hfd as (_ & Hfd2 & ->). run H. rename r into s1. eapply IH; [|exact H].
    eapply inv_world; [|exact Hw1]. eapply (inv_put_conn s w cid c c2); try done.
    destruct Hk1 as [? ? ? [? ?]]. constructor; try congruence. split; congruence.
Qed.

Lemma PollCtl_groups_inv n : ∀ s shm g now w s' w',
  server_inv s w → PollCtl_groups n s shm g now w = Ret (s', w') → server_inv s' w'.
Proof.
  induction n as [|n IH]; intros s shm g now w s' w' Hinv H; simpl in H; [by run H|].
  run H. run H. destruct r0 as [s1 w1]. eapply IH; [|exact H]. by eapply PollCtl_group_inv.
Qed.

Lemma PollCtl_inv s now w s' w' :
  server_inv s w → PollCtl stack_header stack_rsp s now w = Ret (s', w') → server_inv s' w'.
Proof.
  intros Hinv. unfold PollCtl. intros H. run H. destruct r as [s1 w1]. run H. destruct r as [s2 w2].
  run H. destruct r as [s3 w3].
  eauto using PollCtl_accept_inv, PollCtl_news_inv, PollCtl_groups_inv.
Qed.

(** ** PollTcp and PollShm *)

Lemma poll_group_inv n : ∀ s shm g i now w s' w',
  server_inv s w → poll_group n s shm g i now w = Ret (s', w') → server_inv s' w'.
Proof.
  induction n as [|n IH]; intros s shm g i now w s' w' Hinv H; simpl in H; [by run H|].
  run H. run H. rename r0 into cid. run H. rename r0 into c. run H. destruct r0 as [[head c1] w1].
  assert (conn_kept c c1 ∧ open_fds w1 = open_fds w) as [Hk1 Hw1].
  { destruct shm; [|by eapply TcpFront_kept]. run Hrun2. destruct r0 as [p c2]. run Hrun2.
    by split; [eapply ShmFront_kept|]. }
  run H. destruct r0 as [c2 w2]. run H. rename r0 into s1.
  assert (conn_kept c c2 ∧ open_fds w2 = open_fds w) as [Hk2 Hw2].
  { unfold deliver in Hrun3. destruct head as [p|]; [|by run Hrun3]. apply user_msg in Hrun3.
    destruct (user_kept _ _ _ _ _ Hk1 Hrun3). split; [done|congruence]. }
  eapply IH; [|exact H]. eapply inv_world; [|exact Hw2]. by apply (inv_put_conn s w cid c c2 s1).
Qed.

Lemma PollTcp_inv s now g w s' w' : server_inv s w → PollTcp s now g w = Ret (s', w') → server_inv s' w'.
Proof. unfold PollTcp. intros Hinv H. run H. by eapply poll_group_inv. Qed.

Lemma PollShm_inv s g w s' w' : server_inv s w → PollShm s g w = Ret (s', w') → server_inv s' w'.
Proof. unfold PollShm. intros Hinv H. run H. by eapply poll_group_inv. Qed.

(** ** Start *)

Lemma start_check_fds r name next w b w' :
  open_fds r.2 = open_fds w → (∀ w1, open_fds (next w1).2 = open_fds w1) →
  start_check r name next = (b, w') → open_fds w' = open_fds w.
Proof.
  intros Hr Hn. unfold start_check. destruct r as [[x|e] w1]; simpl in Hr.
  - intros H. specialize (Hn w1). rewrite H in Hn. simpl in Hn. congruence.
  - intros [= <- <-]. by rewrite user_system_error.
Qed.

Lemma start_check_snd r name next w :
  open_fds r.2 = open_fds w → (∀ w1, open_fds (next w1).2 = open_fds w1) →
  open_fds (start_check r name next).2 = open_fds w.
Proof. intros. destruct (start_check r name next) eqn:He. by eapply start_check_fds. Qed.

(** The listening socket is owned from [socket] on. *)
Lemma inv_listenfd s w w' fd :
  server_inv s w → listenfd_ s < 0 → fd_opened (open_fds w) (open_fds w') (Some fd) →
  server_inv (set_listenfd s fd) w'.
Proof.
  intros [Ht Hn Ha Ho Hm] Hneg (Hfd & Hnew & Hw). constructor; try done.
  rewrite Hw. by eapply (owns_open (fds s) 0 (listenfd_ s) fd).
Qed.

Lemma Start_inv s ip port w b s' w' :
  server_inv s w → Start s ip port w = (b, s', w') → server_inv s' w'.
Proof.
  intros Hinv. unfold Start. destruct (Z.leb_spec 0 (listenfd_ s)) as [|Hneg].
  { intros [= <- <- <-]. eapply inv_world; [done|]. by rewrite user_system_error. }
  destruct (os_socket w) as [r w1] eqn:Hs. apply fd_socket in Hs. destruct r as [fd|e].
  - destruct (start_check _ _ _) as [r w2] eqn:Hc. intros [= <- <- <-].
    eapply inv_world; [by eapply inv_listenfd|].
    transitivity (open_fds (os_set_nonblock fd w1)); [|apply fd_set_nonblock].
    eapply start_check_fds; [apply fd_setsockopt| |exact Hc]. intros w3.
    assert (∀ w4, open_fds (start_check (os_bind fd ip port w4) "bind" (λ w5,
      start_check (os_listen fd w5) "listen" (λ w6, (true, w6)))).2 = open_fds w4) as Hb.
    { intros w4. apply start_check_snd; [apply fd_bind|]. intros w5.
      by apply start_check_snd; [apply fd_listen|]. }
    destruct TcpNoDelay; [|apply Hb]. apply start_check_snd; [apply fd_setsockopt|apply Hb].
  - intros [= <- <- <-]. eapply inv_world; [|rewrite user_system_error; exact Hs].
    destruct Hinv as [Ht Hn Ha Ho Hm]. constructor; try done.
    eapply (owns_same (fds s) 0 (listenfd_ s) (-1)); [done| |done]. by rewrite !own_neg.
Qed.

(** ** Stop *)

Definition released (c : TcpShmConnection) : Prop :=
  conn_idle c ∧ conn_name c = [] ∧ remote_name_ c ≠ [].

Lemma Release_released c w c' w' : Release c w = Ret (c', w') → released c'.
Proof.
  intros (Hso & Hfd & Hnm & _)%Release_fds. split; [split|].
  - destruct (Z.leb_spec 0 (conn_fd c)); destruct Hfd as [-> _]; lia.
  - rewrite Hso. destruct (Z.ltb_spec (conn_sock c) 0); lia.
  - unfold conn_name. split; [by rewrite (c_str_nil_put _ _ Hnm), take_nil|].
    apply put_insert in Hnm as [Hr ->]. intros He. apply (f_equal length) in He.
    rewrite length_insert in He. unfold zlen in Hr. simpl in He. lia.
Qed.

(** The sockets when a connection is released. *)
Lemma owned_Release s w cid c c' w' :
  owns (owned s) (open_fds w) → get (conn_pool_ s) cid = Ret c → Release c w = Ret (c', w') →
  owns (owned (set_conn_pool s (<[Z.to_nat cid := c']> (conn_pool_ s)))) (open_fds w').
Proof.
  intros Ho Hc Hr. pose proof (Release_released _ _ _ _ Hr) as [[Hneg _] _].
  apply Release_fds in Hr as (_ & Hfd & _).
  destruct (fds_pool s cid c c' Hc) as (j & Hj & He). unfold owned. rewrite He.
  destruct (Z.leb_spec 0 (conn_fd c)); destruct Hfd as [Hfd ->]; [by apply owns_close|].
  rewrite Hfd. by rewrite list_insert_id.
Qed.

(** [s'] after some connections of [s] were released. *)
Record pool_released (s s' : TcpShmServer) (cids : list Z) : Prop := {
  pr_pool : zlen (conn_pool_ s') = zlen (conn_pool_ s);
  pr_new : new_conns_ s' = new_conns_ s;
  pr_avail : avail_idx_ s' = avail_idx_ s;
  pr_listen : listenfd_ s' = listenfd_ s;
  pr_done cid : cid ∈ cids → ∃ c, get (conn_pool_ s') cid = Ret c ∧ released c;
  pr_other cid c : get (conn_pool_ s) cid = Ret c → released c → ∃ c', get (conn_pool_ s') cid = Ret c' ∧ released c'
}.

Lemma release_conns_ok cids : ∀ s w s' w',
  owns (owned s) (open_fds w) → release_conns cids s w = Ret (s', w') →
  pool_released s s' cids ∧ owns (owned s') (open_fds w') ∧ shm_grps_ s' = shm_grps_ s ∧ tcp_grps_ s' = tcp_grps_ s.
Proof.
  induction cids as [|cid cids IH]; intros s w s' w' Ho H; simpl in H.
  { run H. split; [|done]. constructor; try done; [by intros ? ?%not_elem_of_nil|eauto]. }
  run H. rename r into c. run H. destruct r as [c1 w1]. run H. rename r into s1.
  apply put_conn_inv in Hrun1 as [Hr ->].
  pose proof (owned_Release _ _ _ _ _ _ Ho Hrun Hrun0) as Ho1.
  pose proof (Release_released _ _ _ _ Hrun0) as Hrel.
  destruct (IH _ _ _ _ Ho1 H) as ([Hlen Hn Ha Hl Hd Hoth] & Ho' & Hg1 & Hg2). simpl in *.
  assert (get (<[Z.to_nat cid := c1]> (conn_pool_ s)) cid = Ret c1) as Hc1.
  { apply get_Ret. split; [lia|]. apply list_lookup_insert_eq. unfold zlen in *. lia. }
  split; [|done]. constructor; try done.
  - rewrite Hlen. unfold zlen. by rewrite length_insert.
  - intros cid' [->|Hin]%elem_of_cons; [|by apply Hd]. by eapply Hoth.
  - intros cid' d Hcd Hdr. apply get_Ret in Hcd as [? Hcd].
    destruct (decide (cid' = cid)) as [->|]; [by eapply Hoth|].
    apply (Hoth cid' d); [|done]. apply get_Ret. split; [done|]. rewrite list_lookup_insert_ne; [done|lia].
Qed.

(** A group whose connections are all released and none is live. *)
Definition grp_stopped (P : list TcpShmConnection) (grp : ConnectionGroup) : Prop :=
  live_cnt grp = 0 ∧ ∀ cid, cid ∈ conns grp → ∃ c, get P cid = Ret c ∧ released c.

Lemma grp_stopped_ok P grp : grp_stopped P grp → zlen (conns grp) < 4294967296 → grp_ok P grp.
Proof.
  intros [Hl Hc] Hlen. split; [done|]. rewrite Hl. clear Hlen Hl.
  assert (∃ row, row_of P (conns grp) row ∧ Forall released row) as (row & Hr & Hf).
  { induction (conns grp) as [|cid cs IH]; [exists []; by split; constructor|].
    destruct (Hc cid) as (c & ? & ?); [left|].
    destruct IH as (row & ? & ?); [intros; apply Hc; by right|].
    exists (c :: row). split; by constructor. }
  exists row. split; [done|]. apply row_ok_released. eapply Forall_impl; [exact Hf|]. by intros c (? & ? & _).
Qed.

Lemma grp_stopped_mono s s' cids grp :
  pool_released s s' cids → grp_stopped (conn_pool_ s) grp → grp_stopped (conn_pool_ s') grp.
Proof.
  intros Hp [Hl Hc]. split; [done|]. intros cid (c & Hcc & Hr)%Hc. by eapply (pr_other _ _ _ Hp).
Qed.

(** The groups of [shm] from [g] on are stopped; the slots stay. *)
Record groups_stopped (s s' : TcpShmServer) (shm : bool) (g n : nat) : Prop := {
  gs_pool : pool_released s s' [];
  gs_slots sh : conns <$> grps s' sh = conns <$> grps s sh;
  gs_other : grps s' (negb shm) = grps s (negb shm);
  gs_done k grp : (g ≤ k < g + n)%nat → grps s' shm !! k = Some grp → grp_stopped (conn_pool_ s') grp;
  gs_before k : (k < g)%nat → grps s' shm !! k = grps s shm !! k
}.

Lemma pool_released_trans s1 s2 s3 cids :
  pool_released s1 s2 cids → pool_released s2 s3 [] → pool_released s1 s3 [].
Proof.
  intros [H1 H2 H3 H4 _ H5] [J1 J2 J3 J4 _ J5]. constructor; try congruence.
  - by intros cid ?%not_elem_of_nil.
  - intros cid c Hc Hr. destruct (H5 _ _ Hc Hr) as (c' & ? & ?). by eapply J5.
Qed.

Lemma stop_groups_ok n : ∀ s shm g w s' w',
  owns (owned s) (open_fds w) → 0 ≤ g → stop_groups n s shm g w = Ret (s', w') →
  owns (owned s') (open_fds w') ∧ groups_stopped s s' shm (Z.to_nat g) n.
Proof.
  induction n as [|n IH]; intros s shm g w s' w' Ho Hg0 H; simpl in H.
  { run H. split; [done|]. constructor; try done; [|intros; lia].
    constructor; try done; [by intros ? ?%not_elem_of_nil|eauto]. }
  run H. rename r into grp. run H. destruct r as [s1 w1]. run H. rename r into s2.
  destruct (release_conns_ok _ _ _ _ _ Ho Hrun0) as (Hp1 & Ho1 & Hs1 & Ht1).
  unfold put_grp in Hrun1. run Hrun1. apply put_insert in Hrun2 as [Hgr ->].
  run Hrun1. set (G := <[Z.to_nat g := mkGroup 0 (conns grp)]> (grps s1 shm)) in *.
  assert (∀ sh, grps s1 sh = grps s sh) as Hgs by (intros []; done).
  assert (0 ≤ g + 1) as Hg1 by lia. assert (owns (owned (set_grps s1 shm G)) (open_fds w1)) as Ho2 by done.
  destruct (IH _ _ _ _ _ _ Ho2 Hg1 H) as (Ho' & [Hp2 Hsl Hoth Hdone Hbef]).
  split; [done|].
  assert (∀ sh, grps (set_grps s1 shm G) sh = if decide (sh = shm) then G else grps s sh) as Hg2.
  { intros sh. rewrite <-Hgs. destruct sh, shm; done. }
  apply get_lookup in Hrun as [_ Hgrp].
  assert (pool_released s1 (set_grps s1 shm G) []) as Hps.
  { constructor; try done; [by intros ? ?%not_elem_of_nil|eauto]. }
  constructor.
  - eapply pool_released_trans; [exact Hp1|]. by eapply pool_released_trans.
  - intros sh. rewrite Hsl, Hg2. case_decide as Hsh; [|done]. subst. unfold G. rewrite Hgs.
    rewrite list_fmap_insert. apply list_insert_id. by rewrite list_lookup_fmap, Hgrp.
  - rewrite Hoth, Hg2. by destruct shm.
  - intros k grp' Hk Hkg. destruct (decide (k = Z.to_nat g)) as [->|]; [|apply (Hdone k); [lia|done]].
    rewrite Hbef, Hg2, decide_True in Hkg by (done || lia). unfold G in Hkg.
    rewrite list_lookup_insert_eq in Hkg by (unfold zlen in *; lia). injection Hkg as <-.
    split; [done|]. simpl. intros cid (c & Hc & Hr)%(pr_done _ _ _ Hp1).
    by apply (pr_other _ _ _ Hp2 cid c).
  - intros k Hk. rewrite Hbef, Hg2, decide_True by (done || lia). unfold G.
    rewrite list_lookup_insert_ne by lia. by rewrite Hgs.
Qed.

Lemma close_new_conns_ok l : ∀ w l' w' (r1 r2 : list Z),
  owns ((r1 ++ (nc_fd <$> l) ++ r2) ≫= own) (open_fds w) → close_new_conns l w = (l', w') →
  owns ((r1 ++ (nc_fd <$> l') ++ r2) ≫= own) (open_fds w') ∧ length l' = length l ∧
  Forall (λ c, nc_fd c < 0) l'.
Proof.
  induction l as [|c l IH]; intros w l' w' r1 r2 Ho H; simpl in H; [by injection H as <- <-|].
  destruct (if 0 <=? nc_fd c then _ else _) as [c1 w1] eqn:Hc.
  destruct (close_new_conns l w1) as [l1 w2] eqn:Hl. injection H as <- <-.
  assert (nc_fd c1 < 0 ∧ owns (((r1 ++ [nc_fd c1]) ++ (nc_fd <$> l) ++ r2) ≫= own) (open_fds w1)) as [Hneg Ho1].
  { rewrite fmap_cons in Ho. rewrite <-app_assoc.
    destruct (Z.leb_spec 0 (nc_fd c)); injection Hc as <- <-; [|done]. split; [done|]. rewrite fd_close.
    pose proof (owns_close (r1 ++ nc_fd c :: (nc_fd <$> l) ++ r2) (length r1) (nc_fd c) (-1) (open_fds w)) as Hcl.
    rewrite insert_app_r_alt, Nat.sub_diag in Hcl by done. apply Hcl; try done.
    by rewrite lookup_app_r, Nat.sub_diag by done. }
  destruct (IH _ _ _ _ _ Ho1 Hl) as (Ho' & Hlen & Hf). rewrite <-app_assoc in Ho'.
  split; [done|]. simpl. split; [by rewrite Hlen|by constructor].
Qed.

Lemma groups_stopped_all s s' shm :
  groups_stopped s s' shm 0 (length (grps s shm)) → Forall (grp_stopped (conn_pool_ s')) (grps s' shm).
Proof.
  intros [_ Hsl _ Hd _]. apply Forall_lookup. intros k grp Hk. apply (Hd k); [|done].
  apply lookup_lt_Some in Hk. pose proof (f_equal length (Hsl shm)) as Hle.
  rewrite !length_fmap in Hle. lia.
Qed.

Lemma bind_concat {A B} (f : A → list B) (l : list A) : l ≫= f = concat (f <$> l).
Proof. induction l as [|x l IH]; [done|]. exact (f_equal (app (f x)) IH). Qed.

Lemma table_stopped P P' G G' :
  table_ok P G → conns <$> G' = conns <$> G → zlen P' = zlen P → Forall (grp_stopped P') G' →
  table_ok P' G'.
Proof.
  intros [Hs Hf] Hc HP Hst. constructor; [by rewrite HP, <-Hs, !bind_concat, Hc|].
  rewrite Forall_lookup in Hf, Hst. apply Forall_lookup. intros k grp Hk. apply grp_stopped_ok; [by eapply Hst|].
  assert ((conns <$> G) !! k = Some (conns grp)) as Hg by by rewrite <-Hc, list_lookup_fmap, Hk.
  apply list_lookup_fmap_Some in Hg as (grp0 & -> & Hg). by destruct (Hf _ _ Hg).
Qed.

(** Nothing is owned when no object has a socket. *)
Lemma own_all_neg (l : list Z) : Forall (λ fd, fd < 0) l → l ≫= own = [].
Proof. induction 1 as [|fd l Hfd _ IH]; [done|]. rewrite bind_cons, own_neg by done. exact IH. Qed.

Lemma owns_none (l : list Z) X : Forall (λ fd, fd < 0) l → owns (l ≫= own) X → X = ∅.
Proof.
  intros Hf Ho. rewrite own_all_neg in Ho by done.
  by apply Permutation_nil, elements_empty_inv, leibniz_equiv in Ho.
Qed.

Lemma pool_stopped P G : table_ok P G → Forall (grp_stopped P) G → Forall released P.
Proof.
  intros Ht Hst. rewrite Forall_lookup in Hst. apply Forall_lookup. intros n c Hn.
  assert (0 ≤ Z.of_nat n < zlen P) as Hr by (apply lookup_lt_Some in Hn; unfold zlen; lia).
  destruct (table_cover _ _ _ Ht Hr) as (g & grp & i & Hg & Hi).
  destruct (Hst _ _ Hg) as [_ Hc]. destruct (Hc (Z.of_nat n)) as (c' & Hc' & Hrel).
  { by eapply list_elem_of_lookup_2. }
  apply get_lookup in Hc' as [_ Hc']. rewrite Nat2Z.id in Hc'. by simplify_eq.
Qed.

(** After [Stop] nothing is open. *)
Lemma Stop_ok s w s' w' :
  server_inv s w → Stop s w = Ret (s', w') →
  server_inv s' w' ∧
  (0 ≤ listenfd_ s → listenfd_ s' = -1 ∧ open_fds w' = ∅ ∧ Forall (grp_stopped (conn_pool_ s')) (all_grps s')).
Proof.
  intros Hinv. pose proof Hinv as [Ht Hn Ha Ho Hm]. unfold Stop.
  destruct (Z.ltb_spec (listenfd_ s) 0) as [Hlis|Hlis]; [intros H; run H; split; [done|lia]|].
  set (s0 := set_listenfd s (-1)). intros H. cbv zeta in H.
  assert (owns (owned s0) (open_fds (os_close (listenfd_ s) w))) as Ho0.
  { rewrite fd_close. by apply (owns_close (fds s) 0). }
  destruct (close_new_conns _ _) as [l w1] eqn:Hl.
  destruct (close_new_conns_ok _ _ _ _ [-1] ((λ c, conn_fd c) <$> conn_pool_ s) Ho0 Hl) as (Ho1 & Hlen & Hf).
  change (length l = length (new_conns_ s)) in Hlen.
  set (s1 := set_avail_idx _ _) in H. run H. destruct r as [s2 w2].
  destruct (stop_groups_ok _ s1 true 0 _ _ _ Ho1 ltac:(lia) Hrun) as (Ho2 & Hg2).
  destruct (stop_groups_ok _ s2 false 0 _ _ _ Ho2 ltac:(lia) H) as (Ho3 & Hg3).
  pose proof (groups_stopped_all _ _ _ Hg2) as Hst2. pose proof (groups_stopped_all _ _ _ Hg3) as Hst3.
  destruct Hg2 as [Hp2 Hsl2 _ _ _], Hg3 as [Hp3 Hsl3 Hoth3 _ _].
  assert (Forall (grp_stopped (conn_pool_ s')) (all_grps s')) as Hst.
  { apply Forall_app. split; [|done]. change (shm_grps_ s') with (grps s' (negb false)). rewrite Hoth3.
    eapply Forall_impl; [exact Hst2|]. intros grp Hgr. by eapply grp_stopped_mono. }
  assert (conns <$> all_grps s' = conns <$> all_grps s) as Hslots.
  { unfold all_grps. rewrite !fmap_app. f_equal.
    - exact (eq_trans (Hsl3 true) (Hsl2 true)).
    - exact (eq_trans (Hsl3 false) (Hsl2 false)). }
  assert (listenfd_ s' = -1 ∧ new_conns_ s' = l ∧ avail_idx_ s' = 0 ∧
          zlen (conn_pool_ s') = zlen (conn_pool_ s)) as (Hl' & Hn' & Ha' & Hp').
  { destruct Hp3 as [-> -> -> -> _ _], Hp2 as [-> -> -> -> _ _]. done. }
  pose proof (table_stopped _ _ _ _ Ht Hslots Hp' Hst) as Ht'.
  assert (open_fds w' = ∅) as Hempty.
  { eapply owns_none; [|exact Ho3]. unfold fds. rewrite Hl', Hn'. constructor; [done|].
    apply Forall_app. split; apply Forall_fmap; [done|]. eapply Forall_impl; [by eapply pool_stopped|].
    by intros c [[? _] _]. }
  split; [|done]. constructor; [done| | |done|].
  - rewrite Hn'. unfold zlen in *. by rewrite Hlen.
  - rewrite Hn', Ha'. destruct (decide (MaxNewConnections = 0)) as [|Hne]; [by left|right].
    destruct (get_in_range l 0) as [c Hc]; [unfold zlen in *; lia|]. exists c. split; [done|].
    rewrite Forall_lookup in Hf. apply get_lookup in Hc as [_ Hc]. by eapply Hf.
  - eapply Forall_impl; [by eapply pool_stopped|]. by intros c (_ & _ & ?).
Qed.

(** [Stop] always returns: the slots hold numbers of the pool, and the names
    have a first character. *)
Definition pool_arrays (s : TcpShmServer) : Prop :=
  Forall (λ c, remote_name_ c ≠ []) (conn_pool_ s).

Lemma Release_total c w : remote_name_ c ≠ [] → ∃ c' w', Release c w = Ret (c', w').
Proof.
  intros Hne. unfold Release. assert (0 < zlen (remote_name_ c)).
  { destruct (remote_name_ c); [done|]. unfold zlen. simpl. lia. }
  rewrite put_in_range by lia. rewrite outcome_bind_Ret.
  destruct (PtcpConn.Release _ _) as [t w1]. by eexists _, _.
Qed.

Lemma release_conns_total cids : ∀ s w,
  pool_arrays s → Forall (λ cid, 0 ≤ cid < zlen (conn_pool_ s)) cids →
  ∃ s' w', release_conns cids s w = Ret (s', w') ∧ pool_arrays s' ∧
           zlen (conn_pool_ s') = zlen (conn_pool_ s) ∧ ∀ sh, grps s' sh = grps s sh.
Proof.
  induction cids as [|cid cids IH]; intros s w Hp Hc; [by eexists _, _|].
  apply Forall_cons in Hc as [Hcid Hc]. simpl. destruct (get_in_range _ _ Hcid) as [c Hget].
  rewrite Hget, outcome_bind_Ret. pose proof Hget as [_ Hl]%get_lookup.
  destruct (Release_total c w) as (c1 & w1 & Hr); [by eapply Forall_lookup_1 in Hp|].
  rewrite Hr, outcome_bind_Ret. unfold put_conn, put. rewrite decide_True, !outcome_bind_Ret by done.
  set (P := <[Z.to_nat cid := c1]> (conn_pool_ s)).
  assert (zlen P = zlen (conn_pool_ s)) as HP by (subst P; unfold zlen; by rewrite length_insert).
  assert (pool_arrays (set_conn_pool s P)) as Hp1.
  { apply Forall_insert; [done|]. by apply Release_released in Hr as (_ & _ & ?). }
  assert (Forall (λ cid, 0 ≤ cid < zlen (conn_pool_ (set_conn_pool s P))) cids) as Hc1 by (simpl; by rewrite HP).
  destruct (IH _ w1 Hp1 Hc1) as (s' & w' & -> & Hp' & Hz & Hg).
  exists s', w'. simpl in Hz. split_and!; [done|done|congruence|done].
Qed.

(** The slots of [s] hold numbers of its pool. *)
Definition slots_in_pool (s : TcpShmServer) : Prop :=
  ∀ sh k grp, grps s sh !! k = Some grp → Forall (λ cid, 0 ≤ cid < zlen (conn_pool_ s)) (conns grp).

Lemma stop_groups_total n : ∀ s shm g w,
  pool_arrays s → slots_in_pool s → 0 ≤ g → g + Z.of_nat n ≤ zlen (grps s shm) →
  ∃ s' w', stop_groups n s shm g w = Ret (s', w') ∧ pool_arrays s' ∧ slots_in_pool s' ∧
           ∀ sh, length (grps s' sh) = length (grps s sh).
Proof.
  induction n as [|n IH]; intros s shm g w Hp Hs Hg0 Hn; [by eexists _, _|].
  simpl. destruct (get_in_range (grps s shm) g) as [grp Hget]; [lia|]. rewrite Hget, outcome_bind_Ret.
  pose proof Hget as [_ Hl]%get_lookup.
  destruct (release_conns_total (conns grp) s w Hp (Hs _ _ _ Hl)) as (s1 & w1 & -> & Hp1 & Hz1 & Hg1).
  rewrite outcome_bind_Ret. unfold put_grp, put. rewrite Hg1, decide_True, !outcome_bind_Ret by lia.
  set (G := <[Z.to_nat g := mkGroup 0 (conns grp)]> (grps s shm)).
  assert (∀ sh, grps (set_grps s1 shm G) sh = if decide (sh = shm) then G else grps s sh) as Hg2.
  { intros sh. rewrite <-Hg1. by destruct sh, shm. }
  assert (length G = length (grps s shm)) as HG by (subst G; by rewrite length_insert).
  edestruct (IH (set_grps s1 shm G) shm (g + 1) w1) as (s' & w' & He & Hp' & Hs' & Hlen); [done| |lia| |].
  - intros sh k grp' Hk. rewrite Hg2 in Hk. simpl. rewrite Hz1. case_decide; [|by eapply Hs].
    subst G. apply list_lookup_insert_Some in Hk as [(_ & <- & _)|[_ Hk]];
      [exact (Hs _ _ _ Hl)|exact (Hs _ _ _ Hk)].
  - rewrite Hg2, decide_True by done. unfold zlen in *. lia.
  - exists s', w'. split_and!; try done. intros sh. rewrite Hlen, Hg2. case_decide; [by subst|done].
Qed.

Lemma Stop_total s w : server_inv s w → ∃ s' w', Stop s w = Ret (s', w').
Proof.
  intros [Ht _ _ _ Hm]. unfold Stop. destruct (_ <? _); [by eexists _, _|].
  destruct (close_new_conns _ _) as [l w1].
  match goal with |- context [stop_groups _ ?a true] => set (s1 := a) end.
  assert (slots_in_pool s1) as Hs1.
  { intros sh k grp Hk. apply Forall_forall. intros cid Hcid.
    assert (cid ∈ all_grps s ≫= conns) as Hin.
    { apply list_elem_of_bind. exists grp. split; [done|]. unfold all_grps. apply elem_of_app.
      apply list_elem_of_lookup_2 in Hk. destruct sh; [by left|by right]. }
    rewrite (t_slots _ _ Ht) in Hin. apply elem_of_seqZ in Hin. done. }
  destruct (stop_groups_total (length (shm_grps_ s1)) s1 true 0 w1) as (s2 & w2 & He & Hp2 & Hs2 & Hlen);
    [done|done|lia|done|].
  rewrite He, outcome_bind_Ret.
  destruct (stop_groups_total (length (tcp_grps_ s2)) s2 false 0 w2) as (s3 & w3 & He3 & _);
    [done|done|lia|done|]. by eexists _, _.
Qed.

(** ** Construction *)

Lemma new_groups_conns n : ∀ m cnt, 0 ≤ m → new_groups n m cnt ≫= conns = seqZ cnt (Z.of_nat n * m).
Proof.
  induction n as [|n IH]; intros m cnt Hm; [done|]. cbn [new_groups].
  rewrite bind_cons, IH by done. simpl. rewrite <-seqZ_app by lia. f_equal. lia.
Qed.

Lemma new_groups_stopped P n : ∀ m cnt, 0 ≤ m < 4294967296 → 0 ≤ cnt → cnt + Z.of_nat n * m ≤ zlen P →
  Forall released P → Forall (λ grp, grp_stopped P grp ∧ zlen (conns grp) < 4294967296) (new_groups n m cnt).
Proof.
  induction n as [|n IH]; intros m cnt Hm Hc HP Hf; [constructor|].
  cbn [new_groups]. constructor; [|apply IH; (lia || done)]. simpl.
  split; [|unfold zlen; rewrite length_seqZ; lia]. split; [done|]. simpl.
  intros cid Hcid%elem_of_seqZ. destruct (get_in_range P cid) as [c Hcc]; [nia|]. exists c.
  split; [done|]. apply get_lookup in Hcc as [_ Hcc]. by eapply Forall_lookup_1.
Qed.

(** The sizes are those of [uint32_t] template parameters. *)
Record ServerConf_ok : Prop := {
  sc_new : 0 ≤ MaxNewConnections;
  sc_shm : 0 ≤ MaxShmConnsPerGrp < 4294967296;
  sc_shm_grps : 0 ≤ MaxShmGrps;
  sc_tcp : 0 ≤ MaxTcpConnsPerGrp < 4294967296;
  sc_tcp_grps : 0 ≤ MaxTcpGrps
}.

Lemma new_inv sname dir junk_name junk_conn w s w' :
  ServerConf_ok → open_fds w = ∅ →
  new_TcpShmServer sname dir junk_name junk_conn w = Ret (s, w') → server_inv s w'.
Proof.
  intros [] Hw. unfold new_TcpShmServer. intros H. run H. run H. cbv zeta in H. run H.
  set (conn := init _ _ _). set (n := MaxShmConnsPerGrp * MaxShmGrps + _).
  assert (0 ≤ n) as Hn by (subst n; nia). set (P := repeat conn (Z.to_nat n)).
  assert (released conn) as Hrel.
  { split; [by split|]. split; [|done]. unfold conn_name. simpl. by rewrite take_nil. }
  assert (Forall released P) as HP by (apply Forall_forall; by intros c ->%list_elem_of_In%repeat_spec).
  assert (zlen P = n) as HPl by (subst P; rewrite zlen_repeat; lia).
  set (s := mkServer _ _ _ _ _ _ _ _).
  pose proof (new_groups_stopped P (Z.to_nat MaxShmGrps) MaxShmConnsPerGrp 0) as Hs1.
  pose proof (new_groups_stopped P (Z.to_nat MaxTcpGrps) MaxTcpConnsPerGrp (MaxShmConnsPerGrp * MaxShmGrps)) as Hs2.
  constructor; simpl.
  - constructor.
    + unfold all_grps. simpl. rewrite bind_app, !new_groups_conns by lia. fold P. rewrite HPl.
      subst n. apply reflexive_eq. rewrite !Z2Nat.id by lia.
      rewrite (Z.mul_comm MaxShmGrps), (Z.mul_comm MaxTcpGrps).
      rewrite (seqZ_app 0 (MaxShmConnsPerGrp * MaxShmGrps) (MaxTcpConnsPerGrp * MaxTcpGrps)) by nia. done.
    + unfold all_grps. simpl. apply Forall_app. fold P. split.
      * eapply Forall_impl; [apply Hs1; (lia || done || nia)|]. intros grp []. by apply grp_stopped_ok.
      * eapply Forall_impl; [apply Hs2; (lia || done || nia)|]. intros grp []. by apply grp_stopped_ok.
  - rewrite zlen_repeat. lia.
  - destruct (decide (MaxNewConnections = 0)) as [|Hne]; [by left|right].
    destruct (get_in_range (repeat (set_nc_fd junk_conn (-1)) (Z.to_nat MaxNewConnections)) 0) as [c Hc].
    { rewrite zlen_repeat. lia. }
    exists c. split; [done|]. apply get_lookup in Hc as [_ Hc]. apply list_elem_of_lookup_2 in Hc.
    by apply list_elem_of_In, repeat_spec in Hc as ->.
  - rewrite fd_mkdir, Hw. unfold owned. rewrite own_all_neg; [by unfold owns; rewrite elements_empty|].
    constructor; [done|]. apply Forall_app. split; apply Forall_fmap, Forall_forall.
    + by intros c ->%list_elem_of_In%repeat_spec.
    + by intros c ->%list_elem_of_In%repeat_spec.
  - eapply Forall_impl; [exact HP|]. by intros c (_ & _ & ?).
Qed.

(** ** Runs of the server *)

(** One call of the server's user: of the server, or of a connection. *)
Inductive server_step (s : TcpShmServer) (w : W) : TcpShmServer → W → Prop :=
  | step_Start ip port b s' w' : Start s ip port w = (b, s', w') → server_step s w s' w'
  | step_PollCtl now s' w' :
      PollCtl stack_header stack_rsp s now w = Ret (s', w') → server_step s w s' w'
  | step_PollTcp now g s' w' : PollTcp s now g w = Ret (s', w') → server_step s w s' w'
  | step_PollShm g s' w' : PollShm s g w = Ret (s', w') → server_step s w s' w'
  | step_Stop s' w' : Stop s w = Ret (s', w') → server_step s w s' w'
  | step_conn cid c c' s' w' :
      get (conn_pool_ s) cid = Ret c → user_calls c w c' w' → put_conn s cid c' = Ret s' →
      server_step s w s' w'.

Inductive reachable : TcpShmServer → W → Prop :=
  | reach_new sname dir junk_name junk_conn w s w' :
      open_fds w = ∅ → new_TcpShmServer sname dir junk_name junk_conn w = Ret (s, w') → reachable s w'
  | reach_step s w s' w' : reachable s w → server_step s w s' w' → reachable s' w'.

Lemma server_step_inv s w s' w' : server_inv s w → server_step s w s' w' → server_inv s' w'.
Proof.
  intros Hinv Hs. destruct Hs.
  - by eapply Start_inv.
  - by eapply PollCtl_inv.
  - by eapply PollTcp_inv.
  - by eapply PollShm_inv.
  - by eapply Stop_ok.
  - apply user_calls_kept in H0 as [Hk Hw]. eapply inv_world; [|exact Hw].
    by apply (inv_put_conn s w cid c c' s').
Qed.

Lemma server_reachable_inv s w : ServerConf_ok → reachable s w → server_inv s w.
Proof.
  intros Hc. induction 1 as [|s w s' w' _ IH Hs]; [by eapply new_inv|]. by eapply server_step_inv.
Qed.
End server.
