(* ===== verification/ServerThreads.v ===== *)
(** * The threads of the server

    The functions of [tcpshm_server.h] are called by several threads: one
    calls [PollCtl], and for every group another calls [PollTcp] or
    [PollShm].  They share the groups without a lock.  [threads] is the server
    with where each thread is, and [turn_step] gives the turn to one of them.

    A turn of the control thread is one store into a group, or one call on a
    connection with the tests around it; [std::swap] on two slots of [conns]
    is two stores, and the store into [live_cnt] comes before them.  A turn of
    a polling thread is one load of [live_cnt], one load of a slot, [TcpFront]
    or [ShmFront], or [OnClientMsg].  Whether a polling thread loads
    [live_cnt] again after an iteration is left to the compiler, and here to
    the schedule. *)

From S2P Require Import Prelude.
From S2P Require Import Arrays.
From S2P Require Import MsgHeader.
From S2P Require Import PtcpQueue.
From S2P Require Import SpscQueue.
From S2P Require Import Platform.
From S2P Require Import PtcpConn.
From S2P Require Import TcpShmConn.
From S2P Require Import Login.
From S2P Require Import Server.

(** ** Stores into a group *)

(** [grp.live_cnt = n], [grp.conns[i] = cid]; the group is [g] of
    [shm_grps_] or [tcp_grps_]. *)
Inductive store :=
  | StoreLive (shm : bool) (g n : Z)
  | StoreSlot (shm : bool) (g i cid : Z).

(** Where a polling thread is: outside, at the head of its loop with the
    [live_cnt] it has loaded, at a connection, or with a message of it. *)
Inductive poll_pc :=
  | PollIdle
  | PollLoop (cnt i : Z)
  | PollVisit (cnt i cid : Z)
  | PollMsg (cnt i cid head : Z).

Record poller := mkPoller { p_shm : bool; p_grp : Z; p_now : Z; p_pc : poll_pc }.

Definition set_pc (p : poller) (pc : poll_pc) : poller := mkPoller (p_shm p) (p_grp p) (p_now p) pc.

Section threads.
Context {conf : Conf} {ud : UserData} {W : Type} {os : Os W}.
Context {mmq : MmapOs W PTCPQueue} {mms : MmapOs W SPSCVarQueue}.
Context {los : LoginOs W} {user : ServerUser W}.
Context (stack_header : MsgHeader) (stack_rsp : LoginRspMsg).

Definition do_store (st : store) (s : TcpShmServer) : outcome TcpShmServer :=
  match st with
  | StoreLive shm g n =>
      grp ← get (grps s shm) g; put_grp s shm g (mkGroup n (conns grp))
  | StoreSlot shm g i cid =>
      grp ← get (grps s shm) g;
      cs ← put (conns grp) i cid;
      put_grp s shm g (mkGroup (live_cnt grp) cs)
  end.

Fixpoint do_stores (l : list store) (s : TcpShmServer) : outcome TcpShmServer :=
  match l with
  | [] => Ret s
  | st :: l => s ← do_store st s; do_stores l s
  end.

(** [std::swap(grp.conns[i], grp.conns[j])] *)
Definition swap_stores (shm : bool) (g : Z) (cs : list Z) (i j : Z) : outcome (list store) :=
  x ← get cs i;
  y ← get cs j;
  Ret [StoreSlot shm g i y; StoreSlot shm g j x].

(** [std::swap(grp.conns[i], grp.conns[grp.live_cnt++])] *)
Definition login_stores (shm : bool) (g i : Z) (grp : ConnectionGroup) : outcome (list store) :=
  l ← swap_stores shm g (conns grp) i (live_cnt grp);
  Ret (StoreLive shm g (u32 (live_cnt grp + 1)) :: l).

(** [std::swap(grp.conns[i], grp.conns[--grp.live_cnt])] *)
Definition logout_stores (shm : bool) (g i : Z) (grp : ConnectionGroup) : outcome (list store) :=
  let cnt := u32 (live_cnt grp - 1) in
  l ← swap_stores shm g (conns grp) i cnt;
  Ret (StoreLive shm g cnt :: l).

(** ** The control thread *)

(** The user's class without [OnClientLogon], which [HandleLogin] calls last,
    after the stores into the group. *)
Definition no_logon : ServerUser W := {|
  OnSystemError := OnSystemError;
  OnNewConnection := OnNewConnection;
  OnClientFileError := OnClientFileError;
  OnSeqNumberMismatch := OnSeqNumberMismatch;
  OnClientLogon := λ _ c w, Ret (c, w);
  OnClientDisconnected := OnClientDisconnected;
  OnClientMsg := OnClientMsg
|}.

(** The first group of [l] whose [live_cnt] is another one in [l']. *)
Fixpoint grown (l l' : list ConnectionGroup) (g : Z) : option Z :=
  match l, l' with
  | grp :: l, grp' :: l' =>
      if live_cnt grp' =? live_cnt grp then grown l l' (g + 1) else Some g
  | _, _ => None
  end.

(** The group that the handling of a new connection, from [s] to [s'], has
    made a connection of live. *)
Definition logged_on (s s' : TcpShmServer) : option (bool * Z) :=
  match grown (shm_grps_ s) (shm_grps_ s') 0 with
  | Some g => Some (true, g)
  | None =>
      match grown (tcp_grps_ s) (tcp_grps_ s') 0 with Some g => Some (false, g) | None => None end
  end.

(** The new connection, and its index in the group before. *)
Definition logged_conn (s s' : TcpShmServer) (shm : bool) (g : Z) : outcome (Z * Z) :=
  grp ← get (grps s shm) g;
  grp' ← get (grps s' shm) g;
  cid ← get (conns grp') (live_cnt grp);
  match list_find (λ x, x = cid) (conns grp) with
  | Some (i, _) => Ret (cid, Z.of_nat i)
  | None => Undef
  end.

(** Where the control thread is in [PollCtl]: before it, at the new
    connection [k], before [OnClientLogon], at the head of the loop over a
    group, or before [TryCloseFd]. *)
Inductive ctl_pc :=
  | CtlIdle
  | CtlNew (k : Z)
  | CtlLogon (k : Z) (addr : sockaddr) (cid : Z)
  | CtlGroup (shm : bool) (g i : Z)
  | CtlTry (shm : bool) (g i : Z).

(** [t_todo]: the stores that the control thread does next. *)
Record threads := mkThreads {
  t_srv : TcpShmServer;
  t_ctl : ctl_pc;
  t_now : Z;
  t_todo : list store;
  t_poll : list poller
}.

Definition ctl_at (t : threads) (s : TcpShmServer) (pc : ctl_pc) : threads :=
  mkThreads s pc (t_now t) [] (t_poll t).

(** The body of the loop over the new connections. *)
Definition ctl_new (t : threads) (k : Z) (w : W) : outcome (threads * W) :=
  let s := t_srv t in
  '(s', w) ← PollCtl_new (user := no_logon) stack_header stack_rsp s k (t_now t) w;
  match logged_on s s' with
  | None => Ret (ctl_at t s' (CtlNew (k + 1)), w)
  | Some (shm, g) =>
      '(cid, i) ← logged_conn s s' shm g;
      conn ← get (new_conns_ s') k;
      grp ← get (grps s shm) g;
      l ← login_stores shm g i grp;
      Ret (mkThreads (set_grps s' shm (grps s shm)) (CtlLogon k (nc_addr conn) cid) (t_now t) l (t_poll t), w)
  end.

(** The head of the loop over a group; [conn.TcpFront(now)] when it is one of
    shared memory. *)
Definition ctl_group (t : threads) (shm : bool) (g i : Z) (w : W) : outcome (threads * W) :=
  let s := t_srv t in
  if g <? zlen (grps s shm) then
    grp ← get (grps s shm) g;
    if i <? live_cnt grp then
      if shm then
        cid ← get (conns grp) i;
        conn ← get (conn_pool_ s) cid;
        '(_, conn, w) ← TcpFront conn (t_now t) w;
        s ← put_conn s cid conn;
        Ret (ctl_at t s (CtlTry shm g i), w)
      else Ret (ctl_at t s (CtlTry shm g i), w)
    else Ret (ctl_at t s (CtlGroup shm (g + 1) 0), w)
  else Ret (ctl_at t s (if shm then CtlGroup false 0 0 else CtlIdle), w).

(** [if(conn.TryCloseFd()) ... else i++] *)
Definition ctl_try (t : threads) (shm : bool) (g i : Z) (w : W) : outcome (threads * W) :=
  let s := t_srv t in
  grp ← get (grps s shm) g;
  cid ← get (conns grp) i;
  conn ← get (conn_pool_ s) cid;
  let '(closed, conn, w) := TryCloseFd conn w in
  if closed : bool then
    let '(reason, sys_errno) := GetCloseReason conn in
    '(conn, w) ← OnClientDisconnected conn reason sys_errno w;
    s ← put_conn s cid conn;
    l ← logout_stores shm g i grp;
    Ret (mkThreads s (CtlGroup shm g i) (t_now t) l (t_poll t), w)
  else
    s ← put_conn s cid conn;
    Ret (ctl_at t s (CtlGroup shm g (i + 1)), w).

(** One turn; [now] is the time if it calls [PollCtl]. *)
Definition ctl_step (now : Z) (t : threads) (w : W) : outcome (threads * W) :=
  match t_todo t with
  | st :: l =>
      s ← do_store st (t_srv t);
      Ret (mkThreads s (t_ctl t) (t_now t) l (t_poll t), w)
  | [] =>
      let s := t_srv t in
      match t_ctl t with
      | CtlIdle =>
          '(s, w) ← PollCtl_accept s now w;
          Ret (mkThreads s (CtlNew 0) now [] (t_poll t), w)
      | CtlNew k =>
          if k <? MaxNewConnections then ctl_new t k w
          else Ret (ctl_at t s (CtlGroup true 0 0), w)
      | CtlLogon k addr cid =>
          conn ← get (conn_pool_ s) cid;
          '(conn, w) ← OnClientLogon addr conn w;
          s ← put_conn s cid conn;
          Ret (ctl_at t s (CtlNew (k + 1)), w)
      | CtlGroup shm g i => ctl_group t shm g i w
      | CtlTry shm g i => ctl_try t shm g i w
      end
  end.

(** ** A polling thread *)

(** [reload]: the condition of the loop loads [live_cnt] again. *)
Definition poll_step (now : Z) (reload : bool) (p : poller) (s : TcpShmServer) (w : W)
    : outcome (poller * TcpShmServer * W) :=
  match p_pc p with
  | PollIdle =>
      grp ← get (grps s (p_shm p)) (p_grp p);
      Ret (mkPoller (p_shm p) (p_grp p) now (PollLoop (live_cnt grp) 0), s, w)
  | PollLoop cnt i =>
      grp ← get (grps s (p_shm p)) (p_grp p);
      let cnt := if reload then live_cnt grp else cnt in
      if i <? cnt then
        cid ← get (conns grp) i;
        Ret (set_pc p (PollVisit cnt i cid), s, w)
      else Ret (set_pc p PollIdle, s, w)
  | PollVisit cnt i cid =>
      conn ← get (conn_pool_ s) cid;
      '(head, conn, w) ← (if p_shm p then '(head, conn) ← ShmFront conn; Ret (head, conn, w)
                          else TcpFront conn (p_now p) w);
      s ← put_conn s cid conn;
      Ret (set_pc p (match head with Some h => PollMsg cnt i cid h | None => PollLoop cnt (i + 1) end), s, w)
  | PollMsg cnt i cid head =>
      conn ← get (conn_pool_ s) cid;
      '(conn, w) ← OnClientMsg conn head w;
      s ← put_conn s cid conn;
      Ret (set_pc p (PollLoop cnt (i + 1)), s, w)
  end.

(** ** Schedules *)

(** Whose turn it is: the control thread's, or that of the [n]th polling
    thread. *)
Inductive turn :=
  | TurnCtl (now : Z)
  | TurnPoll (n : nat) (now : Z) (reload : bool).

Definition turn_step (tn : turn) (t : threads) (w : W) : outcome (threads * W) :=
  match tn with
  | TurnCtl now => ctl_step now t w
  | TurnPoll n now reload =>
      match t_poll t !! n with
      | Some p =>
          '(p, s, w) ← poll_step now reload p (t_srv t) w;
          Ret (mkThreads s (t_ctl t) (t_now t) (t_todo t) (<[n := p]> (t_poll t)), w)
      | None => Ret (t, w)
      end
  end.

Fixpoint run_turns (l : list turn) (t : threads) (w : W) : outcome (threads * W) :=
  match l with
  | [] => Ret (t, w)
  | tn :: l => '(t, w) ← turn_step tn t w; run_turns l t w
  end.

(** Nobody is inside a function of the server. *)
Definition start_threads (s : TcpShmServer) (groups : list (bool * Z)) : threads :=
  mkThreads s CtlIdle 0 [] ((λ g, mkPoller g.1 g.2 0 PollIdle) <$> groups).
End threads.
