(* ===== verification/ServerLogon.v ===== *)
(** * A login in two parts

    [OnClientLogon] is the last call of [HandleLogin], after the stores into
    the group.  [PollCtl_new_split]: [PollCtl_new] is [PollCtl_new] with a
    callback that does nothing, then [OnClientLogon] on the connection that
    became live.  [PollCtl_new_effect]: what happens to the groups and the
    names meanwhile. *)

From stdpp Require Import gmap.
From S2P Require Import Prelude.
From S2P Require Import Arrays.
From S2P Require Import MsgHeader.
From S2P Require Import PtcpQueue.
From S2P Require Import SpscQueue.
From S2P Require Import Platform.
From S2P Require Import PtcpConn.
From S2P Require Import TcpShmConn.
From S2P Require Import Login.
From S2P Require Import Server.
From S2P Require Import Descriptors.
From S2P Require Import ServerTable.
From S2P Require Import ServerInv.
From S2P Require Import ServerThreads.

(** ** Outcomes *)

Lemma outcome_bind_assoc {A B C} (m : outcome A) (f : A → outcome B) (h : B → outcome C) :
  ((m ≫= f) ≫= h) = (m ≫= λ a, f a ≫= h).
Proof. by destruct m. Qed.

Lemma outcome_bind_ext {A B} (m : outcome A) (f h : A → outcome B) :
  (∀ a, m = Ret a → f a = h a) → (m ≫= f) = (m ≫= h).
Proof. destruct m; simpl; auto. Qed.

(** Both sides of an equation start with the same operation. *)
Ltac same_bind x :=
  rewrite ?outcome_bind_assoc; apply outcome_bind_ext; intros x ?.

(** ** Which group has grown *)

Lemma grown_same (l : list ConnectionGroup) g : grown l l g = None.
Proof. revert g. induction l as [|grp l IH]; intros g; [done|]. simpl. by rewrite Z.eqb_refl. Qed.

Lemma grown_insert (l : list ConnectionGroup) n g grp grp' :
  l !! n = Some grp → live_cnt grp' ≠ live_cnt grp →
  grown l (<[n := grp']> l) g = Some (g + Z.of_nat n).
Proof.
  revert n g. induction l as [|x l IH]; intros n g Hn Hne; [done|]. destruct n as [|n]; simpl in *.
  - injection Hn as ->. rewrite (proj2 (Z.eqb_neq _ _)) by done. f_equal. lia.
  - rewrite Z.eqb_refl, (IH _ _ Hn Hne). f_equal. lia.
Qed.

Lemma list_find_eq (l : list Z) cid i :
  l !! i = Some cid → NoDup l → list_find (λ x, x = cid) l = Some (i, cid).
Proof.
  intros Hi Hd. apply list_find_Some. split_and!; try done. intros j y Hj Hlt ->.
  pose proof (NoDup_lookup _ _ _ _ Hd Hi Hj). lia.
Qed.

Lemma list_find_in (l : list Z) cid i : l !! i = Some cid → ∃ j, list_find (λ x, x = cid) l = Some (j, cid).
Proof.
  intros Hi. destruct (list_find (λ x, x = cid) l) as [[j y]|] eqn:He.
  - apply list_find_Some in He as He'. destruct He' as (_ & -> & _). by exists j.
  - rewrite list_find_None, Forall_lookup in He. by destruct (He _ _ Hi).
Qed.

Section logon.
Context {conf : Conf} {ud : UserData} {W : Type} {os : Os W}.
Context {mmq : MmapOs W PTCPQueue} {mms : MmapOs W SPSCVarQueue}.
Context {los : LoginOs W} {user : ServerUser W}.
Context (stack_header : MsgHeader) (stack_rsp : LoginRspMsg).

Definition same_grps (s s' : TcpShmServer) : Prop := ∀ sh, grps s' sh = grps s sh.

#[export] Instance same_grps_preorder : PreOrder same_grps.
Proof. split; [by intros s sh|]. intros s1 s2 s3 H1 H2 sh. by rewrite H2. Qed.

Lemma logged_on_same s s' : same_grps s s' → logged_on s s' = None.
Proof.
  intros H. unfold logged_on. pose proof (H true) as Ht. pose proof (H false) as Hf. simpl in *.
  by rewrite Ht, Hf, !grown_same.
Qed.

(** [OnClientLogon] for the connection that became live from [s] to [s']. *)
Definition logon (s : TcpShmServer) (k : Z) (s' : TcpShmServer) (w : W) : outcome (TcpShmServer * W) :=
  match logged_on s s' with
  | None => Ret (s', w)
  | Some (shm, g) =>
      '(cid, _) ← logged_conn s s' shm g;
      conn ← get (new_conns_ s') k;
      curconn ← get (conn_pool_ s') cid;
      '(curconn, w) ← OnClientLogon (nc_addr conn) curconn w;
      s' ← put_conn s' cid curconn;
      Ret (s', w)
  end.

Lemma logon_same s k s' w : same_grps s s' → logon s k s' w = Ret (s', w).
Proof. intros H. unfold logon. by rewrite logged_on_same. Qed.

Lemma logon_start s1 s2 k s' w : same_grps s1 s2 → logon s2 k s' w = logon s1 k s' w.
Proof.
  intros H. assert (logged_on s2 s' = logged_on s1 s') as Hl.
  { unfold logged_on. pose proof (H true) as Ht. pose proof (H false) as Hf. simpl in *. by rewrite Ht, Hf. }
  unfold logon, logged_conn. rewrite Hl. destruct (logged_on s1 s') as [[shm g]|]; [|done]. by rewrite H.
Qed.

Lemma put_conn_grps s cid c s' : put_conn s cid c = Ret s' → same_grps s s'.
Proof. intros [_ ->]%put_conn_inv. by intros []. Qed.
Lemma put_new_conn_grps s k c s' : put_new_conn s k c = Ret s' → same_grps s s'.
Proof. intros [_ ->]%put_new_conn_inv. by intros []. Qed.

Lemma put_conn_id s cid c : get (conn_pool_ s) cid = Ret c → put_conn s cid c = Ret s.
Proof.
  intros Hc. pose proof (get_range _ _ _ Hc). apply get_lookup in Hc as [_ Hc].
  unfold put_conn, put. rewrite decide_True, outcome_bind_Ret, list_insert_id by done. by destruct s.
Qed.

(** The groups of [s'] are those of [s] after a login at [i] of the group
    [g], as the two stores of [swap] leave them. *)
Record login_grps (s s' : TcpShmServer) (shm : bool) (g i cid : Z) (grp : ConnectionGroup) (cs : list Z) : Prop := {
  lg_grp : get (grps s shm) g = Ret grp;
  lg_slot : get (conns grp) i = Ret cid;
  lg_swap : swap (conns grp) i (live_cnt grp) = Ret cs;
  lg_grps : same_grps (set_grps s shm (<[Z.to_nat g := mkGroup (u32 (live_cnt grp + 1)) cs]> (grps s shm))) s'
}.

Lemma swap_get {A} (l l' : list A) i j x : swap l i j = Ret l' → get l i = Ret x → get l' j = Ret x.
Proof.
  intros (_ & ? & y & z & Hy & Hz & ->)%swap_swapped [? Hx]%get_lookup. simplify_eq.
  apply get_Ret. split; [done|]. apply list_lookup_insert_eq. rewrite length_insert. by eapply lookup_lt_Some.
Qed.

Section grps.
Context {s s' : TcpShmServer} {shm : bool} {g i cid : Z} {grp : ConnectionGroup} {cs : list Z}.
Context (L : login_grps s s' shm g i cid grp cs).

Lemma logged_on_login : logged_on s s' = Some (shm, g).
Proof.
  destruct L as [[Hg0 Hg]%get_lookup _ _ HG]. pose proof (HG true) as Ht. pose proof (HG false) as Hf.
  unfold logged_on. assert (u32 (live_cnt grp + 1) ≠ live_cnt grp) as Hne by word_lia.
  destruct shm; simpl in *; rewrite Ht, Hf, ?grown_same, (grown_insert _ _ _ grp) by done; repeat f_equal; lia.
Qed.

Lemma login_grp_after : get (grps s' shm) g = Ret (mkGroup (u32 (live_cnt grp + 1)) cs).
Proof.
  destruct L as [[Hg0 Hg]%get_lookup _ _ HG]. rewrite HG.
  assert (grps (set_grps s shm (<[Z.to_nat g := mkGroup (u32 (live_cnt grp + 1)) cs]> (grps s shm))) shm =
          <[Z.to_nat g := mkGroup (u32 (live_cnt grp + 1)) cs]> (grps s shm)) as -> by by destruct shm.
  apply get_Ret. split; [done|]. apply list_lookup_insert_eq. by eapply lookup_lt_Some.
Qed.

Lemma logged_conn_login :
  ∃ j, logged_conn s s' shm g = Ret (cid, j) ∧ (NoDup (conns grp) → j = i).
Proof.
  pose proof login_grp_after as Hg'. destruct L as [Hg Hi Hsw _]. unfold logged_conn.
  rewrite Hg, outcome_bind_Ret, Hg', outcome_bind_Ret. cbn [conns].
  rewrite (swap_get _ _ _ _ _ Hsw Hi), outcome_bind_Ret. apply get_lookup in Hi as [Hi0 Hi].
  destruct (list_find_in _ _ _ Hi) as [j Hj]. rewrite Hj. exists (Z.of_nat j). split; [done|].
  intros Hd. rewrite (list_find_eq _ _ _ Hi Hd) in Hj. injection Hj as <-. lia.
Qed.
End grps.

(** ** The equation *)

(** What [HandleLogin_finish] stores when the login succeeds. *)
Lemma finish_login_grps s shm g i cid k grp nc c1 s1 s2 grp1 cs s3 :
  get (grps s shm) g = Ret grp → get (conns grp) i = Ret cid →
  put_conn s cid c1 = Ret s1 → put_new_conn s1 k nc = Ret s2 → get (grps s2 shm) g = Ret grp1 →
  swap (conns grp1) i (live_cnt grp1) = Ret cs →
  put_grp s2 shm g (mkGroup (u32 (live_cnt grp1 + 1)) cs) = Ret s3 →
  login_grps s s3 shm g i cid grp cs ∧ get (new_conns_ s3) k = Ret nc ∧ get (conn_pool_ s3) cid = Ret c1 ∧
  conn_pool_ s3 = conn_pool_ s1.
Proof.
  intros Hg Hi H1 H2 Hg1 Hcs H3. pose proof (put_conn_get _ _ _ _ H1) as Hc1.
  pose proof (put_new_conn_get _ _ _ _ H2) as Hk2.
  apply put_conn_inv in H1 as [Hr1 ->]. apply put_new_conn_inv in H2 as [Hr2 ->].
  assert (grp1 = grp) as -> by (destruct shm; simpl in *; congruence).
  unfold put_grp in H3. run H3. apply put_insert in Hrun as [Hr3 ->]. run H3.
  split_and!; [|by destruct shm|by destruct shm|by destruct shm].
  by constructor.
Qed.

Lemma HandleLogin_finish_split s shm g i cid k grp h r cc l rm now w :
  get (grps s shm) g = Ret grp → get (conns grp) i = Ret cid →
  HandleLogin_finish s shm g i cid k h r cc l rm now w =
  ('(s', w') ← HandleLogin_finish (user := no_logon) s shm g i cid k h r cc l rm now w; logon s k s' w').
Proof.
  intros Hg Hi. unfold HandleLogin_finish. same_bind nc. cbv zeta. destruct (_ || _).
  - simpl. same_bind x. destruct x as [c1 w1]. same_bind s1. symmetry. by eapply logon_same, put_conn_grps.
  - destruct (os_send_rsp _ _ _) as [sent w1]. destruct (sent_all _ _).
    + same_bind x. destruct x as [c1 w2]. same_bind s1. same_bind s2. same_bind grp1. same_bind cs. same_bind s3.
      destruct (finish_login_grps s shm g i cid k grp (set_nc_fd nc (-1)) c1 s1 s2 grp1 cs s3) as (L & Hk3 & Hc3 & _); try done.
      simpl. rewrite (put_conn_id _ _ _ Hc3), outcome_bind_Ret, outcome_bind_Ret.
      unfold logon. rewrite (logged_on_login L). destruct (logged_conn_login L) as (j & -> & _).
      by rewrite outcome_bind_Ret, Hk3, outcome_bind_Ret, Hc3, outcome_bind_Ret.
    + same_bind s1. symmetry. by eapply logon_same, put_conn_grps.
Qed.

Lemma HandleLogin_file_error_split s0 s cid k h r cc m e w :
  same_grps s0 s →
  HandleLogin_file_error s cid k h r cc m e w =
  ('(s', w') ← HandleLogin_file_error (user := no_logon) s cid k h r cc m e w; logon s0 k s' w').
Proof.
  intros H0. unfold HandleLogin_file_error. same_bind nc. simpl. same_bind x. destruct x as [c1 w1].
  same_bind s1. same_bind r1. symmetry. apply logon_same. rewrite H0. by eapply put_conn_grps.
Qed.

Lemma HandleLogin_match_split s shm g i cid k grp h r now w :
  get (grps s shm) g = Ret grp → get (conns grp) i = Ret cid →
  HandleLogin_match s shm g i cid k h r now w =
  ('(s', w') ← HandleLogin_match (user := no_logon) s shm g i cid k h r now w; logon s k s' w').
Proof.
  intros Hg Hi. unfold HandleLogin_match. same_bind nc. same_bind grp1. same_bind c. destruct (_ <? _).
  - same_bind r1. symmetry. by apply logon_same.
  - destruct (OpenFile _ _ _) as [[err cc] w1]. destruct err; [by apply HandleLogin_file_error_split|].
    destruct (negb _).
    + same_bind c1. by apply (HandleLogin_finish_split _ _ _ _ _ _ grp).
    + same_bind x. destruct x as [[] local]; [by apply (HandleLogin_finish_split _ _ _ _ _ _ grp)|].
      by apply HandleLogin_file_error_split.
Qed.

Lemma HandleLogin_scan_split n s shm g i k h r now w :
  HandleLogin_scan n s shm g i k h r now w =
  ('(s', w') ← HandleLogin_scan (user := no_logon) n s shm g i k h r now w; logon s k s' w').
Proof.
  revert s i. induction n as [|n IH]; intros s i; cbn [HandleLogin_scan]; same_bind nc.
  { same_bind r1. symmetry. by apply logon_same. }
  same_bind grp. same_bind cid. same_bind c. same_bind ch. cbv zeta. same_bind rn. same_bind s1.
  assert (same_grps s s1) as Hs by by eapply put_conn_grps. destruct (negb _).
  - rewrite IH. apply outcome_bind_ext. intros [s2 w2] _. by apply logon_start.
  - rewrite (HandleLogin_match_split _ _ _ _ _ _ grp) by (rewrite ?Hs; done).
    apply outcome_bind_ext. intros [s2 w2] _. by apply logon_start.
Qed.

Lemma HandleLogin_split s shm k now w :
  HandleLogin stack_header stack_rsp s shm k now w =
  ('(s', w') ← HandleLogin (user := no_logon) stack_header stack_rsp s shm k now w; logon s k s' w').
Proof.
  unfold HandleLogin. same_bind nc. cbv zeta. same_bind n1. same_bind e. same_bind ch. destruct (_ =? 0).
  { same_bind r1. symmetry. by apply logon_same. }
  same_bind n2. same_bind s1. assert (same_grps s s1) as Hs by by eapply put_new_conn_grps.
  simpl. destruct (OnNewConnection _ _ _ _) as [[grpid rsp] w1]. destruct (_ <? 0).
  { same_bind e1. same_bind r1. symmetry. by apply logon_same. }
  same_bind grp. rewrite HandleLogin_scan_split. apply outcome_bind_ext. intros [s2 w2] _. by apply logon_start.
Qed.
End logon.

(** ** What a login changes *)

Section effect.
Context {conf : Conf} {ud : UserData} {W : Type} {os : Os W}.
Context {mmq : MmapOs W PTCPQueue} {mms : MmapOs W SPSCVarQueue}.
Context {los : LoginOs W} {user : ServerUser W}.
Context {fv : FdView W} {laws : FdLaws W} {llaws : LoginFdLaws W}.
Context {qlaws : MmapFdLaws W PTCPQueue} {slaws : MmapFdLaws W SPSCVarQueue}.
Context {ulaws : ServerUserLaws W}.
Context (HN : 1 < NameSize).
Context (stack_header : MsgHeader) (stack_rsp : LoginRspMsg).

(** Every connection that has a name keeps it. *)
Definition names_kept (s s' : TcpShmServer) : Prop :=
  ∀ cid c, get (conn_pool_ s) cid = Ret c →
    ∃ c', get (conn_pool_ s') cid = Ret c' ∧ (conn_name c ≠ [] → conn_name c' = conn_name c).

#[export] Instance names_kept_preorder : PreOrder names_kept.
Proof.
  split; [intros s cid c; eauto|]. intros s1 s2 s3 H1 H2 cid c Hc.
  destruct (H1 _ _ Hc) as (c2 & Hc2 & Hn2). destruct (H2 _ _ Hc2) as (c3 & Hc3 & Hn3).
  exists c3. split; [done|]. intros Hne. rewrite Hn3; rewrite Hn2; done.
Qed.

Lemma names_kept_pool s s' : conn_pool_ s' = conn_pool_ s → names_kept s s'.
Proof. intros H cid c. rewrite H. eauto. Qed.

Lemma names_kept_put s cid c c' s' :
  get (conn_pool_ s) cid = Ret c → (conn_name c ≠ [] → conn_name c' = conn_name c) →
  put_conn s cid c' = Ret s' → names_kept s s'.
Proof.
  intros Hc Hn Hput cid0 c0 Hc0. pose proof (put_conn_get _ _ _ _ Hput) as Hget.
  destruct (decide (cid0 = cid)) as [->|Hne]; [exists c'; split; [done|]; rewrite Hc in Hc0; by injection Hc0 as <-|].
  exists c0. split; [|done]. apply put_conn_inv in Hput as [? ->].
  pose proof (get_range _ _ _ Hc0). apply get_lookup in Hc0 as [? Hc0]. apply get_Ret. split; [done|].
  simpl. rewrite list_lookup_insert_ne by lia. done.
Qed.

Lemma names_kept_put_kept s cid c c' s' :
  get (conn_pool_ s) cid = Ret c → conn_kept c c' → put_conn s cid c' = Ret s' → names_kept s s'.
Proof. intros Hc Hk. apply (names_kept_put _ _ c); [done|]. intros _. by apply conn_name_kept. Qed.

Definition named (s : TcpShmServer) (cid : Z) : Prop :=
  ∃ c, get (conn_pool_ s) cid = Ret c ∧ conn_name c ≠ [].

Lemma named_kept s s' cid : names_kept s s' → named s cid → named s' cid.
Proof.
  intros Hn (c & Hc & Hne). destruct (Hn _ _ Hc) as (c' & Hc' & Hn'). exists c'. split; [done|].
  by rewrite Hn'.
Qed.

(** The slots of [grp] before [i] hold connections with names. *)
Definition named_below (s : TcpShmServer) (grp : ConnectionGroup) (i : Z) : Prop :=
  ∀ j cid, 0 ≤ j < i → get (conns grp) j = Ret cid → named s cid.

Lemma named_below_kept s s' grp i : names_kept s s' → named_below s grp i → named_below s' grp i.
Proof. intros Hn Hb j cid Hj Hcid. eapply named_kept; [done|]. by eapply Hb. Qed.

Lemma named_below_next s grp i cid :
  named_below s grp i → get (conns grp) i = Ret cid → named s cid → named_below s grp (i + 1).
Proof.
  intros Hb Hi Hn j cid' Hj Hcid. destruct (decide (j = i)) as [->|]; [|apply (Hb j); [lia|done]].
  rewrite Hi in Hcid. by injection Hcid as <-.
Qed.

(** The new connection [k] was handled; a client who logs on finds only
    connections with names before its own. *)
Record login_effect (s s' : TcpShmServer) (k : Z) : Prop := {
  le_names : names_kept s s';
  le_grps : same_grps s s' ∨
    ∃ shm g i cid grp cs nc, login_grps s s' shm g i cid grp cs ∧ live_cnt grp ≤ i ∧
      get (new_conns_ s') k = Ret nc ∧ nc_fd nc = -1 ∧ named_below s' grp (i + 1)
}.

Lemma login_effect_same s s' k : names_kept s s' → same_grps s s' → login_effect s s' k.
Proof. intros H1 H2. constructor; [done|by left]. Qed.

Lemma login_effect_start s1 s2 s3 k :
  names_kept s1 s2 → same_grps s1 s2 → login_effect s2 s3 k → login_effect s1 s3 k.
Proof.
  intros Hn Hs [Hn2 Hg2]. constructor; [by etrans|].
  destruct Hg2 as [?|(shm & g & i & cid & grp & cs & nc & [Hg Hi Hsw HG] & Hr)]; [left; by etrans|right].
  exists shm, g, i, cid, grp, cs, nc. split; [|done]. rewrite Hs in Hg. constructor; try done.
  intros sh. rewrite HG. pose proof (Hs true) as H1. pose proof (Hs false) as H2. simpl in *.
  by destruct sh, shm; simpl; rewrite ?H1, ?H2.
Qed.

Lemma HandleLogin_finish_effect s shm g i cid k grp nc c h r cc l rm now w s' w' :
  login_slot s shm g i cid k grp nc c → live_cnt grp ≤ i → named_below s grp i → conn_kept c cc →
  HandleLogin_finish s shm g i cid k h r cc l rm now w = Ret (s', w') → login_effect s s' k.
Proof.
  intros [Hg Hi Hc Hk Hfd Hnm] Hlive Hbelow Hcc. unfold HandleLogin_finish. intros H.
  rewrite Hk, outcome_bind_Ret in H. cbv zeta in H. destruct (_ || _).
  - run H. destruct r0 as [c1 w1]. run H. run H. apply user_mismatch in Hrun.
    destruct (user_kept _ _ _ _ _ Hcc Hrun) as [Hk1 _].
    apply login_effect_same; [by eapply names_kept_put_kept|by eapply put_conn_grps].
  - destruct (os_send_rsp _ _ _) as [sent w1]. destruct (sent_all _ _).
    + run H. destruct r0 as [c1 w2]. apply Open_conn_fds in Hrun as (_ & _ & _ & _ & Hnm1 & _).
      run H. rename r0 into s1. run H. rename r0 into s2. run H. rename r0 into grp1. run H. rename r0 into cs.
      run H. rename r0 into s3. run H. destruct r0 as [c2 w3]. run H. run H.
      destruct (finish_login_grps s shm g i cid k grp (set_nc_fd nc (-1)) c1 s1 s2 grp1 cs s3)
        as (L & Hk3 & Hc3 & Hp3); try done.
      assert (conn_name c1 = conn_name c) as Hn1 by (unfold conn_name; by rewrite Hnm1, (ck_remote _ _ Hcc)).
      apply user_logon, user_calls_kept in Hrun4 as [Hk2 _]. pose proof (conn_name_kept _ _ Hk2) as Hn2.
      assert (names_kept s s') as Hkept.
      { transitivity s1; [by apply (names_kept_put s cid c c1)|].
        transitivity s3; [by apply names_kept_pool|]. by eapply names_kept_put_kept. }
      constructor; [done|]. right. exists shm, g, i, cid, grp, cs, (set_nc_fd nc (-1)).
      pose proof (put_conn_grps _ _ _ _ Hrun5) as Hs.
      split_and!; try done; [|by apply put_conn_inv in Hrun5 as [_ ->]|].
      * destruct L as [? ? ? HG]. constructor; try done. by etrans.
      * apply (named_below_next _ _ _ cid); [by eapply named_below_kept|done|].
        eapply named_kept; [done|]. by exists c.
    + run H. run H. apply login_effect_same; [by eapply names_kept_put_kept|by eapply put_conn_grps].
Qed.

Lemma HandleLogin_file_error_effect s cid k h r c cc m e w s' w' :
  get (conn_pool_ s) cid = Ret c → conn_kept c cc →
  HandleLogin_file_error s cid k h r cc m e w = Ret (s', w') → login_effect s s' k.
Proof.
  intros Hc Hcc. unfold HandleLogin_file_error. intros H. run H. run H. destruct r1 as [c1 w1].
  run H. run H. run H. apply user_file_error in Hrun0. destruct (user_kept _ _ _ _ _ Hcc Hrun0).
  apply login_effect_same; [by eapply names_kept_put_kept|by eapply put_conn_grps].
Qed.

Lemma HandleLogin_match_effect s shm g i cid k grp nc c h r now w s' w' :
  login_slot s shm g i cid k grp nc c → named_below s grp i →
  HandleLogin_match s shm g i cid k h r now w = Ret (s', w') → login_effect s s' k.
Proof.
  intros Hls Hbelow. pose proof Hls as [Hg Hi Hc Hk Hfd Hnm]. unfold HandleLogin_match. intros H.
  rewrite Hk, outcome_bind_Ret, Hg, outcome_bind_Ret, Hc, outcome_bind_Ret in H.
  destruct (Z.ltb_spec i (live_cnt grp)); [run H; run H; by apply login_effect_same|].
  destruct (OpenFile _ _ _) as [[err co] w1] eqn:Hopen. apply OpenFile_kept in Hopen as [Hco _].
  destruct err; [by eapply HandleLogin_file_error_effect|]. destruct (negb _).
  - run H. apply Reset_kept in Hrun. eapply HandleLogin_finish_effect; [done|done|done| |exact H]. by etrans.
  - run H. destruct r0 as [[] local]; [by eapply HandleLogin_finish_effect|].
    by eapply HandleLogin_file_error_effect.
Qed.

Lemma HandleLogin_scan_effect n : ∀ s shm g i k grp nc h r now w s' w',
  get (grps s shm) g = Ret grp → named_below s grp i →
  get (new_conns_ s) k = Ret nc → 0 ≤ nc_fd nc →
  take (Z.to_nat NameSize) (c_str (client_name (nc_login nc))) ≠ [] →
  HandleLogin_scan n s shm g i k h r now w = Ret (s', w') → login_effect s s' k.
Proof.
  induction n as [|n IH]; intros s shm g i k grp nc h r now w s' w' Hg Hbelow Hk Hfd Hcn H;
    cbn [HandleLogin_scan] in H; rewrite Hk, outcome_bind_Ret in H.
  { run H. run H. by apply login_effect_same. }
  rewrite Hg, outcome_bind_Ret in H. run H. rename r0 into cid. run H. rename r0 into c.
  run H. rename r0 into ch. cbv zeta in H. run H. rename r0 into rn. run H. rename r0 into s1.
  pose proof (first_char_name HN _ _ Hrun1) as Hch. pose proof (put_conn_grps _ _ _ _ Hrun3) as Hs1.
  pose proof (put_conn_get _ _ _ _ Hrun3) as Hc1. set (c1 := set_remote_name c rn) in *.
  assert (conn_name c1 ≠ [] ∧ (conn_name c ≠ [] → conn_name c1 = conn_name c)) as [Hne1 Hkc].
  { destruct (Z.eqb_spec ch 0) as [Hz|].
    - apply (strncpy_name HN) in Hrun2. split; [unfold conn_name; simpl; by rewrite Hrun2|].
      intros Hne. exfalso. apply Hne. by apply Hch.
    - run Hrun2. split; [|done]. intros Hnil. by apply Hch in Hnil. }
  assert (names_kept s s1) as Hn1 by by eapply (names_kept_put s cid c c1).
  assert (get (new_conns_ s1) k = Ret nc) as Hk1 by by apply put_conn_inv in Hrun3 as [_ ->].
  pose proof (named_below_kept _ _ _ _ Hn1 Hbelow) as Hb1.
  eapply login_effect_start; [done..|]. destruct (strncmp_eq _ _ _) eqn:Hcmp; simpl in H.
  - eapply (HandleLogin_match_effect s1 shm g i cid k grp nc c1); [|done|exact H].
    constructor; rewrite ?Hs1; done.
  - eapply (IH s1 shm g (i + 1) k grp); [by rewrite Hs1| |done..].
    eapply named_below_next; [done..|]. by exists c1.
Qed.

Lemma HandleLogin_effect s shm k nc now w s' w' :
  get (new_conns_ s) k = Ret nc → 0 ≤ nc_fd nc →
  HandleLogin stack_header stack_rsp s shm k now w = Ret (s', w') → login_effect s s' k.
Proof.
  intros Hk Hfd. unfold HandleLogin. intros H. rewrite Hk, outcome_bind_Ret in H.
  cbv zeta in H. run H. run H. run H. rename r1 into ch. destruct (Z.eqb_spec ch 0) as [|Hch].
  { run H. run H. by apply login_effect_same. }
  run H. rename r1 into name. run H. rename r1 into s1.
  pose proof (put_new_conn_get _ _ _ _ Hrun3) as Hk1. pose proof (put_new_conn_grps _ _ _ _ Hrun3) as Hs1.
  assert (names_kept s s1) as Hn1 by (apply names_kept_pool; by apply put_new_conn_inv in Hrun3 as [_ ->]).
  eapply login_effect_start; [done..|].
  destruct (OnNewConnection _ _ _ _) as [[grpid rsp] w1]. destruct (grpid <? 0).
  { run H. run H. run H. by apply login_effect_same. }
  run H. eapply HandleLogin_scan_effect; [done| |exact Hk1|done| |exact H].
  - intros j cid Hj. lia.
  - simpl. by eapply put_end_name.
Qed.

(** *** The loop over the new connections *)

Lemma PollCtl_close_effect s k w s' w' :
  PollCtl_close s k w = Ret (s', w') →
  same_grps s s' ∧ conn_pool_ s' = conn_pool_ s ∧
  ∀ nc, get (new_conns_ s) k = Ret nc → nc_fd nc = -1 → get (new_conns_ s') k = Ret nc.
Proof.
  unfold PollCtl_close. intros H. run H. destruct (Z.leb_spec 0 (nc_fd r)).
  - run H. run H. apply put_new_conn_inv in Hrun0 as [_ ->]. split_and!; [by intros []|done|].
    intros nc Hk ?. rewrite Hrun in Hk. injection Hk as <-. lia.
  - run H. split_and!; [by intros []|done|done].
Qed.

Lemma login_effect_close s s1 k w s' w' :
  login_effect s s1 k → PollCtl_close s1 k w = Ret (s', w') → login_effect s s' k.
Proof.
  intros [Hn Hg] (Hs & Hp & Hk)%PollCtl_close_effect.
  constructor; [etrans; [done|by apply names_kept_pool]|].
  destruct Hg as [|(shm & g & i & cid & grp & cs & nc & [] & ? & ? & ? & Hb)]; [left; by etrans|right].
  exists shm, g, i, cid, grp, cs, nc. split_and!; auto; [constructor; try done; by etrans|].
  eapply named_below_kept; [|exact Hb]. by apply names_kept_pool.
Qed.

Lemma PollCtl_login_effect s k nc now h login w s' w' :
  get (new_conns_ s) k = Ret nc → 0 ≤ nc_fd nc →
  PollCtl_login stack_header stack_rsp s k now h login w = Ret (s', w') → login_effect s s' k.
Proof.
  intros Hk Hfd. unfold PollCtl_login. intros H. rewrite Hk, outcome_bind_Ret in H. cbv zeta in H.
  destruct (_ && _); run H.
  - eapply login_effect_start; [|by eapply put_new_conn_grps|eapply HandleLogin_effect;
      [by eapply put_new_conn_get|done|exact H]].
    apply names_kept_pool. by apply put_new_conn_inv in Hrun as [_ ->].
  - run H. apply login_effect_same; [|by eapply put_new_conn_grps].
    apply names_kept_pool. by apply put_new_conn_inv in Hrun as [_ ->].
Qed.

Lemma PollCtl_new_effect s k now w s' w' :
  PollCtl_new stack_header stack_rsp s k now w = Ret (s', w') → login_effect s s' k.
Proof.
  unfold PollCtl_new. intros H. run H. rename r into nc.
  destruct (Z.ltb_spec (nc_fd nc) 0).
  { run H. apply login_effect_same; [by apply names_kept_pool|by intros []]. }
  destruct (os_recv_login _ _) as [r w1]. destruct r as [h login|n|e].
  - run H. destruct r as [s1 w2]. eapply login_effect_close; [|exact H]. by eapply PollCtl_login_effect.
  - eapply login_effect_close; [by apply login_effect_same|exact H].
  - destruct (_ && _); [run H; by apply login_effect_same|].
    eapply login_effect_close; [by apply login_effect_same|exact H].
Qed.
End effect.

Section split.
Context {conf : Conf} {ud : UserData} {W : Type} {os : Os W}.
Context {mmq : MmapOs W PTCPQueue} {mms : MmapOs W SPSCVarQueue}.
Context {los : LoginOs W} {user : ServerUser W}.
Context {fv : FdView W} {laws : FdLaws W} {llaws : LoginFdLaws W}.
Context {qlaws : MmapFdLaws W PTCPQueue} {slaws : MmapFdLaws W SPSCVarQueue}.
Context {ulaws : ServerUserLaws W}.
Context (HN : 1 < NameSize).
Context (stack_header : MsgHeader) (stack_rsp : LoginRspMsg).

#[export] Instance no_logon_laws : ServerUserLaws (H2 := no_logon) W.
Proof.
  destruct ulaws. constructor; simpl; try done. intros a c w c' w' [= <- <-]. apply calls_done.
Qed.

(** [PollCtl_close] does not touch the connection whose socket went to a
    connection of a group. *)
Lemma logon_close s k s1 w :
  login_effect s s1 k →
  ('(s', w') ← logon s k s1 w; PollCtl_close s' k w') =
  ('(s', w') ← PollCtl_close s1 k w; logon s k s' w').
Proof.
  intros [_ [Hs|(shm & g & i & cid & grp & cs & nc & L & Hlive & Hk & Hfd & Hb)]].
  - rewrite logon_same by done. simpl. destruct (PollCtl_close s1 k w) as [[s' w']| |] eqn:Hcl; [|done..].
    simpl. rewrite logon_same; [done|]. apply PollCtl_close_effect in Hcl as (? & _). by etrans.
  - destruct (Hb i cid) as (c & Hc & _); [|by destruct L|].
    { destruct L as [_ Hi _ _]. apply get_range in Hi. lia. }
    unfold PollCtl_close. rewrite Hk. simpl. rewrite Hfd. simpl. unfold logon.
    rewrite (logged_on_login L), (logged_on_login (s' := set_avail_idx s1 k) (shm := shm) (g := g) (i := i)
      (cid := cid) (grp := grp) (cs := cs)) by (destruct L; by constructor).
    change (logged_conn s (set_avail_idx s1 k) shm g) with (logged_conn s s1 shm g).
    destruct (logged_conn_login L) as (j & -> & _).
    rewrite !outcome_bind_Ret. cbn [new_conns_ set_avail_idx conn_pool_]. rewrite Hk, !outcome_bind_Ret, Hc, !outcome_bind_Ret.
    same_bind x. destruct x as [c1 w1]. unfold put_conn. cbn [conn_pool_ set_avail_idx]. same_bind l.
    simpl. rewrite Hk. simpl. by rewrite Hfd.
Qed.

Lemma PollCtl_new_split s k now w :
  PollCtl_new stack_header stack_rsp s k now w =
  ('(s', w') ← PollCtl_new (user := no_logon) stack_header stack_rsp s k now w; logon s k s' w').
Proof.
  unfold PollCtl_new. same_bind nc. destruct (Z.ltb_spec (nc_fd nc) 0) as [|Hfd].
  { symmetry. apply logon_same. by intros []. }
  assert (∀ w1, PollCtl_close s k w1 = ('(s', w') ← PollCtl_close s k w1; logon s k s' w')) as Hcl.
  { intros w1. rewrite <-logon_close by by apply login_effect_same. by rewrite logon_same. }
  destruct (os_recv_login _ _) as [r w1]. destruct r as [h login|n|e]; [|done|].
  - unfold PollCtl_login. rewrite H, !outcome_bind_Ret. cbv zeta. destruct (_ && _) eqn:Hok.
    + same_bind s1. rewrite HandleLogin_split, outcome_bind_assoc.
      apply outcome_bind_ext. intros [s2 w2] Hh. rewrite logon_start with (s1 := s) by by eapply put_new_conn_grps.
      assert (login_effect s1 s2 k) as He.
      { eapply (HandleLogin_effect (user := no_logon) HN); [by eapply put_new_conn_get| |exact Hh]. exact Hfd. }
      apply logon_close. eapply login_effect_start; [|by eapply put_new_conn_grps|exact He].
      apply names_kept_pool. by apply put_new_conn_inv in H0 as [_ ->].
    + same_bind s1. simpl. rewrite <-logon_close.
      * rewrite logon_same; [done|]. by eapply put_new_conn_grps.
      * apply login_effect_same; [|by eapply put_new_conn_grps].
        apply names_kept_pool. by apply put_new_conn_inv in H0 as [_ ->].
  - destruct (_ && _); [symmetry; by apply logon_same|done].
Qed.
End split.
