(* ===== verification/ThreadsInv.v ===== *)
(** * The invariant of the threads

    [threads_inv]: the server as the control thread will leave it, after the
    stores it is still to do ([t_todo]), satisfies [server_inv]; and every slot
    that a polling thread can load, however old the [live_cnt] it goes by,
    holds a connection of its own group that has a client's name.  The names
    and the members of a group never change while the threads run, which is
    why each turn keeps it. *)

From stdpp Require Import gmap.
From S2P Require Import Prelude.
From S2P Require Import Arrays.
From S2P Require Import MsgHeader.
From S2P Require Import PtcpQueue.
From S2P Require Import SpscQueue.
From S2P Require Import Platform.
From S2P Require Import PtcpConn.
From S2P Require Import TcpShmConn.
From S2P Require Import Login.
From S2P Require Import Server.
From S2P Require Import Descriptors.
From S2P Require Import ServerTable.
From S2P Require Import ServerInv.
From S2P Require Import ServerThreads.
From S2P Require Import ServerLogon.

Section threads.
Context {conf : Conf} {ud : UserData} {W : Type} {os : Os W}.
Context {mmq : MmapOs W PTCPQueue} {mms : MmapOs W SPSCVarQueue}.
Context {los : LoginOs W} {user : ServerUser W}.
Context {fv : FdView W} {laws : FdLaws W} {llaws : LoginFdLaws W}.
Context {qlaws : MmapFdLaws W PTCPQueue} {slaws : MmapFdLaws W SPSCVarQueue}.
Context {ulaws : ServerUserLaws W}.
Context (HN : 1 < NameSize).
Context (stack_header : MsgHeader) (stack_rsp : LoginRspMsg).

(** The members of the groups. *)
Context (M : bool → list (list Z)).

Implicit Types (s : TcpShmServer) (t : threads) (w : W).

(** [cid] is a connection of the group that a client has tried to log on as. *)
Definition visitable s (shm : bool) (g cid : Z) : Prop :=
  (∃ m, get (M shm) g = Ret m ∧ cid ∈ m) ∧ named s cid.

(** The first [n] slots of the group. *)
Definition reads_ok s (shm : bool) (g n : Z) : Prop :=
  ∀ j, 0 ≤ j < n →
    ∃ grp cid, get (grps s shm) g = Ret grp ∧ get (conns grp) j = Ret cid ∧ visitable s shm g cid.

Definition live_ok s : Prop :=
  ∀ shm g grp, get (grps s shm) g = Ret grp → reads_ok s shm g (live_cnt grp).

Definition store_ok s (st : store) : Prop :=
  match st with
  | StoreLive shm g n => reads_ok s shm g n
  | StoreSlot shm g i cid => visitable s shm g cid
  end.

Definition poller_ok s (p : poller) : Prop :=
  (∃ grp, get (grps s (p_shm p)) (p_grp p) = Ret grp) ∧
  match p_pc p with
  | PollIdle => True
  | PollLoop cnt i => 0 ≤ i ∧ reads_ok s (p_shm p) (p_grp p) cnt
  | PollVisit cnt i cid | PollMsg cnt i cid _ =>
      0 ≤ i ∧ reads_ok s (p_shm p) (p_grp p) cnt ∧ visitable s (p_shm p) (p_grp p) cid
  end.

(** Before [TryCloseFd] the connection is among the live ones. *)
Definition ctl_ok t : Prop :=
  match t_ctl t with
  | CtlTry shm g i => t_todo t = [] ∧ ∃ grp, get (grps (t_srv t) shm) g = Ret grp ∧ i < live_cnt grp
  | _ => True
  end.

(** The groups are those at the start, in another order. *)
Definition members_ok s : Prop := ∀ shm, Forall2 (≡ₚ) (conns <$> grps s shm) (M shm).

(** What the polling threads rely on. *)
Record shared_ok s (todo : list store) (polls : list poller) : Prop := {
  sh_live : live_ok s;
  sh_todo : Forall (store_ok s) todo;
  sh_polls : Forall (poller_ok s) polls
}.

Record threads_inv t w : Prop := {
  ti_server : ∃ s, do_stores (t_todo t) (t_srv t) = Ret s ∧ server_inv s w ∧ members_ok s;
  ti_ctl : ctl_ok t;
  ti_shared : shared_ok (t_srv t) (t_todo t) (t_poll t)
}.

(** ** What keeps the slots *)

Lemma visitable_kept s s' shm g cid : names_kept s s' → visitable s shm g cid → visitable s' shm g cid.
Proof. intros Hn [Hm Hc]. split; [done|]. by eapply named_kept. Qed.

Lemma reads_kept s s' shm g n : names_kept s s' → same_grps s s' → reads_ok s shm g n → reads_ok s' shm g n.
Proof.
  intros Hn Hs Hr j Hj. destruct (Hr j Hj) as (grp & cid & Hg & Hi & Hv). exists grp, cid. rewrite Hs.
  split_and!; try done. by eapply visitable_kept.
Qed.

Lemma store_kept s s' st : names_kept s s' → same_grps s s' → store_ok s st → store_ok s' st.
Proof. destruct st; simpl; eauto using visitable_kept, reads_kept. Qed.

Lemma poller_kept s s' p : names_kept s s' → same_grps s s' → poller_ok s p → poller_ok s' p.
Proof.
  intros Hn Hs [Hg Hp]. split; [by rewrite Hs|].
  destruct (p_pc p); intuition eauto using visitable_kept, reads_kept.
Qed.

Lemma shared_kept s s' todo polls :
  names_kept s s' → same_grps s s' → shared_ok s todo polls → shared_ok s' todo polls.
Proof.
  intros Hn Hs [Hl Ht Hp]. constructor.
  - intros shm g grp Hg. rewrite Hs in Hg. eapply reads_kept; [done|done|by apply Hl].
  - eapply Forall_impl; [exact Ht|]. intros st. by apply store_kept.
  - eapply Forall_impl; [exact Hp|]. intros p. by apply poller_kept.
Qed.

(** ** One store *)

Lemma do_store_pool st s s' : do_store st s = Ret s' → conn_pool_ s' = conn_pool_ s.
Proof.
  destruct st as [shm g n|shm g i cid]; simpl; intros H; run H.
  - by apply put_grp_inv in H as (_ & ? & _).
  - run H. by apply put_grp_inv in H as (_ & ? & _).
Qed.

Lemma put_grp_get s shm g grp s' :
  put_grp s shm g grp = Ret s' →
  ∀ shm' g', get (grps s' shm') g' = if decide (shm' = shm ∧ g' = g) then Ret grp else get (grps s shm') g'.
Proof.
  unfold put_grp. intros H. run H. apply put_insert in Hrun as [Hr ->]. run H. intros shm' g'.
  destruct (decide (shm' = shm)) as [->|Hne].
  - assert (grps (set_grps s shm (<[Z.to_nat g := grp]> (grps s shm))) shm = <[Z.to_nat g := grp]> (grps s shm)) as ->
      by by destruct shm.
    destruct (decide (g' = g)) as [->|Hg].
    + rewrite decide_True by done. apply get_Ret. split; [lia|]. apply list_lookup_insert_eq. unfold zlen in *. lia.
    + rewrite decide_False by by intros []. unfold get. case_decide; [|done].
      rewrite list_lookup_insert_ne by lia. done.
  - rewrite decide_False by by intros []. by destruct shm, shm'.
Qed.

(** A store changes one slot to a connection that may be visited, or no slot. *)
Lemma store_slots st s s' shm g grp :
  store_ok s st → do_store st s = Ret s' → get (grps s shm) g = Ret grp →
  ∃ grp', get (grps s' shm) g = Ret grp' ∧
    ∀ j cid, get (conns grp) j = Ret cid →
      get (conns grp') j = Ret cid ∨ ∃ cid', get (conns grp') j = Ret cid' ∧ visitable s shm g cid'.
Proof.
  intros Hok H Hg. destruct st as [shm0 g0 n|shm0 g0 i cid0]; simpl in *; run H.
  - pose proof (put_grp_get _ _ _ _ _ H shm g) as Hg'. case_decide as Hd.
    + destruct Hd as [-> ->]. rewrite Hg in Hrun. injection Hrun as <-. eexists. split; [done|]. by left.
    + rewrite Hg in Hg'. exists grp. split; [done|]. by left.
  - run H. pose proof (put_grp_get _ _ _ _ _ H shm g) as Hg'. case_decide as Hd.
    + destruct Hd as [-> ->]. rewrite Hg in Hrun. injection Hrun as <-. eexists. split; [done|]. simpl.
      apply put_insert in Hrun0 as [Hr ->]. intros j cid Hj. apply get_lookup in Hj as [Hj0 Hj].
      destruct (decide (j = i)) as [->|Hne]; [right; exists cid0|left]; [split; [|done]|]; apply get_Ret.
      * split; [done|]. apply list_lookup_insert_eq. unfold zlen in *. lia.
      * split; [done|]. rewrite list_lookup_insert_ne by lia. done.
    + rewrite Hg in Hg'. exists grp. split; [done|]. by left.
Qed.

Lemma reads_store st s s' shm g n :
  store_ok s st → do_store st s = Ret s' → reads_ok s shm g n → reads_ok s' shm g n.
Proof.
  intros Hok H Hr j Hj. destruct (Hr j Hj) as (grp & cid & Hg & Hi & Hv).
  pose proof (names_kept_pool _ _ (do_store_pool _ _ _ H)) as Hn.
  destruct (store_slots _ _ _ _ _ _ Hok H Hg) as (grp' & Hg' & Hsl).
  destruct (Hsl _ _ Hi) as [?|(cid' & ? & ?)]; [exists grp', cid|exists grp', cid'];
    (split_and!; [done|done|by eapply visitable_kept]).
Qed.

(** [live_cnt] after a store. *)
Lemma store_live st s s' shm g grp' :
  do_store st s = Ret s' → get (grps s' shm) g = Ret grp' →
  (∃ grp, get (grps s shm) g = Ret grp ∧ live_cnt grp' = live_cnt grp) ∨ st = StoreLive shm g (live_cnt grp').
Proof.
  intros H Hg. destruct st as [shm0 g0 n|shm0 g0 i cid0]; simpl in *; run H.
  - rewrite (put_grp_get _ _ _ _ _ H) in Hg. case_decide as Hd; [|left; by exists grp'].
    destruct Hd as [-> ->]. injection Hg as <-. by right.
  - run H. rewrite (put_grp_get _ _ _ _ _ H) in Hg. case_decide as Hd; [|left; by exists grp'].
    destruct Hd as [-> ->]. injection Hg as <-. left. by exists r.
Qed.

Lemma shared_store st l s s' polls :
  do_store st s = Ret s' → shared_ok s (st :: l) polls → shared_ok s' l polls.
Proof.
  intros H [Hl [Hst Ht]%Forall_cons Hp].
  pose proof (names_kept_pool _ _ (do_store_pool _ _ _ H)) as Hn.
  assert (∀ shm g n, reads_ok s shm g n → reads_ok s' shm g n) as Hr by (intros *; by eapply reads_store).
  constructor.
  - intros shm g grp' Hg. destruct (store_live _ _ _ _ _ _ H Hg) as [(grp & Hg0 & ->)| ->]; [by apply Hr, Hl|].
    by apply Hr.
  - eapply Forall_impl; [exact Ht|]. intros [] ?; simpl in *; [by apply Hr|by eapply visitable_kept].
  - eapply Forall_impl; [exact Hp|]. intros p [[grp Hg] Hpc]. split.
    + destruct (store_slots _ _ _ _ _ _ Hst H Hg) as (grp' & ? & _). by exists grp'.
    + destruct (p_pc p); intuition eauto using visitable_kept.
Qed.

(** ** Stores and the pool *)

Lemma do_store_set_pool st s P :
  do_store st (set_conn_pool s P) = (s' ← do_store st s; Ret (set_conn_pool s' P)).
Proof.
  assert (∀ s0 shm g grp, put_grp (set_conn_pool s0 P) shm g grp = (s' ← put_grp s0 shm g grp; Ret (set_conn_pool s' P))) as Hput.
  { intros s0 shm g grp. unfold put_grp. destruct shm; simpl; by destruct (put _ _ _). }
  destruct st as [shm g n|shm g i cid]; simpl.
  - assert (grps (set_conn_pool s P) shm = grps s shm) as -> by by destruct shm.
    destruct (get _ _); simpl; [apply Hput|done..].
  - assert (grps (set_conn_pool s P) shm = grps s shm) as -> by by destruct shm.
    destruct (get _ _); simpl; [|done..]. destruct (put _ _ _); simpl; [apply Hput|done..].
Qed.

Lemma do_stores_set_pool l s P :
  do_stores l (set_conn_pool s P) = (s' ← do_stores l s; Ret (set_conn_pool s' P)).
Proof.
  revert s. induction l as [|st l IH]; intros s; [done|]. simpl. rewrite do_store_set_pool.
  destruct (do_store st s); simpl; [apply IH|done..].
Qed.

Lemma do_stores_pool l s s' : do_stores l s = Ret s' → conn_pool_ s' = conn_pool_ s.
Proof.
  revert s. induction l as [|st l IH]; intros s H; simpl in H; [by run H|]. run H.
  rewrite (IH _ H). by eapply do_store_pool.
Qed.

(** Putting back a connection while stores are to be done. *)
Lemma put_conn_stores l s s' cid c s1 :
  do_stores l s = Ret s' → put_conn s cid c = Ret s1 →
  ∃ s1', do_stores l s1 = Ret s1' ∧ put_conn s' cid c = Ret s1'.
Proof.
  intros Hl H. pose proof (do_stores_pool _ _ _ Hl) as Hp. unfold put_conn in *. rewrite Hp. run H. run H.
  rewrite do_stores_set_pool, Hl, Hrun. by eexists.
Qed.

(** ** The turns *)

(** A call on a connection, by whatever thread. *)
Lemma inv_conn_call t w cid c c' s' w' pc polls :
  threads_inv t w → get (conn_pool_ (t_srv t)) cid = Ret c → conn_kept c c' →
  put_conn (t_srv t) cid c' = Ret s' → open_fds w' = open_fds w →
  (∀ s1, names_kept (t_srv t) s1 → same_grps (t_srv t) s1 → Forall (poller_ok s1) polls) →
  ctl_ok (mkThreads (t_srv t) pc (t_now t) (t_todo t) polls) →
  threads_inv (mkThreads s' pc (t_now t) (t_todo t) polls) w'.
Proof.
  intros [(s & Hst & Hinv & Hm) _ Hsh] Hc Hk Hput Hw Hp Hpc.
  destruct (put_conn_stores _ _ _ _ _ _ Hst Hput) as (s1 & Hst1 & Hput1).
  pose proof (names_kept_put_kept _ _ _ _ _ Hc Hk Hput) as Hn. pose proof (put_conn_grps _ _ _ _ Hput) as Hs.
  constructor; simpl.
  - exists s1. split; [done|]. split.
    + eapply inv_world; [|exact Hw]. eapply inv_put_conn; [done| |exact Hk|done].
      by rewrite (do_stores_pool _ _ _ Hst).
    + intros shm. by rewrite (put_conn_grps _ _ _ _ Hput1).
  - unfold ctl_ok in *. simpl in *. destruct pc; try done. by rewrite Hs.
  - destruct (shared_kept _ _ _ _ Hn Hs Hsh). constructor; auto.
Qed.

(** The slots of a group whose logical state is known. *)
Lemma reads_named s s1 shm g grp n :
  members_ok s → get (grps s shm) g = Ret grp → same_grps s s1 → named_below s1 grp n → n ≤ zlen (conns grp) →
  reads_ok s1 shm g n.
Proof.
  intros Hm Hg Hs Hb Hn j Hj. destruct (get_in_range (conns grp) j) as [cid Hi]; [lia|]. exists grp, cid.
  rewrite Hs. split_and!; try done. split; [|by eapply Hb]. apply get_lookup in Hg as [Hg0 Hg].
  assert ((conns <$> grps s shm) !! Z.to_nat g = Some (conns grp)) as Hl by by rewrite list_lookup_fmap, Hg.
  destruct (Forall2_lookup_l _ _ _ _ _ (Hm shm) Hl) as (m & Hmm & HP). exists m. split; [by apply get_Ret|].
  rewrite <-HP. apply get_lookup in Hi as [_ Hi]. by eapply list_elem_of_lookup_2.
Qed.

(** The live connections have names. *)
Lemma live_named s w shm g grp :
  server_inv s w → get (grps s shm) g = Ret grp →
  0 ≤ live_cnt grp ≤ zlen (conns grp) ∧ zlen (conns grp) < 4294967296 ∧ named_below s grp (live_cnt grp).
Proof.
  intros Hinv Hg%grps_lookup. pose proof (inv_table _ _ Hinv) as Ht.
  pose proof (t_groups _ _ Ht) as Hf. rewrite Forall_lookup in Hf. destruct (Hf _ _ Hg) as (Hz & row & Hrow & Hok).
  pose proof (r_live _ _ Hok). pose proof (Forall2_length _ _ _ Hrow).
  split; [unfold zlen in *; lia|]. split; [done|]. intros j cid Hj [_ Hi]%get_lookup.
  destruct (Forall2_lookup_l _ _ _ _ _ Hrow Hi) as (c & Hc & Hget). exists c. split; [done|].
  pose proof (r_state _ _ Hok _ _ Hc) as Hst. rewrite (proj2 (Z.ltb_lt _ _)) in Hst by lia. by destruct Hst.
Qed.

Lemma inv_live_ok s w : server_inv s w → members_ok s → live_ok s.
Proof.
  intros Hinv Hm shm g grp Hg. destruct (live_named _ _ _ _ _ Hinv Hg) as (? & _ & Hb).
  apply (reads_named s s _ _ grp); [done..|lia].
Qed.

(** The control thread with nothing left to store. *)
Lemma inv_ctl_at t w s w' pc :
  threads_inv t w → server_inv s w' → members_ok s → names_kept (t_srv t) s → same_grps (t_srv t) s →
  match pc with
  | CtlTry shm g i => ∃ grp, get (grps s shm) g = Ret grp ∧ i < live_cnt grp
  | _ => True
  end →
  threads_inv (ctl_at t s pc) w'.
Proof.
  intros [_ _ Hsh] Hinv Hm Hn Hs Hpc. constructor.
  - by exists s.
  - unfold ctl_ok. simpl. by destruct pc.
  - destruct (shared_kept _ _ _ _ Hn Hs Hsh). by constructor.
Qed.

(** ... and with the stores [l], which lead to [s1]. *)
Lemma inv_ctl_stores t w s w' pc l s1 now :
  threads_inv t w → do_stores l s = Ret s1 → server_inv s1 w' → members_ok s1 →
  names_kept (t_srv t) s → same_grps (t_srv t) s → Forall (store_ok s) l →
  match pc with CtlTry _ _ _ => False | _ => True end →
  threads_inv (mkThreads s pc now l (t_poll t)) w'.
Proof.
  intros [_ _ Hsh] Hl Hinv Hm Hn Hs Hst Hpc. constructor; simpl.
  - by exists s1.
  - unfold ctl_ok. simpl. by destruct pc.
  - destruct (shared_kept _ _ _ _ Hn Hs Hsh). by constructor.
Qed.

(** ** The stores of a login and of a logout *)

Lemma put_grp_twice s shm g a b s1 : put_grp s shm g a = Ret s1 → put_grp s1 shm g b = put_grp s shm g b.
Proof.
  unfold put_grp. intros H. run H. apply put_insert in Hrun as [Hr ->]. run H.
  assert (grps (set_grps s shm (<[Z.to_nat g:=a]> (grps s shm))) shm = <[Z.to_nat g:=a]> (grps s shm)) as ->
    by by destruct shm.
  unfold put. unfold zlen in *. rewrite length_insert, !decide_True, list_insert_insert_eq by lia.
  by destruct shm.
Qed.

Lemma put_grp_same s shm g grp s1 : put_grp s shm g grp = Ret s1 → get (grps s1 shm) g = Ret grp.
Proof. intros H. rewrite (put_grp_get _ _ _ _ _ H). by rewrite decide_True. Qed.

Lemma put_grp_ok s shm g grp grp' : get (grps s shm) g = Ret grp → ∃ s1, put_grp s shm g grp' = Ret s1.
Proof. intros Hg%get_range. unfold put_grp. rewrite put_in_range by done. by eexists. Qed.

Lemma swap_stores_run s shm g grp n i j l cs :
  get (grps s shm) g = Ret grp → swap_stores shm g (conns grp) i j = Ret l → swap (conns grp) i j = Ret cs →
  do_stores (StoreLive shm g n :: l) s = put_grp s shm g (mkGroup n cs).
Proof.
  intros Hg Hl Hsw. unfold swap_stores in Hl. run Hl. run Hl. run Hl. unfold swap in Hsw.
  rewrite Hrun, outcome_bind_Ret, Hrun0, outcome_bind_Ret in Hsw. run Hsw. simpl.
  rewrite Hg, outcome_bind_Ret. destruct (put_grp_ok s shm g grp (mkGroup n (conns grp)) Hg) as [s1 H1].
  rewrite H1, outcome_bind_Ret, (put_grp_same _ _ _ _ _ H1), outcome_bind_Ret. simpl. rewrite Hrun1, outcome_bind_Ret.
  rewrite (put_grp_twice _ _ _ _ _ _ H1). destruct (put_grp_ok s shm g grp (mkGroup n r1) Hg) as [s2 H2].
  rewrite H2, outcome_bind_Ret, (put_grp_same _ _ _ _ _ H2), outcome_bind_Ret. simpl. rewrite Hsw, outcome_bind_Ret.
  rewrite (put_grp_twice _ _ _ _ _ _ H2). by destruct (put_grp s shm g (mkGroup n cs)).
Qed.

(** The stores of a logout lead from the group to the one [remove_live] makes. *)
Lemma logout_stores_swap s shm g i grp l :
  get (grps s shm) g = Ret grp → logout_stores shm g i grp = Ret l → 0 < live_cnt grp < 4294967296 →
  ∃ cs l0, swap_stores shm g (conns grp) i (live_cnt grp - 1) = Ret l0 ∧ l = StoreLive shm g (live_cnt grp - 1) :: l0 ∧
    swap (conns grp) i (live_cnt grp - 1) = Ret cs ∧ remove_live grp i = Ret (mkGroup (live_cnt grp - 1) cs) ∧
    do_stores l s = put_grp s shm g (mkGroup (live_cnt grp - 1) cs).
Proof.
  intros Hg Hl Hr. unfold logout_stores in Hl. rewrite u32_small in Hl by lia. run Hl. rename Hrun into Hsl. run Hl.
  assert (∃ cs, swap (conns grp) i (live_cnt grp - 1) = Ret cs) as [cs Hsw].
  { pose proof Hsl as Hx. unfold swap_stores in Hx. run Hx. run Hx. unfold swap. rewrite Hrun, outcome_bind_Ret, Hrun0, outcome_bind_Ret.
    apply get_range in Hrun, Hrun0. rewrite (put_in_range (conns grp) i), outcome_bind_Ret by lia.
    rewrite put_in_range; [by eexists|]. rewrite blit_zlen; unfold zlen in *; simpl; lia. }
  exists cs, r. split_and!; [done|done|done| |by eapply swap_stores_run].
  unfold remove_live. rewrite u32_small by lia. by rewrite Hsw.
Qed.

(** Both slots are read before the stores. *)
Lemma swap_stores_ok s shm g cs i j l :
  swap_stores shm g cs i j = Ret l →
  (∀ cid, get cs i = Ret cid → visitable s shm g cid) → (∀ cid, get cs j = Ret cid → visitable s shm g cid) →
  Forall (store_ok s) l.
Proof. unfold swap_stores. intros H Hi Hj. run H. run H. run H. apply Forall_cons. split; [by apply Hj|]. apply Forall_cons. split; [by apply Hi|constructor]. Qed.

Lemma reads_visitable s shm g grp n j cid :
  reads_ok s shm g n → get (grps s shm) g = Ret grp → 0 ≤ j < n → get (conns grp) j = Ret cid →
  visitable s shm g cid.
Proof.
  intros Hr Hg Hj Hi. destruct (Hr j Hj) as (grp' & cid' & Hg' & Hi' & Hv). rewrite Hg in Hg'.
  injection Hg' as <-. rewrite Hi in Hi'. by injection Hi' as <-.
Qed.

(** The members stay when a group is permuted. *)
Lemma members_put s shm g grp n cs s' :
  members_ok s → get (grps s shm) g = Ret grp → cs ≡ₚ conns grp → put_grp s shm g (mkGroup n cs) = Ret s' →
  members_ok s'.
Proof.
  intros Hm Hg Hcs Hput shm'. unfold put_grp in Hput. run Hput. apply put_insert in Hrun as [Hr ->]. run Hput.
  destruct (decide (shm' = shm)) as [->|Hne]; [|specialize (Hm shm'); by destruct shm, shm'].
  assert (grps (set_grps s shm (<[Z.to_nat g:=mkGroup n cs]> (grps s shm))) shm =
          <[Z.to_nat g:=mkGroup n cs]> (grps s shm)) as -> by by destruct shm.
  rewrite list_fmap_insert. simpl. apply get_lookup in Hg as [_ Hg].
  assert ((conns <$> grps s shm) !! Z.to_nat g = Some (conns grp)) as Hl by by rewrite list_lookup_fmap, Hg.
  destruct (Forall2_lookup_l _ _ _ _ _ (Hm shm) Hl) as (m & Hmm & HP).
  rewrite <-(list_insert_id (M shm) (Z.to_nat g) m Hmm). apply Forall2_insert; [apply Hm|]. by rewrite Hcs.
Qed.

(** ** The control thread *)

Lemma PollCtl_accept_same s now w s' w' :
  PollCtl_accept s now w = Ret (s', w') → conn_pool_ s' = conn_pool_ s ∧ same_grps s s'.
Proof.
  unfold PollCtl_accept. destruct (_ =? _); intros H; [by run H|]. run H.
  destruct (os_accept _ _) as [[[fd addr]|e] w1].
  - run H. run H. apply put_new_conn_inv in Hrun0 as [_ ->]. split; [done|by intros []].
  - run H. run H. apply put_new_conn_inv in Hrun0 as [_ ->]. split; [done|by intros []].
Qed.

Lemma same_members s s' : same_grps s s' → members_ok s → members_ok s'.
Proof. intros Hs Hm shm. by rewrite Hs. Qed.

(** The state when nothing is left to store. *)
Lemma inv_no_todo t w : threads_inv t w → t_todo t = [] → server_inv (t_srv t) w ∧ members_ok (t_srv t).
Proof. intros [(s & Hst & Hinv & Hm) _ _] Ht. rewrite Ht in Hst. simpl in Hst. by injection Hst as <-. Qed.

Lemma set_grps_back s s' shm G : same_grps (set_grps s shm G) s' →
  set_grps (set_grps s' shm (grps s shm)) shm G = s'.
Proof. intros H. pose proof (H true) as Ht. pose proof (H false) as Hf. destruct shm, s'; simpl in *; by subst. Qed.

Lemma set_grps_same s s' shm G : same_grps (set_grps s shm G) s' → same_grps s (set_grps s' shm (grps s shm)).
Proof. intros H sh. specialize (H sh). by destruct sh, shm. Qed.

(** The stores of a login lead from the groups before it to those after. *)
Lemma login_stores_run s s' shm g i cid grp cs :
  login_grps s s' shm g i cid grp cs →
  ∃ l, swap_stores shm g (conns grp) i (live_cnt grp) = Ret l ∧
    login_stores shm g i grp = Ret (StoreLive shm g (u32 (live_cnt grp + 1)) :: l) ∧
    do_stores (StoreLive shm g (u32 (live_cnt grp + 1)) :: l) (set_grps s' shm (grps s shm)) = Ret s' ∧
    put_grp (set_grps s' shm (grps s shm)) shm g (mkGroup (u32 (live_cnt grp + 1)) cs) = Ret s'.
Proof.
  intros [Hg Hi Hsw HG]. set (s1 := set_grps s' shm (grps s shm)).
  assert (same_grps s s1) as Hs1 by by eapply set_grps_same.
  assert (get (grps s1 shm) g = Ret grp) as Hg1 by by rewrite Hs1.
  assert (put_grp s1 shm g (mkGroup (u32 (live_cnt grp + 1)) cs) = Ret s') as Hput.
  { unfold put_grp. unfold put. rewrite decide_True by by apply get_range in Hg1. rewrite outcome_bind_Ret. f_equal.
    rewrite Hs1. by apply (set_grps_back s). }
  destruct (swap_stores shm g (conns grp) i (live_cnt grp)) as [l| |] eqn:Hl;
    [|exfalso; unfold swap, swap_stores in *; destruct (get (conns grp) i); simpl in *; [|done..];
      by destruct (get (conns grp) (live_cnt grp))..].
  exists l. unfold login_stores. rewrite Hl. split_and!; try done.
  by rewrite (swap_stores_run _ _ _ _ _ _ _ _ _ Hg1 Hl Hsw).
Qed.

(** The index that [ctl_new] finds is that of the login. *)
Lemma logged_conn_inv s w s' shm g i cid grp cs :
  server_inv s w → login_grps s s' shm g i cid grp cs → logged_conn s s' shm g = Ret (cid, i).
Proof.
  intros Hinv L. destruct (logged_conn_login L) as (j & -> & Hj). rewrite Hj; [done|].
  destruct L as [Hg%grps_lookup _ _ _]. by eapply table_grp_NoDup; [by eapply inv_table|].
Qed.

Lemma ctl_new_inv t k w t' w' :
  threads_inv t w → t_todo t = [] → ctl_new stack_header stack_rsp t k w = Ret (t', w') → threads_inv t' w'.
Proof.
  intros Ht Hto. destruct (inv_no_todo _ _ Ht Hto) as [Hinv Hm]. set (s := t_srv t) in *.
  unfold ctl_new. fold s. intros H. run H. destruct r as [s' w1].
  pose proof (PollCtl_new_inv (user := no_logon) HN _ _ _ _ _ _ _ _ Hinv Hrun) as Hinv'.
  pose proof (PollCtl_new_effect (user := no_logon) HN _ _ _ _ _ _ _ _ Hrun) as [Hn Hg].
  destruct Hg as [Hs|(shm & g & i & cid & grp & cs & nc & L & Hlive & Hk & Hfd & Hb)].
  { rewrite logged_on_same in H by done. run H. eapply inv_ctl_at; try done. by eapply same_members. }
  rewrite (logged_on_login L), (logged_conn_inv _ _ _ _ _ _ _ _ _ Hinv L), outcome_bind_Ret in H.
  destruct (login_stores_run _ _ _ _ _ _ _ _ L) as (l & Hl & Hls & Hrl & Hput).
  destruct L as [Hg Hi Hsw HG]. rewrite Hk, outcome_bind_Ret, Hg, outcome_bind_Ret, Hls, outcome_bind_Ret in H. run H.
  set (s1 := set_grps s' shm (grps s shm)) in *.
  assert (same_grps s s1) as Hs1 by by eapply set_grps_same.
  assert (get (grps s1 shm) g = Ret grp) as Hg1 by by rewrite Hs1.
  destruct (live_named _ _ _ _ _ Hinv Hg) as (Hl0 & Hz & _). pose proof (get_range _ _ _ Hi) as Hir.
  assert (reads_ok s1 shm g (i + 1)) as Hreads by (eapply reads_named; [done|done|done|done|lia]).
  eapply (inv_ctl_stores _ _ s1 _ _ _ s' _ Ht); try done.
  - eapply members_put; [by eapply same_members|exact Hg1| |exact Hput].
    apply swap_swapped in Hsw as (_ & _ & Hsw). by eapply swapped_perm.
  - constructor; [rewrite u32_small by lia; intros q ?; apply Hreads; lia|].
    eapply swap_stores_ok; [exact Hl| |]; intros cid' Hcid';
      (eapply reads_visitable; [exact Hreads|exact Hg1| |exact Hcid']; lia).
Qed.

Lemma ctl_group_inv t shm g i w t' w' :
  threads_inv t w → t_todo t = [] → ctl_group t shm g i w = Ret (t', w') → threads_inv t' w'.
Proof.
  intros Ht Hto. destruct (inv_no_todo _ _ Ht Hto) as [Hinv Hm]. unfold ctl_group.
  destruct (_ <? zlen _); [|intros H; run H; eapply inv_ctl_at; try done; by destruct shm].
  intros H. run H. rename r into grp. destruct (Z.ltb_spec i (live_cnt grp)) as [Hi|]; [|run H; by eapply inv_ctl_at].
  destruct shm; [|run H; eapply inv_ctl_at; try done; by exists grp].
  run H. rename r into cid. run H. rename r into c. run H. destruct r as [[p c1] w1]. run H. run H.
  apply TcpFront_kept in Hrun2 as [Hk Hw].
  pose proof (put_conn_grps _ _ _ _ Hrun3) as Hs.
  eapply inv_ctl_at; try done.
  - eapply inv_world; [|exact Hw]. by eapply inv_put_conn.
  - by eapply same_members.
  - by eapply names_kept_put_kept.
  - exists grp. by rewrite Hs.
Qed.

Lemma ctl_try_inv t shm g i w t' w' :
  threads_inv t w → t_ctl t = CtlTry shm g i → ctl_try t shm g i w = Ret (t', w') → threads_inv t' w'.
Proof.
  intros Ht Hpc. pose proof (ti_ctl _ _ Ht) as Hc. unfold ctl_ok in Hc. rewrite Hpc in Hc.
  destruct Hc as (Hto & grp & Hg & Hlive). destruct (inv_no_todo _ _ Ht Hto) as [Hinv Hm].
  set (s := t_srv t) in *. unfold ctl_try. fold s. intros H. rewrite Hg, outcome_bind_Ret in H.
  run H. rename r into cid. run H. rename r into c.
  destruct (TryCloseFd c w) as [[closed c2] w2] eqn:Htry.
  apply TryCloseFd_conn_fds in Htry as (Hso & Hln & Hrn & Hd & Hfd). destruct closed.
  - destruct Hfd as (Hneg & Hpos & Hfd2 & Hw2). destruct (GetCloseReason c2) as [reason e].
    run H. destruct r as [c3 w3]. apply user_disconnected, user_calls_kept in Hrun1 as [Hk3 Hw3].
    run H. rename r into s1, Hrun1 into Hput1. run H. rename r into l, Hrun1 into Hl0. run H.
    pose proof (put_conn_grps _ _ _ _ Hput1) as Hs.
    assert (get (grps s1 shm) g = Ret grp) as Hg1 by by rewrite Hs.
    destruct (live_named _ _ _ _ _ Hinv Hg) as (Hl & Hz & Hb). pose proof (get_range _ _ _ Hrun) as Hir.
    destruct (logout_stores_swap _ _ _ _ _ _ Hg1 Hl0) as (cs & l0 & Hsl & -> & Hsw & Hrm & Hst); [lia|].
    set (grp' := mkGroup (live_cnt grp - 1) cs) in *.
    destruct (put_grp_ok s1 shm g grp grp' Hg1) as [s2 Hput].
    destruct Hk3 as [_ Hr3 _ [Hf3 Hs3]].
    assert (conn_name c3 = conn_name c) as Hnm by (unfold conn_name; by rewrite Hr3, Hrn).
    assert (names_kept s s1) as Hn by by apply (names_kept_put s cid c c3).
    assert (reads_ok s1 shm g (live_cnt grp)) as Hreads.
    { eapply (reads_named s s1); try done; [by eapply named_below_kept|lia]. }
    eapply (inv_ctl_stores _ _ s1 _ _ _ s2 _ Ht); try done.
    + by rewrite Hst.
    + eapply (inv_logout s w w' shm g grp grp' i cid c c3); try done; try lia. by rewrite Hw3, Hw2.
    + eapply members_put; [by eapply same_members|exact Hg1| |exact Hput].
      apply swap_swapped in Hsw as (_ & _ & Hsw). by eapply swapped_perm.
    + constructor; [intros q ?; apply Hreads; lia|].
      eapply swap_stores_ok; [exact Hsl| |]; intros cid' Hcid'; (eapply reads_visitable; [exact Hreads|exact Hg1| |exact Hcid']; lia).
  - destruct Hfd as (_ & Hfd2 & ->). run H. rename r into s1. run H.
    assert (conn_kept c c2) as Hk by (constructor; try done; split; [done|by left]).
    eapply inv_ctl_at; try done.
    + by eapply inv_put_conn.
    + by eapply same_members; [eapply put_conn_grps|].
    + by eapply names_kept_put_kept.
    + by eapply put_conn_grps.
Qed.

Lemma ctl_step_inv now t w t' w' :
  threads_inv t w → ctl_step stack_header stack_rsp now t w = Ret (t', w') → threads_inv t' w'.
Proof.
  intros Ht. unfold ctl_step. destruct (t_todo t) as [|st l] eqn:Hto.
  - destruct (inv_no_todo _ _ Ht Hto) as [Hinv Hm]. destruct (t_ctl t) as [|k|k addr cid|shm g i|shm g i] eqn:Hpc.
    + intros H. run H. destruct r as [s1 w1]. run H.
      pose proof (PollCtl_accept_same _ _ _ _ _ Hrun) as [Hp Hs].
      eapply (inv_ctl_stores _ _ s1 _ _ [] s1 _ Ht); try done.
      * by eapply PollCtl_accept_inv.
      * by eapply same_members.
      * by apply names_kept_pool.
    + destruct (_ <? _); [by apply ctl_new_inv|]. intros H. run H. by eapply inv_ctl_at.
    + intros H. run H. run H. destruct r0 as [c1 w1]. run H. run H.
      apply user_logon, user_calls_kept in Hrun0 as [Hk Hw].
      pose proof (put_conn_grps _ _ _ _ Hrun1) as Hs. eapply inv_ctl_at; try done.
      * eapply inv_world; [|exact Hw]. by eapply inv_put_conn.
      * by eapply same_members.
      * by eapply names_kept_put_kept.
    + by apply ctl_group_inv.
    + by apply ctl_try_inv.
  - intros H. run H. run H. destruct Ht as [(s & Hst & Hinv & Hm) Hpc Hsh]. rewrite Hto in *.
    simpl in Hst. rewrite Hrun, outcome_bind_Ret in Hst. constructor; simpl.
    + by exists s.
    + revert Hpc. unfold ctl_ok. simpl. rewrite Hto. destruct (t_ctl t); try done. by intros [].
    + by eapply shared_store.
Qed.

(** ** A polling thread *)

(** What a polling thread does to the connection it is at. *)
Lemma poll_step_inv now reload t w n p p' s' w' :
  threads_inv t w → t_poll t !! n = Some p → poll_step now reload p (t_srv t) w = Ret (p', s', w') →
  threads_inv (mkThreads s' (t_ctl t) (t_now t) (t_todo t) (<[n := p']> (t_poll t))) w'.
Proof.
  intros Ht Hn. pose proof Ht as [Hs Hc [Hl Hto Hp]]. set (s := t_srv t) in *.
  pose proof (Forall_lookup_1 _ _ _ _ Hp Hn) as [[grp Hg] Hpc].
  assert (∀ s0 q, Forall (poller_ok s0) (t_poll t) → poller_ok s0 q → Forall (poller_ok s0) (<[n := q]> (t_poll t)))
    as Hins by (intros *; apply Forall_insert).
  assert (∀ q, poller_ok s q → threads_inv (mkThreads s (t_ctl t) (t_now t) (t_todo t) (<[n := q]> (t_poll t))) w)
    as Hsame by (intros q Hq; constructor; simpl; [done|done|]; constructor; auto).
  assert (∀ cid c c' q s' w', get (conn_pool_ s) cid = Ret c → conn_kept c c' → put_conn s cid c' = Ret s' →
    open_fds w' = open_fds w → poller_ok s q →
    threads_inv (mkThreads s' (t_ctl t) (t_now t) (t_todo t) (<[n := q]> (t_poll t))) w') as Hcall.
  { intros cid c c' q s0 w0 Hget Hk Hput Hw Hq. eapply (inv_conn_call t); try done. intros s1 Hn1 Hs1.
    apply Hins; [|by eapply poller_kept]. eapply Forall_impl; [exact Hp|]. intros r. by apply poller_kept. }
  unfold poll_step. destruct p as [shm g pnow pc]. simpl in *. rewrite Hg. destruct pc as [|cnt i|cnt i cid|cnt i cid h].
  - rewrite outcome_bind_Ret. intros H. run H. apply Hsame. split; [by exists grp|]. split; [done|]. by apply Hl.
  - destruct Hpc as [Hi Hr]. rewrite outcome_bind_Ret. cbv zeta.
    set (cnt' := if reload then live_cnt grp else cnt).
    assert (reads_ok s shm g cnt') as Hr' by (subst cnt'; destruct reload; [by apply Hl|done]).
    destruct (Z.ltb_spec i cnt') as [Hlt|_]; intros H; [|run H; apply Hsame; split; [by exists grp|done]].
    run H. run H. apply Hsame. split; [by exists grp|]. split_and!; [done|done|].
    by eapply reads_visitable.
  - destruct Hpc as (Hi & Hr & Hv). intros H. run H. rename r into c. run H. destruct r as [[head c1] w1].
    run H. run H.
    assert (conn_kept c c1 ∧ open_fds w' = open_fds w) as [Hk Hw].
    { destruct shm; [|by eapply TcpFront_kept]. run Hrun0. destruct r as [h c2]. run Hrun0.
      split; [by eapply ShmFront_kept|done]. }
    eapply Hcall; try done. split; [by exists grp|]. destruct head; simpl; split_and!; done || lia.
  - destruct Hpc as (Hi & Hr & Hv). intros H. run H. rename r into c. run H. destruct r as [c1 w1]. run H. run H.
    apply user_msg, user_calls_kept in Hrun0 as [Hk Hw]. eapply Hcall; try done.
    split; [by exists grp|]. simpl. split; [lia|done].
Qed.

(** ** Runs *)

(** A turn, or public calls on a connection by a thread of the user. *)
Inductive thread_step t w : threads → W → Prop :=
  | ts_turn tn t' w' : turn_step stack_header stack_rsp tn t w = Ret (t', w') → thread_step t w t' w'
  | ts_user cid c c' s' w' :
      get (conn_pool_ (t_srv t)) cid = Ret c → user_calls c w c' w' → put_conn (t_srv t) cid c' = Ret s' →
      thread_step t w (mkThreads s' (t_ctl t) (t_now t) (t_todo t) (t_poll t)) w'.

(** From the server [s0] on, with polling threads for [groups]. *)
Inductive threads_reach s0 w0 (groups : list (bool * Z)) : threads → W → Prop :=
  | tr_start : threads_reach s0 w0 groups (start_threads s0 groups) w0
  | tr_step t w t' w' :
      threads_reach s0 w0 groups t w → thread_step t w t' w' → threads_reach s0 w0 groups t' w'.

Lemma thread_step_inv t w t' w' : threads_inv t w → thread_step t w t' w' → threads_inv t' w'.
Proof.
  intros Ht []; simpl in *.
  - destruct tn as [now|n now reload]; simpl in *; [by eapply ctl_step_inv|].
    destruct (t_poll t !! n) as [p|] eqn:Hn; [|by run H]. run H. destruct r as [[p' s'] w1]. run H.
    by eapply poll_step_inv.
  - apply user_calls_kept in H0 as [Hk Hw]. eapply inv_conn_call; try done; [|by destruct Ht].
    intros s1 Hn Hs. destruct Ht as [_ _ [_ _ Hp]]. eapply Forall_impl; [exact Hp|]. intros r. by apply poller_kept.
Qed.
End threads.

Section start.
Context {conf : Conf} {ud : UserData} {W : Type} {os : Os W}.
Context {mmq : MmapOs W PTCPQueue} {mms : MmapOs W SPSCVarQueue}.
Context {los : LoginOs W} {user : ServerUser W}.
Context {fv : FdView W} {laws : FdLaws W} {llaws : LoginFdLaws W}.
Context {qlaws : MmapFdLaws W PTCPQueue} {slaws : MmapFdLaws W SPSCVarQueue}.
Context {ulaws : ServerUserLaws W}.
Context (HN : 1 < NameSize).
Context (stack_header : MsgHeader) (stack_rsp : LoginRspMsg).

(** The members of the groups of [s]. *)
Definition members (s : TcpShmServer) (shm : bool) : list (list Z) := conns <$> grps s shm.

(** Every polling thread has a group. *)
Definition groups_ok (s : TcpShmServer) (groups : list (bool * Z)) : Prop :=
  Forall (λ g, 0 ≤ g.2 < zlen (grps s g.1)) groups.

Lemma start_threads_inv s w groups :
  server_inv s w → groups_ok s groups → threads_inv (members s) (start_threads s groups) w.
Proof.
  intros Hinv Hg. assert (members_ok (members s) s) as Hm.
  { intros shm. unfold members. by induction (conns <$> grps s shm); constructor. }
  constructor; simpl; [by exists s|done|]. constructor; [by eapply inv_live_ok|constructor|].
  apply Forall_fmap. eapply Forall_impl; [exact Hg|]. intros [shm g] Hr. split; [|done].
  by apply get_in_range.
Qed.

Lemma threads_reach_inv s0 w0 groups t w :
  server_inv s0 w0 → groups_ok s0 groups → threads_reach stack_header stack_rsp s0 w0 groups t w →
  threads_inv (members s0) t w.
Proof.
  intros Hinv Hg. induction 1 as [|t w t' w' _ IH Hs]; [by apply start_threads_inv|]. by eapply thread_step_inv.
Qed.

(** Stores into the groups leave the descriptors alone. *)
Lemma do_stores_fds l s s' : do_stores l s = Ret s' → fds s' = fds s.
Proof.
  revert s. induction l as [|st l IH]; intros s H; simpl in H; [by run H|]. run H. rewrite (IH _ H).
  destruct st as [shm g n|shm g i cid]; simpl in Hrun; run Hrun; [|run Hrun];
    apply put_grp_inv in Hrun as (_ & Hp & Hn & _ & Hl); unfold fds; by rewrite Hp, Hn, Hl.
Qed.
End start.
