(* ===== verification/ServerListen.v ===== *)
(** * The listening socket

    Only [Start] and [Stop] store into [listenfd_]; no turn of a thread does
    ([thread_listenfd]). *)

From S2P Require Import Prelude.
From S2P Require Import Arrays.
From S2P Require Import MsgHeader.
From S2P Require Import PtcpQueue.
From S2P Require Import SpscQueue.
From S2P Require Import Platform.
From S2P Require Import PtcpConn.
From S2P Require Import TcpShmConn.
From S2P Require Import Login.
From S2P Require Import Server.
From S2P Require Import Descriptors.
From S2P Require Import ServerThreads.
From S2P Require Import ThreadsInv.

Section puts.
Context {conf : Conf} {ud : UserData} {W : Type} {los : LoginOs W}.
Implicit Types (s : TcpShmServer).

Lemma put_conn_listen s cid c s' : put_conn s cid c = Ret s' → listenfd_ s' = listenfd_ s.
Proof. unfold put_conn. intros H. run H. by run H. Qed.
Lemma put_new_conn_listen s k c s' : put_new_conn s k c = Ret s' → listenfd_ s' = listenfd_ s.
Proof. unfold put_new_conn. intros H. run H. by run H. Qed.
Lemma put_grp_listen s shm g grp s' : put_grp s shm g grp = Ret s' → listenfd_ s' = listenfd_ s.
Proof. unfold put_grp. intros H. run H. by run H. Qed.

End puts.

(** The branches of a function, with what each store of a server leaves; [tac]
    rewrites what the functions it calls leave. *)
Ltac listen tac :=
  repeat (tac || match goal with
  | H : put_conn _ _ _ = Ret _ |- _ => apply put_conn_listen in H
  | H : put_new_conn _ _ _ = Ret _ |- _ => apply put_new_conn_listen in H
  | H : put_grp _ _ _ _ = Ret _ |- _ => apply put_grp_listen in H
  | H : (let '_ := ?x in _) = Ret _ |- _ => destruct x eqn:?
  | H : (if ?b then _ else _) = Ret _ |- _ => destruct b eqn:?
  | H : match ?x with _ => _ end = Ret _ |- _ => destruct x eqn:?
  | H : (_ ≫= _) = Ret _ |- _ => apply outcome_bind_inv in H as (? & ? & H)
  | H : Ret _ = Ret _ |- _ => injection H as; subst
  end); try done; simpl in *; congruence.
Ltac called lem := idtac; match goal with H : _ = Ret (_, _) |- _ => apply lem in H end.

Section listen.
Context {conf : Conf} {ud : UserData} {W : Type} {os : Os W}.
Context {mmq : MmapOs W PTCPQueue} {mms : MmapOs W SPSCVarQueue}.
Context {los : LoginOs W} {user : ServerUser W} {fv : FdView W}.
Context (stack_header : MsgHeader) (stack_rsp : LoginRspMsg).
Implicit Types (s : TcpShmServer) (w : W).

Lemma HandleLogin_finish_listen s shm g i cid k h r cc l rm now w s' w' :
  HandleLogin_finish s shm g i cid k h r cc l rm now w = Ret (s', w') → listenfd_ s' = listenfd_ s.
Proof. unfold HandleLogin_finish. intros H. listen fail. Qed.

Lemma HandleLogin_match_listen s shm g i cid k h r now w s' w' :
  HandleLogin_match s shm g i cid k h r now w = Ret (s', w') → listenfd_ s' = listenfd_ s.
Proof.
  unfold HandleLogin_match, HandleLogin_file_error. intros H. listen ltac:(idtac; called HandleLogin_finish_listen).
Qed.

Lemma HandleLogin_scan_listen n s shm g i k h r now w s' w' :
  HandleLogin_scan n s shm g i k h r now w = Ret (s', w') → listenfd_ s' = listenfd_ s.
Proof.
  revert s i. induction n as [|n IH]; intros s i H; simpl in H; [listen fail|].
  listen ltac:(idtac; called HandleLogin_match_listen || called IH).
Qed.

Lemma PollCtl_new_listen s k now w s' w' :
  PollCtl_new stack_header stack_rsp s k now w = Ret (s', w') → listenfd_ s' = listenfd_ s.
Proof.
  unfold PollCtl_new, PollCtl_login, PollCtl_close, HandleLogin. intros H. listen ltac:(idtac; called HandleLogin_scan_listen).
Qed.

(** ** The threads *)

Lemma do_store_listen st s s' : do_store st s = Ret s' → listenfd_ s' = listenfd_ s.
Proof. destruct st; simpl; intros H; listen fail. Qed.

Lemma poll_step_listen now reload p s w p' s' w' :
  poll_step now reload p s w = Ret (p', s', w') → listenfd_ s' = listenfd_ s.
Proof. unfold poll_step. intros H. listen fail. Qed.
End listen.

Section threads.
Context {conf : Conf} {ud : UserData} {W : Type} {os : Os W}.
Context {mmq : MmapOs W PTCPQueue} {mms : MmapOs W SPSCVarQueue}.
Context {los : LoginOs W} {user : ServerUser W} {fv : FdView W}.
Context (stack_header : MsgHeader) (stack_rsp : LoginRspMsg).

Lemma ctl_step_listen now t (w : W) t' w' :
  ctl_step stack_header stack_rsp now t w = Ret (t', w') → listenfd_ (t_srv t') = listenfd_ (t_srv t).
Proof.
  unfold ctl_step, ctl_new, ctl_group, ctl_try, PollCtl_accept, ctl_at. intros H.
  listen ltac:(idtac; called (PollCtl_new_listen (user := no_logon)) || (idtac; match goal with H : do_store _ _ = Ret _ |- _ => apply do_store_listen in H end)).
Qed.

Lemma thread_step_listen t (w : W) t' w' :
  thread_step stack_header stack_rsp t w t' w' → listenfd_ (t_srv t') = listenfd_ (t_srv t).
Proof.
  intros [[now|n now reload] t1 w1 H|cid c c' s1 w1 _ _ H]; simpl in *.
  - by eapply ctl_step_listen.
  - destruct (t_poll t !! n); [|by injection H as -> ->]. run H. destruct r as [[p' s'] w2]. run H.
    by eapply poll_step_listen.
  - by eapply put_conn_listen.
Qed.

Lemma thread_listenfd s0 (w0 : W) groups t w :
  threads_reach stack_header stack_rsp s0 w0 groups t w → listenfd_ (t_srv t) = listenfd_ s0.
Proof. induction 1 as [|t w t' w' _ IH Hs]; [done|]. rewrite <-IH. by eapply thread_step_listen. Qed.
End threads.
