(* ===== verification/ThreadsAlone.v ===== *)
(** * One thread alone

    When the others do not get a turn, the control thread runs [PollCtl] and a
    polling thread [PollTcp] or [PollShm]: the turns of [ServerThreads] are
    the functions of [Server], cut into pieces. *)

From stdpp Require Import gmap.
From S2P Require Import Prelude.
From S2P Require Import Arrays.
From S2P Require Import MsgHeader.
From S2P Require Import PtcpQueue.
From S2P Require Import SpscQueue.
From S2P Require Import Platform.
From S2P Require Import PtcpConn.
From S2P Require Import TcpShmConn.
From S2P Require Import Login.
From S2P Require Import Server.
From S2P Require Import Descriptors.
From S2P Require Import ServerTable.
From S2P Require Import ServerInv.
From S2P Require Import ServerThreads.
From S2P Require Import ServerLogon.
From S2P Require Import ThreadsInv.

Section alone.
Context {conf : Conf} {ud : UserData} {W : Type} {os : Os W}.
Context {mmq : MmapOs W PTCPQueue} {mms : MmapOs W SPSCVarQueue}.
Context {los : LoginOs W} {user : ServerUser W}.
Context {fv : FdView W} {laws : FdLaws W} {llaws : LoginFdLaws W}.
Context {qlaws : MmapFdLaws W PTCPQueue} {slaws : MmapFdLaws W SPSCVarQueue}.
Context {ulaws : ServerUserLaws W}.
Context (HN : 1 < NameSize).
Context (stack_header : MsgHeader) (stack_rsp : LoginRspMsg).

(** ** The control thread *)

(** [n] turns of the control thread lead from [t] to [t']. *)
Definition ctl_runs (now : Z) (t : threads) (w : W) (t' : threads) (w' : W) : Prop :=
  ∃ n, run_turns stack_header stack_rsp (replicate n (TurnCtl now)) t w = Ret (t', w').

Lemma ctl_runs_refl now t w : ctl_runs now t w t w.
Proof. by exists O. Qed.

Lemma run_turns_app l1 l2 t w :
  run_turns stack_header stack_rsp (l1 ++ l2) t w =
  ('(t1, w1) ← run_turns stack_header stack_rsp l1 t w; run_turns stack_header stack_rsp l2 t1 w1).
Proof.
  revert t w. induction l1 as [|tn l1 IH]; intros t w; [done|]. simpl.
  destruct (turn_step _ _ tn t w) as [[t1 w1]| |]; [apply IH|done..].
Qed.

Lemma ctl_runs_trans now t1 w1 t2 w2 t3 w3 :
  ctl_runs now t1 w1 t2 w2 → ctl_runs now t2 w2 t3 w3 → ctl_runs now t1 w1 t3 w3.
Proof.
  intros [n1 H1] [n2 H2]. exists (n1 + n2)%nat. rewrite replicate_add, run_turns_app, H1. exact H2.
Qed.

Lemma ctl_runs_step now t w t1 w1 t2 w2 :
  ctl_step stack_header stack_rsp now t w = Ret (t1, w1) → ctl_runs now t1 w1 t2 w2 → ctl_runs now t w t2 w2.
Proof. intros H [n Hn]. exists (S n). simpl. by rewrite H. Qed.

Lemma ctl_runs_stores now0 s pc now l polls w s' :
  do_stores l s = Ret s' →
  ctl_runs now0 (mkThreads s pc now l polls) w (mkThreads s' pc now [] polls) w.
Proof.
  revert s. induction l as [|st l IH]; intros s H; simpl in H; [injection H as <-; apply ctl_runs_refl|].
  run H. eapply ctl_runs_step; [|by apply IH]. unfold ctl_step. cbn [t_todo t_srv]. by rewrite Hrun.
Qed.

Lemma logon_put s1 k s' w s2 w2 shm g :
  logon s1 k s' w = Ret (s2, w2) → logged_on s1 s' = Some (shm, g) →
  ∃ cid j nc c c', logged_conn s1 s' shm g = Ret (cid, j) ∧ get (new_conns_ s') k = Ret nc ∧
    get (conn_pool_ s') cid = Ret c ∧ OnClientLogon (nc_addr nc) c w = Ret (c', w2) ∧ put_conn s' cid c' = Ret s2.
Proof.
  unfold logon. intros H Hl. rewrite Hl in H. run H. destruct r as [cid j]. run H. run H. run H.
  destruct r1 as [c' w1]. run H. run H. by exists cid, j, r, r0, c'.
Qed.

(** The handling of one new connection. *)
Lemma ctl_runs_new s k now ps w s' w' :
  server_inv s w → k < MaxNewConnections → PollCtl_new stack_header stack_rsp s k now w = Ret (s', w') →
  ctl_runs now (mkThreads s (CtlNew k) now [] ps) w (mkThreads s' (CtlNew (k + 1)) now [] ps) w'.
Proof.
  intros Hinv Hk H. rewrite (PollCtl_new_split HN) in H. run H. destruct r as [s1 w1].
  pose proof (PollCtl_new_effect (user := no_logon) HN _ _ _ _ _ _ _ _ Hrun) as [_ He].
  set (t := mkThreads s (CtlNew k) now [] ps).
  assert (ctl_step stack_header stack_rsp now t w = ctl_new stack_header stack_rsp t k w) as Hstep.
  { unfold ctl_step. cbn. by rewrite (proj2 (Z.ltb_lt _ _)) by done. }
  destruct He as [Hs|(shm & g & i & cid & grp & cs & nc & L & Hlive & Hnk & Hfd & Hb)].
  - rewrite logon_same in H by done. injection H as <- <-. eapply ctl_runs_step; [|apply ctl_runs_refl].
    rewrite Hstep. unfold ctl_new. cbn [t t_srv t_now t_poll]. rewrite Hrun, outcome_bind_Ret. by rewrite logged_on_same.
  - destruct (logon_put _ _ _ _ _ _ _ _ H (logged_on_login L)) as (cid' & j & nc' & c & c' & Hj & Hn' & Hc & Hu & Hput).
    rewrite (logged_conn_inv _ _ _ _ _ _ _ _ _ Hinv L) in Hj. injection Hj as <- <-.
    rewrite Hnk in Hn'. injection Hn' as <-.
    destruct (login_stores_run _ _ _ _ _ _ _ _ L) as (l & Hl & Hls & Hrl & _).
    eapply ctl_runs_step.
    { rewrite Hstep. unfold ctl_new. cbn [t t_srv t_now t_poll]. rewrite Hrun, outcome_bind_Ret.
      rewrite (logged_on_login L), (logged_conn_inv _ _ _ _ _ _ _ _ _ Hinv L), outcome_bind_Ret.
      rewrite Hnk, outcome_bind_Ret, (lg_grp _ _ _ _ _ _ _ _ L), outcome_bind_Ret, Hls. done. }
    eapply ctl_runs_trans; [by apply ctl_runs_stores|].
    eapply ctl_runs_step; [|apply ctl_runs_refl]. unfold ctl_step. cbn. by rewrite Hc, outcome_bind_Ret, Hu, outcome_bind_Ret, Hput.
Qed.

Lemma ctl_runs_news n : ∀ s k now ps w s' w',
  server_inv s w → k + Z.of_nat n = MaxNewConnections →
  PollCtl_news stack_header stack_rsp n s k now w = Ret (s', w') →
  ctl_runs now (mkThreads s (CtlNew k) now [] ps) w (mkThreads s' (CtlGroup true 0 0) now [] ps) w' ∧
  server_inv s' w'.
Proof.
  induction n as [|n IH]; intros s k now ps w s' w' Hinv Hk H; simpl in H.
  - run H. split; [|done]. eapply ctl_runs_step; [|apply ctl_runs_refl].
    unfold ctl_step. cbn. by rewrite (proj2 (Z.ltb_ge _ _)) by lia.
  - run H. destruct r as [s1 w1]. pose proof (PollCtl_new_inv HN _ _ _ _ _ _ _ _ Hinv Hrun) as Hinv1.
    destruct (IH s1 (k + 1) now ps w1 s' w' Hinv1) as [Hr Hi]; [lia|done|]. split; [|done].
    eapply ctl_runs_trans; [|exact Hr]. apply ctl_runs_new; [done|lia|done].
Qed.

Lemma put_grp_len s shm g grp s' : put_grp s shm g grp = Ret s' → ∀ sh, zlen (grps s' sh) = zlen (grps s sh).
Proof.
  unfold put_grp. intros H. run H. apply put_insert in Hrun as [Hr ->]. run H. intros sh. unfold zlen in *.
  destruct sh, shm; simpl; by rewrite ?length_insert.
Qed.

Lemma put_conn_twice s cid a b s1 : put_conn s cid a = Ret s1 → put_conn s1 cid b = put_conn s cid b.
Proof.
  intros [Hr ->]%put_conn_inv. unfold put_conn, put. simpl. unfold zlen in *.
  by rewrite length_insert, !decide_True, list_insert_insert_eq by lia.
Qed.

(** [std::swap(grp.conns[i], grp.conns[--grp.live_cnt])], store by store. *)
Lemma logout_stores_run s shm g i grp grp' s' :
  get (grps s shm) g = Ret grp → remove_live grp i = Ret grp' → put_grp s shm g grp' = Ret s' →
  ∃ l, logout_stores shm g i grp = Ret l ∧ do_stores l s = Ret s'.
Proof.
  unfold remove_live. intros Hg H Hput. run H. run H. unfold logout_stores.
  destruct (swap_stores shm g (conns grp) i (u32 (live_cnt grp - 1))) as [l| |] eqn:Hl;
    [|exfalso; unfold swap, swap_stores in *; destruct (get (conns grp) i); simpl in *; [|done..];
      by destruct (get (conns grp) (u32 (live_cnt grp - 1)))..].
  eexists. split; [done|]. by rewrite (swap_stores_run _ _ _ _ _ _ _ _ _ Hg Hl Hrun).
Qed.

(** [TryCloseFd] and what follows it, for the connection [c]. *)
Lemma ctl_runs_try s shm g i now ps w grp cid c closed c2 w2 :
  get (grps s shm) g = Ret grp → get (conns grp) i = Ret cid → get (conn_pool_ s) cid = Ret c →
  TryCloseFd c w = (closed, c2, w2) →
  (closed = false → ∀ s1, put_conn s cid c2 = Ret s1 →
    ctl_runs now (mkThreads s (CtlTry shm g i) now [] ps) w (mkThreads s1 (CtlGroup shm g (i + 1)) now [] ps) w2) ∧
  (closed = true → ∀ c3 w3 s1 grp' s2,
    OnClientDisconnected c2 (GetCloseReason c2).1 (GetCloseReason c2).2 w2 = Ret (c3, w3) →
    put_conn s cid c3 = Ret s1 → remove_live grp i = Ret grp' → put_grp s1 shm g grp' = Ret s2 →
    ctl_runs now (mkThreads s (CtlTry shm g i) now [] ps) w (mkThreads s2 (CtlGroup shm g i) now [] ps) w3).
Proof.
  intros Hg Hi Hc Ht. set (t := mkThreads s (CtlTry shm g i) now [] ps).
  assert (ctl_step stack_header stack_rsp now t w = ctl_try t shm g i w) as Hstep by done.
  split; intros ->.
  - intros s1 Hput. eapply ctl_runs_step; [|apply ctl_runs_refl]. rewrite Hstep. unfold ctl_try. cbn [t t_srv].
    rewrite Hg, outcome_bind_Ret, Hi, outcome_bind_Ret, Hc, outcome_bind_Ret, Ht, Hput. done.
  - intros c3 w3 s1 grp' s2 Hu Hput Hrm Hpg.
    destruct (logout_stores_run s1 shm g i grp grp' s2) as (l & Hl & Hrl); try done.
    { by rewrite (put_conn_grps _ _ _ _ Hput). }
    eapply ctl_runs_step; [|by apply ctl_runs_stores]. rewrite Hstep. unfold ctl_try. cbn [t t_srv].
    rewrite Hg, outcome_bind_Ret, Hi, outcome_bind_Ret, Hc, outcome_bind_Ret, Ht.
    destruct (GetCloseReason c2) as [reason e]. simpl in Hu. by rewrite Hu, outcome_bind_Ret, Hput, outcome_bind_Ret, Hl.
Qed.

(** The head of the loop over a group. *)
Lemma ctl_group_live s shm g i now ps w grp :
  g < zlen (grps s shm) → get (grps s shm) g = Ret grp →
  ctl_step stack_header stack_rsp now (mkThreads s (CtlGroup shm g i) now [] ps) w =
  (if i <? live_cnt grp then
     if shm then
       cid ← get (conns grp) i;
       conn ← get (conn_pool_ s) cid;
       '(_, conn, w) ← TcpFront conn now w;
       s ← put_conn s cid conn;
       Ret (mkThreads s (CtlTry shm g i) now [] ps, w)
     else Ret (mkThreads s (CtlTry shm g i) now [] ps, w)
   else Ret (mkThreads s (CtlGroup shm (g + 1) 0) now [] ps, w)).
Proof.
  intros Hgr Hg. unfold ctl_step, ctl_group. cbn. rewrite (proj2 (Z.ltb_lt _ _)), Hg by done.
  by rewrite outcome_bind_Ret.
Qed.

Lemma ctl_runs_group n : ∀ s shm g i now ps w s' w',
  g < zlen (grps s shm) → PollCtl_group n s shm g i now w = Ret (s', w') →
  ctl_runs now (mkThreads s (CtlGroup shm g i) now [] ps) w (mkThreads s' (CtlGroup shm (g + 1) 0) now [] ps) w'.
Proof.
  induction n as [|n IH]; intros s shm g i now ps w s' w' Hgr H; cbn [PollCtl_group] in H; run H;
    rename r into grp, Hrun into Hg; pose proof (ctl_group_live s shm g i now ps w grp Hgr Hg) as Hhead;
    destruct (i <? live_cnt grp); try done;
    try (run H; eapply ctl_runs_step; [exact Hhead|apply ctl_runs_refl]).
  run H. rename r into cid, Hrun into Hi. run H. rename r into c, Hrun into Hc. run H. destruct r as [c1 w1].
  (* after TcpFront *)
  assert (∃ s0, put_conn s cid c1 = Ret s0 ∧
    ctl_step stack_header stack_rsp now (mkThreads s (CtlGroup shm g i) now [] ps) w =
      Ret (mkThreads s0 (CtlTry shm g i) now [] ps, w1)) as (s0 & Hput0 & Hstep).
  { rewrite Hhead. destruct shm.
    - run Hrun. destruct r as [[p c2] w2]. run Hrun. rewrite Hi, outcome_bind_Ret, Hc, outcome_bind_Ret, Hrun0, outcome_bind_Ret.
      apply get_range in Hc. unfold put_conn. rewrite put_in_range by done. by eexists.
    - run Hrun. exists s. by rewrite (put_conn_id _ _ _ Hc). }
  pose proof (put_conn_grps _ _ _ _ Hput0) as Hs0.
  assert (get (grps s0 shm) g = Ret grp) as Hg0 by by rewrite Hs0.
  destruct (TryCloseFd c1 w1) as [[closed c2] w2] eqn:Ht.
  destruct (ctl_runs_try s0 shm g i now ps w1 grp cid c1 closed c2 w2 Hg0 Hi (put_conn_get _ _ _ _ Hput0) Ht)
    as [Hopen Hclosed].
  eapply ctl_runs_step; [exact Hstep|]. destruct closed.
  - destruct (GetCloseReason c2) as [reason e] eqn:Hre. run H. destruct r as [c3 w3]. run H. run H. run H.
    rename r into s1, r0 into grp', r1 into s2. eapply ctl_runs_trans; [|eapply IH; [|exact H]].
    + eapply Hclosed; [done|simpl; exact Hrun0| |done..]. by rewrite (put_conn_twice _ _ _ _ _ Hput0).
    + pose proof (put_grp_len _ _ _ _ _ Hrun3) as ->. by rewrite (put_conn_grps _ _ _ _ Hrun1).
  - run H. rename r into s1. eapply ctl_runs_trans; [|eapply IH; [|exact H]].
    + apply Hopen; [done|]. by rewrite (put_conn_twice _ _ _ _ _ Hput0).
    + by rewrite (put_conn_grps _ _ _ _ Hrun0).
Qed.

Lemma PollCtl_group_len n : ∀ s shm g i now w s' w',
  PollCtl_group n s shm g i now w = Ret (s', w') → ∀ sh, zlen (grps s' sh) = zlen (grps s sh).
Proof.
  induction n as [|n IH]; intros s shm g i now w s' w' H sh; cbn [PollCtl_group] in H; run H;
    (destruct (_ <? _); [|by run H]); [done|].
  run H. run H. run H. destruct r2 as [c1 w1]. destruct (TryCloseFd c1 w1) as [[closed c2] w2]. destruct closed.
  - destruct (GetCloseReason c2). run H. destruct r2. run H. run H. run H. rewrite (IH _ _ _ _ _ _ _ _ H).
    rewrite (put_grp_len _ _ _ _ _ Hrun6). by rewrite (put_conn_grps _ _ _ _ Hrun4).
  - run H. rewrite (IH _ _ _ _ _ _ _ _ H). by rewrite (put_conn_grps _ _ _ _ Hrun3).
Qed.

Lemma ctl_runs_groups n : ∀ s shm g now ps w s' w',
  g + Z.of_nat n = zlen (grps s shm) → PollCtl_groups n s shm g now w = Ret (s', w') →
  ctl_runs now (mkThreads s (CtlGroup shm g 0) now [] ps) w
    (mkThreads s' (if shm then CtlGroup false 0 0 else CtlIdle) now [] ps) w' ∧
  ∀ sh, zlen (grps s' sh) = zlen (grps s sh).
Proof.
  induction n as [|n IH]; intros s shm g now ps w s' w' Hn H; simpl in H.
  - run H. split; [|done]. eapply ctl_runs_step; [|apply ctl_runs_refl]. unfold ctl_step, ctl_group. cbn.
    by rewrite (proj2 (Z.ltb_ge _ _)) by lia.
  - run H. run H. destruct r0 as [s1 w1]. pose proof (PollCtl_group_len _ _ _ _ _ _ _ _ _ Hrun0) as Hlen.
    destruct (IH s1 shm (g + 1) now ps w1 s' w') as [Hr Hl]; [rewrite Hlen; lia|done|].
    split; [|intros sh; by rewrite Hl]. apply get_range in Hrun.
    eapply ctl_runs_trans; [|exact Hr]. eapply ctl_runs_group; [lia|done].
Qed.

(** The whole of [PollCtl]. *)
Lemma ctl_runs_PollCtl s now0 now ps w s' w' :
  server_inv s w → 0 ≤ MaxNewConnections → PollCtl stack_header stack_rsp s now w = Ret (s', w') →
  ctl_runs now (mkThreads s CtlIdle now0 [] ps) w (mkThreads s' CtlIdle now [] ps) w'.
Proof.
  intros Hinv HM. unfold PollCtl. intros H. run H. destruct r as [s1 w1]. run H. destruct r as [s2 w2].
  run H. destruct r as [s3 w3]. pose proof (PollCtl_accept_inv _ _ _ _ _ Hinv Hrun) as Hinv1.
  destruct (ctl_runs_news (Z.to_nat MaxNewConnections) s1 0 now ps w1 s2 w2 Hinv1 ltac:(lia) Hrun0) as [Hnews _].
  eapply ctl_runs_step; [unfold ctl_step; cbn; by rewrite Hrun|].
  eapply ctl_runs_trans; [exact Hnews|].
  destruct (ctl_runs_groups (length (shm_grps_ s2)) s2 true 0 now ps w2 s3 w3 ltac:(unfold zlen; simpl; lia) Hrun1) as [H1 Hl1].
  destruct (ctl_runs_groups (length (tcp_grps_ s3)) s3 false 0 now ps w3 s' w' ltac:(unfold zlen; simpl; lia) H) as [H2 _].
  eapply ctl_runs_trans; [exact H1|exact H2].
Qed.

(** ** A polling thread *)

Definition poll_runs (n : nat) (now : Z) (reload : bool) (t : threads) (w : W) (t' : threads) (w' : W) : Prop :=
  ∃ m, run_turns stack_header stack_rsp (replicate m (TurnPoll n now reload)) t w = Ret (t', w').

Lemma poll_runs_step n now reload t w p p1 s1 w1 t2 w2 :
  t_poll t !! n = Some p → poll_step now reload p (t_srv t) w = Ret (p1, s1, w1) →
  poll_runs n now reload (mkThreads s1 (t_ctl t) (t_now t) (t_todo t) (<[n := p1]> (t_poll t))) w1 t2 w2 →
  poll_runs n now reload t w t2 w2.
Proof. intros Hn H [m Hm]. exists (S m). simpl. rewrite Hn, H. exact Hm. Qed.

(** The polling thread [n] of [t] at [pc], and the server. *)
Definition poll_at (t : threads) (n : nat) (s : TcpShmServer) (shm : bool) (g now : Z) (pc : poll_pc) : threads :=
  mkThreads s (t_ctl t) (t_now t) (t_todo t) (<[n := mkPoller shm g now pc]> (t_poll t)).

Lemma poll_runs_at n now0 reload t s shm g now pc w pc1 s1 w1 t2 w2 :
  (n < length (t_poll t))%nat →
  poll_step now0 reload (mkPoller shm g now pc) s w = Ret (mkPoller shm g now pc1, s1, w1) →
  poll_runs n now0 reload (poll_at t n s1 shm g now pc1) w1 t2 w2 →
  poll_runs n now0 reload (poll_at t n s shm g now pc) w t2 w2.
Proof.
  intros Hn H Hr. eapply poll_runs_step; [unfold poll_at; simpl; by apply list_lookup_insert_eq|exact H|].
  unfold poll_at in *. simpl. by rewrite list_insert_insert_eq.
Qed.

Lemma poll_runs_group m : ∀ s shm g i now0 now reload t n w s' w' grp,
  (n < length (t_poll t))%nat → get (grps s shm) g = Ret grp → m = Z.to_nat (live_cnt grp - i) →
  poll_group m s shm g i now w = Ret (s', w') →
  poll_runs n now0 reload (poll_at t n s shm g now (PollLoop (live_cnt grp) i)) w (poll_at t n s' shm g now PollIdle) w'.
Proof.
  induction m as [|m IH]; intros s shm g i now0 now reload t n w s' w' grp Hn Hg Hm H; cbn [poll_group] in H.
  - run H. eapply poll_runs_at; [done| |by exists O]. unfold poll_step. simpl. rewrite Hg, outcome_bind_Ret. cbv zeta.
    rewrite (proj2 (Z.ltb_ge _ _)) by (destruct reload; lia). done.
  - rewrite Hg, outcome_bind_Ret in H. run H. rename r into cid, Hrun into Hi. run H. rename r into c, Hrun into Hc.
    run H. destruct r as [[head c1] w1]. rename Hrun into Hfront. run H. destruct r as [c2 w2]. rename Hrun into Hdel.
    run H. rename r into s1, Hrun into Hput.
    eapply poll_runs_at; [done| |].
    { unfold poll_step. simpl. rewrite Hg, outcome_bind_Ret. cbv zeta.
      rewrite (proj2 (Z.ltb_lt _ _)) by (destruct reload; lia). by rewrite Hi. }
    assert (∃ s0, put_conn s cid c1 = Ret s0) as [s0 Hput0].
    { apply get_range in Hc. unfold put_conn. rewrite put_in_range by done. by eexists. }
    eapply poll_runs_at; [done| |].
    { unfold poll_step. simpl. by rewrite Hc, outcome_bind_Ret, Hfront, outcome_bind_Ret, Hput0. }
    assert (get (grps s1 shm) g = Ret grp) as Hg1 by by rewrite (put_conn_grps _ _ _ _ Hput).
    replace (if reload then live_cnt grp else live_cnt grp) with (live_cnt grp) by by destruct reload.
    unfold deliver in Hdel. destruct head as [h|].
    + eapply poll_runs_at; [done| |apply (IH s1 shm g (i + 1) now0 now reload t n w2 s' w' grp); try done; lia].
      unfold poll_step. simpl. rewrite (put_conn_get _ _ _ _ Hput0), outcome_bind_Ret, Hdel, outcome_bind_Ret.
      by rewrite (put_conn_twice _ _ _ _ _ Hput0), Hput.
    + run Hdel. rewrite Hput in Hput0. injection Hput0 as ->.
      apply (IH s0 shm g (i + 1) now0 now reload t n w2 s' w' grp); try done; lia.
Qed.
End alone.
