(* ===== verification/ThreadsEnd.v ===== *)
(** * The turns of a call

    [ctl_left] and [poll_left] bound the turns that a thread inside a
    function of the server still needs: each of its own turns makes the number
    smaller ([ctl_step_left], [poll_step_left]), and those of the other
    threads leave it as it is ([turn_other]).  So [PollCtl],
    [PollTcp] and [PollShm] have a number of turns that the sizes of the groups
    give, whatever the other threads do meanwhile; [ThreadsCalls] says when the
    turns themselves end. *)

From stdpp Require Import gmap.
From S2P Require Import Prelude.
From S2P Require Import Arrays.
From S2P Require Import MsgHeader.
From S2P Require Import PtcpQueue.
From S2P Require Import SpscQueue.
From S2P Require Import Platform.
From S2P Require Import PtcpConn.
From S2P Require Import TcpShmConn.
From S2P Require Import Login.
From S2P Require Import Descriptors.
From S2P Require Import Server.
From S2P Require Import ServerTable.
From S2P Require Import ServerInv.
From S2P Require Import ServerThreads.
From S2P Require Import ServerLogon.
From S2P Require Import ThreadsInv.

Section ends.
Context {conf : Conf} {ud : UserData} {W : Type} {os : Os W}.
Context {mmq : MmapOs W PTCPQueue} {mms : MmapOs W SPSCVarQueue}.
Context {los : LoginOs W} {user : ServerUser W}.
Context {fv : FdView W} {laws : FdLaws W} {llaws : LoginFdLaws W}.
Context {qlaws : MmapFdLaws W PTCPQueue} {slaws : MmapFdLaws W SPSCVarQueue}.
Context {ulaws : ServerUserLaws W}.
Context (HN : 1 < NameSize).
Context (stack_header : MsgHeader) (stack_rsp : LoginRspMsg).
(** The members of the groups. *)
Context (M : bool → list (list Z)).
Implicit Types (s : TcpShmServer) (t : threads) (w : W).

(** ** The measures *)

Definition group_size (shm : bool) (g : Z) : Z := zlen (default [] (M shm !! Z.to_nat g)).

(** What the loops over the groups from [g] on take at most. *)
Definition groups_cost (l : list (list Z)) : Z := foldr (λ m n, 5 * zlen m + 1 + n) 1 l.
Definition rest_cost (shm : bool) (g : Z) : Z :=
  groups_cost (drop (Z.to_nat g) (M shm)) + (if shm then groups_cost (M false) else 0).

(** [live_cnt] of a group when the control thread has done its stores. *)
Definition stored_live t (shm : bool) (g : Z) : Z :=
  match do_stores (t_todo t) (t_srv t) with
  | Ret s => match get (grps s shm) g with Ret grp => live_cnt grp | _ => 0 end
  | _ => 0
  end.

Definition ctl_left t : Z :=
  let new k := 5 * Z.max 0 (MaxNewConnections - k) + 1 + rest_cost true 0 in
  zlen (t_todo t) +
  match t_ctl t with
  | CtlIdle => 0
  | CtlNew k => new k
  | CtlLogon k _ _ => new (k + 1) + 1
  | CtlGroup shm g i =>
      if g <? zlen (M shm) then 5 * Z.max 0 (stored_live t shm g - i) + 1 + rest_cost shm (g + 1) else rest_cost shm g
  | CtlTry shm g i => 5 * Z.max 0 (stored_live t shm g - i) + rest_cost shm (g + 1)
  end.

Definition poll_left (p : poller) : Z :=
  let left i := 3 * Z.max 0 (group_size (p_shm p) (p_grp p) - i) in
  match p_pc p with
  | PollIdle => 0
  | PollLoop _ i => left i + 1
  | PollVisit _ i _ => left i
  | PollMsg _ i _ _ => left i - 1
  end.

(** The most that a call takes. *)
Definition ctl_turns : Z := 5 * Z.max 0 MaxNewConnections + 1 + rest_cost true 0.
Definition poll_turns (shm : bool) (g : Z) : Z := 3 * group_size shm g + 1.

(** ** Costs *)

Lemma groups_cost_pos l : 1 ≤ groups_cost l.
Proof. induction l as [|m l IH]; simpl; [lia|]. pose proof (zlen_nonneg m). lia. Qed.

Lemma rest_cost_pos shm g : 1 ≤ rest_cost shm g.
Proof.
  unfold rest_cost. pose proof (groups_cost_pos (drop (Z.to_nat g) (M shm))). pose proof (groups_cost_pos (M false)).
  destruct shm; lia.
Qed.

Lemma rest_cost_next shm g : 0 ≤ g < zlen (M shm) → rest_cost shm g = 5 * group_size shm g + 1 + rest_cost shm (g + 1).
Proof.
  intros Hg. unfold rest_cost, group_size. replace (Z.to_nat (g + 1)) with (S (Z.to_nat g)) by lia.
  destruct (lookup_lt_is_Some_2 (M shm) (Z.to_nat g)) as [m Hm]; [unfold zlen in Hg; lia|].
  rewrite Hm, (drop_S _ _ _ Hm). cbn [groups_cost foldr default]. fold (groups_cost (drop (S (Z.to_nat g)) (M shm))).
  simpl. lia.
Qed.

Lemma rest_cost_end shm g : zlen (M shm) ≤ g → rest_cost shm g = 1 + (if shm then rest_cost false 0 else 0).
Proof.
  intros Hg. unfold rest_cost. rewrite drop_ge by (unfold zlen in Hg; lia). simpl. destruct shm; [|lia].
  rewrite drop_0. lia.
Qed.

Lemma members_size s shm g grp : members_ok M s → get (grps s shm) g = Ret grp → group_size shm g = zlen (conns grp).
Proof.
  intros Hm [_ Hg]%get_lookup. assert ((conns <$> grps s shm) !! Z.to_nat g = Some (conns grp)) as Hl
    by by rewrite list_lookup_fmap, Hg.
  destruct (Forall2_lookup_l _ _ _ _ _ (Hm shm) Hl) as (m & Hmm & HP). unfold group_size. rewrite Hmm. simpl.
  unfold zlen. by rewrite HP.
Qed.

Lemma members_zlen s shm : members_ok M s → zlen (grps s shm) = zlen (M shm).
Proof. intros Hm. pose proof (Forall2_length _ _ _ (Hm shm)) as Hl. rewrite length_fmap in Hl. unfold zlen. by rewrite Hl. Qed.

Lemma stored_live_done t s shm g grp :
  do_stores (t_todo t) (t_srv t) = Ret s → get (grps s shm) g = Ret grp → stored_live t shm g = live_cnt grp.
Proof. intros Hs Hg. unfold stored_live. by rewrite Hs, Hg. Qed.

(** Being at the head of a loop costs no more than what it was counted for. *)
Lemma group_head_cost s w shm g : 
  server_inv s w → members_ok M s → 0 ≤ g →
  (if g <? zlen (M shm) then 5 * Z.max 0 (match get (grps s shm) g with Ret grp => live_cnt grp | _ => 0 end - 0) + 1 + rest_cost shm (g + 1)
   else rest_cost shm g) ≤ rest_cost shm g.
Proof.
  intros Hinv Hm Hg. destruct (Z.ltb_spec g (zlen (M shm))) as [Hlt|]; [|lia]. rewrite (rest_cost_next shm g) by lia.
  destruct (get (grps s shm) g) as [grp| |] eqn:He; [|unfold group_size; pose proof (zlen_nonneg (default [] (M shm !! Z.to_nat g))); lia..].
  rewrite (members_size _ _ _ _ Hm He). destruct (live_named _ _ _ _ _ Hinv He) as (? & _ & _). lia.
Qed.

(** ** The control thread *)

(** Stores that lead to the same groups leave the same counts. *)
Lemma stored_live_same t t' s s' shm g :
  do_stores (t_todo t) (t_srv t) = Ret s → do_stores (t_todo t') (t_srv t') = Ret s' → same_grps s s' →
  stored_live t' shm g = stored_live t shm g.
Proof. intros H H' Hs. unfold stored_live. by rewrite H, H', Hs. Qed.

(** A turn that comes to the head of the loop over a group. *)
Lemma ctl_left_head t s w shm g :
  server_inv s w → members_ok M s → 0 ≤ g → ctl_left (ctl_at t s (CtlGroup shm g 0)) ≤ rest_cost shm g.
Proof. intros Hinv Hm Hg. pose proof (group_head_cost s w shm g Hinv Hm Hg). unfold ctl_left, stored_live. simpl. rewrite zlen_nil. lia. Qed.

Lemma ctl_new_left t k w t' w' :
  threads_inv M t w → t_todo t = [] → k < MaxNewConnections → t_ctl t = CtlNew k →
  ctl_new stack_header stack_rsp t k w = Ret (t', w') → ctl_left t' < ctl_left t.
Proof.
  intros Ht Hto Hk Hpc. destruct (inv_no_todo _ _ _ Ht Hto) as [Hinv Hm]. unfold ctl_new. intros H. run H. destruct r as [s' w1].
  destruct (logged_on (t_srv t) s') as [[shm g]|].
  - run H. destruct r as [cid i]. run H. run H. run H. rename r1 into l, Hrun3 into Hl. run H.
    unfold login_stores, swap_stores in Hl. run Hl. run Hrun3. run Hrun3. run Hrun3. run Hl.
    unfold ctl_left. rewrite Hpc, Hto. simpl. rewrite !zlen_cons, zlen_nil. lia.
  - run H. unfold ctl_left. rewrite Hpc, Hto. simpl. lia.
Qed.

Lemma ctl_group_left t shm g i w t' w' :
  threads_inv M t w → t_todo t = [] → t_ctl t = CtlGroup shm g i → ctl_group t shm g i w = Ret (t', w') → ctl_left t' < ctl_left t.
Proof.
  intros Ht Hto Hpc. destruct (inv_no_todo _ _ _ Ht Hto) as [Hinv Hm]. unfold ctl_group.
  rewrite (members_zlen _ shm Hm). destruct (Z.ltb_spec g (zlen (M shm))) as [Hlt|Hge]; intros H.
  - run H. rename r into grp, Hrun into Hg. pose proof (get_range _ _ _ Hg) as Hr.
    assert (ctl_left t = 5 * Z.max 0 (live_cnt grp - i) + 1 + rest_cost shm (g + 1)) as ->.
    { unfold ctl_left. rewrite Hpc, Hto, (proj2 (Z.ltb_lt _ _)) by done.
      rewrite (stored_live_done t (t_srv t) shm g grp) by (done || by rewrite Hto). rewrite zlen_nil. lia. }
    assert (∀ s1, same_grps (t_srv t) s1 → ctl_left (ctl_at t s1 (CtlTry shm g i)) = 5 * Z.max 0 (live_cnt grp - i) + rest_cost shm (g + 1)) as Htry.
    { intros s1 Hs. unfold ctl_left, stored_live. simpl. rewrite (Hs shm), Hg, zlen_nil. lia. }
    destruct (Z.ltb_spec i (live_cnt grp)).
    + destruct shm; [|run H; rewrite Htry by done; lia].
      run H. run H. run H. destruct r1 as [[p c1] w1]. run H. run H. rewrite Htry; [lia|]. by eapply put_conn_grps.
    + run H. pose proof (ctl_left_head t (t_srv t) w' shm (g + 1) Hinv Hm ltac:(lia)). lia.
  - run H. assert (ctl_left t = rest_cost shm g) as ->.
    { unfold ctl_left. rewrite Hpc, Hto, (proj2 (Z.ltb_ge _ _) Hge), zlen_nil. lia. }
    rewrite (rest_cost_end shm g Hge).
    destruct shm; [|unfold ctl_left; simpl; change (zlen (A := store) []) with 0; lia].
    pose proof (ctl_left_head t (t_srv t) w' false 0 Hinv Hm ltac:(lia)). lia.
Qed.

Lemma ctl_try_left t shm g i w t' w' :
  threads_inv M t w → t_ctl t = CtlTry shm g i → ctl_try t shm g i w = Ret (t', w') → ctl_left t' < ctl_left t.
Proof.
  intros Ht Hpc. pose proof (ti_ctl _ _ _ Ht) as Hc. unfold ctl_ok in Hc. rewrite Hpc in Hc.
  destruct Hc as (Hto & grp & Hg & Hlive). destruct (inv_no_todo _ _ _ Ht Hto) as [Hinv Hm].
  assert (ctl_left t = 5 * (live_cnt grp - i) + rest_cost shm (g + 1)) as ->.
  { unfold ctl_left. rewrite Hpc, Hto, (stored_live_done t (t_srv t) shm g grp) by (done || by rewrite Hto). rewrite zlen_nil. lia. }
  pose proof (get_range _ _ _ Hg) as Hr. rewrite (members_zlen _ shm Hm) in Hr.
  assert (∀ s1 pc todo s2 grp2 n, do_stores todo s1 = Ret s2 → get (grps s2 shm) g = Ret grp2 →
    ctl_left (mkThreads s1 (CtlGroup shm g n) pc todo (t_poll t)) = zlen todo + 5 * Z.max 0 (live_cnt grp2 - n) + 1 + rest_cost shm (g + 1)) as Hleft.
  { intros s1 pc todo s2 grp2 n Hst Hg2. unfold ctl_left. simpl. rewrite (proj2 (Z.ltb_lt _ _)) by lia.
    erewrite stored_live_done by done. lia. }
  unfold ctl_try. rewrite Hg, outcome_bind_Ret. intros H. run H. run H. rename r into cid, r0 into c.
  destruct (TryCloseFd c w) as [[closed c2] w2]. destruct closed.
  - destruct (GetCloseReason c2) as [reason e]. run H. destruct r as [c3 w3]. run H. rename r into s1, Hrun2 into Hput1.
    run H. rename r into l, Hrun2 into Hl. run H. pose proof (put_conn_grps _ _ _ _ Hput1) as Hs.
    assert (get (grps s1 shm) g = Ret grp) as Hg1 by by rewrite (Hs shm).
    destruct (live_named _ _ _ _ _ Hinv Hg) as (? & ? & _). pose proof (get_range _ _ _ Hrun).
    destruct (logout_stores_swap _ _ _ _ _ _ Hg1 Hl) as (cs & l0 & Hsl & -> & Hsw & _ & Hst); [lia|].
    destruct (put_grp_ok s1 shm g grp (mkGroup (live_cnt grp - 1) cs) Hg1) as [s2 Hput]. rewrite Hput in Hst.
    rewrite (Hleft s1 _ _ s2 _ i Hst (put_grp_same _ _ _ _ _ Hput)). simpl.
    unfold swap_stores in Hsl. run Hsl. run Hsl. run Hsl. rewrite !zlen_cons, zlen_nil. lia.
  - run H. rename r into s1. run H. pose proof (put_conn_grps _ _ _ _ Hrun1) as Hs.
    unfold ctl_at. rewrite (Hleft s1 _ [] s1 grp (i + 1)); [rewrite zlen_nil; lia|done|by rewrite (Hs shm)].
Qed.

Lemma ctl_left_pos t : 0 ≤ ctl_left t ∧ (ctl_left t ≤ 0 → t_ctl t = CtlIdle).
Proof.
  unfold ctl_left. pose proof (zlen_nonneg (t_todo t)). pose proof (rest_cost_pos true 0).
  destruct (t_ctl t) as [|k|k addr cid|shm g i|shm g i]; [split; [lia|done]|..]; try (split; lia).
  - pose proof (rest_cost_pos shm g). pose proof (rest_cost_pos shm (g + 1)). destruct (_ <? _); split; lia.
  - pose proof (rest_cost_pos shm (g + 1)). split; lia.
Qed.

(** A turn inside [PollCtl]. *)
Lemma ctl_step_left now t w t' w' :
  threads_inv M t w → t_ctl t ≠ CtlIdle → ctl_step stack_header stack_rsp now t w = Ret (t', w') → ctl_left t' < ctl_left t.
Proof.
  intros Ht Hne. unfold ctl_step. destruct (t_todo t) as [|st l] eqn:Hto.
  - destruct (inv_no_todo _ _ _ Ht Hto) as [Hinv Hm]. destruct (t_ctl t) as [|k|k addr cid|shm g i|shm g i] eqn:Hpc; [done|..].
    + destruct (Z.ltb_spec k MaxNewConnections) as [Hk|].
      * by eapply ctl_new_left.
      * intros Hs. run Hs. pose proof (ctl_left_head t (t_srv t) w' true 0 Hinv Hm ltac:(lia)).
        enough (ctl_left t = 5 * Z.max 0 (MaxNewConnections - k) + 1 + rest_cost true 0) by lia. unfold ctl_left. rewrite Hpc, Hto, zlen_nil. lia.
    + intros H. run H. run H. destruct r0 as [c1 w1]. run H. run H. unfold ctl_left. rewrite Hpc, Hto. simpl. lia.
    + by apply ctl_group_left.
    + by apply ctl_try_left.
  - intros H. run H. run H. unfold ctl_left, stored_live. simpl. rewrite Hto. simpl. rewrite Hrun, outcome_bind_Ret, zlen_cons. lia.
Qed.

Lemma ctl_step_enter now t w t' w' :
  t_ctl t = CtlIdle → t_todo t = [] → ctl_step stack_header stack_rsp now t w = Ret (t', w') → ctl_left t' ≤ ctl_turns.
Proof.
  intros Hpc Hto. unfold ctl_step. rewrite Hto, Hpc. intros H. run H. destruct r as [s w1]. run H.
  unfold ctl_left, ctl_turns. simpl. change (zlen (A := store) []) with 0. lia.
Qed.

(** It leaves the polling threads where they are; outside [PollCtl] there are
    no stores left. *)
Lemma ctl_step_frame now t w t' w' :
  ctl_step stack_header stack_rsp now t w = Ret (t', w') →
  t_poll t' = t_poll t ∧ ((t_ctl t = CtlIdle → t_todo t = []) → t_ctl t' = CtlIdle → t_todo t' = []).
Proof.
  unfold ctl_step. destruct (t_todo t) as [|st l] eqn:Hto; intros H.
  - destruct (t_ctl t) as [|k|k addr cid|shm g i|shm g i].
    + run H. destruct r as [s w1]. by run H.
    + destruct (_ <? _); [|by run H]. unfold ctl_new in H. run H. destruct r as [s w1].
      destruct (logged_on _ _) as [[shm g]|]; [|by run H]. run H. destruct r as [cid i]. run H. run H. run H. by run H.
    + run H. run H. destruct r0. run H. by run H.
    + unfold ctl_group in H. destruct (_ <? _); [|by run H]. run H. destruct (_ <? _); [|by run H].
      destruct shm; [|by run H]. run H. run H. run H. destruct r2 as [[p c1] w1]. run H. by run H.
    + unfold ctl_try in H. run H. run H. run H. destruct (TryCloseFd _ _) as [[[] c2] w2].
      * destruct (GetCloseReason c2). run H. destruct r2. run H. run H. by run H.
      * run H. by run H.
  - run H. run H. split; [done|]. intros Hi Hpc'. by specialize (Hi Hpc').
Qed.

(** ** The polling threads *)

(** The slot that is read lies in the group. *)
Lemma reads_size s shm g n i : members_ok M s → reads_ok M s shm g n → 0 ≤ i < n → i < group_size shm g.
Proof.
  intros Hm Hr Hi. destruct (Hr i Hi) as (grp & cid & Hg & Hc & _). rewrite (members_size _ _ _ _ Hm Hg).
  apply get_range in Hc. lia.
Qed.

Lemma reads_stores l polls shm g n : ∀ s s',
  shared_ok M s l polls → do_stores l s = Ret s' → reads_ok M s shm g n → reads_ok M s' shm g n.
Proof.
  induction l as [|st l IH]; intros s s' Hsh H Hr; simpl in H; [by run H|]. run H.
  eapply IH; [by eapply shared_store|exact H|]. eapply reads_store; [|done|done]. destruct Hsh as [_ Hst _]. by inversion Hst.
Qed.

Lemma inv_reads_size t w shm g n i :
  threads_inv M t w → reads_ok M (t_srv t) shm g n → 0 ≤ i < n → i < group_size shm g.
Proof.
  intros [(s & Hst & _ & Hm) _ Hsh] Hr Hi. eapply reads_size; [exact Hm| |exact Hi]. by eapply reads_stores.
Qed.

(** Where a polling thread is inside its function, the slot is in the group. *)
Definition poll_in (p : poller) : Prop :=
  match p_pc p with
  | PollIdle | PollLoop _ _ => True
  | PollVisit _ i _ | PollMsg _ i _ _ => i < group_size (p_shm p) (p_grp p)
  end.

Lemma poll_step_in now reload t w n p p' s' w' :
  threads_inv M t w → t_poll t !! n = Some p → poll_in p → poll_step now reload p (t_srv t) w = Ret (p', s', w') →
  poll_in p' ∧ p_shm p' = p_shm p ∧ p_grp p' = p_grp p ∧
  (p_pc p ≠ PollIdle → poll_left p' < poll_left p) ∧
  (p_pc p = PollIdle → poll_left p' ≤ poll_turns (p_shm p) (p_grp p)).
Proof.
  intros Ht Hn Hin. pose proof Ht as [_ _ [Hl _ Hp]].
  pose proof (Forall_lookup_1 _ _ _ _ Hp Hn) as [[grp Hg] Hpc]. unfold poll_in, poll_left, poll_turns, poll_step in *.
  assert (0 ≤ group_size (p_shm p) (p_grp p)) by apply zlen_nonneg. destruct p as [shm g pnow pc]. simpl in *. rewrite Hg.
  destruct pc as [|cnt i|cnt i cid|cnt i cid h].
  - rewrite outcome_bind_Ret. intros H'. run H'. simpl. split_and!; try done. lia.
  - destruct Hpc as [Hi Hr]. rewrite outcome_bind_Ret. cbv zeta. set (cnt' := if reload then live_cnt grp else cnt).
    assert (reads_ok M (t_srv t) shm g cnt') as Hr' by (subst cnt'; destruct reload; [by apply Hl|done]).
    destruct (Z.ltb_spec i cnt') as [Hlt|_]; intros H'; [|run H'; simpl; split_and!; try done; lia].
    run H'. run H'. simpl. pose proof (inv_reads_size _ _ _ _ _ _ Ht Hr' (conj Hi Hlt)). split_and!; try done. lia.
  - intros H'. run H'. run H'. destruct r0 as [[head c1] w1]. run H'. run H'. destruct head; simpl; split_and!; try done; lia.
  - intros H'. run H'. run H'. destruct r0 as [c1 w1]. run H'. run H'. simpl. split_and!; try done; lia.
Qed.

(** ** What a turn leaves to the others *)

Lemma poll_step_srv now reload p s w p' s' w' :
  poll_step now reload p s w = Ret (p', s', w') → s' = s ∨ ∃ cid c, put_conn s cid c = Ret s'.
Proof.
  unfold poll_step. intros H. destruct (p_pc p).
  - run H. run H. by left.
  - run H. destruct (_ <? _); run H; [run H|]; by left.
  - run H. run H. destruct r0 as [[head c1] w1]. run H. run H. right. by eexists _, _.
  - run H. run H. destruct r0 as [c1 w1]. run H. run H. right. by eexists _, _.
Qed.

Lemma ctl_left_put t s' cid c polls :
  (∃ s, do_stores (t_todo t) (t_srv t) = Ret s) → put_conn (t_srv t) cid c = Ret s' →
  ctl_left (mkThreads s' (t_ctl t) (t_now t) (t_todo t) polls) = ctl_left t.
Proof.
  intros [s Hst] Hput. destruct (put_conn_stores _ _ _ _ _ _ Hst Hput) as (s1 & Hst1 & Hput1).
  assert (∀ shm g, stored_live (mkThreads s' (t_ctl t) (t_now t) (t_todo t) polls) shm g = stored_live t shm g) as Hl.
  { intros shm g. by apply (stored_live_same _ _ s s1); [done|done|eapply put_conn_grps]. }
  unfold ctl_left. simpl. destruct (t_ctl t); by rewrite ?Hl.
Qed.

(** ** Every turn *)

(** What holds at any time: nobody needs more turns than a whole call. *)
Record turns_ok t : Prop := {
  tk_idle : t_ctl t = CtlIdle → t_todo t = [];
  tk_ctl : ctl_left t ≤ ctl_turns;
  tk_poll : ∀ n p, t_poll t !! n = Some p → poll_in p ∧ poll_left p ≤ poll_turns (p_shm p) (p_grp p)
}.

(** A thread: the control thread, or the [n]th polling thread. *)
Definition turn_of (x : option nat) (tn : turn) : bool :=
  match x, tn with
  | None, TurnCtl _ => true
  | Some n, TurnPoll n' _ _ => bool_decide (n = n')
  | _, _ => false
  end.

Definition outside (x : option nat) t : Prop :=
  match x with
  | None => t_ctl t = CtlIdle
  | Some n => match t_poll t !! n with Some p => p_pc p = PollIdle | None => True end
  end.

Definition turns_left (x : option nat) t : Z :=
  match x with
  | None => ctl_left t
  | Some n => match t_poll t !! n with Some p => poll_left p | None => 0 end
  end.

#[export] Instance ctl_idle_dec (pc : ctl_pc) : Decision (pc = CtlIdle).
Proof. destruct pc; by (left + right). Defined.
#[export] Instance poll_idle_dec (pc : poll_pc) : Decision (pc = PollIdle).
Proof. destruct pc; by (left + right). Defined.
#[export] Instance outside_dec x t : Decision (outside x t).
Proof. destruct x as [n|]; simpl; [destruct (t_poll t !! n)|]; apply _. Defined.

Lemma turns_left_outside x t : turns_ok t → turns_left x t ≤ 0 → outside x t.
Proof.
  intros [_ _ Hp]. destruct x as [n|]; simpl; [|apply ctl_left_pos].
  destruct (t_poll t !! n) as [p|] eqn:Hn; [|done]. destruct (Hp _ _ Hn) as [Hin _]. unfold poll_in, poll_left in *.
  destruct (p_pc p); [done|lia..].
Qed.

(** A turn of [x] makes its number smaller, the others' stay. *)
Lemma turn_left tn t w t' w' :
  threads_inv M t w → turns_ok t → turn_step stack_header stack_rsp tn t w = Ret (t', w') →
  turns_ok t' ∧ ∀ x, if turn_of x tn then outside x t ∨ turns_left x t' < turns_left x t
                     else turns_left x t' = turns_left x t ∧ (outside x t → outside x t').
Proof.
  intros Ht Hok H. pose proof Hok as [Hi Hc Hp]. destruct tn as [now|n now reload]; simpl in H.
  - destruct (ctl_step_frame _ _ _ _ _ H) as [Hpoll Hidle].
    destruct (decide (t_ctl t = CtlIdle)) as [He|Hne].
    + pose proof (ctl_step_enter _ _ _ _ _ He (Hi He) H). split; [constructor; [auto|done|by rewrite Hpoll]|].
      intros [n|]; simpl; [by rewrite Hpoll|by left].
    + pose proof (ctl_step_left _ _ _ _ _ Ht Hne H). split; [constructor; [auto|lia|by rewrite Hpoll]|].
      intros [n|]; simpl; [by rewrite Hpoll|by right].
  - destruct (t_poll t !! n) as [p|] eqn:Hn.
    2: { run H. split; [done|]. intros [m|]; simpl; [|done]. case_bool_decide; [subst; left; by rewrite Hn|done]. }
    run H. destruct r as [[p' s'] w1]. run H. destruct (Hp _ _ Hn) as [Hin Hle].
    destruct (poll_step_in _ _ _ _ _ _ _ _ _ Ht Hn Hin Hrun) as (Hin' & Hsh & Hgr & Hless & Hent).
    assert (ctl_left (mkThreads s' (t_ctl t) (t_now t) (t_todo t) (<[n:=p']> (t_poll t))) = ctl_left t) as Hctl.
    { destruct (poll_step_srv _ _ _ _ _ _ _ _ Hrun) as [->|(cid & c & Hput)]; [done|].
      destruct (ti_server _ _ _ Ht) as (s & Hst & _). eapply ctl_left_put; eauto. }
    pose proof (lookup_lt_Some _ _ _ Hn) as Hlen. split.
    + constructor; simpl; [done|by rewrite Hctl|]. intros m q. destruct (decide (m = n)) as [->|Hne].
      * rewrite list_lookup_insert_eq by done. intros [= <-]. split; [done|]. rewrite Hsh, Hgr.
        destruct (decide (p_pc p = PollIdle)) as [He|Hne]; [by apply Hent|]. specialize (Hless Hne). lia.
      * rewrite list_lookup_insert_ne by done. apply Hp.
    + intros [m|]; simpl; [|done]. case_bool_decide as Hm.
      * subst m. rewrite list_lookup_insert_eq, Hn by done.
        destruct (decide (p_pc p = PollIdle)) as [He|Hne]; [by left|right; by apply Hless].
      * by rewrite list_lookup_insert_ne.
Qed.

(** ** Runs *)

Lemma start_turns_ok s groups : turns_ok (start_threads s groups).
Proof.
  assert (∀ shm g, 0 ≤ group_size shm g) as Hg by (intros; apply zlen_nonneg).
  constructor; [done| |].
  - unfold ctl_left, ctl_turns. simpl. pose proof (rest_cost_pos true 0). change (zlen (A := store) []) with 0. lia.
  - intros n p (g & -> & _)%list_lookup_fmap_Some. split; [done|]. unfold poll_left, poll_turns. simpl. specialize (Hg g.1 g.2). lia.
Qed.

Lemma thread_step_turns t w t' w' :
  threads_inv M t w → turns_ok t → thread_step stack_header stack_rsp t w t' w' → turns_ok t'.
Proof.
  intros Ht Hok [tn t1 w1 H|cid c c' s' w1 _ _ Hput]; [by eapply turn_left|]. destruct Hok as [Hi Hc Hp].
  constructor; simpl; [done| |done]. destruct (ti_server _ _ _ Ht) as (s & Hst & _). by erewrite ctl_left_put by eauto.
Qed.

Fixpoint own_turns (x : option nat) (l : list turn) : Z :=
  match l with [] => 0 | tn :: l => (if turn_of x tn then 1 else 0) + own_turns x l end.

Lemma own_turns_pos x l : 0 ≤ own_turns x l.
Proof. induction l as [|tn l IH]; simpl; [done|]. destruct (turn_of x tn); lia. Qed.

(** The groups of the polling threads. *)
Definition poll_groups t : list (bool * Z) := (λ p, (p_shm p, p_grp p)) <$> t_poll t.

(** The most turns of a call of [x]. *)
Definition call_turns (groups : list (bool * Z)) (x : option nat) : Z :=
  match x with
  | None => ctl_turns
  | Some n => match groups !! n with Some (shm, g) => poll_turns shm g | None => 0 end
  end.

Lemma turns_left_le x t : turns_ok t → turns_left x t ≤ call_turns (poll_groups t) x.
Proof.
  intros [_ Hc Hp]. destruct x as [n|]; simpl; [|done]. unfold poll_groups. rewrite list_lookup_fmap.
  destruct (t_poll t !! n) eqn:Hn; simpl; [by eapply Hp|done].
Qed.

Lemma poll_step_group now reload p s w p' s' w' :
  poll_step now reload p s w = Ret (p', s', w') → p_shm p' = p_shm p ∧ p_grp p' = p_grp p.
Proof.
  unfold poll_step. intros H. destruct (p_pc p).
  - run H. by run H.
  - run H. destruct (_ <? _); run H; [run H|]; done.
  - run H. run H. destruct r0 as [[head c1] w1]. run H. by run H.
  - run H. run H. destruct r0 as [c1 w1]. run H. by run H.
Qed.

Lemma thread_step_groups t w t' w' : thread_step stack_header stack_rsp t w t' w' → poll_groups t' = poll_groups t.
Proof.
  intros [[now|n now reload] t1 w1 H|cid c c' s' w1 _ _ Hput]; unfold poll_groups; simpl in *; [..|done].
  - by apply ctl_step_frame in H as [-> _].
  - destruct (t_poll t !! n) as [p|] eqn:Hn; [|by run H]. run H. destruct r as [[p' s'] w2]. run H. simpl.
    apply poll_step_group in Hrun as [Hs Hg]. rewrite list_fmap_insert. apply list_insert_id.
    rewrite list_lookup_fmap, Hn. simpl. by rewrite Hs, Hg.
Qed.

Lemma threads_reach_groups s0 w0 groups t w :
  threads_reach stack_header stack_rsp s0 w0 groups t w → poll_groups t = groups.
Proof.
  induction 1 as [|t w t' w' _ IH Hs]; [|by rewrite (thread_step_groups _ _ _ _ Hs)].
  unfold poll_groups. simpl. rewrite <-list_fmap_compose. induction groups as [|[shm g] l IH]; [done|]. by rewrite fmap_cons, IH.
Qed.

Lemma outside_turns_left x t : turns_ok t → outside x t → turns_left x t = 0.
Proof.
  intros [Hi _ _]. destruct x as [n|]; simpl.
  - destruct (t_poll t !! n) as [p|]; [|done]. unfold poll_left. by intros ->.
  - intros He. unfold ctl_left. by rewrite He, Hi.
Qed.
End ends.

(** At every point of every interleaving. *)
Lemma threads_reach_turns {conf : Conf} {ud : UserData} {W} {os : Os W} {mmq : MmapOs W PTCPQueue} {mms : MmapOs W SPSCVarQueue}
    {los : LoginOs W} {user : ServerUser W} {fv : FdView W} {laws : FdLaws W} {llaws : LoginFdLaws W}
    {qlaws : MmapFdLaws W PTCPQueue} {slaws : MmapFdLaws W SPSCVarQueue} {ulaws : ServerUserLaws W}
    (HN : 1 < NameSize) stack_header stack_rsp s0 (w0 : W) groups t w :
  server_inv s0 w0 → groups_ok s0 groups → threads_reach stack_header stack_rsp s0 w0 groups t w →
  turns_ok (members s0) t.
Proof.
  intros Hinv Hg. induction 1 as [|t w t' w' Ht IH Hs]; [apply start_turns_ok|].
  eapply thread_step_turns; [|exact IH|exact Hs]. by eapply (threads_reach_inv HN).
Qed.
