(* ===== verification/ThreadsCalls.v ===== *)
(** * What a turn waits for

    A turn of [ServerThreads] is tests, loads and stores around at most one
    call.  [call_stuck] says that this call does not return: [HandleLogin] for
    a new connection, [TcpFront] or [ShmFront] of a connection, or a callback.
    Nothing else can keep a turn from its end ([turn_returns]): every load and
    store of the control thread and of the polling threads is inside its array,
    at every point of every interleaving.  So a thread that gets its turns
    leaves the function it is in, or a call is stuck on the way
    ([run_outside]). *)

From stdpp Require Import gmap.
From S2P Require Import Prelude.
From S2P Require Import Arrays.
From S2P Require Import MsgHeader.
From S2P Require Import PtcpQueue.
From S2P Require Import SpscQueue.
From S2P Require Import Platform.
From S2P Require Import PtcpConn.
From S2P Require Import TcpShmConn.
From S2P Require Import Login.
From S2P Require Import Descriptors.
From S2P Require Import Server.
From S2P Require Import ServerTable.
From S2P Require Import ServerInv.
From S2P Require Import ServerThreads.
From S2P Require Import ServerLogon.
From S2P Require Import ThreadsInv.
From S2P Require Import ThreadsAlone.
From S2P Require Import ThreadsEnd.

(** A call without a result: undefined, or it does not end. *)
Definition no_result {A} (m : outcome A) : Prop := match m with Ret _ => False | _ => True end.

Lemma no_result_or {A} (m : outcome A) : no_result m ∨ ∃ a, m = Ret a.
Proof. destruct m; simpl; eauto. Qed.

Section calls.
Context {conf : Conf} {ud : UserData} {W : Type} {os : Os W}.
Context {mmq : MmapOs W PTCPQueue} {mms : MmapOs W SPSCVarQueue}.
Context {los : LoginOs W} {user : ServerUser W}.
Context {fv : FdView W} {laws : FdLaws W} {llaws : LoginFdLaws W}.
Context {qlaws : MmapFdLaws W PTCPQueue} {slaws : MmapFdLaws W SPSCVarQueue}.
Context {ulaws : ServerUserLaws W}.
Context (HN : 1 < NameSize).
Context (stack_header : MsgHeader) (stack_rsp : LoginRspMsg).
Implicit Types (s : TcpShmServer) (t : threads) (w : W).

(** ** The calls *)

(** A login has arrived on the new connection [k], and [HandleLogin] of it,
    without its last call [OnClientLogon], does not return. *)
Definition login_stuck s (k now : Z) w : Prop :=
  ∃ conn header login w1 s1,
    get (new_conns_ s) k = Ret conn ∧ 0 ≤ nc_fd conn ∧ os_recv_login (nc_fd conn) w = (RecvFull header login, w1) ∧
    (mh_size (ConvertByteOrder is_little_endian ToLittleEndian header) =? sizeof_MsgHeader + sizeof_LoginMsg) &&
    (mh_msg_type (ConvertByteOrder is_little_endian ToLittleEndian header) =? LoginMsg_msg_type) = true ∧
    put_new_conn s k (set_nc_recvbuf conn (ConvertByteOrder is_little_endian ToLittleEndian header)
      (LoginMsg_ConvertByteOrder login)) = Ret s1 ∧
    no_result (HandleLogin (user := no_logon) stack_header stack_rsp s1
      (negb (use_shm (LoginMsg_ConvertByteOrder login) =? 0)) k now w1).

(** The call of the turn [tn] does not return. *)
Definition call_stuck (tn : turn) t w : Prop :=
  let s := t_srv t in
  match tn with
  | TurnCtl _ =>
      t_todo t = [] ∧
      match t_ctl t with
      | CtlIdle => False
      | CtlNew k => k < MaxNewConnections ∧ login_stuck s k (t_now t) w
      | CtlLogon _ addr cid =>
          ∃ conn, get (conn_pool_ s) cid = Ret conn ∧ no_result (OnClientLogon addr conn w)
      | CtlGroup shm g i =>
          shm = true ∧ ∃ grp cid conn, get (grps s shm) g = Ret grp ∧ i < live_cnt grp ∧
            get (conns grp) i = Ret cid ∧ get (conn_pool_ s) cid = Ret conn ∧ no_result (TcpFront conn (t_now t) w)
      | CtlTry shm g i =>
          ∃ grp cid conn conn' w', get (grps s shm) g = Ret grp ∧ get (conns grp) i = Ret cid ∧
            get (conn_pool_ s) cid = Ret conn ∧ TryCloseFd conn w = (true, conn', w') ∧
            no_result (OnClientDisconnected conn' (GetCloseReason conn').1 (GetCloseReason conn').2 w')
      end
  | TurnPoll n _ _ =>
      ∃ p, t_poll t !! n = Some p ∧
      match p_pc p with
      | PollIdle | PollLoop _ _ => False
      | PollVisit _ _ cid =>
          ∃ conn, get (conn_pool_ s) cid = Ret conn ∧
            if p_shm p then no_result (ShmFront conn) else no_result (TcpFront conn (p_now p) w)
      | PollMsg _ _ cid head =>
          ∃ conn, get (conn_pool_ s) cid = Ret conn ∧ no_result (OnClientMsg conn head w)
      end
  end.

(** ** Loads and stores *)

Lemma put_conn_ok s cid c c' : get (conn_pool_ s) cid = Ret c → ∃ s', put_conn s cid c' = Ret s'.
Proof. intros Hc%get_range. unfold put_conn. rewrite put_in_range by done. by eexists. Qed.

Lemma put_new_conn_ok s k c c' : get (new_conns_ s) k = Ret c → ∃ s', put_new_conn s k c' = Ret s'.
Proof. intros Hc%get_range. unfold put_new_conn. rewrite put_in_range by done. by eexists. Qed.

Lemma swap_stores_in shm g cs i j :
  0 ≤ i < zlen cs → 0 ≤ j < zlen cs → ∃ l, swap_stores shm g cs i j = Ret l.
Proof.
  intros [x Hx]%get_in_range [y Hy]%get_in_range. unfold swap_stores. rewrite Hx, outcome_bind_Ret, Hy. by eexists.
Qed.

(** The connection in a slot of a group. *)
Lemma slot_conn s w shm g grp i cid :
  server_inv s w → get (grps s shm) g = Ret grp → get (conns grp) i = Ret cid → ∃ c, get (conn_pool_ s) cid = Ret c.
Proof.
  intros Hinv Hg%grps_lookup [_ Hi]%get_lookup. pose proof (t_groups _ _ (inv_table _ _ Hinv)) as Hf.
  rewrite Forall_lookup in Hf. destruct (Hf _ _ Hg) as (_ & row & Hrow & _).
  destruct (Forall2_lookup_l _ _ _ _ _ Hrow Hi) as (c & _ & Hc). by exists c.
Qed.

(** ** Where the control thread is *)

(** Its indices are not negative, and the connection that logs on is in the
    pool. *)
Definition pc_ok t : Prop :=
  match t_ctl t with
  | CtlIdle => True
  | CtlNew k => 0 ≤ k
  | CtlLogon k _ cid => 0 ≤ k ∧ 0 ≤ cid < zlen (conn_pool_ (t_srv t))
  | CtlGroup _ g i | CtlTry _ g i => 0 ≤ g ∧ 0 ≤ i
  end.

Lemma put_conn_zlen s cid c s' : put_conn s cid c = Ret s' → zlen (conn_pool_ s') = zlen (conn_pool_ s).
Proof. intros [_ ->]%put_conn_inv. unfold zlen. simpl. by rewrite length_insert. Qed.

Lemma pc_ok_pool t s' now todo polls :
  zlen (conn_pool_ s') = zlen (conn_pool_ (t_srv t)) → pc_ok t → pc_ok (mkThreads s' (t_ctl t) now todo polls).
Proof. unfold pc_ok. simpl. by intros ->. Qed.

(** ** The control thread's turns *)

Lemma inv_new_conn s w k : server_inv s w → 0 ≤ k < MaxNewConnections → ∃ c, get (new_conns_ s) k = Ret c.
Proof. intros Hinv Hk. apply get_in_range. by rewrite (inv_new _ _ Hinv). Qed.

Lemma accept_returns s now w : server_inv s w → ∃ r, PollCtl_accept s now w = Ret r.
Proof.
  intros Hinv. unfold PollCtl_accept. destruct (Z.eqb_spec (avail_idx_ s) MaxNewConnections); [by eexists|].
  destruct (inv_avail _ _ Hinv) as [?|(c & Hc & _)]; [done|]. rewrite Hc, outcome_bind_Ret.
  destruct (os_accept _ _) as [[[fd addr]|e] w1].
  - destruct (put_new_conn_ok s _ _ (mkNewConn now fd addr (nc_header c) (nc_login c)) Hc) as [s1 ->]. by eexists.
  - destruct (put_new_conn_ok s _ _ (set_nc_fd c (-1)) Hc) as [s1 ->]. by eexists.
Qed.

Lemma close_returns s w0 k w : server_inv s w0 → 0 ≤ k < MaxNewConnections → ∃ r, PollCtl_close s k w = Ret r.
Proof.
  intros Hinv Hk. destruct (inv_new_conn _ _ _ Hinv Hk) as [c Hc]. unfold PollCtl_close.
  rewrite Hc, outcome_bind_Ret. destruct (_ <=? _); [|by eexists].
  destruct (put_new_conn_ok s k c (set_nc_fd c (-1)) Hc) as [s1 ->]. by eexists.
Qed.

(** The handling of a new connection. *)
Lemma new_returns s w k now :
  server_inv s w → 0 ≤ k < MaxNewConnections →
  login_stuck s k now w ∨ ∃ r, PollCtl_new (user := no_logon) stack_header stack_rsp s k now w = Ret r.
Proof.
  intros Hinv Hk. destruct (inv_new_conn _ _ _ Hinv Hk) as [c Hc]. unfold PollCtl_new. rewrite Hc, outcome_bind_Ret.
  destruct (Z.ltb_spec (nc_fd c) 0) as [|Hfd]; [right; by eexists|].
  pose proof (fd_recv_login (nc_fd c) w) as Hw. destruct (os_recv_login _ _) as [r w1] eqn:Hrecv. simpl in Hw.
  assert (server_inv s w1) as Hinv1 by by eapply inv_world.
  destruct r as [h login|n|e]; [|right; by eapply close_returns|].
  2: { destruct (_ && _); [right; by eexists|]. right. by eapply close_returns. }
  assert (∀ c1, nc_fd c1 = nc_fd c → ∃ s1, put_new_conn s k c1 = Ret s1 ∧ server_inv s1 w1) as Hput.
  { intros c1 Hc1. destruct (put_new_conn_ok s k c c1 Hc) as [s1 Hs1]. exists s1. split; [done|].
    by apply (inv_put_new HN s w1 k c c1 s1). }
  unfold PollCtl_login. rewrite Hc, outcome_bind_Ret. cbv zeta.
  destruct (_ && _) eqn:Hmsg; set (c1 := set_nc_recvbuf c _ _); destruct (Hput c1 eq_refl) as (s1 & Hs1 & Hinv2);
    rewrite Hs1, outcome_bind_Ret; [|right; by eapply close_returns].
  destruct (no_result_or (HandleLogin (user := no_logon) stack_header stack_rsp s1
    (negb (use_shm (LoginMsg_ConvertByteOrder login) =? 0)) k now w1)) as [Hno|[[s2 w2] Hl]].
  - left. exists c, h, login, w1, s1. split_and!; done.
  - right. rewrite Hl, outcome_bind_Ret. eapply close_returns; [|done].
    eapply (HandleLogin_inv (user := no_logon) HN _ _ s1 _ k c1); [exact Hinv2|by eapply put_new_conn_get|done|exact Hl].
Qed.

Context (M : bool → list (list Z)).

Lemma ctl_new_returns t k w :
  threads_inv M t w → t_todo t = [] → 0 ≤ k < MaxNewConnections →
  login_stuck (t_srv t) k (t_now t) w ∨
  ∃ t' w', ctl_new stack_header stack_rsp t k w = Ret (t', w') ∧ pc_ok t'.
Proof.
  intros Ht Hto Hk. destruct (inv_no_todo _ _ _ Ht Hto) as [Hinv _]. unfold ctl_new.
  destruct (new_returns _ _ k (t_now t) Hinv Hk) as [?|[[s' w1] Hnew]]; [by left|right].
  pose proof (PollCtl_new_inv (user := no_logon) HN _ _ _ _ _ _ _ _ Hinv Hnew) as Hinv'.
  pose proof (PollCtl_new_effect (user := no_logon) HN _ _ _ _ _ _ _ _ Hnew) as [_ Hg].
  rewrite Hnew, outcome_bind_Ret.
  destruct Hg as [Hs|(shm & g & i & cid & grp & cs & nc & L & _ & Hnc & _ & _)].
  { rewrite logged_on_same by done. eexists _, _. split; [done|]. unfold pc_ok. simpl. lia. }
  rewrite (logged_on_login L), (logged_conn_inv _ _ _ _ _ _ _ _ _ Hinv L), outcome_bind_Ret, Hnc, outcome_bind_Ret.
  destruct (login_stores_run _ _ _ _ _ _ _ _ L) as (l & _ & Hls & _ & _). pose proof L as [Hg Hi _ _].
  rewrite Hg, outcome_bind_Ret, Hls, outcome_bind_Ret. eexists _, _. split; [done|]. unfold pc_ok. simpl. split; [lia|].
  destruct (slot_conn _ _ _ _ _ (live_cnt grp) cid Hinv' (login_grp_after L)) as [c Hc].
  - simpl. destruct L as [_ Hi' Hsw _]. by eapply swap_get.
  - apply get_range in Hc. by destruct shm.
Qed.

Lemma ctl_group_returns t shm g i w now :
  threads_inv M t w → t_todo t = [] → t_ctl t = CtlGroup shm g i → 0 ≤ g → 0 ≤ i →
  call_stuck (TurnCtl now) t w ∨ ∃ t' w', ctl_group t shm g i w = Ret (t', w') ∧ pc_ok t'.
Proof.
  intros Ht Hto Hpc Hg0 Hi0. destruct (inv_no_todo _ _ _ Ht Hto) as [Hinv _].
  unfold call_stuck, ctl_group. rewrite Hpc. set (s := t_srv t) in *.
  assert (∀ s' pc, match pc with CtlLogon _ _ _ => False | _ => pc_ok (ctl_at t s' pc) end → pc_ok (ctl_at t s' pc)) as Hat
    by (intros s' []; done).
  destruct (Z.ltb_spec g (zlen (grps s shm))) as [Hlt|].
  2: { right. eexists _, _. split; [done|]. apply Hat. by destruct shm. }
  destruct (get_in_range (grps s shm) g) as [grp Hg]; [lia|]. rewrite Hg, outcome_bind_Ret.
  destruct (Z.ltb_spec i (live_cnt grp)) as [Hi|].
  2: { right. eexists _, _. split; [done|]. apply Hat. unfold pc_ok. simpl. lia. }
  destruct shm; [|right; eexists _, _; split; [done|]; by apply Hat].
  destruct (live_named _ _ _ _ _ Hinv Hg) as (Hl & _ & _).
  destruct (get_in_range (conns grp) i) as [cid Hcid]; [lia|].
  destruct (slot_conn _ _ _ _ _ _ _ Hinv Hg Hcid) as [c Hc].
  rewrite Hcid, outcome_bind_Ret, Hc, outcome_bind_Ret.
  destruct (no_result_or (TcpFront c (t_now t) w)) as [Hno|[[[p c1] w1] Hf]].
  - left. split; [done|]. split; [done|]. exists grp, cid, c. by split_and!.
  - right. rewrite Hf, outcome_bind_Ret. destruct (put_conn_ok _ _ _ c1 Hc) as [s1 ->]. eexists _, _. split; [done|].
    by apply Hat.
Qed.

Lemma ctl_try_returns t shm g i w now :
  threads_inv M t w → t_ctl t = CtlTry shm g i → 0 ≤ g → 0 ≤ i →
  call_stuck (TurnCtl now) t w ∨ ∃ t' w', ctl_try t shm g i w = Ret (t', w') ∧ pc_ok t'.
Proof.
  intros Ht Hpc Hg0 Hi0. pose proof (ti_ctl _ _ _ Ht) as Hc. unfold ctl_ok in Hc. rewrite Hpc in Hc.
  destruct Hc as (Hto & grp & Hg & Hlive). destruct (inv_no_todo _ _ _ Ht Hto) as [Hinv _].
  destruct (live_named _ _ _ _ _ Hinv Hg) as (Hl & Hz & _).
  destruct (get_in_range (conns grp) i) as [cid Hcid]; [lia|].
  destruct (slot_conn _ _ _ _ _ _ _ Hinv Hg Hcid) as [c Hc].
  unfold call_stuck, ctl_try. rewrite Hpc, Hg, outcome_bind_Ret, Hcid, outcome_bind_Ret, Hc, outcome_bind_Ret.
  destruct (TryCloseFd c w) as [[closed c2] w2] eqn:Htry. destruct closed.
  2: { right. destruct (put_conn_ok _ _ _ c2 Hc) as [s1 ->]. eexists _, _. split; [done|]. unfold pc_ok. simpl. lia. }
  destruct (GetCloseReason c2) as [reason e] eqn:Hreason.
  destruct (no_result_or (OnClientDisconnected c2 reason e w2)) as [Hno|[[c3 w3] Hd]].
  - left. split; [done|]. exists grp, cid, c, c2, w2. by rewrite Hreason.
  - right. rewrite Hd, outcome_bind_Ret. destruct (put_conn_ok _ _ _ c3 Hc) as [s1 ->]. rewrite outcome_bind_Ret.
    destruct (swap_stores_in shm g (conns grp) i (live_cnt grp - 1)) as [l Hsw]; [lia..|].
    unfold logout_stores. rewrite u32_small, Hsw by lia. eexists _, _. split; [done|]. done.
Qed.

Lemma ctl_step_returns now t w :
  threads_inv M t w → pc_ok t →
  call_stuck (TurnCtl now) t w ∨ ∃ t' w', ctl_step stack_header stack_rsp now t w = Ret (t', w') ∧ pc_ok t'.
Proof.
  intros Ht Hok. unfold ctl_step. destruct (t_todo t) as [|st l] eqn:Hto.
  2: { right. destruct (ti_server _ _ _ Ht) as (s & Hst & _). rewrite Hto in Hst. simpl in Hst. run Hst.
       rewrite Hrun, outcome_bind_Ret. eexists _, _. split; [done|]. apply (pc_ok_pool t); [|done].
       by rewrite (do_store_pool _ _ _ Hrun). }
  destruct (inv_no_todo _ _ _ Ht Hto) as [Hinv _]. unfold pc_ok in Hok.
  destruct (t_ctl t) as [|k|k addr cid|shm g i|shm g i] eqn:Hpc.
  - right. destruct (accept_returns _ now _ Hinv) as [[s1 w1] ->]. eexists _, _. split; [done|]. unfold pc_ok. simpl. lia.
  - destruct (Z.ltb_spec k MaxNewConnections) as [Hk|].
    + destruct (ctl_new_returns _ k _ Ht Hto) as [?|?]; [lia| |by right]. left. unfold call_stuck. by rewrite Hpc.
    + right. eexists _, _. split; [done|]. done.
  - destruct (get_in_range (conn_pool_ (t_srv t)) cid) as [c Hc]; [lia|]. rewrite Hc, outcome_bind_Ret.
    destruct (no_result_or (OnClientLogon addr c w)) as [Hno|[[c1 w1] Hl]].
    + left. unfold call_stuck. rewrite Hpc. split; [done|]. by exists c.
    + right. rewrite Hl, outcome_bind_Ret. destruct (put_conn_ok _ _ _ c1 Hc) as [s1 ->]. eexists _, _. split; [done|].
      unfold pc_ok. simpl. lia.
  - destruct Hok. by apply ctl_group_returns.
  - destruct Hok. by apply ctl_try_returns.
Qed.

(** ** The turns of a polling thread *)

(** The loads of a polling thread that is at no connection. *)
Lemma poll_loads t w n p now reload :
  threads_inv M t w → t_poll t !! n = Some p →
  match p_pc p with PollIdle | PollLoop _ _ => True | _ => False end →
  ∃ p', poll_step now reload p (t_srv t) w = Ret (p', t_srv t, w).
Proof.
  intros [_ _ [Hl _ Hp]] Hn Hw. pose proof (Forall_lookup_1 _ _ _ _ Hp Hn) as [[grp Hgrp] Hpc]. unfold poll_step.
  destruct (p_pc p) as [|cnt i|cnt i cid|cnt i cid h]; try done; rewrite Hgrp, outcome_bind_Ret; [by eexists|].
  destruct Hpc as [Hi Hrd]. cbv zeta. destruct (Z.ltb_spec i (if reload then live_cnt grp else cnt)); [|by eexists].
  assert (reads_ok M (t_srv t) (p_shm p) (p_grp p) (if reload then live_cnt grp else cnt)) as Hrd'
    by (destruct reload; [by apply Hl|done]).
  destruct (Hrd' i) as (grp' & cid & Hgrp' & Hcid & _); [lia|]. rewrite Hgrp in Hgrp'. injection Hgrp' as <-.
  rewrite Hcid. by eexists.
Qed.

Lemma poll_step_returns now reload t w n p :
  threads_inv M t w → t_poll t !! n = Some p →
  call_stuck (TurnPoll n now reload) t w ∨ ∃ p' s' w', poll_step now reload p (t_srv t) w = Ret (p', s', w').
Proof.
  intros Ht Hn. pose proof Ht as [_ _ [_ _ Hp]]. pose proof (Forall_lookup_1 _ _ _ _ Hp Hn) as [_ Hpc].
  pose proof (poll_loads t w n p now reload Ht Hn) as Hload. unfold poll_step, call_stuck in *.
  destruct (p_pc p) as [|cnt i|cnt i cid|cnt i cid h] eqn:He.
  1,2: right; destruct (Hload I) as [p' ->]; by eexists _, _, _.
  - destruct Hpc as (_ & _ & _ & c & Hc & _). rewrite Hc, outcome_bind_Ret.
    assert (no_result (if p_shm p then '(head, conn) ← ShmFront c; Ret (head, conn, w) else TcpFront c (p_now p) w) ↔
      (if p_shm p then no_result (ShmFront c) else no_result (TcpFront c (p_now p) w))) as Hiff.
    { destruct (p_shm p); [|done]. by destruct (ShmFront c) as [[head c1]| |]. }
    destruct (no_result_or (if p_shm p then '(head, conn) ← ShmFront c; Ret (head, conn, w) else TcpFront c (p_now p) w))
      as [Hno%Hiff|[[[head c1] w1] ->]].
    + left. exists p. rewrite He. split; [done|]. by exists c.
    + right. rewrite outcome_bind_Ret. destruct (put_conn_ok _ _ _ c1 Hc) as [s1 ->]. by eexists _, _, _.
  - destruct Hpc as (_ & _ & _ & c & Hc & _). rewrite Hc, outcome_bind_Ret.
    destruct (no_result_or (OnClientMsg c h w)) as [Hno|[[c1 w1] ->]].
    + left. exists p. rewrite He. split; [done|]. by exists c.
    + right. rewrite outcome_bind_Ret. destruct (put_conn_ok _ _ _ c1 Hc) as [s1 ->]. by eexists _, _, _.
Qed.

(** ** Every turn *)

Lemma login_stuck_no_result s k now w :
  login_stuck s k now w → no_result (PollCtl_new (user := no_logon) stack_header stack_rsp s k now w).
Proof.
  intros (c & h & login & w1 & s1 & Hc & Hfd & Hrecv & Hmsg & Hput & Hno). unfold PollCtl_new, PollCtl_login.
  rewrite Hc, outcome_bind_Ret, (proj2 (Z.ltb_ge _ _) Hfd), Hrecv, outcome_bind_Ret. cbv zeta.
  rewrite Hmsg, Hput, outcome_bind_Ret. by destruct (HandleLogin _ _ _ _ _ _ _).
Qed.

Lemma no_result_bind {A B} (m : outcome A) (f : A → outcome B) : no_result m → no_result (m ≫= f).
Proof. by destruct m. Qed.

(** A turn whose call is stuck does not end. *)
Lemma stuck_no_result tn t w : call_stuck tn t w → no_result (turn_step stack_header stack_rsp tn t w).
Proof.
  destruct tn as [now|n now reload]; cbn [turn_step]; unfold call_stuck.
  - unfold ctl_step. intros [-> H]. destruct (t_ctl t) as [|k|k addr cid|shm g i|shm g i]; [done|..].
    + destruct H as [Hk Hl%login_stuck_no_result]. rewrite (proj2 (Z.ltb_lt _ _) Hk). by apply no_result_bind.
    + destruct H as (c & Hc & Hno). rewrite Hc, outcome_bind_Ret. by apply no_result_bind.
    + destruct H as (-> & grp & cid & c & Hg & Hi & Hcid & Hc & Hno). unfold ctl_group.
      pose proof (get_range _ _ _ Hg). rewrite (proj2 (Z.ltb_lt _ _)) by lia.
      rewrite Hg, outcome_bind_Ret, (proj2 (Z.ltb_lt _ _) Hi), Hcid, outcome_bind_Ret, Hc, outcome_bind_Ret.
      by apply no_result_bind.
    + destruct H as (grp & cid & c & c' & w' & Hg & Hcid & Hc & Htry & Hno). unfold ctl_try.
      rewrite Hg, outcome_bind_Ret, Hcid, outcome_bind_Ret, Hc, outcome_bind_Ret, Htry.
      destruct (GetCloseReason c'). by apply no_result_bind.
  - intros (p & -> & H). apply no_result_bind. unfold poll_step. destruct (p_pc p) as [|cnt i|cnt i cid|cnt i cid h]; try done.
    + destruct H as (c & Hc & Hno). rewrite Hc, outcome_bind_Ret. apply no_result_bind.
      destruct (p_shm p); [by apply no_result_bind|done].
    + destruct H as (c & Hc & Hno). rewrite Hc, outcome_bind_Ret. by apply no_result_bind.
Qed.

(** A turn ends, or its call is stuck. *)
Lemma turn_returns tn t w :
  threads_inv M t w → pc_ok t →
  call_stuck tn t w ∨ ∃ t' w', turn_step stack_header stack_rsp tn t w = Ret (t', w') ∧ pc_ok t'.
Proof.
  intros Ht Hok. destruct tn as [now|n now reload]; [by apply ctl_step_returns|].
  cbn [turn_step]. destruct (t_poll t !! n) as [p|] eqn:Hn; [|right; by eexists _, _].
  destruct (poll_step_returns now reload _ _ _ _ Ht Hn) as [?|(p' & s' & w' & H)]; [by left|right].
  rewrite H. eexists _, _. split; [done|]. apply pc_ok_pool; [|done].
  destruct (poll_step_srv _ _ _ _ _ _ _ _ H) as [->|(cid & c & Hput)]; [done|]. by eapply put_conn_zlen.
Qed.

Lemma thread_step_pc t w t' w' :
  threads_inv M t w → pc_ok t → thread_step stack_header stack_rsp t w t' w' → pc_ok t'.
Proof.
  intros Ht Hok [tn t1 w1 H|cid c c' s' w1 _ _ Hput]; [|by apply pc_ok_pool; [eapply put_conn_zlen|]].
  destruct (turn_returns tn _ _ Ht Hok) as [Hst%stuck_no_result|(t2 & w2 & H2 & ?)]; [by rewrite H in Hst|congruence].
Qed.

(** The turns [l] from [t] on: they lead to a point at which [P] holds, or to
    a turn whose call is stuck. *)
Definition leads_to (l : list turn) t w (P : threads → Prop) : Prop :=
  (∃ l1 l2 t1 w1, l = l1 ++ l2 ∧ run_turns stack_header stack_rsp l1 t w = Ret (t1, w1) ∧ P t1) ∨
  (∃ l1 tn l2 t1 w1, l = l1 ++ tn :: l2 ∧ run_turns stack_header stack_rsp l1 t w = Ret (t1, w1) ∧ call_stuck tn t1 w1).

Lemma leads_to_turn tn l t w t1 w1 P :
  turn_step stack_header stack_rsp tn t w = Ret (t1, w1) → leads_to l t1 w1 P → leads_to (tn :: l) t w P.
Proof.
  intros H [(l1 & l2 & t2 & w2 & -> & Hr & HP)|(l1 & tn' & l2 & t2 & w2 & -> & Hr & HP)]; [left|right].
  - exists (tn :: l1), l2, t2, w2. split_and!; [done| |done]. simpl. by rewrite H, outcome_bind_Ret.
  - exists (tn :: l1), tn', l2, t2, w2. split_and!; [done| |done]. simpl. by rewrite H, outcome_bind_Ret.
Qed.

(** In a run to the end no call is stuck. *)
Lemma returned_leads_to l t w r P :
  run_turns stack_header stack_rsp l t w = Ret r → leads_to l t w P →
  ∃ l1 l2 t1 w1, l = l1 ++ l2 ∧ run_turns stack_header stack_rsp l1 t w = Ret (t1, w1) ∧ P t1.
Proof.
  intros H [?|(l1 & tn & l2 & t1 & w1 & -> & Hr & Hst%stuck_no_result)]; [done|]. exfalso.
  rewrite run_turns_app, Hr, outcome_bind_Ret in H. simpl in H.
  by destruct (turn_step _ _ _ _ _).
Qed.

(** A thread that gets the turns it needs comes to the end of its function. *)
Lemma run_outside x l : ∀ t w,
  threads_inv M t w → turns_ok M t → pc_ok t → turns_left M x t ≤ own_turns x l → leads_to l t w (outside x).
Proof.
  induction l as [|tn l IH]; intros t w Ht Hok Hpc Hle; simpl in Hle.
  { left. exists [], [], t, w. split_and!; [done|done|]. by eapply turns_left_outside. }
  destruct (decide (outside x t)) as [Hout|Hin]; [by left; exists [], (tn :: l), t, w|].
  destruct (turn_returns tn t w Ht Hpc) as [Hst|(t1 & w1 & Hrun & Hpc1)]; [by right; exists [], tn, l, t, w|].
  destruct (turn_left _ _ _ _ _ _ _ _ Ht Hok Hrun) as [Hok1 Hx]. specialize (Hx x).
  assert (threads_inv M t1 w1) as Ht1 by (eapply (thread_step_inv HN); [exact Ht|by eapply ts_turn]).
  eapply leads_to_turn; [exact Hrun|]. apply IH; [done..|].
  destruct (turn_of x tn); [destruct Hx as [?|?]; [done|lia]|lia].
Qed.
End calls.

(** At every point of every interleaving. *)
Lemma threads_reach_pc {conf : Conf} {ud : UserData} {W} {os : Os W} {mmq : MmapOs W PTCPQueue} {mms : MmapOs W SPSCVarQueue}
    {los : LoginOs W} {user : ServerUser W} {fv : FdView W} {laws : FdLaws W} {llaws : LoginFdLaws W}
    {qlaws : MmapFdLaws W PTCPQueue} {slaws : MmapFdLaws W SPSCVarQueue} {ulaws : ServerUserLaws W}
    (HN : 1 < NameSize) stack_header stack_rsp s0 (w0 : W) groups t w :
  server_inv s0 w0 → groups_ok s0 groups → threads_reach stack_header stack_rsp s0 w0 groups t w → pc_ok t.
Proof.
  intros Hinv Hg. induction 1 as [|t w t' w' Ht IH Hs]; [done|].
  eapply (thread_step_pc HN _ _ (members s0)); [|exact IH|exact Hs]. by eapply (threads_reach_inv HN).
Qed.
