(* ===== verification/ServerRun.v ===== *)
(** * The process of a server program

    What [Run] and [main] of the class [EchoServer] of [test/] and of the one
    of [crypto_market_example/] have in common: [Start], the threads in some
    order of turns until all have ended, [Stop].  The state [M] of the
    threads, with those of [ServerThreads] in it, and what they do are the
    program's. *)

From S2P Require Import Prelude.
From S2P Require Import Arrays.
From S2P Require Import MsgHeader.
From S2P Require Import PtcpQueue.
From S2P Require SpscQueue.
From S2P Require Import Platform.
From S2P Require PtcpConn.
From S2P Require Import TcpShmConn.
From S2P Require Import Login.
From S2P Require Import Server.
From S2P Require Import ServerThreads.

Section program.
Context {conf : Conf} {ud : UserData} {W : Type} {os : Os W}.
Context {mmq : MmapOs W PTCPQueue} {mms : MmapOs W SpscQueue.SPSCVarQueue}.
Context {los : LoginOs W} {user : ServerUser W}.
Context {M : Type} (start : TcpShmServer → M) (threads_of : M → threads).
Context (run : M → W → outcome (M * W)) (joined : M → bool).

(** A polling thread for every group. *)
Definition Run_groups : list (bool * Z) :=
  ((λ i, (false, i)) <$> seqZ 0 MaxTcpGrps) ++ ((λ i, (true, i)) <$> seqZ 0 MaxShmGrps).

(** The control thread and the polling threads are outside the functions of
    the server. *)
Definition threads_idle (t : threads) : bool :=
  match t_ctl t, t_todo t with
  | CtlIdle, [] => forallb (λ p, match p_pc p with PollIdle => true | _ => false end) (t_poll t)
  | _, _ => false
  end.

(** [None]: [Start] failed.  A schedule that does not bring the threads to
    their ends is too short. *)
Definition Run (listen_ipv4 : list Z) (listen_port : Z) (s : TcpShmServer) (w : W) : outcome (option M * TcpShmServer * W) :=
  let '(ok, s, w) := Start s listen_ipv4 listen_port w in
  if negb ok then Ret (None, s, w) else
  '(m, w) ← run (start s) w;
  if joined m then
    '(s, w) ← Stop (t_srv (threads_of m)) w;
    Ret (Some m, s, w)
  else NoFuel.

(** [main]; [junk_name] and [junk_conn] are uninitialised memory.  At its end
    [~TcpShmServer] stops the server once more. *)
Definition main (junk_name : list Z) (junk_conn : NewConn) (w : W) : outcome (option M * TcpShmServer * W) :=
  '(s, w) ← new_TcpShmServer (chars "server") (chars "server") junk_name junk_conn w;
  '(m, s, w) ← Run (chars "0.0.0.0") 12345 s w;
  '(s, w) ← Stop s w;
  Ret (m, s, w).
End program.
