(* ===== verification/ServerRunProps.v ===== *)
(** * What a server program leaves

    When [main] returns, for every program whose threads are those of
    [tcpshm_server.h] with its groups ([run_reach]), whether or not [Start]
    succeeded, no socket is open, and when it did every connection is closed
    and forgotten ([main_stops]). *)

From stdpp Require Import gmap.
From S2P Require Import Prelude.
From S2P Require Import Arrays.
From S2P Require Import MsgHeader.
From S2P Require Import PtcpQueue.
From S2P Require SpscQueue.
From S2P Require Import Platform.
From S2P Require PtcpConn.
From S2P Require Import TcpShmConn.
From S2P Require Import Login.
From S2P Require Import Server.
From S2P Require Import Descriptors.
From S2P Require Import ServerTable.
From S2P Require Import ServerInv.
From S2P Require Import ServerThreads.
From S2P Require Import ThreadsInv.
From S2P Require Import ServerListen.
From S2P Require Import ServerRun.

(** ** A new server *)

Section new.
Context {conf : Conf} {ud : UserData} {W : Type} {os : Os W}.
Context {mmq : MmapOs W PTCPQueue} {mms : MmapOs W SpscQueue.SPSCVarQueue}.
Context {los : LoginOs W} {user : ServerUser W}.

Lemma new_groups_empty n : ∀ m cnt, Forall (λ grp, live_cnt grp = 0) (new_groups n m cnt).
Proof. induction n as [|n IH]; intros m cnt; [done|]. cbn [new_groups]. by constructor. Qed.

Lemma new_groups_length n : ∀ m cnt, length (new_groups n m cnt) = n.
Proof. induction n as [|n IH]; intros m cnt; [done|]. cbn [new_groups length]. by rewrite IH. Qed.

(** Nobody is logged on, and there are the groups that [Run] polls. *)
Lemma new_server_groups name dir junk_name junk_conn (w : W) s w' :
  0 ≤ MaxShmGrps → 0 ≤ MaxTcpGrps → new_TcpShmServer name dir junk_name junk_conn w = Ret (s, w') →
  Forall (λ grp, live_cnt grp = 0) (all_grps s) ∧ groups_ok s Run_groups.
Proof.
  unfold new_TcpShmServer. intros Hs Ht H. run H. run H. cbv zeta in H. run H. split.
  - unfold all_grps. simpl. apply Forall_app. split; apply new_groups_empty.
  - unfold groups_ok, Run_groups, zlen. apply Forall_app. split; apply Forall_fmap, Forall_forall; simpl;
      intros i Hi%elem_of_seqZ; simpl; rewrite new_groups_length; lia.
Qed.
End new.

Section program.
Context {conf : Conf} {ud : UserData} {W : Type} {os : Os W}.
Context {mmq : MmapOs W PTCPQueue} {mms : MmapOs W SpscQueue.SPSCVarQueue}.
Context {los : LoginOs W} {user : ServerUser W}.
Context {fv : FdView W} {laws : FdLaws W} {llaws : LoginFdLaws W}.
Context {qlaws : MmapFdLaws W PTCPQueue} {slaws : MmapFdLaws W SpscQueue.SPSCVarQueue}.
Context {ulaws : ServerUserLaws W}.
Context (HN : 1 < NameSize) (Hconf : ServerConf_ok).
Context (stack_header : MsgHeader) (stack_rsp : LoginRspMsg).
Context {M : Type} (start : TcpShmServer → M) (threads_of : M → threads).
Context (run : M → W → outcome (M * W)) (joined : M → bool).
Implicit Types (s : TcpShmServer) (w : W) (m : M).
Abbreviation main := (ServerRun.main start threads_of run joined).

Lemma groups_confs : 0 ≤ MaxShmGrps ∧ 0 ≤ MaxTcpGrps.
Proof. by destruct Hconf. Qed.

(** The server that [main] starts. *)
Record started s w : Prop := {
  st_reach : reachable stack_header stack_rsp s w;
  st_live : Forall (λ grp, live_cnt grp = 0) (all_grps s);
  st_groups : groups_ok s Run_groups;
  st_listen : 0 ≤ listenfd_ s
}.

Lemma started_inv s w : started s w → server_inv s w.
Proof. intros [Hr _ _ _]. by eapply (server_reachable_inv HN). Qed.

Lemma new_started name dir junk_name junk_conn w s w1 ip port s0 w0 :
  open_fds w = ∅ → new_TcpShmServer name dir junk_name junk_conn w = Ret (s, w1) → Start s ip port w1 = (true, s0, w0) →
  started s0 w0.
Proof.
  intros Hw Hn Hst. destruct (new_server_groups _ _ _ _ _ _ _ (proj1 groups_confs) (proj2 groups_confs) Hn) as [Hl Hg].
  assert (∃ fd, 0 ≤ fd ∧ s0 = set_listenfd s fd) as (fd & Hfd & ->).
  { unfold Start in Hst. destruct (0 <=? listenfd_ s); [done|]. destruct (os_socket w1) as [[fd|e] w6] eqn:Hso; [|done].
    apply fd_socket in Hso as (? & _). destruct (start_check _ _ _). simplify_eq. by exists fd. }
  constructor; [|exact Hl|eapply Forall_impl; [exact Hg|]; by intros [[] ?]|done].
  eapply reach_step; [|by eapply step_Start]. by eapply reach_new.
Qed.

Lemma main_started junk_name junk_conn w m s w' :
  open_fds w = ∅ → main junk_name junk_conn w = Ret (Some m, s, w') →
  ∃ s0 w0 w1 s1 w2, started s0 w0 ∧ run (start s0) w0 = Ret (m, w1) ∧
    joined m = true ∧ Stop (t_srv (threads_of m)) w1 = Ret (s1, w2) ∧ Stop s1 w2 = Ret (s, w').
Proof.
  intros Hw H. unfold ServerRun.main in H. run H. destruct r as [s1 w1]. run H. destruct r as [[om s4] w4]. run H.
  destruct r as [s5 w5]. run H. rename Hrun0 into H. unfold Run in H.
  destruct (Start s1 _ _ w1) as [[ok s0] w0] eqn:Hst. destruct ok; simpl in H; [|by run H].
  run H. destruct r as [m1 w2]. destruct (joined m1) eqn:Hj; [|done]. run H. destruct r as [s3 w3]. run H.
  eexists _, w0, w2, _, _. split; [by eapply new_started|split_and!; [exact Hrun0|done|done|done]].
Qed.

(** [Start] failed: the socket, if there is one, is left to the end. *)
Lemma main_not_started junk_name junk_conn w s w' :
  open_fds w = ∅ → main junk_name junk_conn w = Ret (None, s, w') → open_fds w' = ∅.
Proof.
  intros Hw H. unfold ServerRun.main in H. run H. destruct r as [s1 w1]. run H. destruct r as [[om s4] w4]. run H.
  destruct r as [s5 w5]. run H. rename Hrun0 into H. unfold Run in H.
  destruct (Start s1 _ _ w1) as [[ok s0] w0] eqn:Hst. destruct ok; simpl in H.
  { run H. destruct r as [m1 w2]. destruct (joined m1); [|done]. run H. destruct r as [s3 w3]. discriminate H. }
  run H. assert (open_fds w1 = ∅ ∧ listenfd_ s1 = -1) as [Hw1 Hl1].
  { unfold new_TcpShmServer in Hrun. repeat (run Hrun). by rewrite fd_mkdir. }
  assert (server_inv s4 w4) as Hinv.
  { eapply (Start_inv (os := os) (mmq := mmq) (mms := mms) (ulaws := ulaws)); [|exact Hst].
    assert (reachable stack_header stack_rsp s1 w1) as Hr by (eapply reach_new; [exact Hw|exact Hrun]).
    by eapply (server_reachable_inv HN). }
  destruct (Stop_ok _ _ _ _ Hinv Hrun1) as [_ Hok].
  destruct (Z.ltb_spec (listenfd_ s4) 0) as [Hneg|Hpos]; [|by apply Hok].
  unfold Stop in Hrun1. rewrite (proj2 (Z.ltb_lt _ _) Hneg) in Hrun1. run Hrun1.
  unfold Start in Hst. rewrite Hl1 in Hst. simpl in Hst. destruct (os_socket w1) as [[fd|e] w6] eqn:Hso; apply fd_socket in Hso.
  - destruct (start_check _ _ _). simplify_eq. destruct Hso as [? _]. simpl in Hneg. lia.
  - simplify_eq. simpl. by rewrite user_system_error, Hso.
Qed.

Context (run_reach : ∀ s0 w0 m w, run (start s0) w0 = Ret (m, w) →
  threads_reach stack_header stack_rsp s0 w0 Run_groups (threads_of m) w).
Context (joined_todo : ∀ m, joined m = true → t_todo (threads_of m) = []).

Lemma main_stops junk_name junk_conn w r s w' :
  open_fds w = ∅ → main junk_name junk_conn w = Ret (r, s, w') →
  open_fds w' = ∅ ∧ (is_Some r → Forall (grp_stopped (conn_pool_ s)) (all_grps s)).
Proof.
  intros Hw H. destruct r as [m|]; [|split; [by eapply main_not_started|by intros [? ?]]].
  destruct (main_started _ _ _ _ _ _ Hw H) as (s0 & w0 & w1 & s1 & w2 & Hs & Hrun & Hj & Hst & Hst2).
  pose proof (run_reach _ _ _ _ Hrun) as Hr.
  assert (threads_inv (members s0) (threads_of m) w1) as Ht.
  { apply (threads_reach_inv HN stack_header stack_rsp s0 w0 Run_groups); [by apply started_inv|by destruct Hs|done]. }
  destruct (inv_no_todo _ _ _ Ht (joined_todo _ Hj)) as [Hinv _].
  destruct (Stop_ok _ _ _ _ Hinv Hst) as [_ Hok]. pose proof (thread_listenfd _ _ _ _ _ _ _ Hr) as Hl.
  destruct Hok as (Hl1 & Hfd & Hg); [rewrite Hl; by destruct Hs|].
  assert (s = s1 ∧ w' = w2) as [-> ->] by (unfold Stop in Hst2; rewrite Hl1 in Hst2; simpl in Hst2; by run Hst2).
  done.
Qed.
End program.
