(* ===== verification/ServerLogin.v ===== *)
(** * What a login does to the server

    [HandleLogin] either rejects the client, changes neither the groups nor
    any socket and touches at most one connection, which is not live
    ([login_rejected]), or makes a connection live
    ([login_accepted]).  [resume_ok]: the numbers that [CheckAckInQueue]
    accepts are those with which [Open] resumes the connection. *)

From S2P Require Import Prelude.
From S2P Require Import Arrays.
From S2P Require Import MsgHeader.
From S2P Require Import PtcpQueue.
From S2P Require Import PtcpQueueInv.
From S2P Require Import SpscQueue.
From S2P Require Import Platform.
From S2P Require Import PtcpConn.
From S2P Require Import PtcpConnRecv.
From S2P Require Import PtcpConnSend.
From S2P Require Import TcpShmConn.
From S2P Require Import Login.
From S2P Require Import Server.
From S2P Require Import Descriptors.
From S2P Require Import ServerTable.
From S2P Require Import ServerInv.

(** ** The check of the numbers *)

(** [CheckAckInQueue] accepts the numbers from the start to the end. *)
Lemma CheckAck_spec a s n :
  0 ≤ a < 4294967296 → 0 ≤ n < 2147483648 →
  CheckAckInQueue a s (u32 (s + n)) = true ↔ ∃ k, 0 ≤ k ≤ n ∧ a = u32 (s + k).
Proof.
  intros Ha Hn. unfold CheckAckInQueue. rewrite andb_true_iff, !Z.leb_le. split.
  - intros [H1 H2]. exists (i32 (u32 (a - s))). word_lia.
  - intros (k & Hk & ->). rewrite !u32_sub_l, u32_sub_r, !i32_u32 by lia. lia.
Qed.

Lemma CheckAck_same n : CheckAckInQueue n n n = true.
Proof. unfold CheckAckInQueue. by rewrite !Z.sub_diag. Qed.

(** ** Resuming a connection *)

Section resume.
Context {conf : Conf} {W : Type} `{laws : OsLaws W}.
Context (HC : Conf_ok).

Abbreviation live_rep := (live_rep TcpQueueSize ToLittleEndian is_little_endian).
Abbreviation queue_rep := (queue_rep TcpQueueSize ToLittleEndian is_little_endian).

(** The connection [c], its queue [q] from a file of whatever history, opened
    with the number [ra] that the peer has acknowledged: the messages before
    [ra] are dropped, and all others go out again. *)
Definition resumed (c : TcpShmConnection) (q : PTCPQueue) (fd ra now : Z) (w : W) : Prop :=
  ∃ ms1 ms2 c' w' q',
    live_rep q (ms1 ++ ms2) ∧ ra = u32 (read_seq_num_ q + Z.of_nat (length ms1)) ∧
    Open c fd ra now w = Ret (c', w') ∧ q_ (ptcp_conn_ c') = Some q' ∧
    queue_rep q' ms2 ∧ read_seq_num_ q' = ra ∧ ack_seq_num_ q' = ack_seq_num_ q ∧
    (conn_sock c' = fd ∧ (∃ ws, concat ms2 = ws ++ unsent q' ∧ only_sent fd w w' (words_bytes ws)) ∨
     conn_sock c' = -1 ∧ (∃ bs rest, words_bytes (concat ms2) = bs ++ rest ∧ only_sent fd w w' bs)).

Lemma GetSeq_ack c q local :
  shm_sendq_ c = None → q_ (ptcp_conn_ c) = Some q → GetSeq c (mkSeqs 0 0 0) = Ret (true, local) →
  sq_local_ack local = ack_seq_num_ q.
Proof.
  intros Hshm Hq Hseq. unfold GetSeq in Hseq. rewrite Hshm in Hseq. run Hseq. destruct r as [ack r].
  unfold PtcpConn.GetSeq in Hrun. rewrite Hq in Hrun. run Hrun. run Hrun.
  by destruct r as [[st en]|]; run Hseq.
Qed.

Lemma resume_ok c q fd ra now w local :
  shm_sendq_ c = None → q_ (ptcp_conn_ c) = Some q →
  file_ok TcpQueueSize q → GetSeq c (mkSeqs 0 0 0) = Ret (true, local) →
  0 ≤ ra < 4294967296 → 0 ≤ fd → CheckAckInQueue ra (sq_start local) (sq_end local) = true →
  resumed c q fd ra now w.
Proof.
  intros Hshm Hq Hfile Hseq Hra Hfd Hchk. unfold GetSeq in Hseq. rewrite Hshm in Hseq.
  apply outcome_bind_inv in Hseq as ([ack r] & Hget & Hseq).
  destruct r as [[st en]|]; [|done]. injection Hseq as <-. simpl in Hchk.
  unfold PtcpConn.GetSeq in Hget. rewrite Hq in Hget.
  apply outcome_bind_inv in Hget as (r & Hchkq & Hget). injection Hget as <- ->.
  destruct (SanityCheck_sound _ _ _ (conf_queue HC) q _ st en Hfile Hchkq) as (ms & Hl & -> & -> & _).
  assert (0 ≤ Z.of_nat (length ms) < 2147483648) as Hlen.
  { pose proof (live_rep_count _ _ _ (conf_queue HC) _ _ Hl). lia. }
  apply CheckAck_spec in Hchk as (k & Hk & ->); [|done..].
  set (ms1 := take (Z.to_nat k) ms). set (ms2 := drop (Z.to_nat k) ms).
  assert (Z.of_nat (length ms1) = k) as Hk1 by (subst ms1; rewrite length_take; lia).
  assert (ms = ms1 ++ ms2) as Hms by (subst ms1 ms2; by rewrite take_drop). rewrite Hms in Hl.
  assert (ack_dist q (u32 (read_seq_num_ q + k)) = Z.of_nat (length ms1)) as Hd.
  { unfold ack_dist. rewrite u32_sub_l, i32_u32 by lia. lia. }
  destruct (Open_ok HC (ptcp_conn_ c) fd _ now w q ms1 ms2 Hq Hl Hra Hfd Hd) as
    (t & w' & q1 & q' & Hopen & _ & Hq' & Hrep & Hrs & Hak & Hsent & _).
  exists ms1, ms2, (set_ptcp_conn c t), w', q'. rewrite Hk1. split_and!; try done.
  unfold Open. by rewrite Hopen.
Qed.
End resume.

(** ** The outcome of a login *)

Section outcome.
Context {conf : Conf} {ud : UserData} {W : Type} {os : Os W}.
Context {mmq : MmapOs W PTCPQueue} {mms : MmapOs W SPSCVarQueue}.
Context {los : LoginOs W} {user : ServerUser W}.
Context {fv : FdView W} {laws : FdLaws W} {llaws : LoginFdLaws W}.
Context {qlaws : MmapFdLaws W PTCPQueue} {slaws : MmapFdLaws W SPSCVarQueue}.
Context {ulaws : ServerUserLaws W}.
Context (HN : 1 < NameSize).
Context (stack_header : MsgHeader) (stack_rsp : LoginRspMsg).

(** The client's name, cut to the array. *)
Definition login_name (login : LoginMsg) : list Z :=
  take (Z.to_nat (NameSize - 1)) (c_str (client_name login)).

(** The queue of [co] is taken over as [cc], from the number [ra] on, and [la]
    is the number that the client is told: it starts afresh when the client's
    last server had another name, or the numbers of both sides agree. *)
Inductive login_checked (server : list Z) (nc : NewConn) (co : TcpShmConnection) :
    TcpShmConnection → Z → Z → Prop :=
  | login_afresh cc :
      strncmp_eq (last_server_name (nc_login nc)) server NameSize = false → Reset co = Ret cc →
      login_checked server nc co cc 0 0
  | login_agreed local :
      strncmp_eq (last_server_name (nc_login nc)) server NameSize = true →
      GetSeq co (mkSeqs 0 0 0) = Ret (true, local) →
      CheckAckInQueue (mh_ack_seq (nc_header nc)) (sq_start local) (sq_end local) = true →
      CheckAckInQueue (sq_local_ack local) (client_seq_start (nc_login nc))
        (client_seq_end (nc_login nc)) = true →
      login_checked server nc co co (mh_ack_seq (nc_header nc)) (sq_local_ack local).

(** From the file to the callback: the connection [c] ends as [c']. *)
Record login_opened (server : list Z) (nc : NewConn) (c : TcpShmConnection) (now : Z) (c' : TcpShmConnection)
    (co cc c1 : TcpShmConnection) (ra la : Z) (header : MsgHeader) (rsp : LoginRspMsg) (w2 w3 : W) : Prop := {
  lo_file : ∃ w0 w1, OpenFile c (negb (use_shm (nc_login nc) =? 0)) w0 = (None, co, w1);
  lo_checked : login_checked server nc co cc ra la;
  lo_sent : ∃ w, os_send_rsp (nc_fd nc) (header, rsp) w = (SysOk (buffer_size sizeof_LoginRspMsg), w2);
  lo_status : status rsp = 0;
  lo_ack : mh_ack_seq header = Convert is_little_endian ToLittleEndian 4 la;
  lo_open : Open cc (nc_fd nc) ra now w2 = Ret (c1, w3);
  lo_user : ∃ w, user_calls c1 w3 c' w
}.

(** The login of the client on the new connection [k] succeeds: [c], which
    has the client's name and was not live, takes the socket of [k] over and
    becomes the last live connection of its group. *)
Record login_accepted (s s' : TcpShmServer) (shm : bool) (g i cid k : Z) (nc : NewConn)
    (c : TcpShmConnection) (now : Z) : Prop := {
  la_before : ∃ grp, get (grps s shm) g = Ret grp ∧ get (conns grp) i = Ret cid ∧ live_cnt grp ≤ i ∧
    ∃ grp' c', get (grps s' shm) g = Ret grp' ∧ live_cnt grp' = u32 (live_cnt grp + 1) ∧
      swapped (conns grp) (conns grp') (Z.to_nat i) (Z.to_nat (live_cnt grp)) ∧
      get (conn_pool_ s') cid = Ret c' ∧ conn_name c' = conn_name c ∧ conn_fd c' = nc_fd nc;
  la_opened : ∃ c' co cc c1 ra la header rsp w2 w3,
    get (conn_pool_ s') cid = Ret c' ∧
    login_opened (server_name_ s) nc c now c' co cc c1 ra la header rsp w2 w3;
  la_new : get (new_conns_ s') k = Ret (set_nc_fd nc (-1))
}.

(** The connection [c] in the pool has changed by calls that leave its sockets
    and its name alone. *)
Definition rejected_at (s s' : TcpShmServer) (cid : Z) (c : TcpShmConnection) : Prop :=
  ∃ c', conn_kept c c' ∧ put_conn s cid c' = Ret s'.

(** The login of the client [name] on the new connection [k] fails: the groups
    and all descriptors stay, and no other new connection is touched.  At most
    one connection of the pool is another one: it is in a group, in a slot
    that is not live (or it had no name, as no live one has), keeps its
    descriptor, and its name unless it had none and is given the client's. *)
Record login_rejected (s s' : TcpShmServer) (shm : bool) (k : Z) (name : list Z) : Prop := {
  lr_grps sh : grps s' sh = grps s sh;
  lr_fds : fds s' = fds s;
  lr_new j : j ≠ Z.to_nat k → new_conns_ s' !! j = new_conns_ s !! j;
  lr_pool : conn_pool_ s' = conn_pool_ s ∨
    ∃ g i grp cid c c', get (grps s shm) g = Ret grp ∧ get (conns grp) i = Ret cid ∧ (live_cnt grp ≤ i ∨ conn_name c = []) ∧
      get (conn_pool_ s) cid = Ret c ∧ conn_pool_ s' = <[Z.to_nat cid := c']> (conn_pool_ s) ∧ conn_fd c' = conn_fd c ∧
      (conn_sock c' = conn_sock c ∨ conn_sock c' = -1) ∧ (conn_name c' = conn_name c ∨ conn_name c = [] ∧ conn_name c' = name)
}.

Lemma rejected_refl s shm k name : login_rejected s s shm k name.
Proof. constructor; auto. Qed.

Lemma HandleLogin_finish_outcome s shm g i cid k grp nc c h r co cc l rm now w0 w1 w s' w' :
  login_slot s shm g i cid k grp nc c → live_cnt grp ≤ i →
  OpenFile c (negb (use_shm (nc_login nc) =? 0)) w0 = (None, co, w1) → conn_kept c cc →
  (CheckAckInQueue (sq_local_ack rm) (sq_start l) (sq_end l) = true →
   CheckAckInQueue (sq_local_ack l) (sq_start rm) (sq_end rm) = true →
   login_checked (server_name_ s) nc co cc (sq_local_ack rm) (sq_local_ack l)) →
  HandleLogin_finish s shm g i cid k h r cc l rm now w = Ret (s', w') →
  rejected_at s s' cid c ∨ login_accepted s s' shm g i cid k nc c now.
Proof.
  intros [Hg Hi Hc Hk Hfd Hnm] Hlive Hopen Hcc Hchk. unfold HandleLogin_finish. intros H.
  rewrite Hk, outcome_bind_Ret in H. cbv zeta in H.
  destruct (CheckAckInQueue (sq_local_ack rm) _ _) eqn:Hc1; simpl in H;
    [destruct (CheckAckInQueue (sq_local_ack l) _ _) eqn:Hc2; simpl in H|].
  - specialize (Hchk eq_refl eq_refl).
    match type of H with context [os_send_rsp ?a ?b ?c] => destruct (os_send_rsp a b c) as [sent w2] eqn:Hs end.
    destruct (sent_all _ _) eqn:Hsent.
    + run H. destruct r0 as [c1 w3]. run H. run H. run H. run H. run H. run H. destruct r5 as [c2 w4].
      run H. run H. right.
      apply put_conn_inv in Hrun0 as [Hr1 ->]. apply put_new_conn_inv in Hrun1 as [Hr2 ->].
      unfold put_grp in Hrun4. run Hrun4. apply put_insert in Hrun0 as [Hr3 ->]. run Hrun4.
      apply swap_swapped in Hrun3 as (_ & _ & Hsw).
      change (get (grps s shm) g = Ret r2) in Hrun2. rewrite Hg in Hrun2. injection Hrun2 as <-.
      pose proof (user_logon _ _ _ _ _ Hrun5) as Hcalls. apply user_logon, user_calls_kept in Hrun5 as [Hk2 _].
      pose proof (put_conn_get _ _ _ _ Hrun6) as Hget. apply put_conn_inv in Hrun6 as [Hr4 ->].
      pose proof (Open_conn_fds _ _ _ _ _ _ _ Hrun) as (Hfd1 & _ & _ & _ & Hrn1 & _).
      constructor.
      * exists grp. do 3 (split; [done|]). eexists _, c2. split_and!.
        -- destruct shm; simpl; (apply get_Ret; split; [lia|]);
             apply list_lookup_insert_eq; unfold zlen, grps in *; simpl in *; lia.
        -- done.
        -- done.
        -- exact Hget.
        -- unfold conn_name. by rewrite (ck_remote _ _ Hk2), Hrn1, (ck_remote _ _ Hcc).
        -- destruct Hk2 as [_ _ _ [-> _]]. done.
      * assert (sent = SysOk (buffer_size sizeof_LoginRspMsg)) as ->.
        { unfold sent_all in Hsent. destruct sent; [|done]. apply Z.eqb_eq in Hsent. by subst. }
        eexists c2, co, cc, c1, _, _, _, _, w2, w3. split; [exact Hget|].
        by econstructor; eauto.
      * destruct shm; simpl in *; (apply get_Ret; split; [lia|]);
          apply list_lookup_insert_eq; unfold zlen in *; lia.
    + run H. run H. left. by exists cc.
  - run H. destruct r0 as [c1 w2]. run H. run H. left. apply user_mismatch in Hrun.
    destruct (user_kept _ _ _ _ _ Hcc Hrun). by exists c1.
  - run H. destruct r0 as [c1 w2]. run H. run H. left. apply user_mismatch in Hrun.
    destruct (user_kept _ _ _ _ _ Hcc Hrun). by exists c1.
Qed.

Lemma HandleLogin_file_error_outcome s cid k h r c cc m e w s' w' :
  get (conn_pool_ s) cid = Ret c → conn_kept c cc →
  HandleLogin_file_error s cid k h r cc m e w = Ret (s', w') → rejected_at s s' cid c.
Proof.
  intros Hc Hcc. unfold HandleLogin_file_error. intros H. run H. run H. destruct r1 as [c1 w1].
  run H. run H. run H. apply user_file_error in Hrun0.
  destruct (user_kept _ _ _ _ _ Hcc Hrun0). by exists c1.
Qed.

Lemma HandleLogin_match_outcome s shm g i cid k grp nc c h r now w s' w' :
  login_slot s shm g i cid k grp nc c →
  HandleLogin_match s shm g i cid k h r now w = Ret (s', w') →
  s' = s ∨ rejected_at s s' cid c ∧ live_cnt grp ≤ i ∨ login_accepted s s' shm g i cid k nc c now.
Proof.
  intros Hls. pose proof Hls as [Hg Hi Hc Hk Hfd Hnm]. unfold HandleLogin_match. intros H.
  rewrite Hk, outcome_bind_Ret, Hg, outcome_bind_Ret, Hc, outcome_bind_Ret in H.
  destruct (Z.ltb_spec i (live_cnt grp)); [run H; run H; by left|right].
  assert (∀ P : Prop, rejected_at s s' cid c ∨ P → rejected_at s s' cid c ∧ live_cnt grp ≤ i ∨ P) as Hor by tauto.
  apply Hor. destruct (OpenFile _ _ _) as [[err co] w1] eqn:Hopen. pose proof (OpenFile_kept _ _ _ _ _ _ Hopen) as [Hco _].
  destruct err; [left; by eapply HandleLogin_file_error_outcome|].
  destruct (strncmp_eq _ _ _) eqn:Hcmp; simpl in H.
  - run H. destruct r0 as [[] local].
    + eapply HandleLogin_finish_outcome; [done|done|exact Hopen|done| |exact H].
      intros H1 H2. by apply (login_agreed _ _ _ local).
    + left. by eapply HandleLogin_file_error_outcome.
  - run H. pose proof (Reset_kept _ _ Hrun).
    eapply HandleLogin_finish_outcome; [done|done|exact Hopen|by etrans| |exact H].
    intros _ _. by apply login_afresh.
Qed.

(** Ending an array with a zero cuts its string. *)
Lemma c_str_cut s : ∀ m, (m < length s)%nat → c_str (<[m := 0]> s) = take m (c_str s).
Proof.
  induction s as [|x s IH]; intros m Hm; simpl in Hm; [lia|]. destruct m as [|m]; [done|]. simpl.
  destruct (x =? 0); [done|]. simpl. f_equal. apply IH. lia.
Qed.

Lemma put_end_login_name login d :
  put (client_name login) (NameSize - 1) 0 = Ret d →
  take (Z.to_nat NameSize) (c_str d) = login_name login.
Proof.
  intros [Hr ->]%put_insert. rewrite c_str_cut by (unfold zlen in Hr; lia). unfold login_name.
  apply take_ge. rewrite length_take. lia.
Qed.

(** The connection that the scan finds: [c], after it has been given the
    client's name if it had none. *)
Definition found (s : TcpShmServer) (shm : bool) (g i cid : Z) (name : list Z) (c : TcpShmConnection) : Prop :=
  ∃ grp c0, get (grps s shm) g = Ret grp ∧ get (conns grp) i = Ret cid ∧ get (conn_pool_ s) cid = Ret c0 ∧
    conn_name c = name ∧ (conn_name c0 = [] ∨ conn_name c0 = name) ∧
    ∃ rn, c = set_remote_name c0 rn.

Lemma login_accepted_named s s1 s' shm g i cid k nc c now :
  login_accepted s1 s' shm g i cid k nc c now → (∀ sh, grps s1 sh = grps s sh) →
  server_name_ s1 = server_name_ s → login_accepted s s' shm g i cid k nc c now.
Proof.
  intros [(grp & ? & H1) Ho ?] Hg Hn. constructor; [exists grp; by rewrite <-Hg| |done]. by rewrite <-Hn.
Qed.

(** The name and what follows it, as one change of the pool. *)
Lemma rejected_named s s1 s' shm g i grp cid k c rn name :
  get (grps s shm) g = Ret grp → get (conns grp) i = Ret cid → get (conn_pool_ s) cid = Ret c →
  put_conn s cid (set_remote_name c rn) = Ret s1 → (live_cnt grp ≤ i ∨ conn_name c = []) →
  (conn_name (set_remote_name c rn) = conn_name c ∨ conn_name c = [] ∧ conn_name (set_remote_name c rn) = name) →
  rejected_at s1 s' cid (set_remote_name c rn) → login_rejected s s' shm k name.
Proof.
  intros Hg Hi Hc [Hr ->]%put_conn_inv Hlive Hname (c' & [Hl Hrn Hd [Hf Hs]] & [_ ->]%put_conn_inv).
  assert (set_conn_pool (set_conn_pool s (<[Z.to_nat cid := set_remote_name c rn]> (conn_pool_ s)))
      (<[Z.to_nat cid := c']> (<[Z.to_nat cid := set_remote_name c rn]> (conn_pool_ s))) =
    set_conn_pool s (<[Z.to_nat cid := c']> (conn_pool_ s))) as He by by rewrite list_insert_insert_eq.
  simpl. rewrite He. constructor.
  - by intros [].
  - destruct (fds_pool s cid c c' Hc) as (j & Hj & ->). rewrite Hf. by apply list_insert_id.
  - done.
  - right. exists g, i, grp, cid, c, c'. assert (conn_name c' = conn_name (set_remote_name c rn)) as -> by (unfold conn_name; by rewrite Hrn).
    by split_and!.
Qed.

Lemma rejected_at_refl s cid c : get (conn_pool_ s) cid = Ret c → rejected_at s s cid c.
Proof.
  intros Hc. exists c. split; [done|]. unfold put_conn. pose proof (get_range _ _ _ Hc). apply get_lookup in Hc as [_ Hc].
  unfold put. rewrite decide_True, list_insert_id by done. by destruct s.
Qed.

Lemma HandleLogin_scan_outcome n : ∀ s shm g i k nc h r now w s' w',
  get (new_conns_ s) k = Ret nc → 0 ≤ nc_fd nc →
  take (Z.to_nat NameSize) (c_str (client_name (nc_login nc))) ≠ [] →
  HandleLogin_scan n s shm g i k h r now w = Ret (s', w') →
  login_rejected s s' shm k (take (Z.to_nat NameSize) (c_str (client_name (nc_login nc)))) ∨
  ∃ i' cid c, found s shm g i' cid (take (Z.to_nat NameSize) (c_str (client_name (nc_login nc)))) c ∧
              login_accepted s s' shm g i' cid k nc c now.
Proof.
  induction n as [|n IH]; intros s shm g i k nc h r now w s' w' Hk Hfd Hcn H;
    cbn [HandleLogin_scan] in H; rewrite Hk, outcome_bind_Ret in H.
  { run H. run H. left. apply rejected_refl. }
  run H. rename r0 into grp. run H. rename r0 into cid. run H. rename r0 into c0.
  run H. rename r0 into ch. cbv zeta in H. run H. rename r0 into rn. run H. rename r0 into s1.
  set (cn := client_name (nc_login nc)) in *. set (c1 := set_remote_name c0 rn) in *.
  pose proof (first_char_name HN _ _ Hrun2) as Hch. pose proof Hrun4 as Hput. pose proof (put_conn_get _ _ _ _ Hput) as Hc1.
  apply put_conn_inv in Hrun4 as [Hr Hs1].
  assert (∀ sh, grps s1 sh = grps s sh) as Hgs by (intros []; by rewrite Hs1).
  assert (rn = remote_name_ c0 → s1 = s) as Hsame.
  { intros ->. subst s1 c1. apply get_lookup in Hrun1 as [_ Hrun1].
    assert (set_remote_name c0 (remote_name_ c0) = c0) as -> by by destruct c0.
    rewrite list_insert_id by done. by destruct s. }
  destruct (strncmp_eq rn cn NameSize) eqn:Hcmp; simpl in H.
  - apply strncmp_eq_spec in Hcmp. change (conn_name c1 = take (Z.to_nat NameSize) (c_str cn)) in Hcmp.
    assert (conn_name c0 = [] ∨ conn_name c0 = take (Z.to_nat NameSize) (c_str cn) ∧ rn = remote_name_ c0) as Hname.
    { destruct (Z.eqb_spec ch 0); [left; by apply Hch|right]. run Hrun3. by split; [exact Hcmp|]. }
    assert (found s shm g i cid (take (Z.to_nat NameSize) (c_str cn)) c1) as Hfound.
    { exists grp, c0. do 3 (split; [done|]). split; [exact Hcmp|]. split; [tauto|by exists rn]. }
    assert (login_slot s1 shm g i cid k grp nc c1) as Hls.
    { constructor; try done; rewrite ?Hgs; try done; [by rewrite Hs1|by rewrite Hcmp]. }
    assert (live_cnt grp ≤ i ∨ conn_name c0 = [] → rejected_at s1 s' cid c1 →
      login_rejected s s' shm k (take (Z.to_nat NameSize) (c_str cn))) as Hrej.
    { intros Hlive. apply (rejected_named s s1 s' shm g i grp cid k c0 rn); try done. rewrite <-Hcmp.
      destruct Hname as [?|[? ->]]; [by right|by left]. }
    destruct (HandleLogin_match_outcome _ _ _ _ _ _ _ _ _ _ _ _ _ _ _ Hls H) as [->|[[Hat Hlive]|Hacc]].
    + left. destruct Hname as [?|[_ ->%Hsame]]; [|apply rejected_refl].
      apply Hrej; [by right|by apply rejected_at_refl].
    + left. apply Hrej; [by left|done].
    + right. exists i, cid, c1. split; [done|]. eapply login_accepted_named; [done|done|by rewrite Hs1].
  - assert (rn = remote_name_ c0) as Hrn.
    { destruct (Z.eqb_spec ch 0) as [|]; [|by run Hrun3].
      apply (strncpy_name HN), strncmp_eq_spec in Hrun3. congruence. }
    rewrite (Hsame Hrn) in H. by eapply IH.
Qed.

(** The new connection after its client's name was terminated. *)
Definition terminated (nc : NewConn) (name : list Z) : NewConn :=
  set_nc_recvbuf nc (nc_header nc) (set_client_name (nc_login nc) name).

(** The whole of [HandleLogin]. *)
Lemma HandleLogin_outcome s shm k nc now w s' w' :
  get (new_conns_ s) k = Ret nc → 0 ≤ nc_fd nc →
  HandleLogin stack_header stack_rsp s shm k now w = Ret (s', w') →
  login_rejected s s' shm k (login_name (nc_login nc)) ∨
  ∃ g i cid c name, found s shm g i cid (login_name (nc_login nc)) c ∧
    login_accepted s s' shm g i cid k (terminated nc name) c now.
Proof.
  intros Hk Hfd. unfold HandleLogin. intros H. rewrite Hk, outcome_bind_Ret in H.
  cbv zeta in H. run H. run H. run H. rename r1 into ch. destruct (Z.eqb_spec ch 0) as [|Hch].
  { run H. run H. left. apply rejected_refl. }
  run H. rename r1 into name. run H. rename r1 into s1.
  set (nc1 := set_nc_recvbuf nc _ _) in *.
  pose proof (put_new_conn_get _ _ _ _ Hrun3) as Hk1. pose proof Hrun3 as [Hr Hs1]%put_new_conn_inv.
  assert (∀ sh, grps s1 sh = grps s sh) as Hg1 by (subst s1; by intros []).
  assert (fds s1 = fds s) as Hf1.
  { subst s1. destruct (fds_new s k nc nc1 Hk) as (j & Hj & ->). by apply list_insert_id. }
  assert (∀ j, j ≠ Z.to_nat k → new_conns_ s1 !! j = new_conns_ s !! j) as Hn1.
  { intros j Hj. subst s1. simpl. by rewrite list_lookup_insert_ne. }
  destruct (OnNewConnection _ _ _ _) as [[grpid rsp] w1]. destruct (grpid <? 0).
  { run H. run H. run H. left. constructor; try done. left. by subst. }
  run H. pose proof (put_end_login_name _ _ Hrun2) as Hname.
  assert (take (Z.to_nat NameSize) (c_str (client_name (nc_login nc1))) ≠ []) as Hne by by eapply put_end_name.
  destruct (HandleLogin_scan_outcome _ _ _ _ _ _ _ _ _ _ _ _ _ Hk1 Hfd Hne H) as
    [[H1 H2 H3 H4]|(i & cid & c & Hfnd & Hacc)].
  - left. simpl in H4. rewrite Hname in H4. constructor.
    + intros sh. by rewrite H1.
    + congruence.
    + intros j Hj. by rewrite H3, Hn1.
    + setoid_rewrite Hg1 in H4. by subst s1.
  - right. exists grpid, i, cid, c, name. split.
    + destruct Hfnd as (grp & c0 & ? & ? & ? & Hn & ? & ?). subst nc1. simpl in *. rewrite Hname in *.
      exists grp, c0. rewrite <-Hg1. subst s1. by split_and!.
    + eapply login_accepted_named; [done|done|by subst s1].
Qed.
End outcome.
