(* ===== verification/Client.v ===== *)
(** * The client ([tcpshm_client.h])

    [TcpShmClient] is the class of the same name.  [server_name_] is the
    mapped [NameSize] bytes of the ".lastserver" file, [None] for
    [nullptr]. *)

From S2P Require Import Prelude.
From S2P Require Import Arrays.
From S2P Require Import MsgHeader.
From S2P Require Import PtcpQueue.
From S2P Require Import SpscQueue.
From S2P Require Import Platform.
From S2P Require Import PtcpConn.
From S2P Require Import TcpShmConn.
From S2P Require Import Login.

Class ClientUser (W : Type) `{LoginOs W} := {
  OnSystemError : string → Z → W → W;
  OnLoginReject : LoginRspMsg → W → W;
  OnLoginSuccess : LoginRspMsg → W → Z * W;
  (* the local numbers; the remote ack, first and last number *)
  OnSeqNumberMismatch : seqs → seqs → W → W;
  OnServerMsg : TcpShmConnection → Z → W → outcome (TcpShmConnection * W);
  OnDisconnected : string → Z → W → W
}.

Section TcpShmClient.
Context {conf : Conf} {ud : UserData} {W : Type} {os : Os W}.
Context {mmq : MmapOs W PTCPQueue} {mms : MmapOs W SPSCVarQueue} {mmn : MmapOs W (list Z)}.
Context {los : LoginOs W} {user : ClientUser W}.

(** What the stack holds where [Connect] puts its message. *)
Context (stack_login : LoginMsg).

Record TcpShmClient := mkClient {
  client_name_ : list Z;
  server_name_ : option (list Z);
  ptcp_dir_ : list Z;
  conn_ : TcpShmConnection
}.

Definition set_conn (c : TcpShmClient) (t : TcpShmConnection) : TcpShmClient :=
  mkClient (client_name_ c) (server_name_ c) (ptcp_dir_ c) t.
Definition set_server_name (c : TcpShmClient) (n : option (list Z)) : TcpShmClient :=
  mkClient (client_name_ c) n (ptcp_dir_ c) (conn_ c).

(** [TcpShmClient(client_name, ptcp_dir)]; the arrays hold [junk] before. *)
Definition new_TcpShmClient (client_name ptcp_dir junk_name junk_remote : list Z) (w : W)
    : outcome (TcpShmClient * W) :=
  name ← strncpy junk_name client_name (NameSize - 1);
  let w := os_mkdir ptcp_dir w in
  name ← put name (NameSize - 1) 0;
  Ret (mkClient name None ptcp_dir (init (new_TcpShmConnection junk_remote) ptcp_dir name), w).

(** [strncpy(a, src, sizeof(a) - 1); a[sizeof(a) - 1] = '\0'] *)
Definition copy_name (dst src : list Z) : outcome (list Z) :=
  name ← strncpy dst src (NameSize - 1);
  put name (NameSize - 1) 0.

(** The name of the last server, mapped unless it is. *)
Definition Connect_name (c : TcpShmClient) (w : W) : outcome (bool * TcpShmClient * W) :=
  match server_name_ c with
  | Some _ => Ret (true, c, w)
  | None =>
      let file := ptcp_dir_ c ++ chars "/" ++ c_str (client_name_ c) ++ chars ".lastserver" in
      match my_mmap NameSize file false w with
      | (inr error_msg, w) => Ret (false, c, OnSystemError error_msg (os_errno w) w)
      | (inl name, w) =>
          remote ← copy_name (remote_name_ (conn_ c)) name;
          Ret (true, set_conn (set_server_name c (Some name)) (set_remote_name (conn_ c) remote), w)
      end
  end.

(** The login message in host order, and the files when a server is known. *)
Definition Connect_message (c : TcpShmClient) (use_shm : bool) (data : LoginUserData) (w : W)
    : outcome (option (MsgHeader * LoginMsg) * TcpShmClient * W) :=
  match server_name_ c with
  | None => Undef
  | Some server =>
      let header := mkMsgHeader (u16 (sizeof_MsgHeader + sizeof_LoginMsg)) LoginMsg_msg_type 0 in
      cname ← copy_name (client_name stack_login) (client_name_ c);
      sname ← copy_name (last_server_name stack_login) server;
      let login := mkLoginMsg 0 0 data (if use_shm then 1 else 0) cname sname in
      ch ← first_char server;
      if ch =? 0 then Ret (Some (header, login), c, w) else
      let '(err, t, w) := OpenFile (conn_ c) use_shm w in
      let c := set_conn c t in
      match err with
      | Some error_msg => Ret (None, c, OnSystemError error_msg (os_errno w) w)
      | None =>
          '(ok, local) ← GetSeq t (mkSeqs 0 0 0);
          if ok : bool then
            Ret (Some (mkMsgHeader (mh_size header) (mh_msg_type header) (sq_local_ack local),
                       set_client_seqs login (sq_start local) (sq_end local)), c, w)
          else Ret (None, c, OnSystemError "Ptcp file corrupt" 0 w)
      end
  end.

(** [if(f(fd) < 0) { OnSystemError(name, errno); close(fd); return false; }] *)
Definition fd_check {A} (fd : Z) (name : string) (r : sysret Z * W) (next : W → option A * W)
    : option A * W :=
  match r with
  | (SysErr errno, w) => (None, os_close fd (OnSystemError name errno w))
  | (SysOk _, w) => next w
  end.

(** A connected socket. *)
Definition Connect_socket (server_ipv4 : list Z) (server_port : Z) (w : W) : option Z * W :=
  match os_socket w with
  | (SysErr errno, w) => (None, OnSystemError "socket" errno w)
  | (SysOk fd, w) =>
      fd_check fd "setsockopt SO_RCVTIMEO" (os_setsockopt fd "SO_RCVTIMEO" w) (λ w,
      fd_check fd "setsockopt SO_RCVTIMEO" (os_setsockopt fd "SO_SNDTIMEO" w) (λ w,
      (if TcpNoDelay
       then fd_check fd "setsockopt TCP_NODELAY" (os_setsockopt fd "TCP_NODELAY" w)
       else λ next, next w) (λ w,
      fd_check fd "connect" (os_connect fd server_ipv4 server_port w) (λ w, (Some fd, w)))))
  end.

(** The exchange of login and reply; the reply in host order. *)
Definition Connect_exchange (fd : Z) (header : MsgHeader) (login : LoginMsg) (w : W)
    : option (MsgHeader * LoginRspMsg) * W :=
  let '(sent, w) := os_send_login fd (ConvertByteOrder is_little_endian ToLittleEndian header,
                                      LoginMsg_ConvertByteOrder login) w in
  if negb (sent_all sent (buffer_size sizeof_LoginMsg)) then
    (None, os_close fd (OnSystemError "send" (match sent with SysErr errno => errno | SysOk _ => 0 end) w))
  else
    let '(r, w) := os_recv_rsp fd w in
    match r with
    | RecvErr errno => (None, os_close fd (OnSystemError "recv" errno w))
    | RecvShort _ => (None, os_close fd (OnSystemError "recv" 0 w))
    | RecvFull header rsp =>
        (Some (ConvertByteOrder is_little_endian ToLittleEndian header, LoginRspMsg_ConvertByteOrder rsp), w)
    end.

(** The server accepted the login on [fd]; a new server name starts the
    connection from scratch. *)
Definition Connect_success (c : TcpShmClient) (use_shm : bool) (fd : Z) (header : MsgHeader)
    (rsp : LoginRspMsg) (w : W) : outcome (bool * TcpShmClient * W) :=
  match server_name_ c with
  | None => Undef
  | Some server =>
      sname ← put (server_name rsp) (NameSize - 1) 0;
      let rsp := Login.set_server_name rsp sname in
      '(ok, c, w) ←
        (if negb (strncmp_eq server sname NameSize) then
           '(t, w) ← Release (conn_ c) w;
           server ← strncpy server sname NameSize;
           remote ← copy_name (remote_name_ t) server;
           let c := set_server_name c (Some server) in
           let '(err, t, w) := OpenFile (set_remote_name t remote) use_shm w in
           match err with
           | Some error_msg =>
               Ret (false, set_conn c t, os_close fd (OnSystemError error_msg (os_errno w) w))
           | None => t ← Reset t; Ret (true, set_conn c t, w)
           end
         else Ret (true, c, w));
      if ok : bool then
        let w := os_set_nonblock fd w in
        let '(now, w) := OnLoginSuccess rsp w in
        '(t, w) ← Open (conn_ c) fd (mh_ack_seq header) now w;
        Ret (true, set_conn c t, w)
      else Ret (false, c, w)
  end.

Definition Connect (c : TcpShmClient) (use_shm : bool) (server_ipv4 : list Z) (server_port : Z)
    (login_user_data : LoginUserData) (w : W) : outcome (bool * TcpShmClient * W) :=
  if negb (IsClosed (conn_ c)) then Ret (false, c, OnSystemError "already connected" 0 w) else
  let '(_, t, w) := TryCloseFd (conn_ c) w in
  '(ok, c, w) ← Connect_name (set_conn c t) w;
  if negb ok then Ret (false, c, w) else
  '(msg, c, w) ← Connect_message c use_shm login_user_data w;
  match msg with
  | None => Ret (false, c, w)
  | Some (sent_header, login) =>
      match Connect_socket server_ipv4 server_port w with
      | (None, w) => Ret (false, c, w)
      | (Some fd, w) =>
          match Connect_exchange fd sent_header login w with
          | (None, w) => Ret (false, c, w)
          | (Some (header, rsp), w) =>
              ch ← first_char (server_name rsp);
              if negb (mh_size header =? sizeof_MsgHeader + sizeof_LoginRspMsg) ||
                 negb (mh_msg_type header =? LoginRspMsg_msg_type) || (ch =? 0)
              then Ret (false, c, os_close fd (OnSystemError "Invalid LoginRsp" 0 w))
              else if status rsp =? 0 then Connect_success c use_shm fd header rsp w
              else if status rsp =? 1 then
                Ret (false, c, os_close fd (OnSeqNumberMismatch
                  (mkSeqs (mh_ack_seq sent_header) (client_seq_start login) (client_seq_end login))
                  (mkSeqs (mh_ack_seq header) (server_seq_start rsp) (server_seq_end rsp)) w))
              else Ret (false, c, os_close fd (OnLoginReject rsp w))
          end
      end
  end.

Definition PollTcp (c : TcpShmClient) (now : Z) (w : W) : outcome (TcpShmClient * W) :=
  '(t, w) ← (if negb (IsClosed (conn_ c)) then
               '(head, t, w) ← TcpFront (conn_ c) now w;
               match head with Some p => OnServerMsg t p w | None => Ret (t, w) end
             else Ret (conn_ c, w));
  let '(closed, t, w) := TryCloseFd t w in
  let c := set_conn c t in
  if closed : bool then
    let '(reason, sys_errno) := GetCloseReason t in
    Ret (c, OnDisconnected reason sys_errno w)
  else Ret (c, w).

Definition PollShm (c : TcpShmClient) (w : W) : outcome (TcpShmClient * W) :=
  '(head, t) ← ShmFront (conn_ c);
  '(t, w) ← match head with Some p => OnServerMsg t p w | None => Ret (t, w) end;
  Ret (set_conn c t, w).

Definition Stop (c : TcpShmClient) (w : W) : outcome (TcpShmClient * W) :=
  let '(c, w) := match server_name_ c with
                 | Some name => (set_server_name c None, my_munmap name w)
                 | None => (c, w)
                 end in
  '(t, w) ← Release (conn_ c) w;
  Ret (set_conn c t, w).

Definition GetConnection (c : TcpShmClient) : TcpShmConnection := conn_ c.
End TcpShmClient.
