(* ===== verification/ClientInv.v ===== *)
(** * The invariant of the client

    [client_inv]: the only socket that is open is the one of the connection,
    if it has one.  Every operation keeps it; a [Connect] that fails leaves no
    socket behind. *)

From stdpp Require Import gmap.
From S2P Require Import Prelude.
From S2P Require Import Arrays.
From S2P Require Import MsgHeader.
From S2P Require Import PtcpQueue.
From S2P Require Import SpscQueue.
From S2P Require Import Platform.
From S2P Require Import PtcpConn.
From S2P Require Import TcpShmConn.
From S2P Require Import Login.
From S2P Require Import Descriptors.
From S2P Require Import ServerTable.
From S2P Require Import Client.

Class ClientUserLaws (W : Type) `{ClientUser W} {os : Os W} {mmq : MmapOs W PTCPQueue}
    {mms : MmapOs W SPSCVarQueue} `{FdView W} : Prop := {
  user_system_error n e w : open_fds (OnSystemError n e w) = open_fds w;
  user_reject r w : open_fds (OnLoginReject r w) = open_fds w;
  user_success r w : open_fds (OnLoginSuccess r w).2 = open_fds w;
  user_mismatch l r w : open_fds (OnSeqNumberMismatch l r w) = open_fds w;
  user_msg c p w c' w' : OnServerMsg c p w = Ret (c', w') → user_calls c w c' w';
  user_disconnected n e w : open_fds (OnDisconnected n e w) = open_fds w
}.

Section client.
Context {conf : Conf} {ud : UserData} {W : Type} {os : Os W}.
Context {mmq : MmapOs W PTCPQueue} {mms : MmapOs W SPSCVarQueue} {mmn : MmapOs W (list Z)}.
Context {los : LoginOs W} {user : ClientUser W}.
Context {fv : FdView W} {laws : FdLaws W} {llaws : LoginFdLaws W}.
Context {qlaws : MmapFdLaws W PTCPQueue} {slaws : MmapFdLaws W SPSCVarQueue} {nlaws : MmapFdLaws W (list Z)}.
Context {ulaws : ClientUserLaws W}.
Context (HN : 1 < NameSize).
Context (stack_login : LoginMsg).

Record client_inv (c : TcpShmClient) (w : W) : Prop := {
  ci_owned : owns (own (conn_fd (conn_ c))) (open_fds w);
  ci_sock : conn_sock (conn_ c) = conn_fd (conn_ c) ∨ conn_sock (conn_ c) < 0
}.

(** No socket at all. *)
Definition no_socket (c : TcpShmClient) (w : W) : Prop :=
  conn_fd (conn_ c) < 0 ∧ conn_sock (conn_ c) < 0 ∧ open_fds w = ∅.

Lemma owns_nil X : owns [] X ↔ X = ∅.
Proof.
  unfold owns. split; [|intros ->; by rewrite elements_empty].
  intros Ho. by apply Permutation_nil, elements_empty_inv, leibniz_equiv in Ho.
Qed.

Lemma owns_one fd : owns [fd] {[fd]}.
Proof. unfold owns. by rewrite elements_singleton. Qed.

Lemma owns_singleton fd X : owns [fd] X → X = {[fd]}.
Proof.
  intros [_ Ho]%owns_spec. apply leibniz_equiv. intros x.
  by rewrite <-Ho, list_elem_of_singleton, elem_of_singleton.
Qed.

Lemma no_socket_inv c w : no_socket c w → client_inv c w.
Proof. intros (H1 & H2 & H3). constructor; [rewrite own_neg by done; by apply owns_nil|by right]. Qed.

(** The connection of [c] after some calls. *)
Lemma client_kept c w t w' :
  client_inv c w → conn_kept (conn_ c) t → open_fds w' = open_fds w → client_inv (set_conn c t) w'.
Proof.
  intros [Ho Hs] [_ _ _ [Hf Hso]] Hw. constructor; simpl; rewrite Hf, ?Hw; [done|]. lia.
Qed.

Lemma no_socket_kept c w t c' w' :
  no_socket c w → fds_kept (ptcp_conn_ (conn_ c)) (ptcp_conn_ t) → conn_ c' = t →
  open_fds w' = open_fds w → no_socket c' w'.
Proof.
  intros (H1 & H2 & H3) [Hf Hso] Ht Hw. unfold no_socket. rewrite Ht, Hf, Hw.
  split_and!; [done|lia|done].
Qed.

(** ** Connect *)

Lemma Connect_name_ok c w ok c' w' :
  no_socket c w → Connect_name c w = Ret (ok, c', w') → no_socket c' w'.
Proof.
  intros Hn. unfold Connect_name. destruct (server_name_ c); [intros H; by run H|].
  match goal with |- context [my_mmap ?n ?f ?b w] => pose proof (my_mmap_fds (T := list Z) n f b w) as Hm;
    destruct (my_mmap n f b w) as [[name|e] w1] end; simpl in Hm; intros H.
  - run H. run H. by apply (no_socket_kept c w (set_remote_name (conn_ c) r)); [|split; [|left]|..].
  - run H. eapply no_socket_kept; [done|reflexivity|done|]. by rewrite user_system_error.
Qed.

Lemma Connect_message_ok c b d w m c' w' :
  no_socket c w → Connect_message stack_login c b d w = Ret (m, c', w') → no_socket c' w'.
Proof.
  intros Hn. unfold Connect_message. destruct (server_name_ c); [|done]. intros H. run H. run H. run H.
  destruct (r1 =? 0); [by run H|]. destruct (OpenFile _ _ _) as [[err t] w1] eqn:Ho.
  apply OpenFile_kept in Ho as [Hk Hw]. destruct err.
  - run H. eapply no_socket_kept; [done|apply Hk|done|]. by rewrite user_system_error.
  - run H. destruct r2 as [[] local]; run H; (eapply no_socket_kept; [done|apply Hk|done|]);
      by rewrite ?user_system_error.
Qed.

(** What [fd_check] and the rest of [Connect] do with the socket [fd]: it is
    kept, with a result that satisfies [P], or closed. *)
Definition keeps_or_closes {A} (fd : Z) (P : A → Prop) (r : option A * W) (w : W) : Prop :=
  match r.1 with
  | Some x => P x ∧ open_fds r.2 = open_fds w
  | None => open_fds r.2 = (open_fds w) ∖ {[fd]}
  end.

Lemma fd_check_ok {A} fd P name r (next : W → option A * W) w :
  open_fds r.2 = open_fds w → (∀ w1, keeps_or_closes fd P (next w1) w1) →
  keeps_or_closes fd P (fd_check fd name r next) w.
Proof.
  intros Hr Hn. unfold fd_check. destruct r as [[x|e] w1]; simpl in Hr.
  - specialize (Hn w1). unfold keeps_or_closes in *. by rewrite Hr in Hn.
  - unfold keeps_or_closes. simpl. by rewrite fd_close, user_system_error, Hr.
Qed.

Lemma Connect_socket_ok ip port w r w' :
  open_fds w = ∅ → Connect_socket ip port w = (r, w') →
  match r with Some fd => 0 ≤ fd ∧ open_fds w' = {[fd]} | None => open_fds w' = ∅ end.
Proof.
  intros Hw. unfold Connect_socket. destruct (os_socket w) as [[fd|e] w1] eqn:Hs; apply fd_socket in Hs.
  - destruct Hs as (Hfd & _ & Hw1). rewrite Hw, union_empty_r_L in Hw1. intros H.
    match type of H with ?t = _ => assert (keeps_or_closes fd (λ x, x = fd) t w1) as Hk end.
    { apply fd_check_ok; [apply fd_setsockopt|]. intros w2. apply fd_check_ok; [apply fd_setsockopt|]. intros w3.
      assert (∀ w4, keeps_or_closes fd (λ x, x = fd)
        (fd_check fd "connect" (os_connect fd ip port w4) (λ w5, (Some fd, w5))) w4) as Hc.
      { intros w4. apply fd_check_ok; [apply fd_connect|]. by intros w5. }
      destruct TcpNoDelay; [|apply Hc]. apply fd_check_ok; [apply fd_setsockopt|apply Hc]. }
    rewrite H in Hk. unfold keeps_or_closes in Hk. simpl in Hk. rewrite Hw1 in Hk.
    destruct r as [fd'|]; [by destruct Hk as [-> ->]|]. by rewrite difference_diag_L in Hk.
  - intros [= <- <-]. by rewrite user_system_error, Hs.
Qed.

Lemma Connect_exchange_ok fd h m w r w' :
  Connect_exchange fd h m w = (r, w') → keeps_or_closes fd (λ _, True) (r, w') w.
Proof.
  unfold Connect_exchange.
  match goal with |- context [os_send_login ?a ?b ?c] => pose proof (fd_send_login a b c) as Hs;
    destruct (os_send_login a b c) as [sent w1] end. simpl in Hs.
  destruct (negb _).
  - intros [= <- <-]. unfold keeps_or_closes. simpl. by rewrite fd_close, user_system_error, Hs.
  - pose proof (fd_recv_rsp fd w1) as Hr. destruct (os_recv_rsp fd w1) as [[h' m'|n|e] w2]; simpl in Hr;
      intros [= <- <-]; unfold keeps_or_closes; simpl; rewrite ?fd_close, ?user_system_error, ?Hr, ?Hs; done.
Qed.

(** The reply is what came in, in host order. *)
Lemma Connect_exchange_reply fd h m w r w' :
  Connect_exchange fd h m w = (r, w') →
  match r with
  | Some (_, rsp) => ∃ h0 rsp0 w1 w2, os_recv_rsp fd w1 = (RecvFull h0 rsp0, w2) ∧
                                      rsp = LoginRspMsg_ConvertByteOrder rsp0
  | None => True
  end.
Proof.
  unfold Connect_exchange. destruct (os_send_login _ _ _) as [sent w1]. destruct (negb _); [by intros [= <- <-]|].
  destruct (os_recv_rsp fd w1) as [[h' m'|n|e] w2] eqn:He; intros [= <- <-]; [|done..].
  by exists h', m', w1, w2.
Qed.

(** The state in which [Connect] owns the socket [fd]. *)
Definition holds_socket (c : TcpShmClient) (fd : Z) (w : W) : Prop :=
  conn_fd (conn_ c) < 0 ∧ conn_sock (conn_ c) < 0 ∧ 0 ≤ fd ∧ open_fds w = {[fd]}.

Lemma holds_closed c fd w w' : holds_socket c fd w → open_fds w' = open_fds w → no_socket c (os_close fd w').
Proof.
  intros (H1 & H2 & H3 & H4) Hw. unfold no_socket. rewrite fd_close, Hw, H4, difference_diag_L. by split_and!.
Qed.

Lemma Release_idle c w c' w' :
  conn_fd c < 0 → conn_sock c < 0 → Release c w = Ret (c', w') →
  conn_fd c' < 0 ∧ conn_sock c' < 0 ∧ open_fds w' = open_fds w.
Proof.
  intros Hf Hs (Hso & Hfd & _)%Release_fds. rewrite Hso.
  rewrite (proj2 (Z.leb_gt _ _)) in Hfd by lia. rewrite (proj2 (Z.ltb_lt _ _)) by lia.
  destruct Hfd as [-> ->]. done.
Qed.

(** The client remembers the name of the server of the reply [rsp]. *)
Definition remembers (c : TcpShmClient) (rsp : LoginRspMsg) : Prop :=
  ∃ server sname, server_name_ c = Some server ∧ put (server_name rsp) (NameSize - 1) 0 = Ret sname ∧
    strncmp_eq server sname NameSize = true.

Lemma Connect_success_ok c b fd h rsp w ok c' w' :
  holds_socket c fd w → Connect_success c b fd h rsp w = Ret (ok, c', w') →
  if ok then client_inv c' w' ∧ conn_fd (conn_ c') = fd ∧ remembers c' rsp else no_socket c' w'.
Proof.
  intros (H1 & H2 & H3 & H4). unfold Connect_success. destruct (server_name_ c) as [server|] eqn:Hsn; [|done].
  intros H. run H. cbv zeta in H. run H. destruct r0 as [[ok1 c1] w1].
  assert (if ok1 then holds_socket c1 fd w1 ∧ remembers c1 rsp else no_socket c1 w1) as Hmid.
  { destruct (strncmp_eq server r NameSize) eqn:Hcmp; simpl in Hrun0.
    { run Hrun0. split; [by split_and!|]. by exists server, r. }
    run Hrun0. destruct r0 as [t w2]. run Hrun0. run Hrun0. cbv zeta in Hrun0.
    destruct (Release_idle _ _ _ _ H1 H2 Hrun1) as (Hf & Hs & Hw2).
    destruct (OpenFile _ _ _) as [[err t2] w3] eqn:Ho. apply OpenFile_kept in Ho as [[_ _ _ [Hk1 Hk2]] Hw3].
    simpl in Hk1, Hk2.
    assert (holds_socket (set_conn c1 t2) fd w3) as Hh by (unfold holds_socket; simpl; split_and!; [lia|lia|lia|congruence]).
    destruct err.
    - run Hrun0. eapply holds_closed; [exact Hh|]. by rewrite user_system_error.
    - run Hrun0. run Hrun0. apply Reset_kept in Hrun4 as [_ _ _ [Hk3 Hk4]]. split.
      + unfold holds_socket. simpl. split_and!; [lia|lia|lia|congruence].
      + exists r0, r. split_and!; [done|done|]. apply strncmp_eq_spec. by eapply (strncpy_name HN). }
  destruct ok1; [|by run H]. destruct Hmid as [(Hf & Hs & _ & Hw) Hrem].
  pose proof (user_success (Login.set_server_name rsp r) (os_set_nonblock fd w1)) as Hu.
  destruct (OnLoginSuccess _ _) as [now w2]. simpl in Hu. rewrite fd_set_nonblock in Hu.
  run H. destruct r0 as [t w3]. run H. apply Open_conn_fds in Hrun1 as (Hfd & Hso & Hw3 & _).
  simpl. split; [|split; [done|exact Hrem]]. constructor; simpl; rewrite Hfd; [|lia].
  rewrite own_nonneg by done. rewrite Hw3, Hu, Hw. apply owns_one.
Qed.

Lemma Connect_ok c b ip port d w ok c' w' :
  client_inv c w → Connect stack_login c b ip port d w = Ret (ok, c', w') →
  client_inv c' w' ∧
  (if ok then 0 ≤ conn_fd (conn_ c') ∧ open_fds w' = {[conn_fd (conn_ c')]} ∧
              ∃ fd h rsp w1 w2, os_recv_rsp fd w1 = (RecvFull h rsp, w2) ∧ status rsp = 0 ∧ remembers c' rsp
   else if IsClosed (conn_ c) then no_socket c' w' else c' = c).
Proof.
  intros Hinv. unfold Connect. destruct (IsClosed (conn_ c)) eqn:Hcl; simpl.
  2: { intros H. run H. split; [|done]. destruct Hinv. constructor; [by rewrite user_system_error|done]. }
  assert (conn_sock (conn_ c) < 0) as Hsock by by apply Z.ltb_lt.
  destruct (TryCloseFd (conn_ c) w) as [[bb t] w1] eqn:Ht. apply TryCloseFd_conn_fds in Ht as (Hso & _ & _ & _ & Hfd).
  assert (no_socket (set_conn c t) w1) as Hn.
  { destruct Hinv as [Ho _]. unfold no_socket. simpl. rewrite Hso. destruct bb.
    - destruct Hfd as (_ & Hpos & -> & Hw). rewrite own_nonneg in Ho by done. rewrite Hw.
      split_and!; [done|done|]. by apply owns_nil, owns_closed.
    - destruct Hfd as (Hneg & -> & ->). specialize (Hneg Hsock). rewrite own_neg in Ho by done.
      by apply owns_nil in Ho. }
  intros H. run H. destruct r as [[ok1 c1] w2]. apply Connect_name_ok in Hrun as Hn1; [|done].
  assert (∀ c w, no_socket c w → client_inv c w ∧ no_socket c w) as Hfail
    by (intros; split; [by apply no_socket_inv|done]).
  destruct ok1; simpl in H; [|run H; by apply Hfail].
  run H. destruct r as [[m c2] w3]. apply Connect_message_ok in Hrun0 as Hn2; [|done].
  destruct m as [[hd login]|]; [|run H; by apply Hfail].
  destruct Hn2 as (Hf2 & Hs2 & Hw3). destruct (Connect_socket ip port w3) as [rs w4] eqn:Hsk.
  apply Connect_socket_ok in Hsk; [|done]. destruct rs as [fd|]; [|run H; by apply Hfail].
  destruct Hsk as [Hfd0 Hw4]. destruct (Connect_exchange _ _ _ _) as [rx w5] eqn:Hx.
  pose proof (Connect_exchange_reply _ _ _ _ _ _ Hx) as Hrsp. apply Connect_exchange_ok in Hx. unfold keeps_or_closes in Hx. simpl in Hx.
  destruct rx as [[h rsp]|].
  2: { run H. apply Hfail. unfold no_socket. rewrite Hx, Hw4, difference_diag_L. by split_and!. }
  destruct Hx as [_ Hx].
  assert (holds_socket c2 fd w5) as Hh by (unfold holds_socket; rewrite Hx, Hw4; by split_and!).
  run H. destruct (_ || _ || _).
  { run H. apply Hfail. eapply holds_closed; [done|]. by rewrite user_system_error. }
  destruct (Z.eqb_spec (status rsp) 0) as [Hst|].
  - apply Connect_success_ok in H; [|done]. destruct ok; [|by apply Hfail].
    destruct H as (Hi & Hfd' & Hrem). split; [done|]. destruct Hi as [Ho _]. rewrite Hfd' in *. split; [done|]. split.
    + rewrite own_nonneg in Ho by done. by apply owns_singleton.
    + destruct Hrsp as (h0 & rsp0 & v1 & v2 & Hrecv & ->). by exists fd, h0, rsp0, v1, v2.
  - destruct (_ =? 1); run H; apply Hfail; (eapply holds_closed; [done|]);
      by rewrite ?user_mismatch, ?user_reject.
Qed.

(** ** The other operations *)

Lemma client_PollTcp_inv c now w c' w' : client_inv c w → PollTcp c now w = Ret (c', w') → client_inv c' w'.
Proof.
  intros Hinv. unfold PollTcp. intros H. run H. destruct r as [t w1].
  assert (conn_kept (conn_ c) t ∧ open_fds w1 = open_fds w) as [Hk Hw].
  { destruct (negb _); [|by run Hrun]. run Hrun. destruct r as [[head t1] w2].
    apply TcpFront_kept in Hrun0 as [Hk1 Hw1]. destruct head as [p|]; [|by run Hrun].
    apply user_msg, user_calls_kept in Hrun as [Hk2 Hw2]. split; [by etrans|congruence]. }
  pose proof (client_kept _ _ _ _ Hinv Hk Hw) as [Ho Hs]. simpl in Ho, Hs.
  destruct (TryCloseFd t w1) as [[b t2] w2] eqn:Ht. apply TryCloseFd_conn_fds in Ht as (Hso & _ & _ & _ & Hfd).
  destruct b.
  - destruct Hfd as (Hneg & Hpos & Hf2 & Hw2). destruct (GetCloseReason t2) as [reason e]. run H.
    apply no_socket_inv. unfold no_socket. simpl. rewrite user_disconnected, Hw2, Hso, Hf2.
    rewrite own_nonneg in Ho by done. split_and!; [done|done|]. by apply owns_nil, owns_closed.
  - destruct Hfd as (_ & Hf2 & ->). run H. constructor; simpl; by rewrite ?Hso, ?Hf2.
Qed.

Lemma client_PollShm_inv c w c' w' : client_inv c w → PollShm c w = Ret (c', w') → client_inv c' w'.
Proof.
  intros Hinv. unfold PollShm. intros H. run H. destruct r as [head t]. apply ShmFront_kept in Hrun.
  run H. destruct r as [t2 w2]. run H.
  destruct head as [p|]; [|run Hrun0; by eapply client_kept].
  apply user_msg, user_calls_kept in Hrun0 as [Hk Hw]. eapply client_kept; [done|by etrans|done].
Qed.

(** After [Stop] nothing is open. *)
Lemma client_Stop_ok c w c' w' : client_inv c w → Stop c w = Ret (c', w') → no_socket c' w' ∧ server_name_ c' = None.
Proof.
  intros [Ho Hs]. unfold Stop.
  set (r := match server_name_ c with Some _ => _ | None => _ end).
  assert (conn_ r.1 = conn_ c ∧ open_fds r.2 = open_fds w ∧ server_name_ r.1 = None) as (Hc & Hw & Hn).
  { subst r. destruct (server_name_ c) eqn:He; simpl; [|done]. split_and!; [done|apply fd_munmap|done]. }
  destruct r as [c1 w1]. simpl in *. intros H. run H. destruct r as [t w2]. run H. split; [|done].
  rewrite Hc in Hrun. apply Release_fds in Hrun as (Hso & Hfd & _). unfold no_socket. simpl. rewrite Hso.
  split_and!.
  - destruct (Z.leb_spec 0 (conn_fd (conn_ c))); destruct Hfd; lia.
  - destruct (Z.ltb_spec (conn_sock (conn_ c)) 0); lia.
  - destruct (Z.leb_spec 0 (conn_fd (conn_ c))); destruct Hfd as [_ ->]; rewrite Hw.
    + rewrite own_nonneg in Ho by done. by apply owns_nil, owns_closed.
    + rewrite own_neg in Ho by done. by apply owns_nil.
Qed.

(** ** Runs of the client *)

Inductive client_step (c : TcpShmClient) (w : W) : TcpShmClient → W → Prop :=
  | step_Connect b ip port d ok c' w' :
      Connect stack_login c b ip port d w = Ret (ok, c', w') → client_step c w c' w'
  | step_PollTcp now c' w' : PollTcp c now w = Ret (c', w') → client_step c w c' w'
  | step_PollShm c' w' : PollShm c w = Ret (c', w') → client_step c w c' w'
  | step_Stop c' w' : Stop c w = Ret (c', w') → client_step c w c' w'
  | step_conn t w' : user_calls (conn_ c) w t w' → client_step c w (set_conn c t) w'.

Inductive client_reachable : TcpShmClient → W → Prop :=
  | client_new cname dir junk_name junk_remote w c w' :
      open_fds w = ∅ → new_TcpShmClient cname dir junk_name junk_remote w = Ret (c, w') →
      client_reachable c w'
  | client_next c w c' w' : client_reachable c w → client_step c w c' w' → client_reachable c' w'.

Lemma client_step_inv c w c' w' : client_inv c w → client_step c w c' w' → client_inv c' w'.
Proof.
  intros Hinv Hs. destruct Hs as [????? ?? H|??? H|?? H|?? H|?? H].
  - by eapply Connect_ok.
  - by eapply client_PollTcp_inv.
  - by eapply client_PollShm_inv.
  - apply no_socket_inv. by eapply client_Stop_ok.
  - apply user_calls_kept in H as []. by eapply client_kept.
Qed.

Lemma new_TcpShmClient_inv cname dir junk_name junk_remote w c w' :
  open_fds w = ∅ → new_TcpShmClient cname dir junk_name junk_remote w = Ret (c, w') → client_inv c w'.
Proof.
  unfold new_TcpShmClient. intros Hw H. run H. run H. run H. apply no_socket_inv. unfold no_socket. simpl.
  by rewrite fd_mkdir.
Qed.

Lemma client_reachable_inv c w : client_reachable c w → client_inv c w.
Proof. induction 1; [by eapply new_TcpShmClient_inv|by eapply client_step_inv]. Qed.
End client.
