(* ===== verification/Silence.v ===== *)
(** * A peer that falls silent

    [Silent]: nothing more comes in, whatever is sent ([quiet]).  A connection
    that waits ([waiting]), with or without a queue of its own, then notices:
    [TcpFront] returns nothing, keeps the time of the last bytes, and closes the
    connection once that is longer ago than [ConnectionTimeout]. *)

From S2P Require Import Prelude.
From S2P Require Import Arrays.
From S2P Require Import MsgHeader.
From S2P Require Import PtcpQueue.
From S2P Require Import PtcpQueueInv.
From S2P Require SpscQueue.
From S2P Require Import Platform.
From S2P Require Import PtcpConn.
From S2P Require Import Framing.
From S2P Require Import PtcpConnRecv.
From S2P Require Import PtcpConnSend.
From S2P Require TcpShmConn.
From S2P Require Import Descriptors.

Class Silent {W : Type} {os : Os W} (quiet : W → Prop) : Prop := {
  quiet_readv fd lens w : quiet w → 0 ≤ fd → 0 ≤ foldr Z.add 0 lens → ∃ w', os_readv fd lens w = (SysErr EAGAIN, w') ∧ quiet w';
  quiet_send fd bs w : quiet w → quiet (os_send fd bs w).2;
  quiet_close fd w : quiet w → quiet (os_close fd w)
}.

Section silence.
Context {conf : Conf} {W : Type} {os : Os W} {log : OsLog W} {laws : OsLaws W}.
Context (HC : Conf_ok) (quiet : W → Prop) {sil : Silent quiet}.
Abbreviation queue_rep := (queue_rep TcpQueueSize ToLittleEndian is_little_endian).
Implicit Types (c : PTCPConnection) (w : W) (m : bool).

(** [mapped]: the connection has a queue of its own, else it uses shared
    memory. *)
Definition queue_ok (mapped : bool) (o : option PTCPQueue) : Prop :=
  if mapped then ∃ q msgs, o = Some q ∧ queue_rep q msgs else o = None.

(** Nothing is buffered but a part of a message; [R]: when the last bytes
    came. *)
Record waiting (mapped : bool) (R : Z) c : Prop := {
  wt_recv : ∃ t, recv_rep c [] t;
  wt_q : queue_ok mapped (q_ c);
  wt_hb : hb_ok c;
  wt_time : recv_time_ c = R
}.

Lemma waiting_same m R c c' :
  waiting m R c → same_recv c c' → q_ c' = q_ c → hb_ok c' → recv_time_ c' = recv_time_ c → waiting m R c'.
Proof.
  intros [[t Ht] Hq _ Htm] (H1 & H2 & H3 & H4 & H5) Hq' Hh Ht'. constructor; [|by rewrite Hq'|done|congruence].
  exists t. by eapply recv_rep_same.
Qed.

Lemma waiting_Close m R c reason e : waiting m R c → waiting m R (Close c reason e).
Proof.
  intros Hw. unfold Close. destruct (_ <? _); [done|]. eapply waiting_same; [exact Hw|by repeat split|done|apply Hw|done].
Qed.

(** ** Sending *)

Lemma SendPending_loop_quiet fuel : ∀ fd p size w e n w',
  SendPending_loop fuel fd p size w = Ret (e, n, w') → quiet w → quiet w'.
Proof.
  induction fuel as [|fuel IH]; intros fd p size w e n w' H Hw; [done|]. cbn [SendPending_loop] in H.
  pose proof (quiet_send fd (slice 0 size p) w Hw) as Hs. destruct (os_send _ _ w) as [[k|err] w1]; simpl in *.
  - destruct (_ <? _); [by eapply IH|by run H].
  - destruct (_ || _); by run H.
Qed.

Lemma SendPending_quiet c w r c' w' :
  SendPending c w = Ret (r, c', w') → quiet w → quiet w' ∧ recv_time_ c' = recv_time_ c ∧ now_ c' = now_ c.
Proof.
  unfold SendPending. intros H Hw. destruct (IsClosed c); [by run H|]. destruct (q_ c) as [q|]; [|done].
  destruct (GetSendable q) as [p n]. destruct (_ =? _); [by run H|]. run H. run H. destruct r1 as [[err size] w1].
  apply SendPending_loop_quiet in Hrun0; [|done]. destruct err as [e|].
  - run H. split; [done|]. unfold Close. by destruct (_ <? _).
  - destruct (_ <? _); by run H.
Qed.

Lemma SendHB_send_quiet c w :
  quiet w → quiet (SendHB_send c w).2 ∧ recv_time_ (SendHB_send c w).1 = recv_time_ c ∧ now_ (SendHB_send c w).1 = now_ c.
Proof.
  intros Hw. unfold SendHB_send. pose proof (quiet_send (sockfd_ c) (header_bytes is_little_endian (hbmsg_ c)) w Hw) as Hs.
  destruct (os_send _ _ w) as [[k|e] w1]; simpl in *; destruct (_ =? _); simpl; (split; [done|]); unfold Close; by try destruct (_ <? _).
Qed.

Lemma SendHB_quiet c now w c' w' :
  SendHB c now w = Ret (c', w') → quiet w → quiet w' ∧ recv_time_ c' = recv_time_ c ∧ now_ c' = now.
Proof.
  unfold SendHB. set (c1 := set_times c (recv_time_ c) (send_time_ c) now). intros H Hw.
  destruct (_ <? _); [by run H|]. destruct (q_ c1) as [q0|].
  - run H. destruct r as [[r c2] w2]. apply SendPending_quiet in Hrun as (Hw2 & Ht & Hn); [|done].
    destruct r; [by run H|]. destruct (q_ c2) as [q|]; [|done]. injection H as H.
    match type of H with SendHB_send ?x _ = _ => destruct (SendHB_send_quiet x w2 Hw2) as (H1 & H2 & H3) end.
    rewrite H in H1, H2, H3. simpl in *. split_and!; congruence || done.
  - injection H as H. destruct (SendHB_send_quiet c1 w Hw) as (H1 & H2 & H3). rewrite H in H1, H2, H3. by simpl in *.
Qed.

Lemma SendPending_waiting R c w :
  waiting true R c → quiet w → ∃ r c' w', SendPending c w = Ret (r, c', w') ∧ waiting true R c' ∧ quiet w'.
Proof.
  intros Hc Hw. destruct (wt_q _ _ _ Hc) as (q & msgs & Hq & Hrep).
  destruct (SendPending_ok HC c q msgs w Hq Hrep) as (r & c' & w' & H & Hs & Hcase).
  destruct (SendPending_quiet _ _ _ _ _ H Hw) as (Hw' & Ht & _). exists r, c', w'. split; [done|]. split; [|done].
  destruct Hcase as [(_ & _ & -> & _)|[(_ & _ & _ & -> & _)|[(_ & _ & _ & q' & ws & [H1 H2 _ _ _ _ _ _ Hh])|(_ & _ & _ & e & bs & rest & -> & _)]]];
    [done|done| |by apply waiting_Close].
  destruct Hc as [[t Hrec] _ Hhb Htm]. destruct Hs as (H3 & H4 & H5 & H6 & H7).
  constructor; [|by exists q', msgs|unfold hb_ok; by rewrite Hh|congruence]. exists t. by eapply recv_rep_same.
Qed.

Lemma SendHB_waiting m R c now w :
  waiting m R c → quiet w → ∃ c' w', SendHB c now w = Ret (c', w') ∧ waiting m R c' ∧ quiet w' ∧ now_ c' = now.
Proof.
  intros Hc Hw. assert (∃ c' w', SendHB c now w = Ret (c', w') ∧ same_recv c c' ∧ hb_ok c' ∧ queue_ok m (q_ c'))
    as (c' & w' & H & Hs & Hh & Hq).
  { pose proof (wt_q _ _ _ Hc) as Hq. destruct m; simpl in Hq.
    - destruct Hq as (q & msgs & Hq & Hrep).
      destruct (SendHB_ok HC c now w q msgs Hq Hrep (wt_hb _ _ _ Hc)) as (c' & w' & H & Hs & _ & Hh & Hres).
      exists c', w'. split_and!; try done. simpl.
      destruct Hres as [_ H1 _|q1 ws _ [H1 H2 _ _ _ _ _ _ _]|_ _ H1 _|bs rest _ _ H1 _]; by eexists _, msgs.
    - unfold SendHB. set (c1 := set_times c _ _ now). assert (q_ c1 = None) as Hq1 by done. rewrite Hq1. destruct (_ <? _).
      + exists c1, w. split_and!; [done|by repeat split|apply Hc|done].
      + destruct (SendHB_send c1 w) as [c' w'] eqn:H. exists c', w'. split; [done|].
        assert (same_recv c1 c' ∧ hbmsg_ c' = hbmsg_ c1 ∧ q_ c' = q_ c1) as (H1 & H2 & H3).
        { unfold SendHB_send in H. destruct (os_send _ _ w) as [[k|e] w1]; destruct (_ =? _); simpl in H; simplify_eq; (split; [|split]);
            unfold Close; try destruct (_ <? _); by repeat split. }
        split_and!; [exact H1|unfold hb_ok; rewrite H2; apply Hc|by simpl; rewrite H3]. }
  destruct (SendHB_quiet _ _ _ _ _ H Hw) as (Hw' & Ht & Hn). exists c', w'. split_and!; try done.
  destruct Hc as [[t Hrec] _ _ Htm]. destruct Hs as (H1 & H2 & H3 & H4 & H5). constructor; try done; [|congruence].
  exists t. by eapply recv_rep_same.
Qed.

(** ** Receiving *)

(** There is room for something to come in. *)
Lemma DoRecv_waiting c t w :
  recv_rep c [] t → quiet w →
  ∃ e w', DoRecv c w = Ret (0, DoRecv_error (restarted c) (Some e), w') ∧ quiet w' ∧ (IsClosed c = false → e = EAGAIN).
Proof.
  intros Hrep Hw. pose proof (recv_room HC c t Hrep) as Hroom. pose proof (restarted_sockfd c) as Hs.
  unfold DoRecv. fold (restarted c). set (c0 := restarted c) in *. cbv zeta. fold (recv_extra c0). fold (recv_lens c0).
  rewrite (u32_small (_ + _)), (proj2 (Z.eqb_neq _ 0)) by (cbv zeta in Hroom; lia).
  assert (0 ≤ foldr Z.add 0 (recv_lens c0)) as Hsum by (rewrite recv_lens_sum; cbv zeta in Hroom; lia).
  unfold IsClosed. rewrite <-Hs. destruct (Z.ltb_spec (sockfd_ c0) 0) as [Hneg|Hpos].
  - destruct (os_readv_closed (sockfd_ c0) (recv_lens c0) w Hneg) as (e & -> & _). by exists e, w.
  - destruct (quiet_readv (sockfd_ c0) (recv_lens c0) w Hw Hpos Hsum) as (w' & -> & Hw'). by exists EAGAIN, w'.
Qed.

Lemma restarted_same c : recv_time_ (restarted c) = recv_time_ c ∧ now_ (restarted c) = now_ c.
Proof. unfold restarted. by destruct (_ && _). Qed.

Lemma Front_waiting m R c w :
  waiting m R c → quiet w →
  ∃ c' w', Front c w = Ret (None, c', w') ∧ waiting m R c' ∧ quiet w' ∧
    (ConnectionTimeout < now_ c - R → IsClosed c' = true).
Proof.
  intros Hc Hw. destruct (wt_recv _ _ _ Hc) as [t Ht]. destruct (DoRecv_waiting c t w Ht Hw) as (e & w' & Hdr & Hw' & He).
  destruct (restarted_same c) as [Htm Hn]. pose proof (restarted_keeps c (rp_buf _ _ _ Ht)) as Hk0.
  set (c' := DoRecv_error (restarted c) (Some e)) in *.
  assert (keeps c c') as Hk by (eapply keeps_trans; [exact Hk0|apply DoRecv_error_keeps, Hk0]).
  assert (recv_time_ c' = R) as HR.
  { rewrite <-(wt_time _ _ _ Hc), <-Htm. unfold c', DoRecv_error, Close. by repeat case_match. }
  pose proof (recv_rep_keeps _ _ _ _ Ht Hk) as Ht'.
  assert (waiting m R c') as Hc'.
  { constructor; [by exists t|rewrite (k_q _ _ Hk); apply Hc|unfold hb_ok; rewrite (k_hb _ _ Hk); apply Hc|done]. }
  exists c', w'. split; [|split; [done|split; [done|]]].
  - unfold Front. destruct (UseShm c) eqn:Hu; [by rewrite Hdr, outcome_bind_Ret|].
    assert (Front_skip (loop_fuel c) c = Ret (None, c)) as ->.
    { unfold loop_fuel. simpl. rewrite Z.eqb_sym, (recv_rep_nil _ _ _ Ht). done. }
    rewrite outcome_bind_Ret, Hdr, outcome_bind_Ret. simpl. unfold Front_result. by rewrite (recv_rep_nil _ _ _ Ht').
  - intros Hto. unfold c', DoRecv_error. destruct (IsClosed c) eqn:Hcl.
    + pose proof (restarted_sockfd c) as Hs. unfold IsClosed in *. unfold Close. rewrite <-Hs in Hcl. rewrite Hcl.
      by repeat case_match.
    + rewrite (He eq_refl), Z.eqb_refl, Htm, Hn, (wt_time _ _ _ Hc), (proj2 (Z.ltb_lt _ _)) by done. apply IsClosed_Close.
Qed.

(** ** The connection *)

Lemma TryCloseFd_waiting m R c w b c' w' :
  TryCloseFd c w = (b, c', w') → waiting m R c → quiet w → waiting m R c' ∧ quiet w' ∧ IsClosed c' = IsClosed c.
Proof.
  unfold TryCloseFd. intros H Hc Hw. destruct (_ && _); simplify_eq; [|done]. split_and!; [|by apply quiet_close|done].
  eapply waiting_same; [exact Hc|by repeat split|done|apply Hc|done].
Qed.

Lemma TcpFront_waiting m R (c : TcpShmConn.TcpShmConnection) now w :
  waiting m R (TcpShmConn.ptcp_conn_ c) → quiet w →
  ∃ t w', TcpShmConn.TcpFront c now w = Ret (None, TcpShmConn.set_ptcp_conn c t, w') ∧ waiting m R t ∧ quiet w' ∧
    (ConnectionTimeout < now - R → IsClosed t = true).
Proof.
  intros Hc Hw. destruct (SendHB_waiting m R _ now w Hc Hw) as (t1 & w1 & H1 & Hc1 & Hw1 & Hn).
  destruct (Front_waiting m R t1 w1 Hc1 Hw1) as (t2 & w2 & H2 & Hc2 & Hw2 & Hto). exists t2, w2.
  split; [|by rewrite Hn in Hto]. unfold TcpShmConn.TcpFront. by rewrite H1, outcome_bind_Ret, H2.
Qed.
End silence.
