(* ===== verification/ScriptedNet.v ===== *)
(** * A scripted network

    An instance of all the interfaces of the operating system, and callbacks
    for the server and the client: the peers' messages come from lists, the
    mapped files are fresh, a new descriptor is above those that are open.  It
    shows that the laws can hold, and runs the instances of the theorems. *)

From stdpp Require Import gmap.
From S2P Require Import Prelude.
From S2P Require Import Arrays.
From S2P Require Import MsgHeader.
From S2P Require Import PtcpQueue.
From S2P Require Import SpscQueue.
From S2P Require Import Platform.
From S2P Require Import PtcpConn.
From S2P Require Import Scripted.
From S2P Require Import TcpShmConn.
From S2P Require Import Login.
From S2P Require Import Descriptors.
From S2P Require Import Server.
From S2P Require Import ServerTable.
From S2P Require Import ServerInv.
From S2P Require Client.
From S2P Require ClientInv.

#[export] Instance ex_user_data : UserData := {| LoginUserData := unit; LoginRspUserData := unit |}.

#[local] Existing Instance ex_conf.

Lemma ex_name_size : 1 < NameSize.
Proof. done. Qed.

Record net := mkNet {
  n_script : script;
  n_open : gset Z;
  n_peers : nat;                               (* connections to be accepted *)
  n_logins : list (recv_result LoginMsg);
  n_replies : list (recv_result LoginRspMsg);
  n_sent : list (Z * (MsgHeader * LoginRspMsg));
  n_name : list Z                              (* the .lastserver file *)
}.

Definition set_script (w : net) (s : script) : net :=
  mkNet s (n_open w) (n_peers w) (n_logins w) (n_replies w) (n_sent w) (n_name w).
Definition set_open (w : net) (X : gset Z) : net :=
  mkNet (n_script w) X (n_peers w) (n_logins w) (n_replies w) (n_sent w) (n_name w).

#[export] Instance net_os : Os net := {
  os_send fd bs w := let '(r, s) := os_send fd bs (n_script w) in (r, set_script w s);
  os_readv fd lens w := let '(r, s) := os_readv fd lens (n_script w) in (r, set_script w s);
  os_close fd w := set_open w (n_open w ∖ {[fd]})
}.

#[export] Instance net_log : OsLog net := {
  os_sent fd w := os_sent fd (n_script w);
  os_received fd w := os_received fd (n_script w)
}.

#[export] Instance net_laws : OsLaws net.
Proof.
  constructor; intros fd bs w; simpl.
  - intros n w'. destruct (script_send fd bs (n_script w)) as [r s] eqn:Hs. intros [= -> <-].
    by apply (os_send_range fd bs (n_script w) n s).
  - intros r w'. destruct (script_send fd bs (n_script w)) as [r' s] eqn:Hs. intros [= -> <-].
    exact (os_send_sent fd bs (n_script w) r s Hs).
  - intros fd'. pose proof (os_send_received fd bs (n_script w) fd') as Hs. simpl in Hs.
    by destruct (script_send fd bs (n_script w)).
  - intros fd' Hne. pose proof (os_send_other fd bs (n_script w) fd' Hne) as Hs. simpl in Hs.
    by destruct (script_send fd bs (n_script w)).
  - intros Hfd. destruct (os_send_closed fd bs (n_script w) Hfd) as (e & Hs & ?). simpl in Hs.
    rewrite Hs. exists e. by destruct w.
  - intros d w'. destruct (script_readv fd bs (n_script w)) as [r s] eqn:Hs. intros [= -> <-].
    by apply (os_readv_range fd bs (n_script w) d s).
  - intros r w'. destruct (script_readv fd bs (n_script w)) as [r' s] eqn:Hs. intros [= -> <-].
    exact (os_readv_received fd bs (n_script w) r s Hs).
  - intros fd'. pose proof (os_readv_sent fd bs (n_script w) fd') as Hs. simpl in Hs.
    by destruct (script_readv fd bs (n_script w)).
  - intros fd' Hne. pose proof (os_readv_other fd bs (n_script w) fd' Hne) as Hs. simpl in Hs.
    by destruct (script_readv fd bs (n_script w)).
  - intros Hfd. destruct (os_readv_closed fd bs (n_script w) Hfd) as (e & Hs & ?). simpl in Hs.
    rewrite Hs. exists e. by destruct w.
Qed.

#[export] Instance net_fds : FdView net := n_open.

#[export] Instance net_fd_laws : FdLaws net.
Proof.
  constructor; intros fd *; simpl; [by destruct (script_send _ _ _)|by destruct (script_readv _ _ _)|done].
Qed.

(** A file system without errors. *)
Definition net_mmap {T} (t : net → T) : MmapOs net T := {|
  os_open := fun _ _ w => (SysOk 0, w);
  os_ftruncate := fun _ _ w => (false, w);
  os_mmap := fun _ w => (Some (t w), w);
  os_close_file := fun _ w => w;
  os_munmap := fun _ w => w
|}.

#[export] Instance net_ptcp : MmapOs net PTCPQueue := net_mmap (λ _, new_PTCPQueue TcpQueueSize).
#[export] Instance net_shm : MmapOs net SPSCVarQueue := net_mmap (λ _, new_SPSCVarQueue ShmQueueSize).
#[export] Instance net_names : MmapOs net (list Z) := net_mmap n_name.

#[export] Instance net_ptcp_laws : MmapFdLaws net PTCPQueue.
Proof. by constructor. Qed.
#[export] Instance net_shm_laws : MmapFdLaws net SPSCVarQueue.
Proof. by constructor. Qed.
#[export] Instance net_names_laws : MmapFdLaws net (list Z).
Proof. by constructor. Qed.

(** The descriptor above those in use. *)
Definition new_fd (X : gset Z) : Z := 1 + foldr Z.max 2 (elements X).

Lemma new_fd_fresh X : 0 ≤ new_fd X ∧ new_fd X ∉ X.
Proof.
  unfold new_fd. rewrite <-elem_of_elements. generalize (elements X). intros l. split.
  - induction l; simpl; lia.
  - assert (∀ fd, fd ∈ l → fd ≤ foldr Z.max 2 l) as Hle.
    { induction l as [|x l IH]; intros fd; [by intros ?%not_elem_of_nil|].
      intros [->|Hin]%elem_of_cons; simpl; [lia|]. apply IH in Hin. lia. }
    intros Hin%Hle. lia.
Qed.

Definition net_socket (w : net) : Z * net :=
  let fd := new_fd (n_open w) in (fd, set_open w ({[fd]} ∪ n_open w)).

#[export] Instance net_login : LoginOs net := {
  sizeof_LoginMsg := 48;
  sizeof_LoginRspMsg := 64;
  sockaddr := unit;
  os_socket w := let '(fd, w) := net_socket w in (SysOk fd, w);
  os_setsockopt _ _ w := (SysOk 0, w);
  os_bind _ _ _ w := (SysOk 0, w);
  os_listen _ w := (SysOk 0, w);
  os_accept _ w :=
    match n_peers w with
    | O => (SysErr EAGAIN, w)
    | S n =>
        let '(fd, w) := net_socket w in
        (SysOk (fd, tt), mkNet (n_script w) (n_open w) n (n_logins w) (n_replies w) (n_sent w) (n_name w))
    end;
  os_connect _ _ _ w := (SysOk 0, w);
  os_set_nonblock _ w := w;
  os_send_login _ _ w := (SysOk 56, w);
  os_recv_login _ w :=
    match n_logins w with
    | [] => (RecvErr EAGAIN, w)
    | r :: l => (r, mkNet (n_script w) (n_open w) (n_peers w) l (n_replies w) (n_sent w) (n_name w))
    end;
  os_send_rsp fd m w :=
    (SysOk 72, mkNet (n_script w) (n_open w) (n_peers w) (n_logins w) (n_replies w) (n_sent w ++ [(fd, m)]) (n_name w));
  os_recv_rsp _ w :=
    match n_replies w with
    | [] => (RecvErr EAGAIN, w)
    | r :: l => (r, mkNet (n_script w) (n_open w) (n_peers w) (n_logins w) l (n_sent w) (n_name w))
    end;
  os_mkdir _ w := w;
  os_errno _ := 0
}.

#[export] Instance net_login_laws : LoginFdLaws net.
Proof.
  constructor; simpl; try done.
  - intros w r w' [= <- <-]. by pose proof (new_fd_fresh (n_open w)) as [? ?].
  - intros fd w r w'. destruct (n_peers w); intros [= <- <-]; [done|].
    by pose proof (new_fd_fresh (n_open w)) as [? ?].
  - intros fd w. by destruct (n_logins w).
  - intros fd w. by destruct (n_replies w).
Qed.

(** ** A server that takes everybody into its first group, and pops what it
    is given *)

#[export] Instance ex_server_user : ServerUser net := {
  OnSystemError _ _ w := w;
  OnNewConnection _ _ rsp w := (0, rsp, w);
  OnClientFileError c _ _ w := Ret (c, w);
  OnSeqNumberMismatch c _ _ w := Ret (c, w);
  OnClientLogon _ c w := Ret (c, w);
  OnClientDisconnected c _ _ w := Ret (c, w);
  OnClientMsg c _ w := c ← Pop c; Ret (c, w)
}.

#[export] Instance ex_server_laws : ServerUserLaws net.
Proof.
  constructor; simpl; try done; try (intros; simplify_eq; apply calls_done).
  intros c p w c' w' H. run H. run H. eapply calls_next; [by apply call_Pop|apply calls_done].
Qed.

#[export] Instance ex_client_user : Client.ClientUser net := {
  Client.OnSystemError _ _ w := w;
  Client.OnLoginReject _ w := w;
  Client.OnLoginSuccess _ w := (100, w);
  Client.OnSeqNumberMismatch _ _ w := w;
  Client.OnServerMsg c _ w := c ← Pop c; Ret (c, w);
  Client.OnDisconnected _ _ w := w
}.

#[export] Instance ex_client_laws : ClientInv.ClientUserLaws net.
Proof.
  constructor; simpl; try done.
  intros c p w c' w' H. run H. run H. eapply calls_next; [by apply call_Pop|apply calls_done].
Qed.
