(* ===== verification/ServerProps.v ===== *)
(** * Properties of the server

    What holds in every state that the server can reach ([reachable]), by the
    invariant of [ServerInv], and what a login does. *)

From stdpp Require Import gmap.
From S2P Require Import Prelude.
From S2P Require Import Arrays.
From S2P Require Import MsgHeader.
From S2P Require Import PtcpQueue.
From S2P Require Import PtcpQueueInv.
From S2P Require Import PtcpQueueProps.
From S2P Require Import SpscQueue.
From S2P Require Import Platform.
From S2P Require Import PtcpConn.
From S2P Require Import PtcpConnRecv.
From S2P Require Import PtcpConnSend.
From S2P Require Import Scripted.
From S2P Require Import TcpShmConn.
From S2P Require Import Login.
From S2P Require Import Server.
From S2P Require Import Descriptors.
From S2P Require Import ServerTable.
From S2P Require Import ServerInv.
From S2P Require Import ServerLogin.
From S2P Require Import ScriptedNet.

(** ** A run: "bob" logs on, his message is served *)

#[local] Existing Instance ex_conf.

Definition zeros (n : nat) : list Z := repeat 0 n.
Definition padded (n : nat) (s : string) : list Z := chars s ++ zeros (n - length (chars s)).
Definition ex_header : MsgHeader := mkMsgHeader 56 1 0.
Definition ex_login (name server : string) : LoginMsg :=
  mkLoginMsg 0 0 tt 0 (padded 16 name) (padded 16 server).
Definition ex_rsp : LoginRspMsg := mkLoginRspMsg 0 0 tt 0 (zeros 16) (zeros 32).
Definition ex_new_conn : NewConn := mkNewConn 0 (-1) tt ex_header (ex_login "" "").
Definition ex_net : net :=
  mkNet (ex_script [] [SysOk (header_bytes true (mkMsgHeader 8 7 0))]) ∅ 1
    [RecvFull ex_header (ex_login "bob" "")] [] [] (zeros 16).

Definition ex_run : outcome (TcpShmServer * net) :=
  '(s, w) ← new_TcpShmServer (chars "srv") (chars "/tmp") (zeros 16) ex_new_conn ex_net;
  let '(_, s, w) := Start s [] 80 w in
  '(s, w) ← PollCtl ex_header ex_rsp s 5 w;
  PollTcp s 6 0 w.

Abbreviation ex_reachable := (reachable ex_header ex_rsp).

Lemma ex_conf_server : ServerConf_ok.
Proof. by constructor. Qed.

Lemma ex_run_reachable s w : ex_run = Ret (s, w) → ex_reachable s w.
Proof.
  unfold ex_run. intros H. run H. destruct r as [s1 w1].
  destruct (Start s1 [] 80 w1) as [[b s2] w2] eqn:Hst. run H. destruct r as [s3 w3].
  eapply reach_step; [|exact (step_PollTcp _ _ _ _ _ _ _ _ H)].
  eapply reach_step; [|exact (step_PollCtl _ _ _ _ _ _ _ Hrun0)].
  eapply reach_step; [|exact (step_Start _ _ _ _ _ _ _ _ _ Hst)].
  exact (reach_new _ _ _ _ _ _ ex_net _ _ eq_refl Hrun).
Qed.

(** Its last state: one client is live. *)
Definition ex_live (s : TcpShmServer) : bool :=
  match get (tcp_grps_ s) 0 with
  | Ret grp =>
      match get (conns grp) 0 with
      | Ret cid =>
          match get (conn_pool_ s) cid with
          | Ret c => (live_cnt grp =? 1) && bool_decide (conn_name c = chars "bob") && (0 <=? listenfd_ s)
          | _ => false
          end
      | _ => false
      end
  | _ => false
  end.

Lemma ex_live_slot s : ex_live s = true →
  ∃ grp cid c, get (grps s false) 0 = Ret grp ∧ get (conns grp) 0 = Ret cid ∧ get (conn_pool_ s) cid = Ret c ∧
    live_cnt grp = 1 ∧ conn_name c = chars "bob" ∧ 0 ≤ listenfd_ s.
Proof.
  unfold ex_live. intros H. simpl. destruct (get (tcp_grps_ s) 0) as [grp| |] eqn:?; [|done..].
  destruct (get (conns grp) 0) as [cid| |] eqn:?; [|done..].
  destruct (get (conn_pool_ s) cid) as [c| |] eqn:?; [|done..].
  rewrite !andb_true_iff, Z.eqb_eq, bool_decide_eq_true, Z.leb_le in H. destruct H as [[? ?] ?]. exists grp, cid, c.
  by split_and!.
Qed.

Lemma ex_run_returns : ∃ s w, ex_run = Ret (s, w) ∧ ex_live s = true.
Proof.
  assert (match ex_run with Ret (s, _) => ex_live s | _ => false end = true) as Hc by (vm_compute; reflexivity).
  destruct ex_run as [[s w]| |]; [|discriminate Hc..]. by exists s, w.
Qed.

(** The server when the login of "bob" has come in on its new connection 0. *)
Definition ex_before : outcome (TcpShmServer * net) :=
  '(s, w) ← new_TcpShmServer (chars "srv") (chars "/tmp") (zeros 16) ex_new_conn ex_net;
  let '(_, s, w) := Start s [] 80 w in
  '(s, w) ← PollCtl_accept s 5 w;
  nc ← get (new_conns_ s) 0;
  s ← put_new_conn s 0 (set_nc_recvbuf nc ex_header (ex_login "bob" ""));
  Ret (s, w).

(** ** The numbers of a login *)

(** [CheckAckInQueue] accepts exactly the numbers from the start to the
    end of a queue, on the circle of 32-bit numbers. *)
Theorem CheckAckInQueue_correct a s n :
  0 ≤ a < 4294967296 → 0 ≤ n < 2147483648 →
  CheckAckInQueue a s (u32 (s + n)) = true ↔ ∃ k, 0 ≤ k ≤ n ∧ a = u32 (s + k).
Proof. apply CheckAck_spec. Qed.

Lemma CheckAckInQueue_correct_witness :
  CheckAckInQueue 1 4294967294 (u32 (4294967294 + 5)) = true ↔ ∃ k, 0 ≤ k ≤ 5 ∧ 1 = u32 (4294967294 + k).
Proof. apply (CheckAckInQueue_correct 1 4294967294 5); lia. Defined.

(** C9: when the numbers of the client's connection [cc] and of the server's
    [cs] pass the server's check, both sides resume: each [Open] succeeds,
    drops from its queue exactly the messages that the other side says it has,
    and sends all others again; whatever the two files contain that
    [GetSeq] accepts. *)
Theorem login_agreement `{conf : Conf} {W} `{laws : OsLaws W} cs cc qs qc fds fdc ls lc nows nowc ws wc :
  Conf_ok → shm_sendq_ cs = None → shm_sendq_ cc = None →
  q_ (ptcp_conn_ cs) = Some qs → q_ (ptcp_conn_ cc) = Some qc →
  file_ok TcpQueueSize qs → file_ok TcpQueueSize qc → 0 ≤ fds → 0 ≤ fdc →
  GetSeq cs (mkSeqs 0 0 0) = Ret (true, ls) → GetSeq cc (mkSeqs 0 0 0) = Ret (true, lc) →
  CheckAckInQueue (sq_local_ack lc) (sq_start ls) (sq_end ls) = true →
  CheckAckInQueue (sq_local_ack ls) (sq_start lc) (sq_end lc) = true →
  resumed cs qs fds (sq_local_ack lc) nows ws ∧ resumed cc qc fdc (sq_local_ack ls) nowc wc.
Proof.
  intros HC Hss Hsc Hqs Hqc Hfs Hfc Hfds Hfdc Hls Hlc H1 H2.
  assert (0 ≤ sq_local_ack ls < 4294967296) as Hrs.
  { rewrite (GetSeq_ack _ _ _ Hss Hqs Hls). apply Hfs. }
  assert (0 ≤ sq_local_ack lc < 4294967296) as Hrc.
  { rewrite (GetSeq_ack _ _ _ Hsc Hqc Hlc). apply Hfc. }
  split; by eapply resume_ok.
Qed.

Definition ex_server_conn : TcpShmConnection :=
  set_ptcp_conn (new_TcpShmConnection []) (set_q new_PTCPConnection (Some ex_queue)).
Definition ex_client_queue : PTCPQueue := MyAck_incr (new_PTCPQueue 64).
Definition ex_client_conn : TcpShmConnection :=
  set_ptcp_conn (new_TcpShmConnection []) (set_q new_PTCPConnection (Some ex_client_queue)).

Lemma ex_client_file : file_ok 64 ex_client_queue.
Proof.
  constructor; [reflexivity|by vm_compute..|]. apply Forall_MsgHeader_okb. reflexivity.
Qed.

(** The server has two messages, the client has got the first of them. *)
Lemma login_agreement_witness :
  resumed ex_server_conn ex_queue 5 1 100 (ex_script [] []) ∧
  resumed ex_client_conn ex_client_queue 6 0 100 (ex_script [] []).
Proof.
  apply (login_agreement ex_server_conn ex_client_conn ex_queue ex_client_queue 5 6
    (mkSeqs 0 0 2) (mkSeqs 1 0 0) 100 100 (ex_script [] []) (ex_script [] []));
    first [exact ex_conf_ok|exact ex_file_ok|exact ex_client_file|reflexivity|lia].
Defined.

(** ** Every reachable state *)

Section server.
Context {conf : Conf} {ud : UserData} {W : Type} {os : Os W}.
Context {mmq : MmapOs W PTCPQueue} {mms : MmapOs W SPSCVarQueue}.
Context {los : LoginOs W} {user : ServerUser W}.
Context {fv : FdView W} {laws : FdLaws W} {llaws : LoginFdLaws W}.
Context {qlaws : MmapFdLaws W PTCPQueue} {slaws : MmapFdLaws W SPSCVarQueue}.
Context {ulaws : ServerUserLaws W}.
Context (HN : 1 < NameSize) (Hconf : ServerConf_ok).
Context (stack_header : MsgHeader) (stack_rsp : LoginRspMsg).
Implicit Types (s : TcpShmServer) (w : W).

(** C22: whatever the peers send, however the system calls fail and whatever
    public calls the callbacks make, the sockets that are open are exactly
    the descriptors that the server's objects hold, each held once: none is
    leaked, none is closed twice. *)
Theorem server_sockets_owned s w :
  reachable stack_header stack_rsp s w →
  NoDup (owned s) ∧ ∀ fd, fd ∈ owned s ↔ fd ∈ open_fds w.
Proof. intros Hr%server_reachable_inv; [|done..]. by apply owns_spec, inv_owned. Qed.

(** In every group the live connections come first: they have a client's
    name and a socket, all others have neither a socket nor are open. *)
Theorem server_live_prefix s w shm g grp i cid c :
  reachable stack_header stack_rsp s w →
  get (grps s shm) g = Ret grp → get (conns grp) i = Ret cid → get (conn_pool_ s) cid = Ret c →
  0 ≤ live_cnt grp ≤ zlen (conns grp) ∧
  if i <? live_cnt grp then conn_live c ∧ conn_name c ≠ [] else conn_idle c.
Proof.
  intros Hr%server_reachable_inv Hg [? Hi]%get_lookup Hc; [|done..].
  destruct (table_slot _ _ _ _ _ _ _ (inv_table _ _ Hr) (grps_lookup _ _ _ _ Hg) Hi Hc)
    as (row & _ & Hok & Hrow & _ & ? & _).
  split; [done|]. pose proof (r_state _ _ Hok _ _ Hrow) as Hst. by rewrite Z2Nat.id in Hst by done.
Qed.

(** C27: no client is logged on twice in a group: two connections of a group
    with the same name are the same. *)
Theorem server_names_unique s w shm g grp i j ci cj c c' :
  reachable stack_header stack_rsp s w →
  get (grps s shm) g = Ret grp → get (conns grp) i = Ret ci → get (conns grp) j = Ret cj →
  get (conn_pool_ s) ci = Ret c → get (conn_pool_ s) cj = Ret c' →
  conn_name c = conn_name c' → conn_name c ≠ [] → i = j ∧ ci = cj.
Proof.
  intros Hr%server_reachable_inv Hg [? Hi]%get_lookup [? Hj]%get_lookup Hc Hc' Heq Hne; [|done..].
  pose proof (grps_lookup _ _ _ _ Hg) as Hgi.
  destruct (table_slot _ _ _ _ _ _ _ (inv_table _ _ Hr) Hgi Hi Hc) as (row & Hr1 & Hok & Hrow & _).
  destruct (Forall2_lookup_l _ _ _ _ _ Hr1 Hj) as (d & Hd & Hcd). rewrite Hc' in Hcd. injection Hcd as <-.
  assert (Z.to_nat i = Z.to_nat j) as Hij by by eapply (n_uniq _ (r_names _ _ Hok)).
  split; [lia|]. rewrite Hij in Hi. by simplify_eq.
Qed.

(** [Stop] always returns, from every reachable state; a started server
    has then no socket open and no live connection, and every connection is
    closed and forgotten. *)
Theorem server_Stop_correct s w :
  reachable stack_header stack_rsp s w →
  ∃ s' w', Stop s w = Ret (s', w') ∧
    (0 ≤ listenfd_ s → listenfd_ s' = -1 ∧ open_fds w' = ∅ ∧
       ∀ shm g grp, get (grps s' shm) g = Ret grp →
         live_cnt grp = 0 ∧ ∀ cid, cid ∈ conns grp → ∃ c, get (conn_pool_ s') cid = Ret c ∧ released c).
Proof.
  intros Hr%server_reachable_inv; [|done..]. destruct (Stop_total s w Hr) as (s' & w' & Hst).
  exists s', w'. split; [done|]. intros Hl. destruct (Stop_ok _ _ _ _ Hr Hst) as [_ Hok].
  destruct (Hok Hl) as (? & ? & Hf). do 2 (split; [done|]). intros shm g grp Hg%grps_lookup.
  by eapply Forall_lookup_1 in Hf.
Qed.

(** C25: a login on the new connection [k] is rejected or accepted.  When it
    is rejected, no group, no descriptor and no other new connection changes,
    and at most one connection of the pool does: one that is not live, or has no
    name; it may have been given the client's name, its files may have been
    mapped or reset, and callbacks may have used it, but it keeps its
    descriptor and a name it had.  When it is accepted, a connection that was
    not live, with the client's name or given it, takes over the socket and is
    the last live one of its group, after its file was opened and either
    reset, for a client whose last server had another name, or found to agree
    with the client's numbers. *)
Theorem server_HandleLogin_correct s shm k nc now w s' w' :
  get (new_conns_ s) k = Ret nc → 0 ≤ nc_fd nc →
  HandleLogin stack_header stack_rsp s shm k now w = Ret (s', w') →
  login_rejected s s' shm k (login_name (nc_login nc)) ∨
  ∃ g i cid c name, found s shm g i cid (login_name (nc_login nc)) c ∧
    login_accepted s s' shm g i cid k (terminated nc name) c now.
Proof. apply HandleLogin_outcome; done. Qed.
End server.

(** ** Their instances *)

Lemma server_sockets_owned_witness :
  ∃ s w, ex_run = Ret (s, w) ∧ ex_live s = true ∧
         NoDup (owned s) ∧ ∀ fd, fd ∈ owned s ↔ fd ∈ open_fds w.
Proof.
  destruct ex_run_returns as (s & w & Hrun & Hl). exists s, w. do 2 (split; [assumption|]).
  exact (server_sockets_owned ex_name_size ex_conf_server ex_header ex_rsp s w (ex_run_reachable s w Hrun)).
Defined.

Lemma server_live_prefix_witness :
  ∃ s w grp cid c, ex_run = Ret (s, w) ∧ get (grps s false) 0 = Ret grp ∧ get (conns grp) 0 = Ret cid ∧
    get (conn_pool_ s) cid = Ret c ∧ live_cnt grp = 1 ∧
    0 ≤ live_cnt grp ≤ zlen (conns grp) ∧
    if 0 <? live_cnt grp then conn_live c ∧ conn_name c ≠ [] else conn_idle c.
Proof.
  destruct ex_run_returns as (s & w & Hrun & Hl).
  destruct (ex_live_slot s Hl) as (grp & cid & c & Hg & Hi & Hc & Hlive & _ & _).
  exists s, w, grp, cid, c. do 5 (split; [assumption|]).
  exact (server_live_prefix ex_name_size ex_conf_server ex_header ex_rsp s w false 0 grp 0 cid c
           (ex_run_reachable s w Hrun) Hg Hi Hc).
Defined.

Lemma server_names_unique_witness :
  ∃ s w grp cid c, ex_run = Ret (s, w) ∧ get (grps s false) 0 = Ret grp ∧ get (conns grp) 0 = Ret cid ∧
    get (conn_pool_ s) cid = Ret c ∧ conn_name c = chars "bob" ∧ 0 = 0 ∧ cid = cid.
Proof.
  destruct ex_run_returns as (s & w & Hrun & Hl).
  destruct (ex_live_slot s Hl) as (grp & cid & c & Hg & Hi & Hc & _ & Hn & _).
  exists s, w, grp, cid, c. do 5 (split; [assumption|]).
  apply (server_names_unique ex_name_size ex_conf_server ex_header ex_rsp s w false 0 grp 0 0 cid cid c c
           (ex_run_reachable s w Hrun) Hg Hi Hi Hc Hc eq_refl).
  rewrite Hn. discriminate.
Defined.

Lemma server_Stop_correct_witness :
  ∃ s w s' w', ex_run = Ret (s, w) ∧ 0 ≤ listenfd_ s ∧ Stop s w = Ret (s', w') ∧ open_fds w' = ∅.
Proof.
  destruct ex_run_returns as (s & w & Hrun & Hl).
  destruct (ex_live_slot s Hl) as (grp & cid & c & _ & _ & _ & _ & _ & Hlis).
  destruct (server_Stop_correct ex_name_size ex_conf_server ex_header ex_rsp s w (ex_run_reachable s w Hrun))
    as (s' & w' & Hst & Hok).
  exists s, w, s', w'. do 3 (split; [assumption|]). apply (Hok Hlis).
Defined.

Lemma ex_handle_returns :
  ∃ s nc w s' w', get (new_conns_ s) 0 = Ret nc ∧ 0 ≤ nc_fd nc ∧
    HandleLogin ex_header ex_rsp s false 0 5 w = Ret (s', w') ∧ live_cnt <$> tcp_grps_ s' = [1].
Proof.
  assert (match ex_before with
          | Ret (s, w) =>
              match get (new_conns_ s) 0, HandleLogin ex_header ex_rsp s false 0 5 w with
              | Ret nc, Ret (s', _) => (0 <=? nc_fd nc) && bool_decide (live_cnt <$> tcp_grps_ s' = [1])
              | _, _ => false
              end
          | _ => false
          end = true) as Hc by (vm_compute; reflexivity).
  destruct ex_before as [[s w]| |]; [|discriminate Hc..].
  destruct (get (new_conns_ s) 0) as [nc| |] eqn:Hk; [|discriminate Hc..].
  destruct (HandleLogin ex_header ex_rsp s false 0 5 w) as [[s' w']| |] eqn:Hh; [|discriminate Hc..].
  apply andb_true_iff in Hc as [Hfd Hl]. apply Z.leb_le in Hfd. apply bool_decide_eq_true in Hl.
  by exists s, nc, w, s', w'.
Qed.

Lemma server_HandleLogin_correct_witness :
  ∃ s nc s' : _,
    (login_rejected s s' false 0 (login_name (nc_login nc)) ∨
     ∃ g i cid c name, found s false g i cid (login_name (nc_login nc)) c ∧
       login_accepted s s' false g i cid 0 (terminated nc name) c 5) ∧
    live_cnt <$> tcp_grps_ s' = [1].
Proof.
  destruct ex_handle_returns as (s & nc & w & s' & w' & Hk & Hfd & Hrun & Hl). exists s, nc, s'.
  split; [|exact Hl].
  exact (server_HandleLogin_correct ex_name_size ex_header ex_rsp s false 0 nc 5 w s' w' Hk Hfd Hrun).
Defined.
