(* ===== verification/ThreadsProps.v ===== *)
(** * Properties of the threads

    What holds under every interleaving of the control thread with the polling
    threads, that one thread alone runs the functions of [Server], and two
    runs that go wrong. *)

From stdpp Require Import gmap.
From S2P Require Import Prelude.
From S2P Require Import Arrays.
From S2P Require Import MsgHeader.
From S2P Require Import PtcpQueue.
From S2P Require Import PtcpQueueInv.
From S2P Require Import SpscQueue.
From S2P Require Import Platform.
From S2P Require Import PtcpConn.
From S2P Require Import Framing.
From S2P Require Import PtcpConnRecv.
From S2P Require Import PtcpConnSend.
From S2P Require Import Scripted.
From S2P Require Import PtcpConnProps.
From S2P Require Import TcpShmConn.
From S2P Require Import Login.
From S2P Require Import Server.
From S2P Require Import Descriptors.
From S2P Require Import ServerTable.
From S2P Require Import ServerInv.
From S2P Require Import ServerThreads.
From S2P Require Import ServerLogon.
From S2P Require Import ThreadsInv.
From S2P Require Import ThreadsAlone.
From S2P Require Import ThreadsEnd.
From S2P Require Import ThreadsCalls.
From S2P Require Import ScriptedNet.
From S2P Require Import ServerProps.

(** ** Every interleaving *)

(** The connection a polling thread is working on. *)
Definition working_on (p : poller) : option Z :=
  match p_pc p with PollVisit _ _ cid | PollMsg _ _ cid _ => Some cid | _ => None end.

Section threads.
Context {conf : Conf} {ud : UserData} {W : Type} {os : Os W}.
Context {mmq : MmapOs W PTCPQueue} {mms : MmapOs W SPSCVarQueue}.
Context {los : LoginOs W} {user : ServerUser W}.
Context {fv : FdView W} {laws : FdLaws W} {llaws : LoginFdLaws W}.
Context {qlaws : MmapFdLaws W PTCPQueue} {slaws : MmapFdLaws W SPSCVarQueue}.
Context {ulaws : ServerUserLaws W}.
Context (HN : 1 < NameSize) (Hconf : ServerConf_ok).
Context (stack_header : MsgHeader) (stack_rsp : LoginRspMsg).
Implicit Types (s : TcpShmServer) (t : threads) (w : W).

Lemma reach_threads_inv s0 w0 groups t w :
  reachable stack_header stack_rsp s0 w0 → groups_ok s0 groups →
  threads_reach stack_header stack_rsp s0 w0 groups t w → threads_inv (members s0) t w.
Proof. intros Hr Hg. apply (threads_reach_inv HN); [|done]. by eapply (server_reachable_inv HN). Qed.

(** C23: at every point of every interleaving of the control thread, the
    polling threads and public calls of the user, the sockets that are open
    are exactly those that the server's objects hold, each once; and when the
    control thread is not between two stores, the groups are in order: the
    live connections come first, and no client is logged on twice. *)
Theorem threads_sockets_owned s0 w0 groups t w :
  reachable stack_header stack_rsp s0 w0 → groups_ok s0 groups →
  threads_reach stack_header stack_rsp s0 w0 groups t w →
  (NoDup (owned (t_srv t)) ∧ ∀ fd, fd ∈ owned (t_srv t) ↔ fd ∈ open_fds w) ∧
  (t_todo t = [] → table_ok (conn_pool_ (t_srv t)) (all_grps (t_srv t))).
Proof.
  intros Hr Hg Ht. pose proof (reach_threads_inv _ _ _ _ _ Hr Hg Ht) as Hinv. split.
  - destruct Hinv as [(s & Hst & Hs & _) _ _]. apply owns_spec. unfold owned.
    rewrite <-(do_stores_fds _ _ _ Hst). exact (inv_owned _ _ Hs).
  - intros Hto. destruct (inv_no_todo _ _ _ Hinv Hto) as [Hs _]. exact (inv_table _ _ Hs).
Qed.

Lemma poller_visit s0 t w n p cid :
  threads_inv (members s0) t w → t_poll t !! n = Some p → working_on p = Some cid →
  visitable (members s0) (t_srv t) (p_shm p) (p_grp p) cid.
Proof.
  intros [_ _ [_ _ Hp]] Hn Hw. pose proof (Forall_lookup_1 _ _ _ _ Hp Hn) as [_ Hpc].
  unfold working_on in Hw. by destruct (p_pc p); simplify_eq; destruct Hpc as (_ & _ & ?).
Qed.

(** The groups are disjoint. *)
Lemma members_apart s w shm g m shm' g' m' cid :
  server_inv s w → get (members s shm) g = Ret m → get (members s shm') g' = Ret m' →
  cid ∈ m → cid ∈ m' → shm = shm' ∧ g = g'.
Proof.
  intros Hinv Hm Hm' Hc Hc'. pose proof (table_NoDup _ _ (inv_table _ _ Hinv)) as Hd.
  assert (∀ sh k l, get (members s sh) k = Ret l →
    ∃ grp, l = conns grp ∧ get (grps s sh) k = Ret grp) as Hmem.
  { intros sh k l [H0 Hl]%get_lookup. unfold members in Hl. apply list_lookup_fmap_Some in Hl as (grp & -> & Hl).
    exists grp. split; [done|]. by apply get_Ret. }
  destruct (Hmem _ _ _ Hm) as (grp & -> & Hg). destruct (Hmem _ _ _ Hm') as (grp' & -> & Hg').
  pose proof (bind_lookup_ne _ _ _ _ _ _ _ Hd (grps_lookup _ _ _ _ Hg) (grps_lookup _ _ _ _ Hg') Hc Hc') as Heq.
  apply get_range in Hg, Hg'. unfold grp_idx, zlen in *. destruct shm, shm'; simpl in *; lia || (split; [done|lia]).
Qed.

(** C24: whatever [live_cnt] a polling thread goes by and however the control
    thread has shuffled the slots since, its loads stay inside the group, and it
    works on a connection of its own group that has a client's name; so two
    polling threads of different groups never work on the same connection. *)
Theorem threads_visit_own s0 w0 groups t w n p :
  reachable stack_header stack_rsp s0 w0 → groups_ok s0 groups →
  threads_reach stack_header stack_rsp s0 w0 groups t w → t_poll t !! n = Some p →
  match working_on p with
  | None => ∀ now reload, ∃ p', poll_step now reload p (t_srv t) w = Ret (p', t_srv t, w)
  | Some cid =>
      (∃ grp c, get (grps s0 (p_shm p)) (p_grp p) = Ret grp ∧ cid ∈ conns grp ∧
         get (conn_pool_ (t_srv t)) cid = Ret c ∧ conn_name c ≠ []) ∧
      ∀ n' p', t_poll t !! n' = Some p' → working_on p' = Some cid → p_shm p' = p_shm p ∧ p_grp p' = p_grp p
  end.
Proof.
  intros Hr Hg Ht Hn. pose proof (reach_threads_inv _ _ _ _ _ Hr Hg Ht) as Hinv.
  destruct (working_on p) as [cid|] eqn:Hw.
  2: { intros now reload. eapply poll_loads; [exact Hinv|exact Hn|]. unfold working_on in Hw. by destruct (p_pc p). }
  pose proof (poller_visit _ _ _ _ _ _ Hinv Hn Hw) as [(m & Hm & Hc) (c & Hget & Hne)]. split.
  - pose proof Hm as [Hm0 Hl]%get_lookup. unfold members in Hl. apply list_lookup_fmap_Some in Hl as (grp & -> & Hl).
    exists grp, c. split_and!; try done. by apply get_Ret.
  - intros n' p' Hn' Hw'. pose proof (poller_visit _ _ _ _ _ _ Hinv Hn' Hw') as [(m' & Hm' & Hc') _].
    by eapply members_apart; [eapply (server_reachable_inv HN)|..].
Qed.

(** C30: a thread that has the processor for itself runs the functions of the
    source: turns of the control thread lead from the start to the end of
    [PollCtl], and turns of a polling thread, whether it loads [live_cnt]
    again or not, to the end of its loop over the group. *)
Theorem threads_alone s w now :
  reachable stack_header stack_rsp s w →
  (∀ s' w' ps now0, PollCtl stack_header stack_rsp s now w = Ret (s', w') →
     ctl_runs stack_header stack_rsp now (mkThreads s CtlIdle now0 [] ps) w (mkThreads s' CtlIdle now [] ps) w') ∧
  (∀ t n shm g grp s' w' reload, (n < length (t_poll t))%nat → get (grps s shm) g = Ret grp →
     poll_group (Z.to_nat (live_cnt grp)) s shm g 0 now w = Ret (s', w') →
     poll_runs stack_header stack_rsp n now reload (poll_at t n s shm g 0 PollIdle) w
       (poll_at t n s' shm g now PollIdle) w').
Proof.
  intros Hr%(server_reachable_inv HN); [|done]. split.
  - intros s' w' ps now0 H. apply (ctl_runs_PollCtl HN); [done|apply Hconf|done].
  - intros t n shm g grp s' w' reload Hn Hg H. eapply poll_runs_step.
    + unfold poll_at. simpl. by apply list_lookup_insert_eq.
    + unfold poll_step. simpl. by rewrite Hg.
    + unfold poll_at. simpl. rewrite list_insert_insert_eq. fold (poll_at t n s shm g now (PollLoop (live_cnt grp) 0)).
      eapply poll_runs_group; [done|done| |exact H]. f_equal. lia.
Qed.

(** C31: a call of [PollCtl], [PollTcp] or [PollShm] ends, whatever the other
    threads do between its turns, unless something that a thread calls does
    not return.  In any schedule in which a thread gets as many turns as
    [call_turns] says, it is outside the functions of the server at some
    point, or the schedule comes to a turn in which [HandleLogin] of a login
    that arrived, [TcpFront] or [ShmFront] of a connection, or a callback has no
    result ([call_stuck]); no load or store of the threads themselves can
    fail.  The number of turns is given by the configuration: for the control
    thread five for each new connection and for each connection of each group,
    and one for each of the loops, and for a polling thread three for each
    connection of its group, and one. *)
Theorem threads_calls_end s0 w0 groups t w x l :
  reachable stack_header stack_rsp s0 w0 → groups_ok s0 groups →
  threads_reach stack_header stack_rsp s0 w0 groups t w → call_turns (members s0) groups x ≤ own_turns x l →
  (∃ l1 l2 t1 w1, l = l1 ++ l2 ∧ run_turns stack_header stack_rsp l1 t w = Ret (t1, w1) ∧ outside x t1) ∨
  (∃ l1 tn l2 t1 w1, l = l1 ++ tn :: l2 ∧ run_turns stack_header stack_rsp l1 t w = Ret (t1, w1) ∧
     call_stuck stack_header stack_rsp tn t1 w1).
Proof.
  intros Hr Hg Ht Hle. pose proof (reach_threads_inv _ _ _ _ _ Hr Hg Ht) as Hinv.
  pose proof (server_reachable_inv HN _ _ _ _ Hconf Hr) as Hs.
  pose proof (threads_reach_turns HN _ _ _ _ _ _ _ Hs Hg Ht) as Hok.
  apply (run_outside HN _ _ (members s0)); [exact Hinv|exact Hok| |].
  - exact (threads_reach_pc HN _ _ _ _ _ _ _ Hs Hg Ht).
  - pose proof (turns_left_le _ x _ Hok) as Hl. rewrite (threads_reach_groups _ _ _ _ _ _ _ Ht) in Hl. lia.
Qed.
End threads.

(** ** Visiting a closed connection *)

Section closed.
Context {conf : Conf} {W : Type} {os : Os W} {log : OsLog W} {laws : OsLaws W}.
Context {mmq : MmapOs W PTCPQueue} {mms : MmapOs W SPSCVarQueue}.
Implicit Types (w : W).

Lemma DoRecv_closed c w n c' w' :
  PtcpConn.IsClosed c = true → DoRecv c w = Ret (n, c', w') → n = 0 ∧ w' = w.
Proof.
  unfold PtcpConn.IsClosed. rewrite Z.ltb_lt. intros Hc. unfold DoRecv. fold (restarted c).
  pose proof (restarted_sockfd c) as Hs. destruct (u32 _ =? 0); [by intros [= <- <- <-]|].
  set (lens := if _ : bool then _ else _).
  destruct (os_readv_closed (sockfd_ (restarted c)) lens w) as (e & -> & Hne); [lia|].
  by intros [= <- <- <-].
Qed.

Lemma Front_closed c w p c' w' :
  PtcpConn.IsClosed c = true → PtcpConn.Front c w = Ret (p, c', w') → w' = w.
Proof.
  intros Hc. unfold PtcpConn.Front. destruct (UseShm c); intros H; run H.
  - destruct r as [[n c1] w1]. run H. by apply DoRecv_closed in Hrun as [_ ->].
  - destruct r as [h c1]. destruct h; [by run H|].
    assert (PtcpConn.IsClosed c1 = true) as Hc1.
    { apply Front_skip_fds in Hrun as [_ Hs]. unfold PtcpConn.IsClosed in *. rewrite Z.ltb_lt in *. lia. }
    run H. destruct r as [[n c2] w2]. apply DoRecv_closed in Hrun0 as [-> ->]; [|done]. simpl in H. by run H.
Qed.

Lemma SendHB_closed c now w q :
  PtcpConn.IsClosed c = true → q_ c = Some q →
  ∃ c', SendHB c now w = Ret (c', w) ∧ same_recv c c' ∧ sockfd_ c' = sockfd_ c ∧ fd_to_close_ c' = fd_to_close_ c ∧
        q_ c' = Some q.
Proof.
  intros Hc Hq. unfold SendHB. destruct (_ <? _); [by eexists|]. simpl. rewrite Hq. unfold SendPending.
  assert (PtcpConn.IsClosed (set_times c (recv_time_ c) (send_time_ c) now) = true) as -> by done. simpl. rewrite Hq.
  rewrite SendHB_send_closed by done. by eexists.
Qed.

(** A polling thread that comes to a connection after it was closed does
    no harm: whatever the connection had received, [TcpFront] returns, without
    an effect on any socket or on the send queue; the connection stays closed,
    with the messages that were not popped yet (but for leading heartbeats),
    of which the first is returned. *)
Theorem closed_visit_harmless (c : TcpShmConnection) now w fs t q :
  Conf_ok → PtcpConn.IsClosed (ptcp_conn_ c) = true → q_ (ptcp_conn_ c) = Some q → recv_rep (ptcp_conn_ c) fs t →
  ∃ c', TcpFront c now w = Ret (front_of (ptcp_conn_ c') (skip_hb fs), c', w) ∧
    recv_rep (ptcp_conn_ c') (skip_hb fs) t ∧ q_ (ptcp_conn_ c') = Some q ∧
    PtcpConn.IsClosed (ptcp_conn_ c') = true ∧ conn_fd c' = conn_fd c.
Proof.
  intros HC Hcl Hq Hrep. destruct (SendHB_closed _ now w q Hcl Hq) as (c1 & Hhb & Hsame & Hs1 & Hf1 & Hq1).
  unfold TcpFront. rewrite Hhb, outcome_bind_Ret.
  assert (recv_rep c1 fs t) as Hrep1.
  { destruct Hsame as (H1 & H2 & H3 & H4 & H5). apply (recv_rep_same (ptcp_conn_ c)); done. }
  assert (PtcpConn.IsClosed c1 = true) as Hcl1 by (unfold PtcpConn.IsClosed in *; by rewrite Hs1).
  assert (sockfd_ c1 < 0) as Hneg by by apply Z.ltb_lt.
  assert (reads_frames c1 t q w) as Hreads.
  { intros lens data w1 Hr. destruct (os_readv_closed (sockfd_ c1) lens w Hneg) as (e & He & _). congruence. }
  destruct (Front_ok HC c1 (-1) fs t q w Hrep1 Hq1 (or_intror Hneg) Hreads)
    as (r & c2 & w2 & q2 & ms & data & t2 & Hfr & Hfd & ->).
  assert (data = []) as ->.
  { destruct data as [|x data]; [done|]. destruct (fr_read _ _ _ _ _ _ _ _ _ _ _ _ Hfd) as [lens Hl]; [done|].
    destruct (os_readv_closed (sockfd_ c1) lens w Hneg) as (e & He & _). congruence. }
  destruct (fr_acks _ _ _ _ _ _ _ _ _ _ _ _ Hfd) as [(_ & -> & ->)|[? _]]; [|done].
  pose proof (Front_closed _ _ _ _ _ Hcl1 Hfr) as ->.
  exists (set_ptcp_conn c c2). rewrite Hfr. pose proof (fr_cut _ _ _ _ _ _ _ _ _ _ _ _ Hfd) as Hcut.
  rewrite app_nil_r in Hcut. simpl in Hcut. subst t2. pose proof (fr_rep _ _ _ _ _ _ _ _ _ _ _ _ Hfd) as Hrep2.
  pose proof (fr_fd _ _ _ _ _ _ _ _ _ _ _ _ Hfd) as Hs2.
  split_and!; [done|exact Hrep2|by destruct Hfd| |].
  { unfold PtcpConn.IsClosed. simpl. apply Z.ltb_lt. lia. }
  simpl. rewrite (fr_close _ _ _ _ _ _ _ _ _ _ _ _ Hfd). done.
Qed.
End closed.

(** ** A message popped after the next login *)

Section stale.
Context {conf : Conf} {ud : UserData} {W : Type} {os : Os W}.
Context {mmq : MmapOs W PTCPQueue} {mms : MmapOs W SPSCVarQueue}.
Context {los : LoginOs W} {user : ServerUser W}.
Context (stack_header : MsgHeader) (stack_rsp : LoginRspMsg).
Implicit Types (t : threads) (w : W).

(** A connection over TCP on whose present socket nothing has arrived; its
    buffer still holds [buf]. *)
Record nothing_received (buf : list Z) (c : TcpShmConnection) : Prop := {
  nr_tcp : shm_recvq_ c = None;
  nr_buf : recvbuf_ (ptcp_conn_ c) = buf;
  nr_write : writeidx_ (ptcp_conn_ c) = 0;
  nr_next : nextmsg_idx_ (ptcp_conn_ c) = 0;
  nr_read : readidx_ (ptcp_conn_ c) = 0
}.

Lemma SendPending_recv c w b c' w' :
  SendPending c w = Ret (b, c', w') →
  recvbuf_ c' = recvbuf_ c ∧ recvbuf_size_ c' = recvbuf_size_ c ∧
  writeidx_ c' = writeidx_ c ∧ nextmsg_idx_ c' = nextmsg_idx_ c ∧ readidx_ c' = readidx_ c.
Proof.
  unfold SendPending. destruct (PtcpConn.IsClosed c); intros H; [by run H|]. destruct (q_ c) as [q|]; [|done].
  destruct (GetSendable q) as [p n]. destruct (n =? 0); [by run H|]. run H. run H. destruct r0 as [[err size] w1].
  destruct err as [e|]; [|by destruct (0 <? _); run H]. run H. unfold PtcpConn.Close. by destruct (sockfd_ c <? 0).
Qed.

(** So [Open] leaves a connection that had a buffer. *)
Lemma Open_nothing_received c fd ra now w c' w' :
  shm_recvq_ c = None → recvbuf_size_ (ptcp_conn_ c) ≠ 0 → Open c fd ra now w = Ret (c', w') →
  nothing_received (recvbuf_ (ptcp_conn_ c)) c'.
Proof.
  unfold Open, PtcpConn.Open. intros Hs Hz H. run H. destruct r as [c1 w1]. run H. run Hrun. destruct r as [c2 w2].
  set (c0 := set_times _ _ _ _) in *.
  assert (recvbuf_ c2 = recvbuf_ c0 ∧ recvbuf_size_ c2 = recvbuf_size_ c0 ∧ writeidx_ c2 = 0 ∧ nextmsg_idx_ c2 = 0 ∧ readidx_ c2 = 0)
    as (H1 & H2 & H3 & H4 & H5).
  { destruct (q_ c0) as [q|]; [|by run Hrun0]. run Hrun0. run Hrun0. destruct r0 as [[b c3] w3]. run Hrun0.
    by apply SendPending_recv in Hrun2. }
  rewrite H2 in Hrun. destruct (Z.eqb_spec (recvbuf_size_ c0) 0); [done|]. run Hrun. by constructor.
Qed.

(** C32: the comment in [PollTcp] notwithstanding, a polling thread may harm a
    connection that was closed and opened again meanwhile.  Whatever the
    schedule did before: let a polling thread be about to give the callback a
    message [h] of a connection on whose present socket nothing has arrived, and
    let the callback pop it.  Then its turn pops what the buffer still holds
    from the old session: the number of messages read goes up by one, beyond
    the number that the reply to the login has told the client, and the read
    index moves beyond everything received; and if the bytes there are no
    heartbeat, the next [Front] delivers them as a message, without reading
    the socket. *)
Theorem threads_stale_pop t w w1 n p cnt i cid h now reload c q buf hd hd' :
  t_poll t !! n = Some p → p_pc p = PollMsg cnt i cid h →
  get (conn_pool_ (t_srv t)) cid = Ret c → nothing_received buf c → q_ (ptcp_conn_ c) = Some q →
  read_header buf 0 = Ret hd → 0 < mh_size hd < 65536 → read_header buf (round8 (mh_size hd)) = Ret hd' →
  OnClientMsg c h w = (c' ← Pop c; Ret (c', w1)) →
  ∃ t' c' q', turn_step stack_header stack_rsp (TurnPoll n now reload) t w = Ret (t', w1) ∧
    get (conn_pool_ (t_srv t')) cid = Ret c' ∧ conn_sock c' = conn_sock c ∧
    q_ (ptcp_conn_ c') = Some q' ∧ ack_seq_num_ q' = u32 (ack_seq_num_ q + 1) ∧
    writeidx_ (ptcp_conn_ c') < readidx_ (ptcp_conn_ c') ∧
    (mh_msg_type hd' ≠ HeartbeatMsg_msg_type → last_my_ack_ (ptcp_conn_ c) ≠ ack_seq_num_ q' →
     ∀ w2, ∃ c'', PtcpConn.Front (ptcp_conn_ c') w2 = Ret (Some (round8 (mh_size hd)), c'', w2)).
Proof.
  intros Hn Hpc Hc [Htcp Hbuf Hw Hnx Hrd] Hq Hhd Hsz Hhd' Hcb.
  set (c' := set_ptcp_conn c (set_q (set_readidx (ptcp_conn_ c) (u32 (0 + round8 (mh_size hd)))) (Some (MyAck_incr q)))).
  assert (Pop c = Ret c') as Hpop by (unfold Pop, PtcpConn.Pop; by rewrite Htcp, Hbuf, Hrd, Hhd, outcome_bind_Ret, Hq).
  pose proof (round8_spec (mh_size hd)) as Hr8.
  assert (u32 (0 + round8 (mh_size hd)) = round8 (mh_size hd)) as Hu by (apply u32_small; lia).
  destruct (put_conn_ok (t_srv t) cid c c' Hc) as [s' Hput].
  eexists _, c', (MyAck_incr q). cbn [turn_step]. unfold poll_step. rewrite Hn, Hpc, Hc, outcome_bind_Ret, Hcb, Hpop.
  rewrite !outcome_bind_Ret, Hput, !outcome_bind_Ret. split; [done|]. cbn [t_srv].
  split; [by eapply put_conn_get|]. split; [done|]. split; [done|]. split; [done|]. split; [simpl; lia|].
  intros Hhb Hlast w2. unfold PtcpConn.Front, loop_fuel, UseShm. cbn -[u32 round8 header_bytes]. rewrite Hu, Hnx, Hbuf.
  destruct (Z.eqb_spec 0 (round8 (mh_size hd))); [lia|]. rewrite Hhd', outcome_bind_Ret.
  destruct (Z.eqb_spec (mh_msg_type hd') HeartbeatMsg_msg_type); [done|].
  destruct (Z.eqb_spec (last_my_ack_ (ptcp_conn_ c)) (u32 (ack_seq_num_ q + 1))); [done|]. by eexists.
Qed.
End stale.

(** ** Runs *)

#[local] Existing Instance ex_conf.

(** A started server. *)
Definition ex_started `{MmapOs net SPSCVarQueue} (w : net) : outcome (TcpShmServer * net) :=
  '(s, w) ← new_TcpShmServer (chars "srv") (chars "/tmp") (zeros 16) ex_new_conn w;
  let '(_, s, w) := Start s [] 80 w in Ret (s, w).

Definition ex_turns `{MmapOs net SPSCVarQueue} (groups : list (bool * Z)) (l : list turn) (w : net) : outcome (threads * net) :=
  '(s, w) ← ex_started w; run_turns ex_header ex_rsp l (start_threads s groups) w.

Lemma ex_started_reachable `{MmapOs net SPSCVarQueue} w s w' :
  open_fds w = ∅ → ex_started w = Ret (s, w') → ex_reachable s w'.
Proof.
  unfold ex_started. intros Hw Hr. run Hr. destruct r as [s1 w1].
  destruct (Start s1 [] 80 w1) as [[b s2] w2] eqn:Hst. run Hr.
  eapply reach_step; [|exact (step_Start _ _ _ _ _ _ _ _ _ Hst)]. exact (reach_new _ _ _ _ _ _ w _ _ Hw Hrun).
Qed.

(** A run of turns is a run of the threads. *)
Lemma run_turns_reach `{MmapOs net SPSCVarQueue} s0 w0 groups l t w t' w' :
  threads_reach ex_header ex_rsp s0 w0 groups t w → run_turns ex_header ex_rsp l t w = Ret (t', w') →
  threads_reach ex_header ex_rsp s0 w0 groups t' w'.
Proof.
  revert t w. induction l as [|tn l IH]; intros t w Hr Hl; simpl in Hl; [by run Hl|].
  run Hl. destruct r as [t1 w1]. eapply IH; [|exact Hl]. eapply tr_step; [exact Hr|by eapply ts_turn].
Qed.

Lemma ex_turns_reach `{MmapOs net SPSCVarQueue} groups l w t w' :
  open_fds w = ∅ → ex_turns groups l w = Ret (t, w') →
  ∃ s0 w0, ex_started w = Ret (s0, w0) ∧ ex_reachable s0 w0 ∧ threads_reach ex_header ex_rsp s0 w0 groups t w'.
Proof.
  unfold ex_turns. intros Hw Hr. run Hr. destruct r as [s0 w0]. exists s0, w0. split; [done|].
  split; [by eapply ex_started_reachable|]. eapply run_turns_reach; [apply tr_start|exact Hr].
Qed.

Abbreviation ctl n now := (replicate n (TurnCtl now)).
Abbreviation poll n now := (replicate n (TurnPoll 0 now false)).

(** "bob" is logging on, [live_cnt] is stored but not the slots, and the
    polling thread already visits his connection. *)
Lemma ex_login_visit :
  ∃ s0 w0 t w p, ex_reachable s0 w0 ∧ groups_ok s0 [(false, 0)] ∧ threads_reach ex_header ex_rsp s0 w0 [(false, 0)] t w ∧
    length (t_todo t) = 2%nat ∧ t_poll t !! 0%nat = Some p ∧ working_on p = Some 2.
Proof.
  assert (match ex_turns [(false, 0)] (ctl 3 5 ++ poll 2 6) ex_net with
          | Ret (t, w) => bool_decide (length (t_todo t) = 2%nat) &&
              match t_poll t !! 0%nat with Some p => bool_decide (working_on p = Some 2) | None => false end
          | _ => false end = true) as Hc by (vm_compute; reflexivity).
  destruct (ex_turns _ _ _) as [[t w]| |] eqn:Hr; [|discriminate Hc..].
  apply andb_true_iff in Hc as [Hto Hc]. apply bool_decide_eq_true in Hto.
  destruct (t_poll t !! 0%nat) as [p|] eqn:Hp; [|discriminate Hc]. apply bool_decide_eq_true in Hc.
  destruct (ex_turns_reach _ _ ex_net _ _ eq_refl Hr) as (s0 & w0 & Hs & Hreach & Ht).
  exists s0, w0, t, w, p. split; [exact Hreach|]. split; [|by repeat (split; [eassumption|])].
  assert (match ex_started ex_net with Ret (s, _) => bool_decide (zlen (tcp_grps_ s) = 1) | _ => false end = true) as Hg
    by (vm_compute; reflexivity).
  rewrite Hs in Hg. apply bool_decide_eq_true in Hg. constructor; [|constructor]. simpl. rewrite Hg. lia.
Qed.

Lemma threads_sockets_owned_witness :
  ∃ t w, length (t_todo t) = 2%nat ∧ (NoDup (owned (t_srv t)) ∧ ∀ fd, fd ∈ owned (t_srv t) ↔ fd ∈ open_fds w).
Proof.
  destruct ex_login_visit as (s0 & w0 & t & w & p & Hr & Hg & Ht & Hto & _ & _). exists t, w. split; [exact Hto|].
  exact (proj1 (threads_sockets_owned ex_name_size ex_conf_server ex_header ex_rsp s0 w0 [(false, 0)] t w Hr Hg Ht)).
Defined.

Lemma threads_visit_own_witness :
  ∃ s0 w0 t w p, threads_reach ex_header ex_rsp s0 w0 [(false, 0)] t w ∧ length (t_todo t) = 2%nat ∧
    ∃ grp c, get (grps s0 (p_shm p)) (p_grp p) = Ret grp ∧ 2 ∈ conns grp ∧
      get (conn_pool_ (t_srv t)) 2 = Ret c ∧ conn_name c ≠ [].
Proof.
  destruct ex_login_visit as (s0 & w0 & t & w & p & Hr & Hg & Ht & Hto & Hn & Hw). exists s0, w0, t, w, p.
  do 2 (split; [assumption|]).
  pose proof (threads_visit_own ex_name_size ex_conf_server ex_header ex_rsp s0 w0 [(false, 0)] t w 0 p Hr Hg Ht Hn) as H.
  rewrite Hw in H. exact (proj1 H).
Defined.

(** The polling thread, which visits his connection, gets seven turns between
    those of the control thread. *)
Definition ex_more_turns : list turn := concat (replicate 7 (ctl 1 7 ++ poll 1 7)).

Lemma ex_login_visit_more :
  ∃ s0 w0 t w t' w', ex_reachable s0 w0 ∧ groups_ok s0 [(false, 0)] ∧ threads_reach ex_header ex_rsp s0 w0 [(false, 0)] t w ∧
    run_turns ex_header ex_rsp ex_more_turns t w = Ret (t', w') ∧ call_turns (members s0) [(false, 0)] (Some 0%nat) = 7 ∧
    ¬ outside (Some 0%nat) t.
Proof.
  set (r := '(s0, w0) ← ex_started ex_net; '(t, w) ← run_turns ex_header ex_rsp (ctl 3 5 ++ poll 2 6) (start_threads s0 [(false, 0)]) w0;
    '(t', w') ← run_turns ex_header ex_rsp ex_more_turns t w; Ret (s0, t)).
  assert (match r with Ret (s0, t) => (call_turns (members s0) [(false, 0)] (Some 0%nat) =? 7) && negb (bool_decide (outside (Some 0%nat) t))
            && bool_decide (zlen (tcp_grps_ s0) = 1) | _ => false end = true) as Hc by (vm_compute; reflexivity).
  destruct r as [[s0 t]| |] eqn:Hr; [|discriminate Hc..]. unfold r in Hr. run Hr. destruct r0 as [s1 w1]. run Hr.
  destruct r0 as [t1 w2]. run Hr. destruct r0 as [t2 w3]. run Hr.
  apply andb_true_iff in Hc as [[Hc Ho]%andb_true_iff Hg]. apply Z.eqb_eq in Hc. apply bool_decide_eq_true in Hg.
  exists s0, w1, t, w2, t2, w3. split; [by apply (ex_started_reachable ex_net s0 w1)|]. split.
  { constructor; [|constructor]. simpl. rewrite Hg. lia. }
  split; [eapply run_turns_reach; [apply tr_start|exact Hrun0]|]. split; [exact Hrun1|]. split; [exact Hc|].
  by apply negb_true_iff, bool_decide_eq_false in Ho.
Qed.

Lemma threads_calls_end_witness :
  ∃ t w l1 l2 t1 w1, ¬ outside (Some 0%nat) t ∧ ex_more_turns = l1 ++ l2 ∧
    run_turns ex_header ex_rsp l1 t w = Ret (t1, w1) ∧ outside (Some 0%nat) t1.
Proof.
  destruct ex_login_visit_more as (s0 & w0 & t & w & t' & w' & Hr & Hg & Ht & Hrun & Hc & Ho). exists t, w.
  assert (call_turns (members s0) [(false, 0)] (Some 0%nat) ≤ own_turns (Some 0%nat) ex_more_turns) as Hle
    by (rewrite Hc; vm_compute; discriminate).
  destruct (returned_leads_to ex_header ex_rsp ex_more_turns t w (t', w') (outside (Some 0%nat)) Hrun
    (threads_calls_end ex_name_size ex_conf_server ex_header ex_rsp s0 w0 [(false, 0)] t w (Some 0%nat)
      ex_more_turns Hr Hg Ht Hle)) as (l1 & l2 & t1 & w1 & H1 & H2 & H3).
  exists l1, l2, t1, w1. split; [exact Ho|]. split; [exact H1|]. split; [exact H2|exact H3].
Defined.

Lemma ex_PollCtl_returns :
  ∃ s0 w0 s w, ex_reachable s0 w0 ∧ PollCtl ex_header ex_rsp s0 5 w0 = Ret (s, w) ∧ live_cnt <$> tcp_grps_ s = [1].
Proof.
  assert (match ex_started ex_net with
          | Ret (s0, w0) => match PollCtl ex_header ex_rsp s0 5 w0 with
                            | Ret (s, w) => bool_decide (live_cnt <$> tcp_grps_ s = [1]) | _ => false end
          | _ => false end = true) as Hc by (vm_compute; reflexivity).
  destruct (ex_started ex_net) as [[s0 w0]| |] eqn:Hs; [|discriminate Hc..].
  destruct (PollCtl ex_header ex_rsp s0 5 w0) as [[s w]| |] eqn:Hp; [|discriminate Hc..].
  apply bool_decide_eq_true in Hc. exists s0, w0, s, w. split; [|split; assumption]. by apply (ex_started_reachable ex_net s0 w0).
Qed.

Lemma threads_alone_witness :
  ∃ s0 w0 s w, live_cnt <$> tcp_grps_ s = [1] ∧
    ctl_runs ex_header ex_rsp 5 (mkThreads s0 CtlIdle 0 [] []) w0 (mkThreads s CtlIdle 5 [] []) w.
Proof.
  destruct ex_PollCtl_returns as (s0 & w0 & s & w & Hr & Hp & Hl). exists s0, w0, s, w. split; [exact Hl|].
  exact (proj1 (threads_alone ex_name_size ex_conf_server ex_header ex_rsp s0 w0 5 Hr) s w [] 0 Hp).
Defined.

(** A connection that was closed with a heartbeat and a message unread. *)
Definition ex_closed : TcpShmConnection :=
  set_ptcp_conn (new_TcpShmConnection [])
    (PtcpConn.Close (set_idx (set_recvbuf ex_open (ex_hb ++ ex_frame ++ zeros 8) 32) 24 24 0) "Send error" 32).

Lemma ex_closed_rep : recv_rep (ptcp_conn_ ex_closed) [ex_hb; ex_frame] [].
Proof.
  constructor; [constructor; vm_compute; repeat split; discriminate|reflexivity|reflexivity| |apply partial_nil].
  repeat constructor; try apply ex_frame_ok; apply ex_hb_ok.
Qed.

Lemma closed_visit_harmless_witness :
  ∃ c', TcpFront ex_closed 9 (ex_script [] []) = Ret (Some (readidx_ (ptcp_conn_ c')), c', ex_script [] []) ∧
    recv_rep (ptcp_conn_ c') [ex_frame] [].
Proof.
  destruct (closed_visit_harmless ex_closed 9 (ex_script [] []) [ex_hb; ex_frame] [] ex_q ex_conf_ok eq_refl eq_refl
              ex_closed_rep) as (c' & Hf & Hr & _).
  exists c'. split; [exact Hf|exact Hr].
Defined.

(** *** A message popped after the next login

    The client has sent two messages.  The polling thread pops the first, and
    holds the second when its heartbeat fails: the connection is closed, the
    control thread removes it and lets the client log on again, telling it that
    one message was read.  Then the callback pops the message it holds. *)

Definition ex_messages : list Z := header_bytes true (mkMsgHeader 8 7 0) ++ header_bytes true (mkMsgHeader 8 8 0).
Definition ex_login_again : LoginMsg := mkLoginMsg 0 2 tt 0 (padded 16 "bob") (padded 16 "srv").
Definition ex_broken : net :=
  mkNet (ex_script [SysErr 32] [SysOk ex_messages]) ∅ 2
    [RecvFull ex_header (ex_login "bob" ""); RecvErr EAGAIN; RecvFull ex_header ex_login_again] [] [] (zeros 16).

(** Up to the second message, the logout, and the second login. *)
Definition ex_turns_held : list turn := ctl 14 5 ++ poll 5 6 ++ poll 3 9.
Definition ex_turns_again : list turn := ex_turns_held ++ ctl 13 9 ++ ctl 14 9.

(** The connection of "bob", its number of messages read and the last reply. *)
Definition ex_state (r : outcome (threads * net)) : option (Z * Z * Z * list poll_pc * list Z) :=
  match r with
  | Ret (t, w) =>
      match get (conn_pool_ (t_srv t)) 2 with
      | Ret c =>
          match q_ (ptcp_conn_ c), last (n_sent w) with
          | Some q, Some (_, (header, _)) =>
              Some (conn_sock c, ack_seq_num_ q, mh_ack_seq header, p_pc <$> t_poll t, os_received 5 (n_script w))
          | _, _ => None
          end
      | _ => None
      end
  | _ => None
  end.

(** The reply to the login on the new socket 5 says that the server has read 1
    message; the callback that still holds the second then pops it, so that the
    server's number is 2 and the client sends again what was read; and the next
    visit delivers it once more, from the buffer, and the number is 3, although
    nothing has arrived on the new socket and the client has sent only 2. *)
Example ex_stale_pop_run :
  ex_state (ex_turns [(false, 0)] ex_turns_held ex_broken) = Some (-1, 1, 0, [PollMsg 1 0 2 8], []) ∧
  ex_state (ex_turns [(false, 0)] ex_turns_again ex_broken) = Some (5, 1, 1, [PollMsg 1 0 2 8], []) ∧
  ex_state (ex_turns [(false, 0)] (ex_turns_again ++ poll 1 9) ex_broken) = Some (5, 2, 1, [PollLoop 1 1], []) ∧
  ex_state (ex_turns [(false, 0)] (ex_turns_again ++ poll 5 9) ex_broken) = Some (5, 2, 1, [PollMsg 1 0 2 8], []) ∧
  ex_state (ex_turns [(false, 0)] (ex_turns_again ++ poll 6 9) ex_broken) = Some (5, 3, 1, [PollLoop 1 1], []).
Proof. split_and!; vm_compute; reflexivity. Qed.

#[export] Instance poll_pc_eq_dec : EqDecision poll_pc.
Proof. solve_decision. Defined.

(** A state in the middle of this run. *)
Definition ex_held_state (t : threads) (w : net) : bool :=
  match t_poll t !! 0%nat, get (conn_pool_ (t_srv t)) 2, last (n_sent w) with
  | Some p, Ret c, Some (_, (header, _)) =>
      bool_decide (p_pc p = PollMsg 1 0 2 8) && bool_decide (mh_ack_seq header = 1) && bool_decide (conn_sock c = 5) &&
      match shm_recvq_ c with None => true | _ => false end &&
      bool_decide (writeidx_ (ptcp_conn_ c) = 0 ∧ nextmsg_idx_ (ptcp_conn_ c) = 0 ∧ readidx_ (ptcp_conn_ c) = 0) &&
      bool_decide (last_my_ack_ (ptcp_conn_ c) = 1) &&
      bool_decide (ack_seq_num_ <$> q_ (ptcp_conn_ c) = Some 1) &&
      match read_header (recvbuf_ (ptcp_conn_ c)) 0, read_header (recvbuf_ (ptcp_conn_ c)) 8 with
      | Ret hd, Ret hd' => bool_decide (mh_size hd = 8 ∧ mh_msg_type hd' = 8)
      | _, _ => false
      end
  | _, _, _ => false
  end.

Lemma ex_held :
  ∃ s0 w0 t w p c q header rsp hd hd', ex_reachable s0 w0 ∧ threads_reach ex_header ex_rsp s0 w0 [(false, 0)] t w ∧
    t_poll t !! 0%nat = Some p ∧ p_pc p = PollMsg 1 0 2 8 ∧ get (conn_pool_ (t_srv t)) 2 = Ret c ∧
    (∃ fd, last (n_sent w) = Some (fd, (header, rsp))) ∧ mh_ack_seq header = 1 ∧ conn_sock c = 5 ∧
    nothing_received (recvbuf_ (ptcp_conn_ c)) c ∧ last_my_ack_ (ptcp_conn_ c) = 1 ∧
    q_ (ptcp_conn_ c) = Some q ∧ ack_seq_num_ q = 1 ∧
    read_header (recvbuf_ (ptcp_conn_ c)) 0 = Ret hd ∧ read_header (recvbuf_ (ptcp_conn_ c)) 8 = Ret hd' ∧
    mh_size hd = 8 ∧ mh_msg_type hd' = 8.
Proof.
  assert (match ex_turns [(false, 0)] ex_turns_again ex_broken with Ret (t, w) => ex_held_state t w | _ => false end = true) as Hc
    by (vm_compute; reflexivity).
  destruct (ex_turns _ _ _) as [[t w]| |] eqn:Hr; [|discriminate Hc..].
  destruct (ex_turns_reach _ _ ex_broken _ _ eq_refl Hr) as (s0 & w0 & _ & Hreach & Ht). unfold ex_held_state in Hc.
  destruct (t_poll t !! 0%nat) as [p|] eqn:Hp; [|discriminate Hc]. destruct (get (conn_pool_ (t_srv t)) 2) as [c| |] eqn:Hg; [|discriminate Hc..].
  destruct (last (n_sent w)) as [[fd [header rsp]]|] eqn:Hl; [|discriminate Hc].
  destruct (read_header _ 0) as [hd| |] eqn:Hd; [|by rewrite andb_false_r in Hc..].
  destruct (read_header _ 8) as [hd'| |] eqn:Hd'; [|by rewrite andb_false_r in Hc..].
  rewrite !andb_true_iff, !bool_decide_eq_true in Hc.
  destruct Hc as (((((((Hpc & Hack) & Hs) & Hshm) & (Hw & Hn & Hrd)) & Hlast) & Hq) & Hsz & Hty).
  destruct (q_ (ptcp_conn_ c)) as [q|] eqn:Hqc; [|done]. injection Hq as Hq.
  exists s0, w0, t, w, p, c, q, header, rsp, hd, hd'. clear Hr.
  do 2 (split; [assumption|]). do 3 (split; [assumption|]). split; [by exists fd|]. do 2 (split; [exact Hack || exact Hs|]).
  split; [constructor; try assumption; [by destruct (shm_recvq_ c)|reflexivity]|].
  repeat (split; [assumption|]). assumption.
Qed.

(** The client was told that one message was read; now the server's number is
    2, and the next message it delivers is one that was read before. *)
Lemma threads_stale_pop_witness :
  ∃ s0 w0 t w t' c' q', ex_reachable s0 w0 ∧ threads_reach ex_header ex_rsp s0 w0 [(false, 0)] t w ∧
    (∃ fd header rsp, last (n_sent w) = Some (fd, (header, rsp)) ∧ mh_ack_seq header = 1) ∧
    turn_step ex_header ex_rsp (TurnPoll 0 9 false) t w = Ret (t', w) ∧
    get (conn_pool_ (t_srv t')) 2 = Ret c' ∧ conn_sock c' = 5 ∧ q_ (ptcp_conn_ c') = Some q' ∧ ack_seq_num_ q' = 2 ∧
    ∃ c'', PtcpConn.Front (ptcp_conn_ c') w = Ret (Some 8, c'', w).
Proof.
  destruct ex_held as (s0 & w0 & t & w & p & c & q & header & rsp & hd & hd' & Hr & Ht & Hp & Hpc & Hc & (fd & Hl) & Hack & Hs &
    Hn & Hlast & Hq & Hak & Hhd & Hhd' & Hsz & Hty).
  assert (round8 (mh_size hd) = 8) as H8 by by rewrite Hsz. rewrite <-H8 in Hhd'.
  destruct (threads_stale_pop (user := ex_server_user) ex_header ex_rsp t w w 0 p 1 0 2 8 9 false c q _ hd hd' Hp Hpc Hc Hn Hq Hhd ltac:(lia) Hhd' ltac:(reflexivity))
    as (t' & c' & q' & Hstep & Hc' & Hs' & Hq' & Hak' & _ & Hfront).
  rewrite Hak in Hak'. exists s0, w0, t, w, t', c', q'. split_and!; try done.
  - by exists fd, header, rsp.
  - by rewrite Hs'.
  - rewrite <-H8. apply Hfront; [by rewrite Hty|by rewrite Hlast, Hak'].
Defined.

(** *** A null pointer in [ShmFront]

    The file of "eve" cannot be opened, but her name stays in the first slot.
    When "bob" logs on, [live_cnt] is stored before the slots. *)

#[local] Instance ex_shm_fail : MmapOs net SPSCVarQueue := {|
  os_open := λ f _ w, if bool_decide (101 ∈ f) then (SysErr 24, w) else (SysOk 0, w);
  os_ftruncate := λ _ _ w, (false, w);
  os_mmap := λ _ w, (Some (new_SPSCVarQueue ShmQueueSize), w);
  os_close_file := λ _ w, w;
  os_munmap := λ _ w, w
|}.

Definition ex_login_shm (name : string) : LoginMsg := mkLoginMsg 0 0 tt 1 (padded 16 name) (padded 16 "").
Definition ex_two_clients : net :=
  mkNet (ex_script [] []) ∅ 2
    [RecvFull ex_header (ex_login_shm "eve"); RecvFull ex_header (ex_login_shm "bob")] [] [] (zeros 16).

#[export] Instance store_eq_dec : EqDecision store.
Proof. solve_decision. Defined.

Definition ex_null_state (t : threads) (w : net) : bool :=
  bool_decide (t_todo t = [StoreSlot true 0 1 0; StoreSlot true 0 0 1]) &&
  match t_ctl t, t_poll t !! 0%nat, get (conn_pool_ (t_srv t)) 0, turn_step ex_header ex_rsp (TurnPoll 0 6 false) t w with
  | CtlLogon _ _ cid, Some p, Ret conn, Undef =>
      bool_decide (cid = 1) && bool_decide (p_shm p = true ∧ p_grp p = 0) && bool_decide (p_pc p = PollVisit 1 0 0) &&
      bool_decide (conn_fd conn = -1) && bool_decide (conn_name conn = chars "eve") &&
      match shm_recvq_ conn with None => true | _ => false end
  | _, _, _, _ => false
  end.

(** C33: a polling thread that gets its turn between the store into [live_cnt]
    and those into the slots can visit a connection of its group that is not
    open.  In a run of a server with a group of shared memory, the control
    thread is logging on the connection 1, with [live_cnt] stored and the two
    slots still to do; the polling thread of the group has read the first slot,
    the connection 0, which has the name of a client but no socket, and whose
    queue of shared memory was never mapped; its next turn calls [ShmFront],
    which follows the null pointer. *)
Theorem threads_ShmFront_null :
  ∃ s0 w0 t w k addr p conn,
    ex_reachable s0 w0 ∧ threads_reach ex_header ex_rsp s0 w0 [(true, 0)] t w ∧
    t_ctl t = CtlLogon k addr 1 ∧ t_todo t = [StoreSlot true 0 1 0; StoreSlot true 0 0 1] ∧
    t_poll t !! 0%nat = Some p ∧ (p_shm p = true ∧ p_grp p = 0) ∧ p_pc p = PollVisit 1 0 0 ∧
    get (conn_pool_ (t_srv t)) 0 = Ret conn ∧ conn_fd conn = -1 ∧ conn_name conn = chars "eve" ∧ shm_recvq_ conn = None ∧
    ShmFront conn = Undef ∧ turn_step ex_header ex_rsp (TurnPoll 0 6 false) t w = Undef.
Proof.
  assert (match ex_turns [(true, 0)] (ctl 8 5 ++ ctl 4 5 ++ poll 2 6) ex_two_clients with
          | Ret (t, w) => ex_null_state t w | _ => false end = true) as Hc by (vm_compute; reflexivity).
  destruct (ex_turns _ _ _) as [[t w]| |] eqn:Hr; [|discriminate Hc..].
  destruct (ex_turns_reach _ _ ex_two_clients _ _ eq_refl Hr) as (s0 & w0 & _ & Hreach & Ht). clear Hr.
  unfold ex_null_state in Hc. apply andb_true_iff in Hc as [Hto%bool_decide_eq_true Hc].
  destruct (t_ctl t) as [|k|k addr cid|shm g i|shm g i] eqn:Hctl; try discriminate Hc.
  destruct (t_poll t !! 0%nat) as [p|] eqn:Hp; [|discriminate Hc].
  destruct (get (conn_pool_ (t_srv t)) 0) as [c| |] eqn:Hg; [|discriminate Hc..].
  destruct (turn_step _ _ _ _ _) eqn:Hstep; [discriminate Hc| |discriminate Hc].
  rewrite !andb_true_iff, !bool_decide_eq_true in Hc. destruct Hc as (((((-> & Hsh) & Hpc) & Hfd) & Hnm) & Hq).
  destruct (shm_recvq_ c) as [q|] eqn:Hqc; [discriminate Hq|].
  assert (ShmFront c = Undef) as Hf by (unfold ShmFront; by rewrite Hqc).
  exists s0, w0, t, w, k, addr, p, c. repeat (split; [assumption|]). assumption.
Qed.
