(* ===== verification/CrashProps.v ===== *)
(** * Properties of the send queue when its process crashes

    What a crash between two stores leaves in the mapped file, and what the
    next login makes of it.  The instances run on the queue of
    [PtcpQueueProps]. *)

From S2P Require Import Prelude.
From S2P Require Import Arrays.
From S2P Require Import MsgHeader.
From S2P Require Import PtcpQueue.
From S2P Require Import PtcpQueueInv.
From S2P Require Import PtcpQueueSpec.
From S2P Require Import PtcpQueueProps.
From S2P Require Import PtcpCrash.
From S2P Require Import Server.
From S2P Require Import ServerLogin.

(** C16: [Push], [Sendout], the count of a popped message and an [Alloc] that
    does not move the messages are atomic: their stores are the operation,
    and a crash after any of them leaves the file either as the whole
    operation does, or with the messages and the numbers it had before. *)
Theorem ptcp_crash_safe Bytes ToLE IsLE q ms u l q' :
  Bytes_ok Bytes → queue_rep Bytes ToLE IsLE q ms → in_place Bytes q u →
  stores_of Bytes ToLE IsLE q u = Ret l → crashed q l q' →
  run_stores q l = updated Bytes ToLE IsLE q u ∧
  (updated Bytes ToLE IsLE q u = Ret q' ∨
   file_at Bytes ToLE IsLE q' ms (read_seq_num_ q) (ack_seq_num_ q)).
Proof.
  intros HB Hq Hu Hl Hc. split; [by rewrite <-stores_of_run, Hl|]. by eapply in_place_crash.
Qed.

(** [Push] stops when the ack and the size are stored. *)
Lemma ptcp_crash_safe_witness :
  ∃ l q', stores_of 64 true true ex_filled UpPush = Ret l ∧ run_stores ex_filled (take 2 l) = Ret q' ∧
    run_stores ex_filled l = Push true true ex_filled ∧
    (Push true true ex_filled = Ret q' ∨ file_at 64 true true q' ex_msgs 0 0).
Proof.
  do 2 eexists. split; [reflexivity|]. split; [reflexivity|].
  apply (ptcp_crash_safe 64 true true ex_filled ex_msgs UpPush);
    [apply Bytes_ok_64|apply ex_filled_rep|exact I|reflexivity|by exists 2%nat].
Defined.

(** A crash inside [Ack] leaves the file between two messages; or one
    message further than its number says; or, when the ack empties the queue,
    with the write index before the read index, and then no login accepts the
    file any more. *)
Theorem ptcp_Ack_crash Bytes ToLE IsLE q ms ack k l q' :
  Bytes_ok Bytes → queue_rep Bytes ToLE IsLE q ms → 0 ≤ ack < 4294967296 →
  i32 (u32 (ack - read_seq_num_ q)) = Z.of_nat k → (k ≤ length ms)%nat →
  Ack_stores ToLE IsLE q ack = Ret l → crashed q l q' →
  ack_stopped Bytes ToLE IsLE q ms k q'.
Proof.
  intros HB [Hl _] Hr Hk Hle Hs Hc. rewrite <-(take_drop k ms) in Hl |- *.
  pose proof (length_take_le ms k Hle) as Hlen. revert Hl. generalize (drop k ms) as ms2. intros ms2 Hl.
  rewrite <-Hlen at 2. eapply Ack_crash; try done. unfold ack_dist. by rewrite Hk, Hlen.
Qed.

(** C17: a crash in the first round of [Ack] loses a message: the file passes
    the check, the ack of the peer passes that of the login, and the login
    drops the next message, which the peer never got. *)
Theorem ptcp_Ack_crash_loses Bytes ToLE IsLE q m1 m2 ms ack :
  Bytes_ok Bytes → queue_rep Bytes ToLE IsLE q (m1 :: m2 :: ms) →
  forallb (msg_fresh ToLE IsLE q) (m1 :: m2 :: ms) = true → ack = u32 (read_seq_num_ q + 1) →
  ∃ l q' s e q2, Ack_stores ToLE IsLE q ack = Ret l ∧ run_stores q (take 1 l) = Ret q' ∧
    SanityCheckAndGetSeq ToLE IsLE q' = Ret (Some (s, e)) ∧ CheckAckInQueue ack s e = true ∧
    LoginAck ToLE IsLE q' ack = Ret q2 ∧ queue_rep Bytes ToLE IsLE q2 ms.
Proof.
  intros HB [Hl _] Hfresh ->. destruct (live_rep_cons _ _ _ _ _ _ Hl) as ((w & Hw & Hz) & _ & Hle).
  pose proof (live_rep_count _ _ _ HB _ _ Hl) as Hcnt. pose proof (BLK_CNT_range _ HB).
  pose proof (zlen_nonneg m1). pose proof (live_rep_inside _ _ _ _ _ _ Hl) as Hl'.
  destruct (Hl) as [_ ? ? ? _ _ _]. simpl in Hcnt, Hfresh. apply andb_true_iff in Hfresh as [_ Hfresh].
  unfold Ack_stores. rewrite u32_sub_l. replace (read_seq_num_ q + 1 - read_seq_num_ q) with 1 by lia.
  simpl. rewrite Hw. simpl. rewrite Z.eqb_refl. simpl. rewrite <-Hz, (u32_small (read_idx_ q + _)) by lia.
  do 2 eexists. exists (read_seq_num_ q), (u32 (read_seq_num_ q + Z.of_nat (length (m2 :: ms)))).
  destruct (LoginAck_correct _ _ _ HB _ [m2] ms (u32 (read_seq_num_ q + 1)) Hl' (u32_range _))
    as (q2 & HA & Hq2 & _).
  { unfold ack_dist. simpl. rewrite u32_sub_l. by replace (read_seq_num_ q + 1 - read_seq_num_ q) with 1 by lia. }
  exists q2. split; [done|]. split; [done|]. split; [|split; [|by split]].
  - etransitivity; [exact (SanityCheck_correct _ _ _ HB _ _ Hl')|]. 
    change (forallb _ (m2 :: ms)) with (forallb (msg_fresh ToLE IsLE q) (m2 :: ms)). simpl. by rewrite Hfresh.
  - apply CheckAck_spec; [apply u32_range|simpl; lia|]. exists 1. split; [simpl; lia|done].
Qed.

Lemma ex_queue_fresh : forallb (msg_fresh true true ex_queue) ex_msgs = true.
Proof. reflexivity. Qed.

Lemma ptcp_Ack_crash_witness :
  ∃ l q', Ack_stores true true ex_queue 1 = Ret l ∧ run_stores ex_queue (take 1 l) = Ret q' ∧
    ack_stopped 64 true true ex_queue ex_msgs 1 q'.
Proof.
  do 2 eexists. split; [reflexivity|]. split; [reflexivity|].
  eapply (ptcp_Ack_crash 64 true true ex_queue ex_msgs 1 1);
    [apply Bytes_ok_64|apply ex_rep|lia|reflexivity|by apply (bool_decide_unpack _)|reflexivity|by exists 1%nat].
Defined.

Lemma ptcp_Ack_crash_loses_witness :
  ∃ l q' s e q2, Ack_stores true true ex_queue 1 = Ret l ∧ run_stores ex_queue (take 1 l) = Ret q' ∧
    SanityCheckAndGetSeq true true q' = Ret (Some (s, e)) ∧ CheckAckInQueue 1 s e = true ∧
    LoginAck true true q' 1 = Ret q2 ∧ queue_rep 64 true true q2 [].
Proof.
  apply (ptcp_Ack_crash_loses 64 true true ex_queue (wire_msg true true 0 5 8 ex_body)
           (wire_msg true true 0 6 3 ex_body) [] 1);
    [apply Bytes_ok_64|apply ex_rep|apply ex_queue_fresh|reflexivity].
Defined.

(** A crash inside an [Alloc] that moves the messages to the front: once the
    write index is stored, a file of fewer blocks than it moved by is refused
    by every login. *)
Lemma Alloc_crash_rejected Bytes ToLE IsLE q ms size l q' :
  Bytes_ok Bytes → queue_rep Bytes ToLE IsLE q ms → BLK_CNT Bytes - write_idx_ q < blocks (u16 (size + 8)) →
  write_idx_ q - read_idx_ q < read_idx_ q →
  Alloc_stores Bytes q size = Ret l → l ≠ [] → run_stores q (take 2 l) = Ret q' →
  SanityCheckAndGetSeq ToLE IsLE q' = Ret None.
Proof.
  intros HB [[] _] Hmove Hshort Hl Hne Hr. pose proof (BLK_CNT_range _ HB).
  unfold Alloc_stores in Hl. pose proof (blocks_range (u16 (size + 8)) (u16_range _)).
  change sizeof_MsgHeader with 8 in Hl. rewrite (u32_small (BLK_CNT Bytes - _)), (u32_small (blocks _)) in Hl by lia.
  rewrite (proj2 (Z.ltb_lt _ _)) in Hl by lia. destruct (_ <? _); [by injection Hl as <-|].
  destruct (memmove _ _ _ _) as [blk| |] eqn:Hm; simpl in Hl; [|done..].
  destruct (Alloc_header_stores _ _ _); simpl in Hl; [|done..]. injection Hl as <-.
  simpl in Hr. rewrite Hm in Hr. simpl in Hr. injection Hr as <-.
  apply SanityCheck_behind. simpl. rewrite u32_small by lia. done.
Qed.
