(* ===== verification/ClientProps.v ===== *)
(** * Properties of the client

    What holds in every state that the client can reach
    ([client_reachable]), by the invariant of [ClientInv]. *)

From stdpp Require Import gmap.
From S2P Require Import Prelude.
From S2P Require Import Arrays.
From S2P Require Import MsgHeader.
From S2P Require Import PtcpQueue.
From S2P Require Import SpscQueue.
From S2P Require Import Platform.
From S2P Require Import PtcpConn.
From S2P Require Import Scripted.
From S2P Require Import TcpShmConn.
From S2P Require Import Login.
From S2P Require Import Descriptors.
From S2P Require Import ScriptedNet.
From S2P Require Import Client.
From S2P Require Import ClientInv.

Section client.
Context {conf : Conf} {ud : UserData} {W : Type} {os : Os W}.
Context {mmq : MmapOs W PTCPQueue} {mms : MmapOs W SPSCVarQueue} {mmn : MmapOs W (list Z)}.
Context {los : LoginOs W} {user : ClientUser W}.
Context {fv : FdView W} {laws : FdLaws W} {llaws : LoginFdLaws W}.
Context {qlaws : MmapFdLaws W PTCPQueue} {slaws : MmapFdLaws W SPSCVarQueue} {nlaws : MmapFdLaws W (list Z)}.
Context {ulaws : ClientUserLaws W}.
Context (HN : 1 < NameSize) (stack_login : LoginMsg).
Implicit Types (c : TcpShmClient) (w : W).

(** C26: [Connect] returns true with exactly one socket open, which the
    connection owns, after a reply that accepts the login, and remembers the
    name of the server of that reply; it returns false with no socket open at
    all, whichever of its steps failed, or with nothing changed when the
    connection was open before. *)
Theorem client_Connect_correct c use_shm ip port data w ok c' w' :
  client_reachable stack_login c w → Connect stack_login c use_shm ip port data w = Ret (ok, c', w') →
  if ok then 0 ≤ conn_fd (conn_ c') ∧ open_fds w' = {[conn_fd (conn_ c')]} ∧
             ∃ fd h rsp w1 w2, os_recv_rsp fd w1 = (RecvFull h rsp, w2) ∧ status rsp = 0 ∧ remembers c' rsp
  else if IsClosed (conn_ c) then no_socket c' w' else c' = c.
Proof. intros Hr%client_reachable_inv Hc; [|done]. by eapply Connect_ok in Hc as [_ ?]. Qed.

(** In every reachable state the client holds the only socket that is
    open, if one is: none leaks, however often it connects, is disconnected,
    fails to connect or stops. *)
Theorem client_sockets_owned c w :
  client_reachable stack_login c w →
  open_fds w = (if 0 <=? conn_fd (conn_ c) then {[conn_fd (conn_ c)]} else ∅) ∧
  (conn_sock (conn_ c) = conn_fd (conn_ c) ∨ conn_sock (conn_ c) < 0).
Proof.
  intros Hr%client_reachable_inv; [|done]. destruct Hr as [Ho Hs]. split; [|done].
  unfold own in Ho. destruct (0 <=? _); [|by apply owns_nil]. by apply owns_singleton.
Qed.

(** After [Stop] no socket is open and the last server's name is
    unmapped. *)
Theorem client_Stop_correct c w c' w' :
  client_reachable stack_login c w → Stop c w = Ret (c', w') →
  no_socket c' w' ∧ server_name_ c' = None.
Proof. intros Hr%client_reachable_inv Hst; [|done]. by eapply client_Stop_ok. Qed.
End client.

(** ** A run: connect to "srv", read a heartbeat, stop *)

#[local] Existing Instance ex_conf.

Definition zeros (n : nat) : list Z := repeat 0 n.
Definition padded (n : nat) (s : string) : list Z := chars s ++ zeros (n - length (chars s)).
Definition ex_login : LoginMsg := mkLoginMsg 0 0 tt 0 (zeros 16) (zeros 16).
Definition ex_reply : LoginRspMsg := mkLoginRspMsg 0 0 tt 0 (padded 16 "srv") (zeros 32).
Definition ex_net : net :=
  mkNet (ex_script [] [SysOk (header_bytes true (mkMsgHeader 8 0 0))]) ∅ 0 []
    [RecvFull (mkMsgHeader 72 2 0) ex_reply] [] (zeros 16).

Definition ex_new : outcome (TcpShmClient * net) :=
  new_TcpShmClient (chars "bob") (chars "/tmp") (zeros 16) (zeros 16) ex_net.

Abbreviation ex_client_reachable := (client_reachable ex_login).

(** The client, connected. *)
Definition ex_connected (c : TcpShmClient) : outcome (bool * TcpShmClient * net) :=
  Connect ex_login c false [] 80 tt ex_net.

Lemma ex_client_new_reachable c : ex_new = Ret (c, ex_net) → ex_client_reachable c ex_net.
Proof. apply client_new. reflexivity. Qed.

Lemma ex_connect_returns :
  ∃ c c' w', ex_new = Ret (c, ex_net) ∧ ex_connected c = Ret (true, c', w') ∧ IsClosed (conn_ c) = true.
Proof.
  assert (match ex_new with
          | Ret (c, _) => match ex_connected c with Ret (b, _, _) => b && IsClosed (conn_ c) | _ => false end
          | _ => false
          end = true) as Hc by (vm_compute; reflexivity).
  destruct ex_new as [[c w]| |] eqn:Hn; [|discriminate Hc..].
  destruct (ex_connected c) as [[[b c'] w']| |] eqn:Hr; [|discriminate Hc..].
  apply andb_true_iff in Hc as [-> Hcl].
  assert (w = ex_net) as ->.
  { unfold ex_new, new_TcpShmClient in Hn. run Hn. run Hn. run Hn. reflexivity. }
  by exists c, c', w'.
Qed.

Lemma client_Connect_correct_witness :
  ∃ c c' w', ex_connected c = Ret (true, c', w') ∧ open_fds w' = {[conn_fd (conn_ c')]} ∧
    ∃ rsp, status rsp = 0 ∧ remembers c' rsp.
Proof.
  destruct ex_connect_returns as (c & c' & w' & Hn & Hr & _). exists c, c', w'. split; [exact Hr|].
  destruct (client_Connect_correct ex_name_size ex_login c false [] 80 tt ex_net true c' w'
              (ex_client_new_reachable c Hn) Hr) as (_ & Ho & fd & h & rsp & w1 & w2 & _ & Hst & Hrem).
  split; [exact Ho|]. exists rsp. split; [exact Hst|exact Hrem].
Defined.

Lemma ex_connected_reachable c c' w' :
  ex_new = Ret (c, ex_net) → ex_connected c = Ret (true, c', w') → ex_client_reachable c' w'.
Proof.
  intros Hn Hr. eapply client_next; [exact (ex_client_new_reachable c Hn)|].
  exact (step_Connect _ _ _ _ _ _ _ _ _ _ Hr).
Qed.

(** [Stop] after the connection returns. *)
Lemma ex_stop_returns :
  ∃ c c' w' c'' w'', ex_new = Ret (c, ex_net) ∧ ex_connected c = Ret (true, c', w') ∧
    Stop c' w' = Ret (c'', w'').
Proof.
  assert (match ex_new with
          | Ret (c, _) => match ex_connected c with
                          | Ret (_, c', w') => match Stop c' w' with Ret _ => true | _ => false end
                          | _ => false
                          end
          | _ => false
          end = true) as Hc by (vm_compute; reflexivity).
  destruct ex_connect_returns as (c & c' & w' & Hn & Hr & _). rewrite Hn, Hr in Hc.
  destruct (Stop c' w') as [[c'' w'']| |] eqn:Hs; [|discriminate Hc..]. by exists c, c', w', c'', w''.
Qed.

Lemma client_sockets_owned_witness :
  ∃ c c' w', ex_connected c = Ret (true, c', w') ∧
    open_fds w' = (if 0 <=? conn_fd (conn_ c') then {[conn_fd (conn_ c')]} else ∅) ∧
    (conn_sock (conn_ c') = conn_fd (conn_ c') ∨ conn_sock (conn_ c') < 0).
Proof.
  destruct ex_connect_returns as (c & c' & w' & Hn & Hr & _). exists c, c', w'. split; [exact Hr|].
  exact (client_sockets_owned ex_name_size ex_login c' w' (ex_connected_reachable c c' w' Hn Hr)).
Defined.

Lemma client_Stop_correct_witness :
  ∃ c c' w' c'' w'', ex_connected c = Ret (true, c', w') ∧ Stop c' w' = Ret (c'', w'') ∧
    no_socket c'' w'' ∧ server_name_ c'' = None.
Proof.
  destruct ex_stop_returns as (c & c' & w' & c'' & w'' & Hn & Hr & Hs).
  exists c, c', w', c'', w''. do 2 (split; [assumption|]).
  exact (client_Stop_correct ex_name_size ex_login c' w' c'' w'' (ex_connected_reachable c c' w' Hn Hr) Hs).
Defined.
