(* ===== verification/UserMem.v ===== *)
(** * What a user does with a message

    The memory behind the pointers that [Alloc] and [Front] return, for a
    connection over TCP and over shared memory: reading and writing bytes at
    an offset from the header.  A queue is an array of headers
    ([bytes_words], the inverse of [words_bytes]); the receive buffer is an
    array of bytes. *)

From S2P Require Import Prelude.
From S2P Require Import Arrays.
From S2P Require Import MsgHeader.
From S2P Require Import PtcpQueue.
From S2P Require PtcpQueueSpec.
From S2P Require SpscQueue.
From S2P Require Import Platform.
From S2P Require Import PtcpConn.
From S2P Require Import PtcpConnSend.
From S2P Require Import TcpShmConn.

Section mem.
Context {conf : Conf}.

(** The [n] blocks that the bytes represent. *)
Fixpoint bytes_words (n : nat) (bs : list Z) : list MsgHeader :=
  match n with
  | O => []
  | S n => bytes_header is_little_endian (take 8 bs) :: bytes_words n (drop 8 bs)
  end.

(** [memcpy((char* )(blk + i) + off, bs, |bs|)]; of the blocks it touches the
    other bytes stay. *)
Definition write_bytes (blk : list MsgHeader) (i off : Z) (bs : list Z) : outcome (list MsgHeader) :=
  let first := i + off / 8 in
  let last := i + div_up (off + zlen bs) 8 in
  if decide (0 ≤ first ≤ last ∧ last ≤ zlen blk) then
    memcpy blk first
      (bytes_words (Z.to_nat (last - first)) (blit (off mod 8) bs (words_bytes (slice first last blk))))
  else Undef.

(** Several fields, each at its offset. *)
Fixpoint write_fields (blk : list MsgHeader) (i : Z) (fs : list (Z * list Z)) : outcome (list MsgHeader) :=
  match fs with
  | [] => Ret blk
  | (off, bs) :: fs => blk ← write_bytes blk i off bs; write_fields blk i fs
  end.

(** [header->msg_type = t] *)
Definition put_msg_type (blk : list MsgHeader) (i t : Z) : outcome (list MsgHeader) :=
  h ← get blk i;
  put blk i (mkMsgHeader (mh_size h) t (mh_ack_seq h)).

(** The message that [Alloc] returned, as type and fields of its body. *)
Definition write_msg (c : TcpShmConnection) (p t : Z) (fs : list (Z * list Z)) : outcome TcpShmConnection :=
  let write blk i := blk ← put_msg_type blk i t; write_fields blk (i + 1) fs in
  match shm_sendq_ c with
  | Some q =>
      blk ← write (SpscQueue.blk q) (SpscQueue.block_words * p);
      Ret (set_shm_sendq c (Some (SpscQueue.set_blk q blk)))
  | None =>
      match q_ (ptcp_conn_ c) with
      | None => Undef
      | Some q => blk ← write (blk_ q) p; Ret (set_ptcp_conn c (set_q (ptcp_conn_ c) (Some (set_blk q blk))))
      end
  end.

(** The memory of the messages that [Front] returns, and where in it. *)
Definition recv_mem (c : TcpShmConnection) (p : Z) : list Z * Z :=
  match shm_recvq_ c with
  | Some q => (words_bytes (SpscQueue.blk q), SpscQueue.sizeof_Block * p)
  | None => (recvbuf_ (ptcp_conn_ c), p)
  end.

(** [n] bytes at the offset [off] from the header. *)
Definition msg_bytes (c : TcpShmConnection) (p off n : Z) : outcome (list Z) :=
  let '(mem, a) := recv_mem c p in
  if decide (0 ≤ a + off ∧ 0 ≤ n ∧ a + off + n ≤ zlen mem) then Ret (slice (a + off) (a + off + n) mem) else Undef.

Definition msg_header (c : TcpShmConnection) (p : Z) : outcome MsgHeader :=
  bs ← msg_bytes c p 0 8;
  Ret (bytes_header is_little_endian bs).

(** An [int] in memory. *)
Definition store_int (v : Z) : list Z := store_uint is_little_endian 4 (u32 v).
Definition load_int (bs : list Z) : Z := i32 (load_uint is_little_endian bs).
End mem.

(** ** Lemmas *)

(** The blocks of a message behind its header. *)
Lemma blocks_body size :
  0 ≤ size → blocks (size + 8) = blocks size + 1 ∧ 0 ≤ blocks size ∧ size ≤ 8 * blocks size.
Proof.
  intros Hs. unfold blocks, div_up, sizeof_MsgHeader.
  replace (size + 8 + 8 - 1) with (size + 8 - 1 + 1 * 8) by lia. rewrite Z.div_add by lia.
  pose proof (Z.div_mod (size + 8 - 1) 8 ltac:(lia)). pose proof (Z.mod_pos_bound (size + 8 - 1) 8 ltac:(lia)).
  lia.
Qed.

Section lists.
Context {A : Type}.
Implicit Types (l pre mid post xs : list A).

Lemma blit_mid i xs pre mid post :
  zlen pre = i → zlen xs = zlen mid → blit i xs (pre ++ mid ++ post) = pre ++ xs ++ post.
Proof.
  intros <- Hm. unfold blit, zlen in *. rewrite Nat2Z.id, take_app_length.
  rewrite (app_assoc pre mid), drop_app_length'; [done|]. rewrite length_app. lia.
Qed.

Lemma blit_inside i j xs pre mid post :
  zlen pre = i → 0 ≤ j → j + zlen xs ≤ zlen mid →
  blit (i + j) xs (pre ++ mid ++ post) = pre ++ blit j xs mid ++ post.
Proof.
  intros <- Hj Hm. unfold blit, zlen in *.
  replace (Z.to_nat (Z.of_nat (length pre) + j)) with (length pre + Z.to_nat j)%nat by lia.
  rewrite take_app_add, take_app_le, <-Nat.add_assoc, drop_app_add, drop_app_le by lia.
  by rewrite <-!app_assoc.
Qed.

(** A store inside a region is a store into it. *)
Lemma blit_region i n j xs l :
  0 ≤ i → 0 ≤ j → j + zlen xs ≤ n → i + n ≤ zlen l →
  blit (i + j) xs l = blit i (blit j xs (slice i (i + n) l)) l.
Proof.
  intros Hi Hj Hn Hl. pose proof (zlen_nonneg xs).
  assert (zlen (slice 0 i l) = i) as Hpre by (rewrite slice_zlen; lia).
  assert (zlen (slice i (i + n) l) = n) as Hmid by (rewrite slice_zlen; lia).
  rewrite (split_slice i (i + n) l) at 1 3 by lia.
  rewrite blit_inside by lia. rewrite blit_mid; [done|done|]. rewrite blit_zlen; lia.
Qed.

Lemma blit_same_region i xs ys l :
  0 ≤ i → zlen xs = zlen ys → i + zlen xs ≤ zlen l → blit i ys (blit i xs l) = blit i ys l.
Proof.
  intros Hi Hz Hl. pose proof (zlen_nonneg xs).
  rewrite (split_slice i (i + zlen xs) l) by lia.
  assert (zlen (slice 0 i l) = i) as Hpre by (rewrite slice_zlen; lia).
  assert (zlen (slice i (i + zlen xs) l) = zlen xs) as Hmid by (rewrite slice_zlen; lia).
  rewrite !blit_mid by lia. done.
Qed.

Lemma blit_of_slice i n l : 0 ≤ i → 0 ≤ n → i + n ≤ zlen l → blit i (slice i (i + n) l) l = l.
Proof.
  intros. rewrite (split_slice i (i + n) l) at 2 3 by lia.
  assert (zlen (slice 0 i l) = i) as Hpre by (rewrite slice_zlen; lia).
  by rewrite blit_mid.
Qed.
End lists.

Lemma header_bytes_bytes_header little bs :
  zlen bs = 8 → Forall byte_ok bs → header_bytes little (bytes_header little bs) = bs.
Proof.
  intros Hz Hb. unfold header_bytes, bytes_header. simpl.
  assert (∀ n lo hi, 0 ≤ lo ≤ hi → hi ≤ 8 → n = Z.to_nat (hi - lo) →
    store_uint little n (load_uint little (slice lo hi bs)) = slice lo hi bs) as Hs.
  { intros n lo hi H1 H2 ->. pose proof (slice_zlen lo hi bs H1 ltac:(lia)) as Hl.
    replace (Z.to_nat (hi - lo)) with (length (slice lo hi bs)) by (unfold zlen in Hl; lia).
    apply store_uint_load. unfold slice. by apply Forall_take, Forall_drop. }
  rewrite (Hs 2%nat 0 2), (Hs 2%nat 2 4), (Hs 4%nat 4 8) by lia.
  rewrite <-!slice_app by lia. rewrite <-Hz. apply slice_full.
Qed.

Section words.
Context {conf : Conf}.

Lemma length_bytes_words n : ∀ bs, length (bytes_words n bs) = n.
Proof. induction n; intros; simpl; auto. Qed.

Lemma words_bytes_words n : ∀ bs,
  zlen bs = 8 * Z.of_nat n → Forall byte_ok bs → words_bytes (bytes_words n bs) = bs.
Proof.
  induction n as [|n IH]; intros bs Hz Hb; [symmetry; apply zlen_nil_inv; lia|].
  unfold zlen in Hz. simpl. fold (words_bytes (bytes_words n (drop 8 bs))).
  rewrite IH; [|unfold zlen; rewrite length_drop; lia|by apply Forall_drop].
  rewrite header_bytes_bytes_header; [apply take_drop|unfold zlen; rewrite length_take; lia|by apply Forall_take].
Qed.

Lemma words_bytes_blit i xs ws :
  0 ≤ i → i + zlen xs ≤ zlen ws → words_bytes (blit i xs ws) = blit (8 * i) (words_bytes xs) (words_bytes ws).
Proof.
  intros Hi Hl. pose proof (zlen_nonneg xs).
  assert (zlen (slice 0 i ws) = i) as Hpre by (rewrite slice_zlen; lia).
  assert (zlen (slice i (i + zlen xs) ws) = zlen xs) as Hmid by (rewrite slice_zlen; lia).
  rewrite (split_slice i (i + zlen xs) ws) by lia.
  rewrite blit_mid by lia. rewrite !words_bytes_app, blit_mid; [done|..]; rewrite !words_bytes_zlen; lia.
Qed.

Lemma blit_bytes i xs ws : Forall byte_ok xs → Forall byte_ok ws → Forall byte_ok (blit i xs ws).
Proof. intros. unfold blit. rewrite !Forall_app. auto using Forall_take, Forall_drop. Qed.

(** A field inside the [n] blocks from [i] on. *)
Lemma write_bytes_region blk i n off bs :
  0 ≤ i → i + n ≤ zlen blk → 0 ≤ off → off + zlen bs ≤ 8 * n → Forall byte_ok bs →
  ∃ body, write_bytes blk i off bs = Ret (blit i body blk) ∧ zlen body = n ∧
    words_bytes body = blit off bs (words_bytes (slice i (i + n) blk)).
Proof.
  intros Hi Hn Hoff Hbs Hb. pose proof (zlen_nonneg bs).
  set (j := off / 8). set (k := div_up (off + zlen bs) 8).
  assert (0 ≤ j ∧ j ≤ k ∧ k ≤ n ∧ off = 8 * j + off mod 8 ∧ off mod 8 + zlen bs ≤ 8 * (k - j)) as (Hj & Hjk & Hk & Hm & Hfit).
  { unfold j, k, div_up. pose proof (Z.div_mod off 8 ltac:(lia)). pose proof (Z.mod_pos_bound off 8 ltac:(lia)).
    pose proof (Z.div_mod (off + zlen bs + 8 - 1) 8 ltac:(lia)).
    pose proof (Z.mod_pos_bound (off + zlen bs + 8 - 1) 8 ltac:(lia)). lia. }
  unfold write_bytes. fold j. fold k. rewrite decide_True by lia.
  set (old := slice (i + j) (i + k) blk). assert (zlen old = k - j) as Hold by (unfold old; rewrite slice_zlen; lia).
  set (ws := bytes_words _ _). assert (zlen ws = k - j) as Hws by (unfold ws, zlen; rewrite length_bytes_words; lia).
  assert (words_bytes ws = blit (off mod 8) bs (words_bytes old)) as Hwb.
  { apply words_bytes_words.
    - rewrite blit_zlen; rewrite ?words_bytes_zlen; pose proof (Z.mod_pos_bound off 8 ltac:(lia)); lia.
    - by apply blit_bytes; [|apply words_bytes_bytes]. }
  set (R := slice i (i + n) blk). assert (zlen R = n) as HR by (unfold R; rewrite slice_zlen; lia).
  assert (old = slice j k R) as HoldR by (unfold R; rewrite slice_slice by lia; done).
  exists (blit j ws R). split_and!.
  - rewrite memcpy_in_range by lia. f_equal. apply blit_region; lia.
  - rewrite blit_zlen; lia.
  - rewrite words_bytes_blit by lia. rewrite Hwb, HoldR, words_bytes_slice by lia.
    rewrite Hm at 2. rewrite (blit_region (8 * j) (8 * (k - j)) (off mod 8)).
    + do 2 f_equal. f_equal. lia.
    + lia.
    + pose proof (Z.mod_pos_bound off 8 ltac:(lia)). lia.
    + done.
    + rewrite words_bytes_zlen. lia.
Qed.

(** What the fields make of the bytes of the body. *)
Definition fields_bytes (fs : list (Z * list Z)) (mem : list Z) : list Z :=
  foldl (λ m f, blit f.1 f.2 m) mem fs.
Definition fields_fit (n : Z) (fs : list (Z * list Z)) : Prop :=
  Forall (λ f, 0 ≤ f.1 ∧ f.1 + zlen f.2 ≤ 8 * n ∧ Forall byte_ok f.2) fs.

Lemma write_fields_region fs : ∀ blk i n,
  0 ≤ i → 0 ≤ n → i + n ≤ zlen blk → fields_fit n fs →
  ∃ body, write_fields blk i fs = Ret (blit i body blk) ∧ zlen body = n ∧
    words_bytes body = fields_bytes fs (words_bytes (slice i (i + n) blk)).
Proof.
  induction fs as [|[off bs] fs IH]; intros blk i n Hi H0 Hn Hfs; simpl.
  - exists (slice i (i + n) blk). rewrite blit_of_slice, slice_zlen by lia. split_and!; [done|lia|done].
  - apply Forall_cons_1 in Hfs as [(Hoff & Hfit & Hb) Hfs]. simpl in Hoff, Hfit, Hb.
    destruct (write_bytes_region blk i n off bs Hi Hn Hoff Hfit Hb) as (body1 & -> & Hz1 & Hb1).
    rewrite outcome_bind_Ret. assert (zlen (blit i body1 blk) = zlen blk) as Hlen by (rewrite blit_zlen; lia).
    destruct (IH (blit i body1 blk) i n Hi H0 ltac:(lia) Hfs) as (body & -> & Hz & Hbody).
    exists body. rewrite blit_same_region by lia. split_and!; [done|done|].
    rewrite Hbody, <-Hz1, blit_slice_same, Hb1, Hz1 by lia. done.
Qed.

(** On a TCP connection [write_msg] is the [fill] of the queue. *)
Lemma write_msg_fill c q p t n fs h :
  shm_sendq_ c = None → q_ (ptcp_conn_ c) = Some q → get (blk_ q) p = Ret h →
  0 ≤ n → p + 1 + n ≤ zlen (blk_ q) → fields_fit n fs →
  ∃ body blk, write_msg c p t fs = Ret (set_ptcp_conn c (set_q (ptcp_conn_ c) (Some (set_blk q blk)))) ∧
    PtcpQueueSpec.fill (blk_ q) p t body = Ret blk ∧ zlen body = n ∧
    words_bytes body = fields_bytes fs (words_bytes (slice (p + 1) (p + 1 + n) (blk_ q))).
Proof.
  intros Hshm Hq Hh H0 Hn Hfs. pose proof (get_range _ _ _ Hh) as Hp.
  unfold write_msg, put_msg_type. rewrite Hshm, Hq, Hh, outcome_bind_Ret, put_in_range by lia.
  rewrite outcome_bind_Ret. set (blk1 := blit p _ (blk_ q)).
  assert (zlen blk1 = zlen (blk_ q)) as Hlen by (unfold blk1; rewrite blit_zlen; rewrite ?zlen_cons, ?zlen_nil; lia).
  destruct (write_fields_region fs blk1 (p + 1) n ltac:(lia) H0 ltac:(lia) Hfs) as (body & -> & Hz & Hb).
  exists body, (blit (p + 1) body blk1). rewrite outcome_bind_Ret.
  unfold PtcpQueueSpec.fill. rewrite Hh, outcome_bind_Ret, put_in_range, outcome_bind_Ret by lia. fold blk1.
  rewrite memcpy_in_range by lia. split_and!; [done|done|done|]. rewrite Hb. do 2 f_equal. unfold blk1.
  apply blit_slice_after; rewrite ?zlen_cons, ?zlen_nil; lia.
Qed.
End words.
