(* ===== verification/EchoServer.v ===== *)
(** * The echo server ([test/echo_server.cpp])

    [EchoServer] sends every message back.  What it prints is not modelled.
    It keeps the laws that the server asks of its user
    ([EchoServer_laws]), and [OnClientMsg_tcp] says what its handler does on
    a TCP connection: nothing when there is no room, otherwise [Pop] and a
    push of the same type and bytes. *)

From S2P Require Import Prelude.
From S2P Require Import Arrays.
From S2P Require Import MsgHeader.
From S2P Require Import PtcpQueue.
From S2P Require Import PtcpQueueInv.
From S2P Require Import PtcpQueueSpec.
From S2P Require SpscQueue.
From S2P Require Import Platform.
From S2P Require PtcpConn.
From S2P Require Import PtcpConnSend.
From S2P Require Link.
From S2P Require LinkStep.
From S2P Require Import TcpShmConn.
From S2P Require Import Login.
From S2P Require Server.
From S2P Require Import Descriptors.
From S2P Require Import ServerInv.
From S2P Require Import UserMem.

(** [CommonConf] and [ServerConf] on a host of the given byte order. *)
Definition NanoInSecond : Z := 1000000000.

Definition ServerConf (little : bool) : Conf := {|
  NameSize := 16;
  ShmQueueSize := 1024 * 1024;
  ToLittleEndian := true;
  TcpQueueSize := 4000;
  TcpRecvBufInitSize := 1000;
  TcpRecvBufMaxSize := 2000;
  TcpNoDelay := true;
  ConnectionTimeout := 10 * NanoInSecond;
  HeartBeatInverval := 3 * NanoInSecond;
  NewConnectionTimeout := 3 * NanoInSecond;
  MaxNewConnections := 5;
  MaxShmConnsPerGrp := 4;
  MaxShmGrps := 1;
  MaxTcpConnsPerGrp := 4;
  MaxTcpGrps := 1;
  is_little_endian := little
|}.

Section EchoServer.
Context {conf : Conf} {ud : UserData} {W : Type} {os : Os W}.
Context {mmq : MmapOs W PTCPQueue} {mms : MmapOs W SpscQueue.SPSCVarQueue}.
Context {los : LoginOs W}.

(** [std::hash<std::string>], a [size_t]. *)
Context (hash : list Z → Z).

(** [strcpy(login_rsp->error_msg, msg)] *)
Definition strcpy_error (rsp : LoginRspMsg) (msg : string) : LoginRspMsg :=
  set_error_msg rsp (blit 0 (chars msg ++ [0]) (error_msg rsp)).

Definition OnNewConnection (addr : sockaddr) (login : LoginMsg) (login_rsp : LoginRspMsg) (w : W)
    : Z * LoginRspMsg * W :=
  let hh := hash (c_str (client_name login)) in
  if negb (use_shm login =? 0) then
    if 0 <? MaxShmGrps then (hh mod MaxShmGrps, login_rsp, w)
    else (-1, strcpy_error login_rsp "Shm disabled", w)
  else
    if 0 <? MaxTcpGrps then (hh mod MaxTcpGrps, login_rsp, w)
    else (-1, strcpy_error login_rsp "Tcp disabled", w).

Definition OnClientMsg (conn : TcpShmConnection) (p : Z) (w : W) : outcome (TcpShmConnection * W) :=
  recv_header ← msg_header conn p;
  let size := u64 (mh_size recv_header - sizeof_MsgHeader) in
  '(send_header, conn) ← Alloc conn (u16 size);
  match send_header with
  | None => Ret (conn, w)
  | Some i =>
      body ← msg_bytes conn p sizeof_MsgHeader size;
      conn ← write_msg conn i (mh_msg_type recv_header) [(0, body)];
      conn ← Pop conn;
      Push conn w
  end.

Definition EchoServer_user : Server.ServerUser W := {|
  Server.OnSystemError _ _ w := w;
  Server.OnNewConnection := OnNewConnection;
  Server.OnClientFileError conn _ _ w := Ret (conn, w);
  Server.OnSeqNumberMismatch conn _ _ w := Ret (conn, w);
  Server.OnClientLogon _ conn w := Ret (conn, w);
  Server.OnClientDisconnected conn _ _ w := Ret (conn, w);
  Server.OnClientMsg := OnClientMsg
|}.
End EchoServer.

(** ** Lemmas *)

Lemma ServerConf_conf_ok b : @Conf_ok (ServerConf b).
Proof.
  constructor; simpl; try lia; [by split; [lia|]|split; [lia|exists 14; done]|done|done].
Qed.

Section laws.
Context {conf : Conf} {ud : UserData} {W : Type} {os : Os W}.
Context {mmq : MmapOs W PTCPQueue} {mms : MmapOs W SpscQueue.SPSCVarQueue}.
Context {los : LoginOs W} {fv : FdView W}.
Context (hash : list Z → Z).

(** A message that is written is a store behind a pointer of [Alloc]. *)
Lemma write_msg_call c p t fs c' (w : W) : write_msg c p t fs = Ret c' → user_call c w c' w.
Proof.
  unfold write_msg. destruct (shm_sendq_ c) as [q|] eqn:Hs; intros H.
  - run H. run H. by eapply store_sendq.
  - destruct (PtcpConn.q_ (ptcp_conn_ c)) as [q|] eqn:Hq; [|done]. run H. run H. by eapply store_ptcp.
Qed.

(** A message is allocated, written and pushed. *)
Lemma send_calls c size p c1 t fs c2 c3 (w w' : W) :
  Alloc c size = Ret (Some p, c1) → write_msg c1 p t fs = Ret c2 → Push c2 w = Ret (c3, w') →
  user_calls c w c3 w'.
Proof.
  intros Ha Hw Hp. eapply calls_next; [by eapply call_Alloc|].
  eapply calls_next; [by eapply write_msg_call|]. eapply calls_next; [by apply call_Push|apply calls_done].
Qed.

Lemma OnClientMsg_calls c p w c' w' : OnClientMsg c p w = Ret (c', w') → user_calls c w c' w'.
Proof.
  unfold OnClientMsg. intros H. run H. run H. destruct r0 as [[i|] c1]; [|run H].
  - run H. run H. run H. eapply calls_next; [by eapply call_Alloc|].
    eapply calls_next; [by eapply write_msg_call|]. eapply calls_next; [by apply call_Pop|].
    eapply calls_next; [by apply call_Push|apply calls_done].
  - eapply calls_next; [by eapply call_Alloc|apply calls_done].
Qed.

Lemma EchoServer_laws : @ServerUserLaws W conf ud los (EchoServer_user hash) os mmq mms fv.
Proof.
  constructor; simpl; try done; try (intros; simplify_eq; apply calls_done).
  - intros a l r w. unfold OnNewConnection. by repeat case_match.
  - apply OnClientMsg_calls.
Qed.
End laws.

(** ** The handler on a TCP connection *)

Lemma Alloc_MyAck_incr Bytes q size :
  PtcpQueue.Alloc Bytes (MyAck_incr q) size =
    '(p, q') ← PtcpQueue.Alloc Bytes q size; Ret (p, MyAck_incr q').
Proof.
  unfold PtcpQueue.Alloc, Alloc_header. simpl.
  repeat (case_match; try done); simpl;
    try (destruct (memmove _ _ _ _); simpl; [|done..]); destruct (get _ _); simpl; try done;
    destruct (put _ _ _); simpl; done.
Qed.

Section handler.
Context {conf : Conf} {W : Type} {os : Os W}.
Context (HC : Conf_ok).
Abbreviation queue_rep := (queue_rep TcpQueueSize ToLittleEndian is_little_endian).

Lemma OnClientMsg_tcp c q msgs p h bs t1 w :
  shm_sendq_ c = None → shm_recvq_ c = None → PtcpConn.q_ (ptcp_conn_ c) = Some q → queue_rep q msgs →
  msg_header c p = Ret h → sizeof_MsgHeader ≤ mh_size h < 65536 → 0 ≤ mh_msg_type h < 65536 →
  msg_bytes c p sizeof_MsgHeader (mh_size h - sizeof_MsgHeader) = Ret bs →
  zlen bs = mh_size h - sizeof_MsgHeader → Forall byte_ok bs →
  PtcpConn.Pop (ptcp_conn_ c) = Ret t1 →
  (¬ fits TcpQueueSize q (mh_size h - sizeof_MsgHeader) ∧ OnClientMsg c p w = Ret (c, w)) ∨
  ∃ body t2,
    zlen body = blocks (mh_size h) - 1 ∧ slice 0 (zlen bs) (words_bytes body) = bs ∧
    Link.user_push t1 (mh_msg_type h) (mh_size h - sizeof_MsgHeader) body = Ret (true, t2) ∧
    OnClientMsg c p w = ('(_, t3, w') ← PtcpConn.SendPending t2 w; Ret (set_ptcp_conn c t3, w')).
Proof.
  intros Hs Hr Hq Hrep Hh Hsize Ht Hbs Hz Hb Hpop. unfold sizeof_MsgHeader in *. set (size := mh_size h - 8) in *.
  unfold OnClientMsg. rewrite Hh, outcome_bind_Ret. cbv zeta. unfold sizeof_MsgHeader. fold size.
  rewrite u64_small, u16_small by lia. unfold Alloc, PtcpConn.Conn_Alloc. rewrite Hs, Hq.
  destruct (Alloc_correct _ _ _ (conf_queue HC) q msgs size Hrep ltac:(lia)) as [Hfit Hfull].
  assert (fits TcpQueueSize q size ∨ ¬ fits TcpQueueSize q size) as [Hf|Hf] by (unfold fits; lia).
  2: { left. split; [done|]. rewrite (Hfull Hf), !outcome_bind_Ret. do 2 f_equal. destruct c as [? ? ? t ? ?].
    destruct t. unfold set_ptcp_conn, PtcpConn.set_q. simpl in *. by subst. }
  right. destruct (Hfit Hf) as (i & q1 & Halloc & Hok). rewrite Halloc, !outcome_bind_Ret.
  set (c1 := set_ptcp_conn c _). assert (msg_bytes c1 p 8 size = Ret bs) as Hbs1.
  { rewrite <-Hbs. unfold msg_bytes, recv_mem, c1. simpl. by rewrite Hr. }
  rewrite Hbs1, outcome_bind_Ret. destruct Hok as [Hrep1 _ Hroom (t0 & a0 & Hget) _ _ _ _].
  assert (zlen (blk_ q1) = BLK_CNT TcpQueueSize) as Hlen by (destruct Hrep1 as [[] _]; done).
  pose proof (zlen_nonneg bs).
  destruct (blocks_body size) as (Hbl & Hbl0 & Hbl8); [lia|].
  assert (blocks (mh_size h) = blocks size + 1) as Hbl' by (rewrite <-Hbl; f_equal; lia).
  destruct (write_msg_fill c1 q1 i (mh_msg_type h) (blocks size) [(0, bs)] _ Hs eq_refl Hget) as
    (body & blk & Hwrite & Hfill & Hzb & Hbody).
  { done. } { lia. } { constructor; [|constructor]. simpl. split_and!; [lia|lia|done]. }
  rewrite Hwrite, outcome_bind_Ret. exists body.
  pose proof Hpop as Hpop'. unfold PtcpConn.Pop in Hpop'. rewrite Hq in Hpop'. run Hpop'. run Hpop'.
  match type of Hpop with _ = Ret ?t => set (t1 := t) in * end.
  destruct (LinkStep.user_push_ok HC t1 (MyAck_incr q) msgs (mh_msg_type h) size body eq_refl) as
    (b & q2 & Hpush & _); [by apply MyAck_incr_correct|lia|done|lia|].
  pose proof Hpush as Hpush'. unfold Link.user_push, PtcpConn.Conn_Alloc in Hpush'.
  change (PtcpConn.q_ t1) with (Some (MyAck_incr q)) in Hpush'. cbv beta iota in Hpush'.
  rewrite Alloc_MyAck_incr, Halloc, !outcome_bind_Ret in Hpush'. simpl in Hpush'.
  rewrite Hfill, outcome_bind_Ret in Hpush'. run Hpush'. run Hpush'.
  eexists. split_and!; [lia| |exact Hpush|].
  - rewrite Hbody. apply (blit_slice_same 0). pose proof (zlen_nonneg
      (words_bytes (slice (i + 1) (i + 1 + blocks size) (blk_ q1)))). lia.
  - unfold Pop. change (shm_recvq_ (set_ptcp_conn c1 _)) with (shm_recvq_ c). rewrite Hr.
    unfold PtcpConn.Pop. simpl. rewrite Hrun, outcome_bind_Ret. simpl. unfold Push. simpl. rewrite Hs.
    unfold PtcpConn.PushMore in Hrun0. simpl in Hrun0. run Hrun0.
    change (set_blk (MyAck_incr q1) blk) with (MyAck_incr (set_blk q1 blk)) in Hrun1.
    unfold PtcpConn.Conn_Push, PtcpConn.PushMore. simpl. rewrite Hrun1, !outcome_bind_Ret. injection Hrun0 as ->.
    match goal with |- (PtcpConn.SendPending ?x w ≫= _) ≫= _ = _ => change x with (PtcpConn.set_q t1 (Some q2)) end.
    by destruct (PtcpConn.SendPending _ _) as [[[? ?] ?]| |].
Qed.

(** A size below that of a header, which the receiver does not check: the
    subtraction wraps, [Alloc] gets it cut to 16 bits, and [memcpy] runs out
    of the memory. *)
Lemma OnClientMsg_short c p h i c1 w :
  msg_header c p = Ret h → 0 ≤ mh_size h < sizeof_MsgHeader →
  Alloc c (u16 (u64 (mh_size h - sizeof_MsgHeader))) = Ret (Some i, c1) →
  zlen (recv_mem c1 p).1 < 18446744073709551608 →
  OnClientMsg c p w = Undef.
Proof.
  unfold sizeof_MsgHeader. intros Hh Hsize Ha Hmem. unfold OnClientMsg, sizeof_MsgHeader.
  rewrite Hh, outcome_bind_Ret, Ha, outcome_bind_Ret. cbv zeta.
  assert (msg_bytes c1 p 8 (u64 (mh_size h - 8)) = Undef) as ->; [|done].
  assert (u64 (mh_size h - 8) = mh_size h - 8 + 18446744073709551616) as -> by word_lia.
  unfold msg_bytes. destruct (recv_mem c1 p) as [mem a]. simpl in Hmem. rewrite decide_False; [done|]. lia.
Qed.
End handler.
