(* ===== verification/EchoClient.v ===== *)
(** * The echo client ([test/echo_client.cpp], [test/common.h])

    [EchoClient] numbers what it sends, and ends the process when what comes
    back is not the next number.  [send_num] and [recv_num] lie in mapped
    files.  What it prints, the clock and pinning the threads are not
    modelled; a price is the bytes of a [double], chosen by a parameter.
    The handlers return [Exit] and [Abort] for [exit] and a failed
    [assert]. *)

From S2P Require Import Prelude.
From S2P Require Import Arrays.
From S2P Require Import MsgHeader.
From S2P Require Import PtcpQueue.
From S2P Require Import PtcpQueueInv.
From S2P Require Import PtcpQueueSpec.
From S2P Require Import Platform.
From S2P Require PtcpConn.
From S2P Require Import PtcpConnSend.
From S2P Require Link.
From S2P Require LinkStep.
From S2P Require Import TcpShmConn.
From S2P Require Import UserMem.
From S2P Require EchoServer.

(** [CommonConf] and [ClientConf]; what only a server has is 0. *)
Definition ClientConf (little : bool) : Conf := {|
  NameSize := 16;
  ShmQueueSize := 1024 * 1024;
  ToLittleEndian := true;
  TcpQueueSize := 2000;
  TcpRecvBufInitSize := 1000;
  TcpRecvBufMaxSize := 2000;
  TcpNoDelay := true;
  ConnectionTimeout := 10 * EchoServer.NanoInSecond;
  HeartBeatInverval := 3 * EchoServer.NanoInSecond;
  NewConnectionTimeout := 0;
  MaxNewConnections := 0;
  MaxShmConnsPerGrp := 0;
  MaxShmGrps := 0;
  MaxTcpConnsPerGrp := 0;
  MaxTcpGrps := 0;
  is_little_endian := little
|}.

Definition MaxNum : Z := 10000000.

(** [sizeof(MsgTpl<N, _>)]; [MarketDepthMsg]: the number at 0, the levels of
    [bid] from 8 and of [ask] from 88 on, each a [double] and an [int] in 16
    bytes. *)
Definition sizeof_Msg (N : Z) : Z := 4 * N.
Definition MarketDepthMsg_msg_type : Z := 5.
Definition sizeof_MarketDepthMsg : Z := 168.
Definition bid_price (i : Z) : Z := 8 + 16 * i.
Definition ask_price (i : Z) : Z := 88 + 16 * i.
Definition level_size (level : Z) : Z := level + 8.

Record EchoClient := mkEchoClient {
  msg_sent : Z;
  slow : bool;
  send_num : Z;
  recv_num : Z
}.

Definition set_send_num (e : EchoClient) (n : Z) : EchoClient := mkEchoClient (msg_sent e) (slow e) n (recv_num e).
Definition set_recv_num (e : EchoClient) (n : Z) : EchoClient := mkEchoClient (msg_sent e) (slow e) (send_num e) n.
Definition add_msg_sent (e : EchoClient) : EchoClient :=
  mkEchoClient (msg_sent e + 1) (slow e) (send_num e) (recv_num e).

(** How a handler ends. *)
Inductive control (A : Type) : Type :=
  | Continue (a : A)
  | Exit (code : Z)
  | Abort.
Arguments Continue {A} a.
Arguments Exit {A} code.
Arguments Abort {A}.

Section EchoClient.
Context {conf : Conf} {W : Type} {os : Os W}.

(** The bytes of the price of level [i] of [bid] ([false]) or [ask]. *)
Context (price : bool → Z → list Z).

Definition market_depth_fields (v : Z) : list (Z * list Z) :=
  (0, store_int v) ::
  flat_map (λ i, [(bid_price i, price false i); (level_size (bid_price i), store_int (100 + i * 10));
                  (ask_price i, price true i); (level_size (ask_price i), store_int (100 + i * 10))]) [0; 1; 2; 3; 4].

Definition TrySendMarketDepthMsg (e : EchoClient) (conn : TcpShmConnection) (w : W)
    : outcome (bool * EchoClient * TcpShmConnection * W) :=
  '(header, conn) ← Alloc conn sizeof_MarketDepthMsg;
  match header with
  | None => Ret (false, e, conn, w)
  | Some i =>
      conn ← write_msg conn i MarketDepthMsg_msg_type (market_depth_fields (send_num e));
      let e := set_send_num e (send_num e + 1) in
      '(conn, w) ← Push conn w;
      Ret (true, add_msg_sent e, conn, w)
  end.

(** [T] is [MsgTpl<N, T>] in [common.h]. *)
Definition TrySendMsg (N T : Z) (e : EchoClient) (conn : TcpShmConnection) (w : W)
    : outcome (bool * EchoClient * TcpShmConnection * W) :=
  '(header, conn) ← Alloc conn (sizeof_Msg N);
  match header with
  | None => Ret (false, e, conn, w)
  | Some i =>
      let val k := Convert_signed is_little_endian ToLittleEndian 4 (send_num e + k) in
      conn ← write_msg conn i T ((λ k, (4 * k, store_int (val k))) <$> seqZ 0 N);
      let e := set_send_num e (send_num e + N) in
      '(conn, w) ← Push conn w;
      Ret (true, add_msg_sent e, conn, w)
  end.

(** [true]: all echoes are there. *)
Definition PollNum (e : EchoClient) (conn : TcpShmConnection) (w : W)
    : outcome (bool * EchoClient * TcpShmConnection * W) :=
  if send_num e <? MaxNum then
    if slow e && negb (send_num e =? recv_num e) then Ret (false, e, conn, w)
    else
      '(_, e, conn, w) ← TrySendMarketDepthMsg e conn w;
      Ret (false, e, conn, w)
  else Ret (send_num e =? recv_num e, e, conn, w).

Definition handleMarketDepthMsg (e : EchoClient) (conn : TcpShmConnection) (p : Z)
    : outcome (control EchoClient) :=
  bs ← msg_bytes conn p sizeof_MsgHeader 4;
  let v := load_int bs in
  if negb (v =? recv_num e) then Ret (Exit 1)
  else Ret (Continue (set_recv_num e (recv_num e + 1))).

(** The [for] over [msg->val], from the index [k] on. *)
Fixpoint handleMsg_loop (n : nat) (k : Z) (e : EchoClient) (conn : TcpShmConnection) (p : Z)
    : outcome (control EchoClient) :=
  match n with
  | O => Ret (Continue e)
  | S n =>
      bs ← msg_bytes conn p (sizeof_MsgHeader + 4 * k) 4;
      let v := Convert_signed is_little_endian ToLittleEndian 4 (load_int bs) in
      if negb (v =? recv_num e) then Ret (Exit 1)
      else handleMsg_loop n (k + 1) (set_recv_num e (recv_num e + 1)) conn p
  end.

Definition handleMsg (N : Z) (e : EchoClient) (conn : TcpShmConnection) (p : Z) : outcome (control EchoClient) :=
  handleMsg_loop (Z.to_nat N) 0 e conn p.

Definition OnServerMsg (e : EchoClient) (conn : TcpShmConnection) (p : Z)
    : outcome (control (EchoClient * TcpShmConnection)) :=
  header ← msg_header conn p;
  let t := mh_msg_type header in
  r ← (if t =? 1 then handleMsg 1 e conn p
       else if t =? 2 then handleMsg 2 e conn p
       else if t =? 3 then handleMsg 3 e conn p
       else if t =? 4 then handleMsg 4 e conn p
       else if t =? MarketDepthMsg_msg_type then handleMarketDepthMsg e conn p
       else Ret Abort);
  match r with
  | Continue e => conn ← Pop conn; Ret (Continue (e, conn))
  | Exit code => Ret (Exit code)
  | Abort => Ret Abort
  end.
End EchoClient.

(** ** Lemmas *)

Lemma ClientConf_conf_ok b : @Conf_ok (ClientConf b).
Proof.
  constructor; simpl; try lia; [by split; [lia|]|split; [lia|exists 14; done]|done|done].
Qed.

Section send.
Context {conf : Conf} {W : Type} {os : Os W}.
Context (HC : Conf_ok).
Abbreviation queue_rep := (queue_rep TcpQueueSize ToLittleEndian is_little_endian).

(** A send on a TCP connection: it does nothing when there is no room,
    otherwise it is a push of a message with the fields in its body. *)
Lemma send_tcp c q msgs size t fs :
  shm_sendq_ c = None → PtcpConn.q_ (ptcp_conn_ c) = Some q → queue_rep q msgs →
  0 ≤ size ≤ 65527 → 0 ≤ t < 65536 → fields_fit (blocks size) fs →
  (¬ fits TcpQueueSize q size ∧ Alloc c size = Ret (None, c)) ∨
  ∃ i c1 c2 body old t2,
    Alloc c size = Ret (Some i, c1) ∧ 0 ≤ i < BLK_CNT TcpQueueSize ∧ write_msg c1 i t fs = Ret c2 ∧
    zlen body = blocks size ∧ zlen old = 8 * blocks size ∧ words_bytes body = fields_bytes fs old ∧
    Link.user_push (ptcp_conn_ c) t size body = Ret (true, t2) ∧
    ∀ w, Push c2 w = ('(_, t3, w') ← PtcpConn.SendPending t2 w; Ret (set_ptcp_conn c t3, w')).
Proof.
  intros Hs Hq Hrep Hsize Ht Hfs. destruct (blocks_body size) as (Hbl & Hbl0 & Hbl8); [lia|].
  unfold Alloc, PtcpConn.Conn_Alloc. rewrite Hs, Hq.
  destruct (Alloc_correct _ _ _ (conf_queue HC) q msgs size Hrep Hsize) as [Hfit Hfull].
  assert (fits TcpQueueSize q size ∨ ¬ fits TcpQueueSize q size) as [Hf|Hf] by (unfold fits; lia).
  2: { left. split; [done|]. rewrite (Hfull Hf), !outcome_bind_Ret. do 2 f_equal. destruct c as [? ? ? t0 ? ?].
    destruct t0. unfold set_ptcp_conn, PtcpConn.set_q. simpl in *. by subst. }
  right. destruct (Hfit Hf) as (i & q1 & Halloc & [Hrep1 _ Hroom (t0 & a0 & Hget) _ _ _ _]).
  rewrite Halloc, !outcome_bind_Ret. set (c1 := set_ptcp_conn c _).
  assert (zlen (blk_ q1) = BLK_CNT TcpQueueSize) as Hlen by (destruct Hrep1 as [[] _]; done).
  pose proof (get_range _ _ _ Hget).
  destruct (write_msg_fill c1 q1 i t (blocks size) fs _ Hs eq_refl Hget Hbl0 ltac:(lia) Hfs) as
    (body & blk & Hwrite & Hfill & Hzb & Hbody).
  set (old := words_bytes (slice (i + 1) (i + 1 + blocks size) (blk_ q1))) in *.
  assert (zlen old = 8 * blocks size) as Hold by (unfold old; rewrite words_bytes_zlen, slice_zlen; lia).
  destruct (LinkStep.user_push_ok HC (ptcp_conn_ c) q msgs t size body Hq Hrep) as
    (b & q2 & Hpush & _); [lia|done|lia|].
  pose proof Hpush as Hpush'. unfold Link.user_push, PtcpConn.Conn_Alloc in Hpush'.
  rewrite Hq, Halloc, !outcome_bind_Ret in Hpush'. simpl in Hpush'. rewrite Hfill, outcome_bind_Ret in Hpush'.
  destruct (PtcpConn.PushMore _) as [t2| |] eqn:Hmore in Hpush'; [|done..]. simpl in Hpush'.
  injection Hpush' as <- Ht2.
  eexists i, c1, _, body, old, t2. split_and!; try done; [lia|lia|by rewrite Ht2|].
  intros w. unfold Push. simpl. rewrite Hs. unfold PtcpConn.Conn_Push.
  match goal with |- (PtcpConn.PushMore ?x ≫= _) ≫= _ = _ =>
    change x with (PtcpConn.set_q (PtcpConn.set_q (ptcp_conn_ c) (Some q1)) (Some (set_blk q1 blk))) end.
  rewrite Hmore, outcome_bind_Ret. by destruct (PtcpConn.SendPending _ _) as [[[? ?] ?]| |].
Qed.
End send.
