(* ===== verification/EchoLink.v ===== *)
(** * The echo client and the echo server over TCP

    [echo_step] is what the two programs of [test/] do to a connection, on
    hosts of any byte order: the end [true] of the connection is the
    server's, [false] the client's.  A handler is one step: a process that
    ends inside [OnClientMsg] or [TrySendMarketDepthMsg] may lose or repeat
    a number, as the comment in [echo_server.cpp] says.

    [echo_inv]: the two programs are two hosts of [Link], and the client's
    numbers are the counts of what it pushed and popped. *)

From S2P Require Import Prelude.
From S2P Require Import Arrays.
From S2P Require Import MsgHeader.
From S2P Require Import PtcpQueue.
From S2P Require Import PtcpQueueInv.
From S2P Require Import PtcpQueueSpec.
From S2P Require Import Platform.
From S2P Require Import PtcpConn.
From S2P Require Import Framing.
From S2P Require Import PtcpConnRecv.
From S2P Require Import PtcpConnSend.
From S2P Require Import Wire.
From S2P Require Import Link.
From S2P Require Import LinkInv.
From S2P Require Import LinkOpen.
From S2P Require Import LinkStep.
From S2P Require Import LinkRun.
From S2P Require TcpShmConn.
From S2P Require Import UserMem.
From S2P Require EchoServer.
From S2P Require Import EchoClient.

Record echo := mkEcho {
  e_conn : bool → PTCPConnection;
  e_head : bool → option Z;
  e_login : option (bool * Z * Z);
  e_client : EchoClient
}.

Definition e_set_conn (e : echo) (b : bool) (c : PTCPConnection) : echo :=
  mkEcho (<[b := c]> (e_conn e)) (e_head e) (e_login e) (e_client e).
Definition e_set_head (e : echo) (b : bool) (p : option Z) : echo :=
  mkEcho (e_conn e) (<[b := p]> (e_head e)) (e_login e) (e_client e).
Definition e_set_login (e : echo) (a : option (bool * Z * Z)) : echo :=
  mkEcho (e_conn e) (e_head e) a (e_client e).
Definition e_set_client (e : echo) (s : EchoClient) : echo :=
  mkEcho (e_conn e) (e_head e) (e_login e) s.

(** The two ends without the histories. *)
Definition ends (e : echo) : link := mkLink (e_conn e) (e_head e) (e_login e) (λ _, []) (λ _, []).

(** A connection that does not use shared memory. *)
Definition over_tcp (t : PTCPConnection) : TcpShmConn.TcpShmConnection :=
  TcpShmConn.mkTcpShmConnection [] [] [] t None None.

Section steps.
(** The byte order of the server's host and of the client's. *)
Context (little : bool → bool).
Context {W : Type} {os : Os W} {log : OsLog W} (peer : Z → Z).
Context (price : bool → Z → list Z).

Definition conf (b : bool) : Conf :=
  if b then EchoServer.ServerConf (little true) else ClientConf (little false).

(** New files: the numbers start from 0. *)
Definition new_echo (slow : bool) : echo :=
  mkEcho (l_conn (new_link conf)) no_head None (mkEchoClient 0 slow 0 0).

Inductive echo_step (e : echo) (w : W) : echo → W → Prop :=
  | es_poll c' s' c w' r :                    (* [PollNum] *)
      connecting (ends e) false = false →
      PollNum (conf := conf false) price (e_client e) (over_tcp (e_conn e false)) w = Ret (r, s', c, w') →
      c' = (if r then TcpShmConn.Close c else c) →
      echo_step e w (e_set_client (e_set_conn e false (TcpShmConn.ptcp_conn_ c')) s') w'
  | es_server_msg p s' c' :                   (* [OnServerMsg] *)
      connecting (ends e) false = false → e_head e false = Some p →
      OnServerMsg (conf := conf false) (e_client e) (over_tcp (e_conn e false)) p = Ret (Continue (s', c')) →
      echo_step e w (e_set_client (e_set_head (e_set_conn e false (TcpShmConn.ptcp_conn_ c')) false None) s') w
  | es_client_msg p c' w' :                   (* [OnClientMsg]; the server asks again *)
      connecting (ends e) true = false → e_head e true = Some p →
      EchoServer.OnClientMsg (conf := conf true) (over_tcp (e_conn e true)) p w = Ret (c', w') →
      echo_step e w (e_set_head (e_set_conn e true (TcpShmConn.ptcp_conn_ c')) true None) w'
  | es_heartbeat b now c' w' :
      connecting (ends e) b = false →
      SendHB (conf := conf b) (e_conn e b) now w = Ret (c', w') → echo_step e w (e_set_conn e b c') w'
  | es_front b r c' w' :
      connecting (ends e) b = false →
      Front (conf := conf b) (e_conn e b) w = Ret (r, c', w') →
      echo_step e w (e_set_head (e_set_conn e b c') b r) w'
  | es_close b reason errno :
      echo_step e w (e_set_conn e b (Close (e_conn e b) reason errno)) w
  | es_close_fd b r c' w' :
      TryCloseFd (e_conn e b) w = (r, c', w') → echo_step e w (e_set_conn e b c') w'
  | es_crash b :                              (* the files stay *)
      echo_step e w
        (e_set_login (e_set_head (e_set_conn e b (restart (conf := conf b) (e_conn e b))) b None)
           (if connecting (ends e) b then None else e_login e)) w
  | es_accept fd now c' w' :
      IsClosed (e_conn e true) = true → IsClosed (e_conn e false) = true →
      0 ≤ fd → 0 ≤ peer fd → peer fd ≠ fd →
      os_sent fd w = [] → os_received fd w = [] → os_sent (peer fd) w = [] → os_received (peer fd) w = [] →
      Open (conf := conf true) (e_conn e true) fd (conn_ack (e_conn e false)) now w = Ret (c', w') →
      echo_step e w
        (mkEcho (<[true := c']> (e_conn e)) no_head (Some (false, peer fd, conn_ack (e_conn e true))) (e_client e)) w'
  | es_connected b fd ack now c' w' :
      e_login e = Some (b, fd, ack) →
      Open (conf := conf b) (e_conn e b) fd ack now w = Ret (c', w') →
      echo_step e w (e_set_login (e_set_head (e_set_conn e b c') b None) None) w'
  | es_refused :
      e_login e ≠ None → echo_step e w (e_set_login e None) w.

Inductive echo_reachable (slow : bool) : echo → W → Prop :=
  | echo_new w : echo_reachable slow (new_echo slow) w
  | echo_next e w e' w' : echo_reachable slow e w → echo_step e w e' w' → echo_reachable slow e' w'.
End steps.

(** ** The message the client sends *)

Lemma fields_bytes_cons off bs fs m : fields_bytes ((off, bs) :: fs) m = fields_bytes fs (blit off bs m).
Proof. done. Qed.

Lemma fields_before n fs : ∀ m,
  0 ≤ n → Forall (λ f, n ≤ f.1 ∧ f.1 + zlen f.2 ≤ zlen m) fs → slice 0 n (fields_bytes fs m) = slice 0 n m.
Proof.
  induction fs as [|[off bs] fs IH]; intros m Hn Hfs; [done|].
  apply Forall_cons_1 in Hfs as [[Ho Hb] Hfs]. simpl in Ho, Hb. pose proof (zlen_nonneg bs).
  rewrite fields_bytes_cons.
  rewrite IH; [apply blit_slice_before; lia|done|]. rewrite blit_zlen by lia. done.
Qed.

Section depth.
Context {cs : Conf} (price : bool → Z → list Z).
Context (Hprice : ∀ b i, zlen (price b i) = 8 ∧ Forall byte_ok (price b i)).

Lemma store_int_zlen v : zlen (store_int v) = 4.
Proof. unfold store_int, zlen. by rewrite store_uint_length. Qed.
Lemma store_int_bytes v : Forall byte_ok (store_int v).
Proof. apply store_uint_bytes. Qed.
Lemma load_store_int v : -2147483648 ≤ v < 2147483648 → load_int (store_int v) = v.
Proof.
  intros Hv. unfold load_int, store_int. rewrite load_store_uint by (pose proof (u32_range v); simpl; lia).
  by apply i32_u32.
Qed.

(** The levels lie behind the number and inside the message. *)
Lemma levels_in v :
  Forall (λ f, 4 ≤ f.1 ∧ f.1 + zlen f.2 ≤ 168 ∧ Forall byte_ok f.2) (tail (market_depth_fields price v)).
Proof.
  unfold market_depth_fields. cbn [tail]. apply Forall_flat_map.
  assert (∀ i, 0 ≤ i ≤ 4 →
    Forall (λ f, 4 ≤ f.1 ∧ f.1 + zlen f.2 ≤ 168 ∧ Forall byte_ok f.2)
      [(bid_price i, price false i); (level_size (bid_price i), store_int (100 + i * 10));
       (ask_price i, price true i); (level_size (ask_price i), store_int (100 + i * 10))]) as Hi.
  { intros i Hi. destruct (Hprice false i) as [Hz0 Hb0], (Hprice true i) as [Hz1 Hb1].
    unfold level_size, bid_price, ask_price.
    repeat constructor; simpl; rewrite ?store_int_zlen, ?Hz0, ?Hz1; try lia; auto using store_int_bytes. }
  repeat (constructor; [apply Hi; lia|]). constructor.
Qed.

Lemma market_depth_fit v : fields_fit 21 (market_depth_fields price v).
Proof.
  constructor; [simpl; rewrite store_int_zlen; split_and!; [lia|lia|apply store_int_bytes]|].
  generalize (levels_in v). apply Forall_impl. intros f (? & ? & ?). split_and!; [lia|lia|done].
Qed.

Lemma market_depth_number v old :
  zlen old = 168 → slice 0 4 (fields_bytes (market_depth_fields price v) old) = store_int v.
Proof.
  intros Hold. pose proof (levels_in v) as Hin. unfold market_depth_fields in *. cbn [tail] in Hin.
  rewrite fields_bytes_cons. revert Hin. generalize (flat_map (λ i,
    [(bid_price i, price false i); (level_size (bid_price i), store_int (100 + i * 10));
     (ask_price i, price true i); (level_size (ask_price i), store_int (100 + i * 10))]) [0; 1; 2; 3; 4]).
  intros fs Hin. rewrite fields_before; [|lia|].
  - rewrite <-(store_int_zlen v) at 1. apply (blit_slice_same 0). lia.
  - rewrite blit_zlen by (rewrite ?store_int_zlen; lia). rewrite Hold.
    revert Hin. apply Forall_impl. intros f (? & ? & ?). lia.
Qed.
End depth.

(** ** The memory of a message *)

Lemma head_bytes {cs cr : Conf} r p u :
  read_header (conf := cr) (recvbuf_ r) p = Ret (um_header u) →
  slice p (p + 8 * blocks (um_size u + 8)) (recvbuf_ r) = um_delivered (cs := cs) (cr := cr) u →
  0 ≤ p → p + 8 * blocks (um_size u + 8) ≤ zlen (recvbuf_ r) →
  msg_header (conf := cr) (over_tcp r) p = Ret (um_header u) ∧
  ∀ off n, 8 ≤ off → 0 ≤ n → off + n ≤ 8 * blocks (um_size u + 8) →
    msg_bytes (conf := cr) (over_tcp r) p off n =
      Ret (slice (off - 8) (off - 8 + n) (words_bytes (conf := cs) (um_body u))).
Proof.
  intros Hread Hs Hp Hle. split.
  - unfold read_header in Hread. case_decide as Hd; [|done]. unfold msg_header, msg_bytes. simpl.
    rewrite Z.add_0_r, decide_True, outcome_bind_Ret by lia. done.
  - intros off n Hoff Hn Hfit. unfold msg_bytes. simpl. rewrite decide_True by lia. f_equal.
    rewrite <-Z.add_assoc, <-slice_slice with (hi := p + 8 * blocks (um_size u + 8)) by lia.
    rewrite Hs. unfold um_delivered. rewrite slice_app_r by (rewrite header_bytes_zlen; lia).
    rewrite header_bytes_zlen. f_equal. lia.
Qed.

(** ** The invariant *)

Section inv.
Context (little : bool → bool).
Context {W : Type} {os : Os W} {log : OsLog W} {laws : OsLaws W} (peer : Z → Z) {tcp : TcpLaws W os log peer}.
Context (price : bool → Z → list Z).
Context (Hprice : ∀ b i, zlen (price b i) = 8 ∧ Forall byte_ok (price b i)).
Abbreviation conf := (conf little).
Abbreviation link_inv := (link_inv conf peer).
Abbreviation echo_step := (echo_step little peer price).

Lemma echo_conf_ok b : @Conf_ok (conf b).
Proof. destruct b; [apply EchoServer.ServerConf_conf_ok|apply ClientConf_conf_ok]. Qed.
Lemma echo_conf_wire b : @ToLittleEndian (conf b) = @ToLittleEndian (conf (negb b)).
Proof. by destruct b. Qed.

(** The [i]th message carries the number [i], in the client's byte order. *)
Record numbered (b : bool) (i : nat) (u : user_msg) : Prop := {
  nb_type : um_type u = MarketDepthMsg_msg_type;
  nb_size : um_size u = sizeof_MarketDepthMsg;
  nb_value : slice 0 4 (words_bytes (conf := conf b) (um_body u)) = store_int (conf := conf false) (Z.of_nat i)
}.

Record echo_rel (e : echo) (l : link) : Prop := {
  er_conn x : l_conn l x = e_conn e x;
  er_head x : l_head l x = e_head e x;
  er_login : l_login l = e_login e;
  er_numbered b i u : l_pushed l b !! i = Some u → numbered b i u;
  er_send : send_num (e_client e) = Z.of_nat (length (l_pushed l false));
  er_max : send_num (e_client e) ≤ MaxNum;
  er_recv : recv_num (e_client e) = Z.of_nat (length (l_popped l false));
  er_echoes : length (l_pushed l true) = length (l_popped l true)
}.

Definition echo_inv (e : echo) (w : W) : Prop := ∃ l g, echo_rel e l ∧ link_inv l w g.

Lemma upd_ext {A} (f f' : bool → A) b v : (∀ x, f x = f' x) → ∀ x, (<[b := v]> f) x = (<[b := v]> f') x.
Proof. intros Hf. apply (both_sides b); by rewrite ?upd_same, ?upd_other. Qed.
Lemma upd_id {A} (f f' : bool → A) b : (∀ x, f x = f' x) → ∀ x, f x = (<[b := f' b]> f') x.
Proof. intros Hf. apply (both_sides b); by rewrite ?upd_same, ?upd_other. Qed.

Lemma rel_connecting e l b : echo_rel e l → connecting l b = connecting (ends e) b.
Proof. intros Hr. unfold connecting. by rewrite (er_login _ _ Hr). Qed.

(** A step of the two hosts at which no user acts. *)
Lemma echo_host e e' w w' l l' g :
  echo_rel e l → link_inv l w g → link_step conf peer l w l' w' →
  (∀ x, l_conn l' x = e_conn e' x) → (∀ x, l_head l' x = e_head e' x) → l_login l' = e_login e' →
  l_pushed l' = l_pushed l → l_popped l' = l_popped l → e_client e' = e_client e → echo_inv e' w'.
Proof.
  intros [] Hi Hs ? ? ? Hpu Hpo Hc.
  destruct (link_step_inv conf peer echo_conf_ok echo_conf_wire _ _ _ _ _ Hi Hs) as [g' Hi'].
  exists l', g'. split; [|done]. constructor; rewrite ?Hpu, ?Hpo, ?Hc; done.
Qed.

(** The user of [b] pushes and the connection sends. *)
Lemma link_send l w g b t size body t2 r t3 w' :
  link_inv l w g → connecting l b = false → push_ok conf l b t size body →
  user_push (conf := conf b) (l_conn l b) t size body = Ret (true, t2) →
  SendPending (conf := conf b) t2 w = Ret (r, t3, w') →
  ∃ u g', um_type u = t ∧ um_size u = size ∧ um_body u = body ∧
    link_inv (set_conn (add_pushed (set_conn l b t2) b u) b t3) w' g'.
Proof.
  intros Hi Hcon Hok Hp Hsp. set (u := mkMsg (conn_ack (l_conn l b)) t size body).
  destruct (link_step_inv conf peer echo_conf_ok echo_conf_wire _ _ _ _ _ Hi
    (step_push conf peer l w b t size body t2 Hcon Hok Hp)) as [g1 Hi1].
  assert (SendPending (conf := conf b) (l_conn (add_pushed (set_conn l b t2) b u) b) w = Ret (r, t3, w')) as Hsp'.
  { side. done. }
  destruct (link_step_inv conf peer echo_conf_ok echo_conf_wire _ _ _ _ _ Hi1
    (step_flush conf peer (add_pushed (set_conn l b t2) b u) w b r t3 w' Hcon Hsp')) as [g2 Hi2].
  exists u, g2. by split_and!.
Qed.

(** The queue of [b]. *)
Lemma inv_queue l w g b :
  link_inv l w g → ∃ q msgs, q_ (l_conn l b) = Some q ∧
    queue_rep (@TcpQueueSize (conf b)) (@ToLittleEndian (conf b)) (@is_little_endian (conf b)) q msgs.
Proof. intros Hi. destruct (inv_dir _ _ _ _ _ b Hi). by eexists _, _. Qed.

Lemma pushed_snoc l b u : numbered b (length (l_pushed l b)) u →
  (∀ i v, l_pushed l b !! i = Some v → numbered b i v) → ∀ i v, (l_pushed l b ++ [u]) !! i = Some v → numbered b i v.
Proof.
  intros Hu Hl i v [Hi|[Hge Hi]]%lookup_app_Some; [by apply Hl|].
  apply list_lookup_singleton_Some in Hi as [Hi <-]. by replace i with (length (l_pushed l b)) by lia.
Qed.

(** ** The client sends *)

(** [e] with the connection [b] as it was. *)
Lemma rel_same_conn e l b : echo_rel e l → echo_rel (e_set_client (e_set_conn e b (e_conn e b)) (e_client e)) l.
Proof. intros []. constructor; try done. by apply upd_id. Qed.

Lemma echo_lengths l w g :
  link_inv l w g → (length (l_popped l true) ≤ length (l_pushed l false))%nat ∧
    (length (l_popped l false) ≤ length (l_pushed l true))%nat.
Proof.
  intros Hi. split; [apply (dr_len _ _ _ _ _ _ _ _ _ _ (inv_dir _ _ _ _ _ false Hi))|
    apply (dr_len _ _ _ _ _ _ _ _ _ _ (inv_dir _ _ _ _ _ true Hi))].
Qed.

Lemma depth_push_ok l b body :
  zlen body = 21 → Z.of_nat (length (l_pushed l b)) ≤ MaxNum →
  push_ok conf l b MarketDepthMsg_msg_type sizeof_MarketDepthMsg body.
Proof.
  intros Hz Hlen. unfold push_ok, MarketDepthMsg_msg_type, sizeof_MarketDepthMsg, MaxNum in *.
  rewrite Hz. change (blocks (168 + 8)) with 22. destruct b; simpl; lia.
Qed.

Lemma try_send_ok e l w g :
  echo_rel e l → link_inv l w g → connecting l false = false → send_num (e_client e) < MaxNum →
  ∃ r s c w', TrySendMarketDepthMsg (conf := conf false) price (e_client e) (over_tcp (e_conn e false)) w =
                Ret (r, s, c, w') ∧
    echo_inv (e_set_client (e_set_conn e false (TcpShmConn.ptcp_conn_ c)) s) w'.
Proof.
  intros Hr Hi Hcon Hlt. destruct (inv_queue _ _ _ false Hi) as (q & msgs & Hq & Hrep).
  rewrite (er_conn _ _ Hr) in Hq. unfold TrySendMarketDepthMsg.
  destruct (send_tcp (echo_conf_ok false) (over_tcp (e_conn e false)) q msgs sizeof_MarketDepthMsg
    MarketDepthMsg_msg_type (market_depth_fields (conf := conf false) price (send_num (e_client e))) eq_refl Hq Hrep)
    as [[_ ->]|(i & c1 & c2 & body & old & t2 & -> & _ & Hw & Hz & Hzo & Hb & Hp & Hpush)];
    [done|done|by apply market_depth_fit|..]; rewrite outcome_bind_Ret.
  - eexists _, _, _, _. split; [done|]. exists l, g. split; [by apply rel_same_conn|done].
  - rewrite Hw, outcome_bind_Ret, Hpush. change (blocks sizeof_MarketDepthMsg) with 21 in *.
    change (TcpShmConn.ptcp_conn_ (over_tcp (e_conn e false))) with (e_conn e false) in Hp.
    rewrite <-(er_conn _ _ Hr) in Hp.
    assert (push_ok conf l false MarketDepthMsg_msg_type sizeof_MarketDepthMsg body) as Hok.
    { apply depth_push_ok; [done|]. rewrite <-(er_send _ _ Hr). lia. }
    destruct (link_step_inv conf peer echo_conf_ok echo_conf_wire _ _ _ _ _ Hi
      (step_push conf peer l w false _ _ body t2 Hcon Hok Hp)) as [g1 Hi1].
    destruct (inv_queue _ _ _ false Hi1) as (q2 & msgs2 & Hq2 & Hrep2). revert Hq2. side. intros Hq2.
    destruct (SendPending_ok (echo_conf_ok false) t2 q2 msgs2 w Hq2 Hrep2) as (r & t3 & w' & Hsp & _).
    rewrite Hsp, !outcome_bind_Ret. eexists _, _, _, _. split; [done|].
    destruct (link_send _ _ _ _ _ _ _ _ _ _ _ Hi Hcon Hok Hp Hsp) as (u & g' & Hu1 & Hu2 & Hu3 & Hi').
    eexists _, g'. split; [|exact Hi']. destruct Hr. constructor; side; simpl; try done.
    + apply (both_sides false); by rewrite ?upd_same, ?upd_other.
    + intros [|] j v; [rewrite fn_lookup_insert_ne by done; apply er_numbered0|rewrite upd_same]. apply (pushed_snoc l false u); [|apply (er_numbered0 false)]. constructor; [done|done|].
      rewrite Hu3, Hb, er_send0. apply market_depth_number; [done|]. by rewrite Hzo.
    + rewrite length_app. simpl. lia.
    + lia.
Qed.

Lemma poll_ok e l w g :
  echo_rel e l → link_inv l w g → connecting l false = false →
  ∃ r s c w', PollNum (conf := conf false) price (e_client e) (over_tcp (e_conn e false)) w = Ret (r, s, c, w') ∧
    echo_inv (e_set_client (e_set_conn e false
      (TcpShmConn.ptcp_conn_ (if r then TcpShmConn.Close c else c))) s) w'.
Proof.
  intros Hr Hi Hcon. unfold PollNum. destruct (Z.ltb_spec (send_num (e_client e)) MaxNum) as [Hlt|Hge].
  - destruct (slow _ && _).
    + eexists _, _, _, _. split; [done|]. exists l, g. split; [by apply rel_same_conn|done].
    + destruct (try_send_ok _ _ _ _ Hr Hi Hcon Hlt) as (r & s & c & w' & -> & He). rewrite outcome_bind_Ret.
      by eexists _, _, _, _.
  - eexists _, _, _, _. split; [done|]. destruct (send_num _ =? recv_num _).
    + eapply (echo_host e _ w w l); [done|done|by apply (step_close conf peer l w false "Request close" 0)|..]; try done.
      * side. rewrite (er_conn _ _ Hr). apply upd_ext, (er_conn _ _ Hr).
      * apply (er_head _ _ Hr).
      * apply (er_login _ _ Hr).
    + exists l, g. split; [by apply rel_same_conn|done].
Qed.

(** ** The handlers *)

(** What [y] got from [Front]: the next message of the other end, which
    carries its number. *)
Lemma head_ok e l w g y p :
  echo_rel e l → link_inv l w g → e_head e y = Some p →
  ∃ u fs q msgs, numbered (negb y) (length (l_popped l y)) u ∧ um_ok (cr := conf y) u ∧
    p = readidx_ (e_conn e y) ∧ recv_rep (conf := conf y) (e_conn e y) (um_bytes (cs := conf (negb y)) u :: fs) (g_t (g (negb y))) ∧
    q_ (e_conn e y) = Some q ∧
    queue_rep (@TcpQueueSize (conf y)) (@ToLittleEndian (conf y)) (@is_little_endian (conf y)) q msgs ∧
    message_at (conf := conf y) (l_conn l y) p = Ret (um_delivered (cs := conf (negb y)) (cr := conf y) u) ∧
    msg_header (conf := conf y) (over_tcp (e_conn e y)) p = Ret (um_header u) ∧
    ∀ off n, 8 ≤ off → 0 ≤ n → off + n ≤ 176 →
      msg_bytes (conf := conf y) (over_tcp (e_conn e y)) p off n =
        Ret (slice (off - 8) (off - 8 + n) (words_bytes (conf := conf (negb y)) (um_body u))).
Proof.
  intros Hr Hi Hh. rewrite <-(er_head _ _ Hr) in Hh. rewrite <-(er_conn _ _ Hr).
  pose proof (inv_dir_back _ _ _ _ _ y Hi) as Hd. rewrite Hh in Hd.
  destruct (dir_head _ _ _ _ _ _ _ _ _ _ Hd) as (u & fs & Hlook & Hu & -> & Hfs & Hrep & _).
  destruct (head_mem (eq_sym (echo_conf_wire y)) _ _ _ _ Hu Hrep) as (Hread & Hs & Hm & Hp & Hle).
  pose proof (er_numbered _ _ Hr _ _ _ Hlook) as Hnum. pose proof Hnum as [_ Hsize _].
  destruct (inv_queue _ _ _ y Hi) as (q & msgs & Hq & Hqrep).
  destruct (head_bytes _ _ _ Hread Hs Hp Hle) as [Hheader Hbytes]. rewrite Hsize in Hbytes.
  exists u, fs, q, msgs. by split_and!.
Qed.

Lemma numbered_body y i u : numbered y i u → um_ok (cr := conf (negb y)) u → zlen (words_bytes (conf := conf y) (um_body u)) = 168.
Proof.
  intros [_ Hs _] [_ _ _ Hb _]. rewrite words_bytes_zlen, Hb, Hs. change (blocks _) with 22. lia.
Qed.

Lemma server_msg_ok e l w g p :
  echo_rel e l → link_inv l w g → connecting l false = false → e_head e false = Some p →
  ∃ s c', OnServerMsg (conf := conf false) (e_client e) (over_tcp (e_conn e false)) p = Ret (Continue (s, c')) ∧
    echo_inv (e_set_client (e_set_head (e_set_conn e false (TcpShmConn.ptcp_conn_ c')) false None) s) w.
Proof.
  intros Hr Hi Hcon Hh. destruct (head_ok _ _ _ _ _ _ Hr Hi Hh) as
    (u & fs & q & msgs & Hnum & Hu & -> & Hrep & Hq & _ & Hm & Hheader & Hbytes).
  pose proof (numbered_body _ _ _ Hnum Hu) as Hz. destruct Hnum as [Ht Hs Hv].
  destruct (Pop_ok (conf := conf false) (echo_conf_ok false) _ _ _ _ _ Hrep Hq) as (t1 & Hpop & _).
  pose proof (echo_lengths _ _ _ Hi) as [Hl1 Hl2].
  assert (send_num (e_client e) ≤ MaxNum) as Hmax by apply Hr. unfold MaxNum in Hmax.
  pose proof (er_send _ _ Hr). pose proof (er_echoes _ _ Hr).
  unfold OnServerMsg. rewrite Hheader, outcome_bind_Ret. cbv zeta. simpl mh_msg_type. rewrite Ht.
  change (MarketDepthMsg_msg_type =? 1) with false. change (MarketDepthMsg_msg_type =? 2) with false.
  change (MarketDepthMsg_msg_type =? 3) with false. change (MarketDepthMsg_msg_type =? 4) with false.
  rewrite Z.eqb_refl. cbv iota.
  assert (handleMarketDepthMsg (conf := conf false) (e_client e) (over_tcp (e_conn e false)) (readidx_ (e_conn e false)) =
    Ret (Continue (set_recv_num (e_client e) (recv_num (e_client e) + 1)))) as ->.
  { unfold handleMarketDepthMsg, sizeof_MsgHeader. rewrite Hbytes, outcome_bind_Ret by lia.
    change (8 - 8) with 0. rewrite Z.add_0_l, Hv, load_store_int by lia. by rewrite (er_recv _ _ Hr), Z.eqb_refl. }
  rewrite outcome_bind_Ret. unfold TcpShmConn.Pop. cbn [over_tcp TcpShmConn.shm_recvq_ TcpShmConn.ptcp_conn_].
  rewrite Hpop, !outcome_bind_Ret.
  eexists _, _. split; [done|]. rewrite <-(er_conn _ _ Hr) in Hpop. rewrite <-(er_head _ _ Hr) in Hh.
  destruct (link_step_inv conf peer echo_conf_ok echo_conf_wire _ _ _ _ _ Hi
    (step_pop conf peer l w false _ _ t1 Hcon Hh Hm Hpop)) as [g' Hi'].
  eexists _, g'. split; [|exact Hi']. destruct Hr. constructor; side; simpl; try done; try by apply upd_ext.
  - rewrite length_app. simpl. lia.
Qed.

Lemma client_msg_ok e l w g p :
  echo_rel e l → link_inv l w g → connecting l true = false → e_head e true = Some p →
  ∃ c' w', EchoServer.OnClientMsg (conf := conf true) (over_tcp (e_conn e true)) p w = Ret (c', w') ∧
    echo_inv (e_set_head (e_set_conn e true (TcpShmConn.ptcp_conn_ c')) true None) w'.
Proof.
  intros Hr Hi Hcon Hh. destruct (head_ok _ _ _ _ _ _ Hr Hi Hh) as
    (u & fs & q & msgs & Hnum & Hu & -> & Hrep & Hq & Hqrep & Hm & Hheader & Hbytes).
  pose proof (numbered_body _ _ _ Hnum Hu) as Hz. destruct Hnum as [Ht Hs Hv]. simpl negb in *.
  destruct (Pop_ok (conf := conf true) (echo_conf_ok true) _ _ _ _ _ Hrep Hq) as (t1 & Hpop & _).
  pose proof (echo_lengths _ _ _ Hi) as [Hl1 Hl2].
  assert (send_num (e_client e) ≤ MaxNum) as Hmax by apply Hr. unfold MaxNum in Hmax.
  pose proof (er_send _ _ Hr). pose proof (er_echoes _ _ Hr).
  set (bs := words_bytes (conf := conf false) (um_body u)) in *.
  assert (mh_size (um_header u) - sizeof_MsgHeader = 168 ∧ mh_size (um_header u) = 176 ∧
    mh_msg_type (um_header u) = MarketDepthMsg_msg_type) as (Hsz & Hsz' & Hty).
  { simpl. rewrite Hs, Ht. done. }
  destruct (EchoServer.OnClientMsg_tcp (echo_conf_ok true) (over_tcp (e_conn e true)) q msgs (readidx_ (e_conn e true))
    (um_header u) bs t1 w eq_refl eq_refl Hq Hqrep Hheader) as [[_ ->]|(body & t2 & Hzb & Hsame & Hp & ->)];
    rewrite ?Hsz, ?Hsz', ?Hty in *; try done.
  - rewrite Hbytes by done. unfold sizeof_MsgHeader. change (8 - 8) with 0. rewrite Z.add_0_l, <-Hz. by rewrite slice_full.
  - apply words_bytes_bytes.
  - eexists _, _. split; [done|]. exists (set_head l true None), g. split; [|by apply inv_head_none].
    destruct Hr. constructor; side; try done; [by apply (upd_id _ (e_conn e) true)|by apply upd_ext].
  - change (TcpShmConn.ptcp_conn_ (over_tcp (e_conn e true))) with (e_conn e true) in Hpop.
    rewrite <-(er_conn _ _ Hr) in Hpop. rewrite <-(er_head _ _ Hr) in Hh.
    destruct (link_step_inv conf peer echo_conf_ok echo_conf_wire _ _ _ _ _ Hi
      (step_pop conf peer l w true _ _ t1 Hcon Hh Hm Hpop)) as [g1 Hi1].
    set (l1 := add_popped _ true _) in *. assert (l_conn l1 true = t1) as Ht1 by (unfold l1; by side).
    rewrite <-Ht1 in Hp.
    assert (push_ok conf l1 true MarketDepthMsg_msg_type 168 body) as Hok.
    { apply (depth_push_ok l1); [by rewrite Hzb|]. unfold l1. side. unfold MaxNum. lia. }
    destruct (link_step_inv conf peer echo_conf_ok echo_conf_wire _ _ _ _ _ Hi1
      (step_push conf peer l1 w true _ _ body t2 Hcon Hok Hp)) as [g2 Hi2].
    destruct (inv_queue _ _ _ true Hi2) as (q2 & msgs2 & Hq2 & Hrep2). revert Hq2. side. intros Hq2.
    destruct (SendPending_ok (echo_conf_ok true) t2 q2 msgs2 w Hq2 Hrep2) as (r & t3 & w' & Hsp & _).
    rewrite Hsp, outcome_bind_Ret. eexists _, _. split; [done|].
    destruct (link_send _ _ _ _ _ _ _ _ _ _ _ Hi1 Hcon Hok Hp Hsp) as (v & g' & Hu1 & Hu2 & Hu3 & Hi').
    eexists _, g'. split; [|exact Hi']. unfold l1. destruct Hr.
    constructor; side; simpl; try done.
    + apply (both_sides true); by rewrite ?upd_same, ?upd_other.
    + by apply upd_ext.
    + intros [|] j x; [rewrite upd_same|rewrite fn_lookup_insert_ne by done; apply er_numbered0].
      apply (pushed_snoc l true v); [|apply (er_numbered0 true)]. constructor; [done|done|].
      rewrite Hu3, er_echoes0, <-Hv. fold bs. rewrite <-Hsame. rewrite slice_slice by lia. done.
    + rewrite !length_app. simpl. lia.
Qed.

(** ** Every step *)

Lemma echo_step_inv e w e' w' : echo_inv e w → echo_step e w e' w' → echo_inv e' w'.
Proof.
  intros (l & g & Hr & Hi) Hs. pose proof (er_conn _ _ Hr) as Hc. pose proof (er_head _ _ Hr) as Hh.
  pose proof (er_login _ _ Hr) as Hl.
  destruct Hs as [c' s' c w' r Hcon Hp ->|p s' c' Hcon Hp Hm|p c' w' Hcon Hp Hm|b now c' w' Hcon Hp|b r c' w' Hcon Hp|
    b reason errno|b r c' w' Hp|b|fd now c' w' H1 H2 ? ? ? ? ? ? ? Ho|b fd ack now c' w' El Ho|El];
    try rewrite <-(rel_connecting e l _ Hr) in Hcon.
  - destruct (poll_ok _ _ _ _ Hr Hi Hcon) as (r1 & s1 & c1 & w1 & Hp1 & He). rewrite Hp in Hp1.
    by injection Hp1 as <- <- <- <-.
  - destruct (server_msg_ok _ _ _ _ _ Hr Hi Hcon Hp) as (s1 & c1 & Hm1 & He). rewrite Hm in Hm1.
    by injection Hm1 as <- <-.
  - destruct (client_msg_ok _ _ _ _ _ Hr Hi Hcon Hp) as (c1 & w1 & Hm1 & He). rewrite Hm in Hm1.
    by injection Hm1 as <- <-.
  - rewrite <-Hc in Hp. eapply (echo_host e _ w w' l); [done|done|by eapply step_heartbeat|..]; side; try done.
    by apply upd_ext.
  - rewrite <-Hc in Hp. eapply (echo_host e _ w w' l); [done|done|by eapply step_front|..]; side; try done;
      by apply upd_ext.
  - eapply (echo_host e _ w w l); [done|done|by apply (step_close conf peer l w b reason errno)|..]; side; try done.
    rewrite Hc. by apply upd_ext.
  - rewrite <-Hc in Hp. eapply (echo_host e _ w w' l); [done|done|by eapply step_close_fd|..]; side; try done.
    by apply upd_ext.
  - eapply (echo_host e _ w w l); [done|done|apply (step_crash conf peer l w b)|..]; side; try done;
      first [by rewrite (rel_connecting e l b Hr), Hl|rewrite ?Hc; by apply upd_ext].
  - rewrite <-!Hc in *. eapply (echo_host e _ w w' l); [done|done|by eapply (step_accept conf peer l w true fd now)|..];
      side; try done; first [by apply upd_ext|by rewrite Hc].
  - rewrite <-Hl in El. rewrite <-Hc in Ho.
    eapply (echo_host e _ w w' l); [done|done|by eapply step_connected|..]; side; try done; by apply upd_ext.
  - destruct (e_login e) as [[[b fd] ack]|] eqn:El'; [|done].
    eapply (echo_host e _ w w l); [done|done|by eapply (step_refused conf peer l w)|..]; by side.
Qed.

Lemma new_echo_inv slow w : echo_inv (new_echo little slow) w.
Proof.
  exists (new_link conf). eexists. split; [|by apply new_link_inv, echo_conf_ok]. by constructor.
Qed.

Lemma echo_reachable_inv slow e w : echo_reachable little peer price slow e w → echo_inv e w.
Proof. induction 1; [apply new_echo_inv|by eapply echo_step_inv]. Qed.
End inv.
