(* ===== verification/Market.v ===== *)
(** * The market data example ([crypto_market_example/])

    [MarketServer] and [MarketClient] are the classes [EchoServer] and
    [EchoClient] of the example: the server sends numbered market data to
    every connection, the client ends when the instrument is not the one
    after the last.  The logger is not modelled, the threads are those of
    [MarketThreads] and [MarketClientRun]; what the random generator, the
    floating point computations and the clock give is a parameter ([draws]),
    as bytes of [double]s, integers and a time.  The members of a message are
    written at their offsets in the structure. *)

From stdpp Require Import gmap strings.
From S2P Require Import Prelude.
From S2P Require Import Arrays.
From S2P Require Import MsgHeader.
From S2P Require Import PtcpQueue.
From S2P Require SpscQueue.
From S2P Require Import Platform.
From S2P Require PtcpConn.
From S2P Require Import TcpShmConn.
From S2P Require Import UserMem.
From S2P Require Import EchoClient.

(** ** [common.h] *)

Definition TradeMsg_msg_type : Z := 6.
Definition sizeof_TradeMsg : Z := 40.
Definition VolatilityMsg_msg_type : Z := 7.
Definition sizeof_VolatilityMsg : Z := 40.
Definition KLineMsg_msg_type : Z := 8.
Definition sizeof_KLineMsg : Z := 56.
Definition TickerMsg_msg_type : Z := 9.
Definition sizeof_TickerMsg : Z := 64.

(** ** The names of the instruments *)

Definition base_currencies : list string :=
  ["BTC"; "ETH"; "BNB"; "XRP"; "ADA"; "SOL"; "DOT"; "DOGE"; "AVAX"; "MATIC";
   "LINK"; "UNI"; "ATOM"; "LTC"; "FTM"; "ALGO"; "XLM"; "VET"; "AXS"; "FIL"]%string.
Definition quote_currencies : list string := ["USDT"; "USDC"; "BUSD"; "DAI"; "USD"; "EUR"]%string.

(** The sizes are [size_t]: the [int] is converted. *)
Definition GetSymbolName (instrument_id : Z) : outcome string :=
  let base_idx := u64 instrument_id mod zlen base_currencies in
  let quote_idx := (u64 instrument_id / zlen base_currencies) mod zlen quote_currencies in
  base ← get base_currencies base_idx;
  quote ← get quote_currencies quote_idx;
  Ret (base +:+ "-" +:+ quote)%string.

(** ** The server *)

(** The [k]th [double] that is stored in a message, the [k]th
    [RandomSize()], and [now()]. *)
Record draws := mkDraws {
  d_double : Z → list Z;
  d_size : Z → Z;
  d_now : Z
}.

Record MarketServer := mkMarketServer {
  last_trade_id : Z;
  active_connections : list Z;
  msg_send_count : gmap Z Z
}.

Definition set_last_trade_id (s : MarketServer) (n : Z) : MarketServer :=
  mkMarketServer n (active_connections s) (msg_send_count s).
Definition set_active_connections (s : MarketServer) (l : list Z) : MarketServer :=
  mkMarketServer (last_trade_id s) l (msg_send_count s).

(** [msg_send_count[t]++] *)
Definition count_sent (s : MarketServer) (t : Z) : MarketServer :=
  mkMarketServer (last_trade_id s) (active_connections s)
    (<[t := default 0 (msg_send_count s !! t) + 1]> (msg_send_count s)).

(** [EchoServer()]: the counts start from 0. *)
Definition new_MarketServer : MarketServer :=
  mkMarketServer 0 [] (list_to_map ((λ i, (i + 5, 0)) <$> [0; 1; 2; 3; 4])).

(** A connection is its index in the pool of the server. *)
Definition OnClientLogon (s : MarketServer) (conn : Z) : MarketServer :=
  set_active_connections s (active_connections s ++ [conn]).

(** [erase(find(...))] *)
Fixpoint erase_first (conn : Z) (l : list Z) : list Z :=
  match l with
  | [] => []
  | x :: l => if x =? conn then l else x :: erase_first conn l
  end.
Definition OnClientDisconnected (s : MarketServer) (conn : Z) : MarketServer :=
  set_active_connections s (erase_first conn (active_connections s)).

Section server.
Context {conf : Conf} {W : Type} {os : Os W}.

Definition store_int64 (v : Z) : list Z := store_uint is_little_endian 8 (u64 v).

(** [header->msg_type] of the message that [Alloc] returned, after [Push]. *)
Definition sent_type (c : TcpShmConnection) (p : Z) : outcome Z :=
  h ← match shm_sendq_ c with
      | Some q => get (SpscQueue.blk q) (SpscQueue.block_words * p)
      | None =>
          match PtcpConn.q_ (ptcp_conn_ c) with
          | None => Undef
          | Some q => get (blk_ q) p
          end
      end;
  Ret (mh_msg_type h).

Definition depth_fields (id : Z) (d : draws) : list (Z * list Z) :=
  (0, store_int id) ::
  flat_map (λ i,
    [(bid_price i, d_double d (2 * i)); (level_size (bid_price i), store_int (100 + i * 10 + d_size d (2 * i)));
     (ask_price i, d_double d (2 * i + 1)); (level_size (ask_price i), store_int (100 + i * 10 + d_size d (2 * i + 1)))])
    [0; 1; 2; 3; 4].

Definition trade_fields (id trade_id : Z) (d : draws) : list (Z * list Z) :=
  [(0, store_int id); (8, d_double d 0); (16, store_int (100 + d_size d 0)); (20, store_int trade_id);
   (24, [if d_size d 1 mod 2 =? 0 then 1 else 0]); (32, store_int64 (d_now d))].

Definition volatility_fields (id : Z) (d : draws) : list (Z * list Z) :=
  [(0, store_int id); (8, d_double d 0); (16, d_double d 1); (24, d_double d 2); (32, store_int64 (d_now d))].

Definition kline_fields (id : Z) (d : draws) : list (Z * list Z) :=
  [(0, store_int id); (4, store_int (d_size d 0 mod 8)); (32, d_double d 0); (8, d_double d 1); (16, d_double d 2);
   (24, d_double d 3); (40, store_int (1000 + d_size d 1 * 10)); (48, store_int64 (d_now d))].

Definition ticker_fields (id : Z) (d : draws) : list (Z * list Z) :=
  [(0, store_int id); (8, d_double d 0); (16, d_double d 1); (24, d_double d 2); (32, d_double d 3);
   (40, d_double d 4); (48, store_int (10000 + d_size d 0 * 100)); (56, store_int64 (d_now d))].

Definition SendMarketDepthMsg (s : MarketServer) (conn : TcpShmConnection) (instrument_id : Z) (d : draws) (w : W)
    : outcome (MarketServer * TcpShmConnection * W) :=
  '(header, conn) ← Alloc conn sizeof_MarketDepthMsg;
  match header with
  | None => Ret (s, conn, w)
  | Some p =>
      conn ← write_msg conn p MarketDepthMsg_msg_type (depth_fields (Z.rem instrument_id 120) d);
      '(conn, w) ← Push conn w;
      t ← sent_type conn p;
      Ret (count_sent s t, conn, w)
  end.

Definition SendTradeMsg (s : MarketServer) (conn : TcpShmConnection) (instrument_id : Z) (d : draws) (w : W)
    : outcome (MarketServer * TcpShmConnection * W) :=
  '(header, conn) ← Alloc conn sizeof_TradeMsg;
  match header with
  | None => Ret (s, conn, w)
  | Some p =>
      let s := set_last_trade_id s (i32 (u32 (last_trade_id s + 1))) in
      conn ← write_msg conn p TradeMsg_msg_type (trade_fields (Z.rem instrument_id 120) (last_trade_id s) d);
      '(conn, w) ← Push conn w;
      t ← sent_type conn p;
      Ret (count_sent s t, conn, w)
  end.

Definition SendVolatilityMsg (s : MarketServer) (conn : TcpShmConnection) (instrument_id : Z) (d : draws) (w : W)
    : outcome (MarketServer * TcpShmConnection * W) :=
  '(header, conn) ← Alloc conn sizeof_VolatilityMsg;
  match header with
  | None => Ret (s, conn, w)
  | Some p =>
      conn ← write_msg conn p VolatilityMsg_msg_type (volatility_fields (Z.rem instrument_id 120) d);
      '(conn, w) ← Push conn w;
      t ← sent_type conn p;
      Ret (count_sent s t, conn, w)
  end.

Definition SendKLineMsg (s : MarketServer) (conn : TcpShmConnection) (instrument_id : Z) (d : draws) (w : W)
    : outcome (MarketServer * TcpShmConnection * W) :=
  '(header, conn) ← Alloc conn sizeof_KLineMsg;
  match header with
  | None => Ret (s, conn, w)
  | Some p =>
      conn ← write_msg conn p KLineMsg_msg_type (kline_fields (Z.rem instrument_id 120) d);
      '(conn, w) ← Push conn w;
      t ← sent_type conn p;
      Ret (count_sent s t, conn, w)
  end.

Definition SendTickerMsg (s : MarketServer) (conn : TcpShmConnection) (instrument_id : Z) (d : draws) (w : W)
    : outcome (MarketServer * TcpShmConnection * W) :=
  '(header, conn) ← Alloc conn sizeof_TickerMsg;
  match header with
  | None => Ret (s, conn, w)
  | Some p =>
      conn ← write_msg conn p TickerMsg_msg_type (ticker_fields (Z.rem instrument_id 120) d);
      '(conn, w) ← Push conn w;
      t ← sent_type conn p;
      Ret (count_sent s t, conn, w)
  end.

(** The [switch] of [SendMarketDataPeriodically]. *)
Definition send_data (s : MarketServer) (conn : TcpShmConnection) (total_sent : Z) (d : draws) (w : W)
    : outcome (MarketServer * TcpShmConnection * W) :=
  let msg_type := 5 + Z.rem total_sent 5 in
  let instrument_id := Z.rem total_sent 120 in
  if msg_type =? 5 then SendMarketDepthMsg s conn instrument_id d w
  else if msg_type =? 6 then SendTradeMsg s conn instrument_id d w
  else if msg_type =? 7 then SendVolatilityMsg s conn instrument_id d w
  else if msg_type =? 8 then SendKLineMsg s conn instrument_id d w
  else if msg_type =? 9 then SendTickerMsg s conn instrument_id d w
  else Ret (s, conn, w).

Definition max_msgs_to_send : Z := 10000.

(** The [for] over the connections; [ds n] are the draws of the [n]th send. *)
Fixpoint send_pass (connections : list Z) (s : MarketServer) (pool : list TcpShmConnection) (total_sent : Z)
    (ds : Z → draws) (w : W) : outcome (MarketServer * list TcpShmConnection * Z * W) :=
  match connections with
  | [] => Ret (s, pool, total_sent, w)
  | cid :: connections =>
      conn ← get pool cid;
      if IsClosed conn then send_pass connections s pool total_sent ds w
      else
        '(s, conn, w) ← send_data s conn total_sent (ds total_sent) w;
        pool ← put pool cid conn;
        let total_sent := total_sent + 1 in
        if max_msgs_to_send <=? total_sent then Ret (s, pool, total_sent, w)
        else send_pass connections s pool total_sent ds w
  end.

(** The [while] until [stopped]: what [active_connections] is at the start
    of each iteration. *)
Fixpoint SendMarketDataPeriodically (snapshots : list (list Z)) (s : MarketServer) (pool : list TcpShmConnection)
    (total_sent : Z) (ds : Z → draws) (w : W) : outcome (MarketServer * list TcpShmConnection * Z * W) :=
  match snapshots with
  | [] => Ret (s, pool, total_sent, w)
  | connections :: snapshots =>
      if max_msgs_to_send <=? total_sent then Ret (s, pool, total_sent, w)
      else
        '(s, pool, total_sent, w) ← send_pass connections s pool total_sent ds w;
        SendMarketDataPeriodically snapshots s pool total_sent ds w
  end.

Definition OnClientMsg (conn : TcpShmConnection) (p : Z) : outcome TcpShmConnection :=
  recv_header ← msg_header conn p;
  let msg_type := mh_msg_type recv_header in
  _ ← (if (5 <=? msg_type) && (msg_type <=? 9) then
         bs ← msg_bytes conn p sizeof_MsgHeader 4;
         GetSymbolName (load_int bs)
       else Ret ""%string);
  Pop conn.
End server.

(** ** The client *)

Record LatencyStats := mkLatencyStats {
  ls_min : Z;
  ls_max : Z;
  ls_total : Z;
  ls_count : Z
}.

Definition UINT64_MAX : Z := 18446744073709551615.
Definition new_LatencyStats : LatencyStats := mkLatencyStats UINT64_MAX 0 0 0.

Definition update (s : LatencyStats) (latency : Z) : LatencyStats :=
  mkLatencyStats (Z.min (ls_min s) latency) (Z.max (ls_max s) latency) (u64 (ls_total s + latency)) (ls_count s + 1).

Record MarketClient := mkMarketClient {
  mc_send_num : Z;
  mc_recv_num : Z;
  latency_stats : gmap Z LatencyStats;
  msg_sent_time : gmap Z (Z * Z)        (* the type and the time *)
}.

Definition set_mc_recv_num (e : MarketClient) (n : Z) : MarketClient :=
  mkMarketClient (mc_send_num e) n (latency_stats e) (msg_sent_time e).

(** [Run] behind the mapping of the two numbers. *)
Definition start_client (e : MarketClient) : MarketClient :=
  mkMarketClient 0 0 (list_to_map ((λ i, (i, new_LatencyStats)) <$> [5; 6; 7; 8; 9])) ∅.

Definition Market_MaxNum : Z := 10000.

(** [true]: enough was received. *)
Definition Market_PollNum (e : MarketClient) : bool := Market_MaxNum <=? mc_recv_num e.

(** The search in [msg_sent_time]; [latency_stats[type]] is made when it is
    not there. *)
Definition record_latency (e : MarketClient) (recv_time : Z) : MarketClient :=
  match msg_sent_time e !! mc_recv_num e with
  | None => e
  | Some (t, sent) =>
      let latency := u64 (recv_time - sent) in
      mkMarketClient (mc_send_num e) (mc_recv_num e)
        (<[t := update (default new_LatencyStats (latency_stats e !! t)) latency]> (latency_stats e))
        (delete (mc_recv_num e) (msg_sent_time e))
  end.

Section client.
Context {conf : Conf}.

(** The five handlers differ in what they log. *)
Definition handle_instrument (e : MarketClient) (conn : TcpShmConnection) (p now : Z)
    : outcome (control MarketClient) :=
  bs ← msg_bytes conn p sizeof_MsgHeader 4;
  let v := load_int bs in
  if negb (v =? Z.rem (mc_recv_num e) 120) then Ret (Exit 1)
  else
    let e := record_latency e now in
    Ret (Continue (set_mc_recv_num e (mc_recv_num e + 1))).

Definition handleMarketDepthMsg := handle_instrument.
Definition handleTradeMsg := handle_instrument.
Definition handleVolatilityMsg := handle_instrument.
Definition handleKLineMsg := handle_instrument.
Definition handleTickerMsg := handle_instrument.

(** [handleMsg] of the integer messages, from the index [k] on. *)
Fixpoint handle_values (n : nat) (k : Z) (e : MarketClient) (conn : TcpShmConnection) (p : Z)
    : outcome (control MarketClient) :=
  match n with
  | O => Ret (Continue e)
  | S n =>
      bs ← msg_bytes conn p (sizeof_MsgHeader + 4 * k) 4;
      let v := Convert_signed is_little_endian ToLittleEndian 4 (load_int bs) in
      if negb (v =? mc_recv_num e) then Ret (Exit 1)
      else handle_values n (k + 1) (set_mc_recv_num e (mc_recv_num e + 1)) conn p
  end.

Definition OnServerMsg (e : MarketClient) (conn : TcpShmConnection) (p now : Z)
    : outcome (control (MarketClient * TcpShmConnection)) :=
  header ← msg_header conn p;
  let t := mh_msg_type header in
  r ← (if t =? 1 then handle_values 1 0 e conn p
       else if t =? 2 then handle_values 2 0 e conn p
       else if t =? 3 then handle_values 3 0 e conn p
       else if t =? 4 then handle_values 4 0 e conn p
       else if t =? MarketDepthMsg_msg_type then handleMarketDepthMsg e conn p now
       else if t =? TradeMsg_msg_type then handleTradeMsg e conn p now
       else if t =? VolatilityMsg_msg_type then handleVolatilityMsg e conn p now
       else if t =? KLineMsg_msg_type then handleKLineMsg e conn p now
       else if t =? TickerMsg_msg_type then handleTickerMsg e conn p now
       else Ret Abort);
  match r with
  | Continue e => conn ← Pop conn; Ret (Continue (e, conn))
  | Exit code => Ret (Exit code)
  | Abort => Ret Abort
  end.
End client.
