(* ===== verification/MarketTypes.v ===== *)
(** * The messages of the market data example ([crypto_market_example/common.h])

    The structures that the server fills and the client reads through
    pointers into a queue or a buffer: their members, the objects that the
    bytes at the offsets of the members represent ([read_...]), and the
    configurations of the two programs.  A [double] is its 8 bytes.  A byte
    that is neither [true] nor [false], and a number that is no [Period],
    represent no object: reading such a message gives [None]. *)

From stdpp Require Import gmap strings sorting.
From S2P Require Import Prelude.
From S2P Require Import Arrays.
From S2P Require Import MsgHeader.
From S2P Require Import Platform.
From S2P Require Import UserMem.
From S2P Require Import EchoClient.
From S2P Require Import Market.

(** ** The configurations *)

(** What must be the same on both sides. *)
Record common := mkCommon { cc_NameSize : Z; cc_ShmQueueSize : Z; cc_ToLittleEndian : bool }.
Definition CommonConf : common := mkCommon 16 (1024 * 1024) true.

Definition NanoInSecond : Z := 1000000000.

Definition ServerConf (little : bool) : Conf := {|
  NameSize := cc_NameSize CommonConf;
  ShmQueueSize := cc_ShmQueueSize CommonConf;
  ToLittleEndian := cc_ToLittleEndian CommonConf;
  TcpQueueSize := 4000;
  TcpRecvBufInitSize := 1000;
  TcpRecvBufMaxSize := 2000;
  TcpNoDelay := true;
  ConnectionTimeout := 10 * NanoInSecond;
  HeartBeatInverval := 3 * NanoInSecond;
  NewConnectionTimeout := 3 * NanoInSecond;
  MaxNewConnections := 5;
  MaxShmConnsPerGrp := 4;
  MaxShmGrps := 1;
  MaxTcpConnsPerGrp := 4;
  MaxTcpGrps := 1;
  is_little_endian := little
|}.

(** What only a server has is 0. *)
Definition ClientConf (little : bool) : Conf := {|
  NameSize := cc_NameSize CommonConf;
  ShmQueueSize := cc_ShmQueueSize CommonConf;
  ToLittleEndian := cc_ToLittleEndian CommonConf;
  TcpQueueSize := 2000;
  TcpRecvBufInitSize := 1000;
  TcpRecvBufMaxSize := 2000;
  TcpNoDelay := true;
  ConnectionTimeout := 10 * NanoInSecond;
  HeartBeatInverval := 3 * NanoInSecond;
  NewConnectionTimeout := 0;
  MaxNewConnections := 0;
  MaxShmConnsPerGrp := 0;
  MaxShmGrps := 0;
  MaxTcpConnsPerGrp := 0;
  MaxTcpGrps := 0;
  is_little_endian := little
|}.

(** ** The structures *)

Abbreviation double := (list Z).

Record PriceLevel := mkPriceLevel { pl_price : double; pl_size : Z }.

Record MarketDepthMsg := mkMarketDepthMsg { md_instrument_id : Z; md_bid : list PriceLevel; md_ask : list PriceLevel }.

Record TradeMsg := mkTradeMsg {
  tr_instrument_id : Z;
  tr_price : double;
  tr_size : Z;
  tr_trade_id : Z;
  tr_is_buy : bool;
  tr_timestamp : Z
}.

Record VolatilityMsg := mkVolatilityMsg {
  vo_instrument_id : Z;
  vo_implied_volatility : double;
  vo_historical_volatility : double;
  vo_realized_volatility : double;
  vo_timestamp : Z
}.

Inductive Period := MIN_1 | MIN_5 | MIN_15 | MIN_30 | HOUR_1 | HOUR_4 | DAY_1 | WEEK_1.

Record KLineMsg := mkKLineMsg {
  kl_instrument_id : Z;
  kl_period : Period;
  kl_open : double;
  kl_high : double;
  kl_low : double;
  kl_close : double;
  kl_volume : Z;
  kl_timestamp : Z
}.

Record TickerMsg := mkTickerMsg {
  ti_instrument_id : Z;
  ti_last_price : double;
  ti_daily_change : double;
  ti_daily_percent_change : double;
  ti_daily_high : double;
  ti_daily_low : double;
  ti_daily_volume : Z;
  ti_timestamp : Z
}.

(** [Values]: [MsgTpl<N, N>], the integers [val]. *)
Inductive MarketMsg :=
  | Values (val : list Z)
  | Depth (m : MarketDepthMsg)
  | Trade (m : TradeMsg)
  | Volatility (m : VolatilityMsg)
  | KLine (m : KLineMsg)
  | Ticker (m : TickerMsg).

Definition Period_of (v : Z) : option Period :=
  [MIN_1; MIN_5; MIN_15; MIN_30; HOUR_1; HOUR_4; DAY_1; WEEK_1] !! Z.to_nat v.

Definition bool_of (v : Z) : option bool :=
  if v =? 0 then Some false else if v =? 1 then Some true else None.

Definition msg_instrument_id (m : MarketMsg) : option Z :=
  match m with
  | Values _ => None
  | Depth m => Some (md_instrument_id m)
  | Trade m => Some (tr_instrument_id m)
  | Volatility m => Some (vo_instrument_id m)
  | KLine m => Some (kl_instrument_id m)
  | Ticker m => Some (ti_instrument_id m)
  end.

(** ** The object that bytes represent *)

Section read.
Context {conf : Conf}.
Implicit Types (bs : list Z).

Definition member (off n : Z) bs : list Z := slice off (off + n) bs.
Definition read_int (off : Z) bs : Z := load_int (member off 4 bs).
Definition read_double (off : Z) bs : double := member off 8 bs.
Definition load_int64 (b : list Z) : Z :=
  (load_uint is_little_endian b + 2 ^ 63) mod 2 ^ 64 - 2 ^ 63.
Definition read_int64 (off : Z) bs : Z := load_int64 (member off 8 bs).
Definition read_bool (off : Z) bs : option bool := bool_of (load_uint is_little_endian (member off 1 bs)).
Definition read_Period (off : Z) bs : option Period :=
  let v := read_int off bs in if v <? 0 then None else Period_of v.

Definition read_PriceLevel (off : Z) bs : PriceLevel := mkPriceLevel (read_double off bs) (read_int (level_size off) bs).

Definition read_MarketDepthMsg bs : MarketDepthMsg :=
  mkMarketDepthMsg (read_int 0 bs) ((λ i, read_PriceLevel (bid_price i) bs) <$> [0; 1; 2; 3; 4])
    ((λ i, read_PriceLevel (ask_price i) bs) <$> [0; 1; 2; 3; 4]).

Definition read_TradeMsg bs : option TradeMsg :=
  is_buy ← read_bool 24 bs;
  Some (mkTradeMsg (read_int 0 bs) (read_double 8 bs) (read_int 16 bs) (read_int 20 bs) is_buy (read_int64 32 bs)).

Definition read_VolatilityMsg bs : VolatilityMsg :=
  mkVolatilityMsg (read_int 0 bs) (read_double 8 bs) (read_double 16 bs) (read_double 24 bs) (read_int64 32 bs).

Definition read_KLineMsg bs : option KLineMsg :=
  period ← read_Period 4 bs;
  Some (mkKLineMsg (read_int 0 bs) period (read_double 8 bs) (read_double 16 bs) (read_double 24 bs) (read_double 32 bs)
          (read_int 40 bs) (read_int64 48 bs)).

Definition read_TickerMsg bs : TickerMsg :=
  mkTickerMsg (read_int 0 bs) (read_double 8 bs) (read_double 16 bs) (read_double 24 bs) (read_double 32 bs)
    (read_double 40 bs) (read_int 48 bs) (read_int64 56 bs).

Definition read_MsgTpl (N : Z) bs : list Z := (λ k, read_int (4 * k) bs) <$> seqZ 0 N.

(** The pointer casts of [OnServerMsg]. *)
Definition read_MarketMsg (t : Z) bs : option MarketMsg :=
  if (1 <=? t) && (t <=? 4) then Some (Values (read_MsgTpl t bs))
  else if t =? MarketDepthMsg_msg_type then Some (Depth (read_MarketDepthMsg bs))
  else if t =? TradeMsg_msg_type then Trade <$> read_TradeMsg bs
  else if t =? VolatilityMsg_msg_type then Some (Volatility (read_VolatilityMsg bs))
  else if t =? KLineMsg_msg_type then KLine <$> read_KLineMsg bs
  else if t =? TickerMsg_msg_type then Some (Ticker (read_TickerMsg bs))
  else None.
End read.

(** ** What the handlers show *)

Definition period_str (p : Period) : string :=
  match p with
  | MIN_1 => "1分钟" | MIN_5 => "5分钟" | MIN_15 => "15分钟" | MIN_30 => "30分钟"
  | HOUR_1 => "1小时" | HOUR_4 => "4小时" | DAY_1 => "1天" | WEEK_1 => "1周"
  end%string.

Definition msg_type_names (t : Z) : option string :=
  if t =? 5 then Some "市场深度数据"%string else if t =? 6 then Some "成交数据"%string
  else if t =? 7 then Some "波动率数据"%string else if t =? 8 then Some "K线数据"%string
  else if t =? 9 then Some "行情数据"%string else None.

(** A line: the name, the count, the least and the greatest latency, and the
    average as a fraction. *)
Record stats_line := mkStatsLine { sl_name : string; sl_count : Z; sl_min : Z; sl_max : Z; sl_total : Z }.

(** The lines of a map in the order of the keys; [at] throws for a type that
    has no name, and nothing catches it. *)
Fixpoint stats_lines (stats : list (Z * LatencyStats)) : control (list stats_line) :=
  match stats with
  | [] => Continue []
  | (t, s) :: stats =>
      if ls_count s =? 0 then stats_lines stats
      else
        match msg_type_names t with
        | None => Abort
        | Some name =>
            match stats_lines stats with
            | Continue ls => Continue (mkStatsLine name (ls_count s) (ls_min s) (ls_max s) (ls_total s) :: ls)
            | r => r
            end
        end
  end.

(** The entries of a [std::map], by their keys. *)
Definition key_le {A} (x y : Z * A) : Prop := x.1 ≤ y.1.
#[export] Instance key_le_dec {A} (x y : Z * A) : Decision (key_le x y).
Proof. unfold key_le. apply _. Defined.
Definition by_key {A} (m : gmap Z A) : list (Z * A) := merge_sort key_le (map_to_list m).

Definition PrintLatencyStats (e : MarketClient) : control (list stats_line) := stats_lines (by_key (latency_stats e)).

(** The end of [Run] of the server: how many messages of each type. *)
Definition type_name (t : Z) : string := default "未知类型"%string (msg_type_names t).
Definition sent_report (s : MarketServer) : list (string * Z) :=
  (λ '(t, n), (type_name t, n)) <$> by_key (msg_send_count s).
