(* ===== verification/MarketThreads.v ===== *)
(** * The threads of the market data server ([crypto_market_example/echo_server.cpp])

    [market] is the object [EchoServer] of the example with its threads: the
    control and polling threads of [ServerThreads], which call back into it,
    and the thread of [SendMarketDataPeriodically].  A turn of the latter is
    the copy of [active_connections] under the mutex, one [IsClosed], or one
    of the [Send] functions.  [Run] and [main] are those of
    [ServerRun] with these threads. *)

From S2P Require Import Prelude.
From S2P Require Import Arrays.
From S2P Require Import MsgHeader.
From S2P Require Import PtcpQueue.
From S2P Require SpscQueue.
From S2P Require Import Platform.
From S2P Require PtcpConn.
From S2P Require Import TcpShmConn.
From S2P Require Import Login.
From S2P Require Import Server.
From S2P Require Import ServerThreads.
From S2P Require Import ServerRun.
From S2P Require Import UserMem.
From S2P Require Import Market.

(** Where the sending thread is: at the head of its loop, at the rest of its
    copy of the connections, before a [Send], or at its end. *)
Inductive sender_pc :=
  | SenderTop
  | SenderAt (connections : list Z)
  | SenderSend (cid : Z) (connections : list Z)
  | SenderDone.

(** Whose turn it is; [d]: what is drawn in a [Send]; [MSignal]: the handler
    of the signal runs. *)
Inductive market_turn :=
  | MCtl (now : Z)
  | MPoll (n : nat) (now : Z) (reload : bool)
  | MSend (d : draws)
  | MSignal.

Section market.
Context {conf : Conf} {ud : UserData} {W : Type} {os : Os W}.
Context {mmq : MmapOs W PTCPQueue} {mms : MmapOs W SpscQueue.SPSCVarQueue}.
Context {los : LoginOs W}.
Context (hash : list Z → Z).  (* std::hash<std::string>, a size_t *)
Context (stack_header : MsgHeader) (stack_rsp : LoginRspMsg).

Record market := mkMarket {
  m_threads : threads;
  m_server : MarketServer;
  m_sender : sender_pc;
  m_total_sent : Z;
  m_stopped : bool
}.

(** ** The callbacks *)

(** [strcpy(login_rsp->error_msg, msg)] *)
Definition strcpy_error (rsp : LoginRspMsg) (msg : string) : LoginRspMsg :=
  set_error_msg rsp (blit 0 (chars msg ++ [0]) (error_msg rsp)).

Definition OnNewConnection (addr : sockaddr) (login : LoginMsg) (login_rsp : LoginRspMsg) (w : W)
    : Z * LoginRspMsg * W :=
  let hh := hash (c_str (client_name login)) in
  if negb (use_shm login =? 0) then
    if 0 <? MaxShmGrps then (i32 (u32 (hh mod MaxShmGrps)), login_rsp, w)
    else (-1, strcpy_error login_rsp "Shm disabled", w)
  else
    if 0 <? MaxTcpGrps then (i32 (u32 (hh mod MaxTcpGrps)), login_rsp, w)
    else (-1, strcpy_error login_rsp "Tcp disabled", w).

(** The list of active connections is in [market]; the rest of the callbacks
    logs. *)
Definition MarketServer_user : ServerUser W := {|
  OnSystemError _ _ w := w;
  Server.OnNewConnection := OnNewConnection;
  OnClientFileError conn _ _ w := Ret (conn, w);
  OnSeqNumberMismatch conn _ _ w := Ret (conn, w);
  Server.OnClientLogon _ conn w := Ret (conn, w);
  Server.OnClientDisconnected conn _ _ w := Ret (conn, w);
  Server.OnClientMsg conn p w := conn ← Market.OnClientMsg conn p; Ret (conn, w)
|}.

#[local] Existing Instance MarketServer_user.

(** ** The threads *)

Definition set_server (m : market) (s : MarketServer) : market :=
  mkMarket (m_threads m) s (m_sender m) (m_total_sent m) (m_stopped m).
Definition set_threads (m : market) (t : threads) : market :=
  mkMarket t (m_server m) (m_sender m) (m_total_sent m) (m_stopped m).
Definition set_sender (m : market) (pc : sender_pc) : market :=
  mkMarket (m_threads m) (m_server m) pc (m_total_sent m) (m_stopped m).

(** What [OnClientLogon] and [OnClientDisconnected] do to the list, when the
    turn of the control thread from [t] to [t'] calls them. *)
Definition ctl_callback (t t' : threads) (s : MarketServer) : outcome MarketServer :=
  match t_todo t, t_ctl t, t_ctl t' with
  | [], CtlLogon _ _ cid, _ => Ret (OnClientLogon s cid)
  | [], CtlTry shm g i, CtlGroup _ _ j =>
      if j =? i then
        grp ← get (grps (t_srv t) shm) g;
        cid ← get (conns grp) i;
        Ret (OnClientDisconnected s cid)
      else Ret s
  | _, _, _ => Ret s
  end.

(** [while(!stopped) PollCtl(now())] *)
Definition market_ctl (now : Z) (m : market) (w : W) : outcome (market * W) :=
  let t := m_threads m in
  match t_ctl t, m_stopped m with
  | CtlIdle, true => Ret (m, w)
  | _, _ =>
      '(t', w) ← ctl_step stack_header stack_rsp now t w;
      s ← ctl_callback t t' (m_server m);
      Ret (set_server (set_threads m t') s, w)
  end.

(** [while(!stopped) PollTcp(now(), i)], [while(!stopped) PollShm(i)] *)
Definition market_poll (n : nat) (now : Z) (reload : bool) (m : market) (w : W) : outcome (market * W) :=
  match p_pc <$> t_poll (m_threads m) !! n, m_stopped m with
  | Some PollIdle, true => Ret (m, w)
  | _, _ =>
      '(t, w) ← turn_step stack_header stack_rsp (TurnPoll n now reload) (m_threads m) w;
      Ret (set_threads m t, w)
  end.

(** [SendMarketDataPeriodically]; while nobody is connected it sleeps. *)
Definition sender_step (d : draws) (m : market) (w : W) : outcome (market * W) :=
  let s := t_srv (m_threads m) in
  match m_sender m with
  | SenderTop =>
      if m_stopped m || (max_msgs_to_send <=? m_total_sent m) then Ret (set_sender m SenderDone, w)
      else
        match active_connections (m_server m) with
        | [] => Ret (m, w)
        | connections => Ret (set_sender m (SenderAt connections), w)
        end
  | SenderAt [] => Ret (set_sender m SenderTop, w)
  | SenderAt (cid :: connections) =>
      conn ← get (conn_pool_ s) cid;
      Ret (set_sender m (if IsClosed conn then SenderAt connections else SenderSend cid connections), w)
  | SenderSend cid connections =>
      conn ← get (conn_pool_ s) cid;
      '(ms, conn, w) ← send_data (m_server m) conn (m_total_sent m) d w;
      s ← put_conn s cid conn;
      let t := m_threads m in
      let total_sent := m_total_sent m + 1 in
      Ret (mkMarket (mkThreads s (t_ctl t) (t_now t) (t_todo t) (t_poll t)) ms
             (if max_msgs_to_send <=? total_sent then SenderTop else SenderAt connections) total_sent (m_stopped m), w)
  | SenderDone => Ret (m, w)
  end.

Definition market_step (tn : market_turn) (m : market) (w : W) : outcome (market * W) :=
  match tn with
  | MCtl now => market_ctl now m w
  | MPoll n now reload => market_poll n now reload m w
  | MSend d => sender_step d m w
  | MSignal => Ret (mkMarket (m_threads m) (m_server m) (m_sender m) (m_total_sent m) true, w)
  end.

Fixpoint run_market (l : list market_turn) (m : market) (w : W) : outcome (market * W) :=
  match l with
  | [] => Ret (m, w)
  | tn :: l => '(m, w) ← market_step tn m w; run_market l m w
  end.

(** ** [Run] *)

Definition start_market (s : TcpShmServer) : market :=
  mkMarket (start_threads s Run_groups) new_MarketServer SenderTop 0 false.

(** Every thread has left its loop. *)
Definition joined (m : market) : bool :=
  match m_sender m with SenderDone => m_stopped m && threads_idle (m_threads m) | _ => false end.

Definition Run (listen_ipv4 : list Z) (listen_port : Z) (l : list market_turn) :=
  ServerRun.Run start_market m_threads (run_market l) joined listen_ipv4 listen_port.

Definition main (junk_name : list Z) (junk_conn : NewConn) (l : list market_turn) :=
  ServerRun.main start_market m_threads (run_market l) joined junk_name junk_conn.
End market.
