(* ===== verification/MarketThreadsInv.v ===== *)
(** * The threads of the market data server: invariants

    A run of [market] is a run of the server's threads ([run_market_reach]),
    since the sending thread only makes public calls on connections.
    [active_ok]: [active_connections] lists the connections that will be live
    after the stores that the control thread is still to do, but for the one
    that is about to be announced to [OnClientLogon]. *)

From stdpp Require Import gmap.
From S2P Require Import Prelude.
From S2P Require Import Arrays.
From S2P Require Import MsgHeader.
From S2P Require Import PtcpQueue.
From S2P Require SpscQueue.
From S2P Require Import Platform.
From S2P Require PtcpConn.
From S2P Require Import TcpShmConn.
From S2P Require Import Login.
From S2P Require Import Server.
From S2P Require Import Descriptors.
From S2P Require Import ServerTable.
From S2P Require Import ServerInv.
From S2P Require Import ServerThreads.
From S2P Require Import ServerLogon.
From S2P Require Import ThreadsInv.
From S2P Require Import ServerRun.
From S2P Require Import UserMem.
From S2P Require EchoServer.
From S2P Require Import Market.
From S2P Require Import MarketThreads.

(** ** The live connections *)

Definition live (grp : ConnectionGroup) : list Z := take (Z.to_nat (live_cnt grp)) (conns grp).

(** A login puts one connection at the end of the live ones ... *)
Lemma take_login (l l' : list Z) i n x :
  swap l i n = Ret l' → get l i = Ret x → 0 ≤ n ≤ i → take (Z.to_nat (n + 1)) l' = take (Z.to_nat n) l ++ [x].
Proof.
  intros Hsw Hi Hn. pose proof (swap_get _ _ _ _ _ Hsw Hi) as [_ Hx]%get_lookup.
  apply swap_swapped in Hsw as (_ & _ & a & b & Ha & Hb & Hl').
  replace (Z.to_nat (n + 1)) with (S (Z.to_nat n)) by lia. rewrite (take_S_r _ _ _ Hx). f_equal.
  rewrite Hl', !take_insert_ge by lia. done.
Qed.

(** ... and a logout takes one out. *)
Lemma take_logout (l l' : list Z) i n x :
  swap l i (n - 1) = Ret l' → get l i = Ret x → 0 ≤ i < n →
  x :: take (Z.to_nat (n - 1)) l' ≡ₚ take (Z.to_nat n) l.
Proof.
  intros Hsw Hi Hn. pose proof (swap_get _ _ _ _ _ Hsw Hi) as [_ Hx]%get_lookup.
  apply swap_swapped in Hsw as (_ & _ & a & b & Ha & Hb & Hl').
  assert (swapped (take (Z.to_nat n) l) (take (Z.to_nat n) l') (Z.to_nat i) (Z.to_nat (n - 1))) as Hs%swapped_perm.
  { exists a, b. rewrite !lookup_take_lt by lia. split_and!; [done|done|]. rewrite Hl', !take_insert_lt by lia. done. }
  rewrite <-Hs. replace (Z.to_nat n) with (S (Z.to_nat (n - 1))) by lia. rewrite (take_S_r _ _ _ Hx).
  by rewrite Permutation_app_comm.
Qed.

(** [erase(find(...))] of an element. *)
Lemma erase_first_in x l l' : l ≡ₚ x :: l' → erase_first x l ≡ₚ l'.
Proof.
  assert (∀ l, x ∈ l → x :: erase_first x l ≡ₚ l) as He.
  { clear. induction l as [|y l IH]; [by intros ?%not_elem_of_nil|]. simpl. intros Hin.
    destruct (Z.eqb_spec y x) as [->|Hne]; [done|]. apply elem_of_cons in Hin as [->|Hin]; [done|].
    rewrite (Permutation_swap y x). by rewrite IH. }
  intros Hl. apply (Permutation_cons_inv (a := x)). rewrite He; [done|]. rewrite Hl. by left.
Qed.

Section live.
Context {conf : Conf} {ud : UserData} {W : Type} {los : LoginOs W}.
Implicit Types (s : TcpShmServer).

(** The connections of logged-on clients. *)
Definition live_conns s : list Z := all_grps s ≫= live.

Lemma live_conns_same s s' : same_grps s s' → live_conns s' = live_conns s.
Proof.
  intros H. pose proof (H true) as Ht. pose proof (H false) as Hf. simpl in *. unfold live_conns, all_grps. by rewrite Ht, Hf.
Qed.

Lemma bind_insert_split {A B} (f : A → list B) (l : list A) i x y :
  l !! i = Some x → ∃ r, l ≫= f ≡ₚ f x ++ r ∧ <[i := y]> l ≫= f ≡ₚ f y ++ r.
Proof.
  intros Hi. pose proof (lookup_lt_Some _ _ _ Hi). exists ((take i l ≫= f) ++ (drop (S i) l ≫= f)). split.
  - rewrite <-(take_drop_middle l i x Hi) at 1. rewrite bind_app, bind_cons.
    rewrite !(Permutation_app_comm (take i l ≫= f)), <-!app_assoc. done.
  - rewrite insert_take_drop by done. rewrite bind_app, bind_cons.
    rewrite !(Permutation_app_comm (take i l ≫= f)), <-!app_assoc. done.
Qed.

(** One group is stored. *)
Lemma live_put_grp s shm g grp grp' s' :
  get (grps s shm) g = Ret grp → put_grp s shm g grp' = Ret s' →
  ∃ r, live_conns s ≡ₚ live grp ++ r ∧ live_conns s' ≡ₚ live grp' ++ r.
Proof.
  intros [_ Hg]%get_lookup Hput. unfold put_grp in Hput. run Hput. apply put_insert in Hrun as [_ ->]. run Hput.
  destruct (bind_insert_split live (grps s shm) (Z.to_nat g) grp grp' Hg) as (r & H1 & H2).
  unfold live_conns, all_grps. destruct shm; simpl in *; rewrite !bind_app.
  - exists (r ++ (tcp_grps_ s ≫= live)). rewrite H1, H2, !app_assoc. done.
  - exists (r ++ (shm_grps_ s ≫= live)). rewrite H1, H2, !(Permutation_app_comm (shm_grps_ s ≫= live)), !app_assoc. done.
Qed.
End live.

(** ** The sending thread *)

Section calls.
Context {conf : Conf} {ud : UserData} {W : Type} {os : Os W}.
Context {mmq : MmapOs W PTCPQueue} {mms : MmapOs W SpscQueue.SPSCVarQueue}.
Context {los : LoginOs W} {fv : FdView W}.

Ltac send_function H :=
  run H; match goal with Hrun : Alloc _ _ = Ret ?r |- _ => destruct r as [[p|] c1]; [|run H; eapply calls_next; [by eapply call_Alloc|apply calls_done]] end;
  run H; run H; match goal with Hrun : Push _ _ = Ret ?r |- _ => destruct r as [c3 w3] end;
  run H; run H; by eapply EchoServer.send_calls.

Lemma send_data_calls s c n d (w : W) s' c' w' : send_data s c n d w = Ret (s', c', w') → user_calls c w c' w'.
Proof.
  unfold send_data. repeat case_match.
  - unfold SendMarketDepthMsg. intros H'. send_function H'.
  - unfold SendTradeMsg. intros H'. send_function H'.
  - unfold SendVolatilityMsg. intros H'. send_function H'.
  - unfold SendKLineMsg. intros H'. send_function H'.
  - unfold SendTickerMsg. intros H'. send_function H'.
  - intros H'. run H'. apply calls_done.
Qed.

Lemma MarketServer_laws hash : @ServerUserLaws W conf ud los (MarketServer_user hash) os mmq mms fv.
Proof.
  constructor; simpl; try done; try (intros; simplify_eq; apply calls_done).
  - intros a l r w. unfold OnNewConnection. by repeat case_match.
  - intros c p w c' w' H. run H. rename Hrun into Hmsg. run H. unfold Market.OnClientMsg in Hmsg. run Hmsg. run Hmsg.
    eapply calls_next; [by apply call_Pop|apply calls_done].
Qed.
End calls.

(** ** Every turn *)

Section inv.
Context {conf : Conf} {ud : UserData} {W : Type} {os : Os W}.
Context {mmq : MmapOs W PTCPQueue} {mms : MmapOs W SpscQueue.SPSCVarQueue}.
Context {los : LoginOs W}.
Context {fv : FdView W} {laws : FdLaws W} {llaws : LoginFdLaws W}.
Context {qlaws : MmapFdLaws W PTCPQueue} {slaws : MmapFdLaws W SpscQueue.SPSCVarQueue}.
Context (HN : 1 < NameSize).
Context (hash : list Z → Z) (stack_header : MsgHeader) (stack_rsp : LoginRspMsg).
#[local] Existing Instance MarketServer_user.
#[local] Instance ulaws : @ServerUserLaws W conf ud los (MarketServer_user hash) os mmq mms fv := MarketServer_laws hash.
Abbreviation mreach := (threads_reach (user := MarketServer_user hash) stack_header stack_rsp).
Abbreviation mstep := (market_step hash stack_header stack_rsp).
Abbreviation mrun := (run_market hash stack_header stack_rsp).

Lemma market_step_reach s0 w0 groups tn m w m' w' :
  mreach s0 w0 groups (m_threads m) w → mstep tn m w = Ret (m', w') → mreach s0 w0 groups (m_threads m') w'.
Proof.
  intros Hr H. destruct tn as [now|n now reload|d|]; simpl in H.
  - unfold market_ctl in H.
    destruct (match t_ctl (m_threads m) with CtlIdle => m_stopped m | _ => false end) eqn:Hst.
    { destruct (t_ctl (m_threads m)); try done. rewrite Hst in H. by run H. }
    assert (∃ t', ctl_step (user := MarketServer_user hash) stack_header stack_rsp now (m_threads m) w = Ret (t', w') ∧
      m_threads m' = t') as (t' & Ht & ->).
    { destruct (t_ctl (m_threads m)); try rewrite Hst in H; run H; destruct r as [t' w1]; run H; run H; by exists t'. }
    eapply tr_step; [exact Hr|]. by apply (ts_turn _ _ _ _ (TurnCtl now)).
  - unfold market_poll in H.
    assert (m' = m ∧ w' = w ∨ ∃ t', turn_step (user := MarketServer_user hash) stack_header stack_rsp (TurnPoll n now reload) (m_threads m) w = Ret (t', w') ∧
      m_threads m' = t') as [[-> ->]|(t' & Ht & ->)]; [|done|].
    { destruct (p_pc <$> t_poll (m_threads m) !! n) as [[]|], (m_stopped m);
        (left; by run H) || (right; run H; destruct r as [t' w1]; run H; by exists t'). }
    eapply tr_step; [exact Hr|]. by eapply ts_turn.
  - unfold sender_step in H. destruct (m_sender m) as [|[|cid l]|cid l|].
    + destruct (_ || _); [by run H|]. destruct (active_connections _); by run H.
    + by run H.
    + run H. by run H.
    + run H. run H. destruct r0 as [[ms c'] w1]. run H. run H. simpl.
      eapply tr_step; [exact Hr|]. eapply ts_user; [exact Hrun|by eapply send_data_calls|exact Hrun1].
    + by run H.
  - by run H.
Qed.

Lemma run_market_reach s0 w0 groups l : ∀ m w m' w',
  mreach s0 w0 groups (m_threads m) w → mrun l m w = Ret (m', w') → mreach s0 w0 groups (m_threads m') w'.
Proof.
  induction l as [|tn l IH]; intros m w m' w' Hr H; simpl in H; [by run H|]. run H. destruct r as [m1 w1].
  eapply IH; [|exact H]. by eapply market_step_reach.
Qed.

(** *** The list of active connections *)

(** The connection that is live, but not announced. *)
Definition unannounced (pc : ctl_pc) : list Z := match pc with CtlLogon _ _ cid => [cid] | _ => [] end.

Definition active_ok (m : market) : Prop :=
  ∃ s, do_stores (t_todo (m_threads m)) (t_srv (m_threads m)) = Ret s ∧
    unannounced (t_ctl (m_threads m)) ++ active_connections (m_server m) ≡ₚ live_conns s.

(** Turns that change neither the groups nor the list. *)
Lemma active_same m t s :
  active_ok m → same_grps (t_srv (m_threads m)) (t_srv t) → t_todo (m_threads m) = [] → t_todo t = [] →
  unannounced (t_ctl t) = unannounced (t_ctl (m_threads m)) →
  active_connections s = active_connections (m_server m) →
  active_ok (set_server (set_threads m t) s).
Proof.
  intros (s1 & Hs & Ha) Hg H0 Ht Hu Hac. rewrite H0 in Hs. simpl in Hs. injection Hs as <-.
  exists (t_srv t). simpl. rewrite Ht. split; [done|]. by rewrite Hu, Hac, Ha, (live_conns_same _ _ Hg).
Qed.

(** A connection is put back, by whatever thread. *)
Lemma active_put_conn m s' cid c polls ms pc n b :
  active_ok m → put_conn (t_srv (m_threads m)) cid c = Ret s' →
  active_connections ms = active_connections (m_server m) →
  let t := m_threads m in
  active_ok (mkMarket (mkThreads s' (t_ctl t) (t_now t) (t_todo t) polls) ms pc n b).
Proof.
  intros (s1 & Hs & Ha) Hput Hac t. destruct (put_conn_stores _ _ _ _ _ _ Hs Hput) as (s2 & Hs2 & Hput2).
  exists s2. split; [done|]. simpl. rewrite Hac. etrans; [exact Ha|].
  by rewrite (live_conns_same _ _ (put_conn_grps _ _ _ _ Hput2)).
Qed.

(** The turn of the control thread over the new connections. *)
Lemma ctl_new_active m k w t' w' M :
  threads_inv M (m_threads m) w → active_ok m → t_todo (m_threads m) = [] → t_ctl (m_threads m) = CtlNew k →
  ctl_new (user := MarketServer_user hash) stack_header stack_rsp (m_threads m) k w = Ret (t', w') →
  active_ok (set_server (set_threads m t') (m_server m)).
Proof.
  intros Ht Ha Hto Hpc. destruct (inv_no_todo _ _ _ Ht Hto) as [Hinv _]. unfold ctl_new. intros H. run H. destruct r as [s' w1].
  pose proof (PollCtl_new_effect (user := no_logon) HN _ _ _ _ _ _ _ _ Hrun) as [Hn Hg].
  destruct Hg as [Hs|(shm & g & i & cid & grp & cs & nc & L & Hlive & Hk & Hfd & Hb)].
  { rewrite logged_on_same in H by done. run H. apply active_same; [done|done|done|done|by rewrite Hpc|done]. }
  rewrite (logged_on_login L), (logged_conn_inv _ _ _ _ _ _ _ _ _ Hinv L), outcome_bind_Ret in H.
  destruct (login_stores_run _ _ _ _ _ _ _ _ L) as (l & Hl & Hls & Hrl & Hput).
  destruct L as [Hg Hi Hsw HG]. rewrite Hk, outcome_bind_Ret, Hg, outcome_bind_Ret, Hls, outcome_bind_Ret in H. run H.
  assert (same_grps (t_srv (m_threads m)) (set_grps s' shm (grps (t_srv (m_threads m)) shm))) as Hs1 by by eapply set_grps_same.
  destruct Ha as (s1 & Hs & Ha). rewrite Hto in Hs. simpl in Hs. injection Hs as <-. rewrite Hpc in Ha. simpl in Ha.
  exists s'. split; [exact Hrl|]. simpl. rewrite Ha.
  destruct (live_named _ _ _ _ _ Hinv Hg) as (Hl0 & Hz & _). pose proof (get_range _ _ _ Hi).
  destruct (live_put_grp _ _ _ grp _ _ ltac:(rewrite Hs1; exact Hg) Hput) as (r & Hr1 & Hr2).
  rewrite <-(live_conns_same _ _ Hs1), Hr1, Hr2. unfold live. simpl.
  rewrite u32_small by lia. rewrite (take_login _ _ _ _ _ Hsw Hi ltac:(lia)). by rewrite (Permutation_app_comm _ [cid]).
Qed.

Lemma ctl_try_active m shm g i w t' w' s' M :
  threads_inv M (m_threads m) w → active_ok m → t_ctl (m_threads m) = CtlTry shm g i →
  ctl_try (user := MarketServer_user hash) (m_threads m) shm g i w = Ret (t', w') →
  ctl_callback (m_threads m) t' (m_server m) = Ret s' →
  active_ok (set_server (set_threads m t') s').
Proof.
  intros Ht Ha Hpc. pose proof (ti_ctl _ _ _ Ht) as Hc. unfold ctl_ok in Hc. rewrite Hpc in Hc.
  destruct Hc as (Hto & grp & Hg & Hlive). destruct (inv_no_todo _ _ _ Ht Hto) as [Hinv _].
  unfold ctl_try, ctl_callback. rewrite Hto, Hpc, Hg, !outcome_bind_Ret. intros H Hcb. run H. rename r into cid. run H. rename r into c.
  destruct (TryCloseFd _ _) as [[closed c2] w2]. destruct closed.
  - destruct (GetCloseReason _) as [reason e]. run H. destruct r as [c3 w3]. run H. rename r into s1. run H. run H.
    pose proof (put_conn_grps _ _ _ _ Hrun2) as Hs1. assert (get (grps s1 shm) g = Ret grp) as Hg1 by by rewrite Hs1.
    simpl in Hcb. rewrite Z.eqb_refl, Hrun, outcome_bind_Ret in Hcb. injection Hcb as <-.
    destruct (live_named _ _ _ _ _ Hinv Hg) as (Hl & Hz & _). pose proof (get_range _ _ _ Hrun).
    destruct (logout_stores_swap _ _ _ _ _ _ Hg1 Hrun3) as (cs & l0 & Hsl & -> & Hsw & _ & Hst); [lia|].
    destruct (put_grp_ok s1 shm g grp (mkGroup (live_cnt grp - 1) cs) Hg1) as [s2 Hput].
    destruct Ha as (s0 & Hs & Ha). rewrite Hto in Hs. simpl in Hs. injection Hs as <-. rewrite Hpc in Ha. simpl in Ha.
    exists s2. split; [exact (eq_trans Hst Hput)|]. simpl.
    destruct (live_put_grp _ _ _ _ _ _ Hg1 Hput) as (rest & Hr1 & Hr2).
    apply erase_first_in. rewrite Ha, <-(live_conns_same _ _ Hs1), Hr1, Hr2, app_comm_cons. apply Permutation_app_tail.
    symmetry. apply (take_logout _ _ _ _ _ Hsw Hrun). lia.
  - run H. rename r into s1. run H. simpl in Hcb. rewrite (proj2 (Z.eqb_neq _ _)) in Hcb by lia. injection Hcb as <-.
    apply active_same; [done|by eapply put_conn_grps|done|done|by rewrite Hpc|done].
Qed.

Lemma ctl_step_active now m w t' w' s' M :
  threads_inv M (m_threads m) w → active_ok m →
  ctl_step (user := MarketServer_user hash) stack_header stack_rsp now (m_threads m) w = Ret (t', w') →
  ctl_callback (m_threads m) t' (m_server m) = Ret s' →
  active_ok (set_server (set_threads m t') s').
Proof.
  intros Ht Ha. unfold ctl_step. destruct (t_todo (m_threads m)) as [|st l] eqn:Hto.
  - destruct (t_ctl (m_threads m)) as [|k|k addr cid|shm g i|shm g i] eqn:Hpc; [..|by eapply ctl_try_active].
    all: unfold ctl_callback; rewrite Hto, Hpc.
    + intros H [= <-]. run H. destruct r as [s1 w1]. run H. pose proof (PollCtl_accept_same _ _ _ _ _ Hrun) as [_ Hs].
      apply active_same; [done..|by rewrite Hpc|done].
    + intros H [= <-]. destruct (_ <? _); [by eapply ctl_new_active|]. run H. apply active_same; [done..|by rewrite Hpc|done].
    + intros H [= <-]. run H. run H. destruct r0 as [c1 w1]. run H. run H.
      destruct Ha as (s0 & Hs & Ha). rewrite Hto in Hs. simpl in Hs. injection Hs as <-. rewrite Hpc in Ha.
      eexists. split; [done|]. simpl in *. rewrite <-Permutation_cons_append. etrans; [exact Ha|].
      by rewrite (live_conns_same _ _ (put_conn_grps _ _ _ _ Hrun1)).
    + intros H [= <-]. unfold ctl_group in H.
      destruct (_ <? zlen _); [|run H; apply active_same; [done..|rewrite Hpc; by destruct shm|done]].
      run H. destruct (_ <? _); [|run H; apply active_same; [done..|by rewrite Hpc|done]].
      destruct shm; [|run H; apply active_same; [done..|by rewrite Hpc|done]].
      run H. run H. run H. destruct r2 as [[p c1] w1]. run H. run H.
      apply active_same; [done|by eapply put_conn_grps|done|done|by rewrite Hpc|done].
  - unfold ctl_callback. rewrite Hto. intros H [= <-]. run H. run H.
    destruct Ha as (s0 & Hs & Ha). rewrite Hto in Hs. simpl in Hs. rewrite Hrun, outcome_bind_Ret in Hs.
    exists s0. split; [exact Hs|exact Ha].
Qed.

(** What a polling thread puts back is a connection. *)
Lemma poll_step_put now reload p s (w : W) p' s' w' :
  poll_step (user := MarketServer_user hash) now reload p s w = Ret (p', s', w') →
  s' = s ∨ ∃ cid c, put_conn s cid c = Ret s'.
Proof.
  unfold poll_step. intros H. destruct (p_pc p); run H.
  - by run H; left.
  - destruct (_ <? _); [run H|]; run H; by left.
  - run H. destruct r0 as [[h c1] w1]. run H. run H. right. by eexists _, _.
  - run H. destruct r0 as [c1 w1]. run H. run H. right. by eexists _, _.
Qed.

Lemma send_data_active s c n d (w : W) s' c' w' :
  send_data s c n d w = Ret (s', c', w') → active_connections s' = active_connections s.
Proof.
  unfold send_data. repeat case_match; intros H'; [..|by run H'].
  1: unfold SendMarketDepthMsg in H'. 2: unfold SendTradeMsg in H'. 3: unfold SendVolatilityMsg in H'.
  4: unfold SendKLineMsg in H'. 5: unfold SendTickerMsg in H'.
  all: run H'; destruct r as [[p|] c1]; run H'; [|done]; run H'; destruct r0 as [c3 w3]; run H'; by run H'.
Qed.

Lemma market_step_active tn m w m' w' M :
  threads_inv M (m_threads m) w → active_ok m → mstep tn m w = Ret (m', w') → active_ok m'.
Proof.
  intros Ht Ha H. destruct tn as [now|n now reload|d|]; simpl in H.
  - unfold market_ctl in H.
    destruct (match t_ctl (m_threads m) with CtlIdle => m_stopped m | _ => false end) eqn:Hst.
    { destruct (t_ctl (m_threads m)); try done. rewrite Hst in H. by run H. }
    assert (∃ t' s', ctl_step (user := MarketServer_user hash) stack_header stack_rsp now (m_threads m) w = Ret (t', w') ∧
      ctl_callback (m_threads m) t' (m_server m) = Ret s' ∧ m' = set_server (set_threads m t') s') as (t' & s' & Hc & Hcb & ->).
    { destruct (t_ctl (m_threads m)); try rewrite Hst in H; run H; destruct r as [t' w1]; run H; run H; by exists t', r. }
    by eapply ctl_step_active.
  - unfold market_poll in H.
    assert (m' = m ∨ ∃ t', turn_step (user := MarketServer_user hash) stack_header stack_rsp (TurnPoll n now reload) (m_threads m) w = Ret (t', w') ∧
      m' = set_threads m t') as [->|(t' & Hs & ->)]; [|done|].
    { destruct (p_pc <$> t_poll (m_threads m) !! n) as [[]|], (m_stopped m);
        (left; by run H) || (right; run H; destruct r as [t' w1]; run H; by exists t'). }
    simpl in Hs. destruct (t_poll (m_threads m) !! n) as [p|]; [|run Hs; by destruct m]. run Hs. destruct r as [[p' s'] w1]. run Hs.
    apply poll_step_put in Hrun as [->|(cid & c & Hput)]; [exact Ha|]. by eapply active_put_conn.
  - unfold sender_step in H. destruct (m_sender m) as [|[|cid l]|cid l|].
    + destruct (_ || _); [by run H|]. destruct (active_connections _); by run H.
    + by run H.
    + run H. by run H.
    + run H. run H. destruct r0 as [[ms c'] w1]. run H. run H. eapply active_put_conn; [done|done|].
      by eapply send_data_active.
    + by run H.
  - by run H.
Qed.

Lemma start_market_active s : live_conns s = [] → active_ok (start_market s).
Proof. intros Hl. exists s. split; [done|]. simpl. by rewrite Hl. Qed.

(** The runs from a server without clients. *)
Lemma run_market_active s0 w0 l m w :
  server_inv s0 w0 → groups_ok s0 Run_groups → live_conns s0 = [] → mrun l (start_market s0) w0 = Ret (m, w) →
  threads_inv (members s0) (m_threads m) w ∧ active_ok m.
Proof.
  intros Hinv Hg Hl. assert (∀ l m1 w1, mreach s0 w0 Run_groups (m_threads m1) w1 → active_ok m1 →
    mrun l m1 w1 = Ret (m, w) → threads_inv (members s0) (m_threads m) w ∧ active_ok m) as Hgen.
  { clear l. induction l as [|tn l IH]; intros m1 w1 Hr Ha H; simpl in H.
    - run H. split; [|done]. by apply (threads_reach_inv (user := MarketServer_user hash) HN stack_header stack_rsp s0 w0 Run_groups).
    - run H. destruct r as [m2 w2]. eapply IH; [by eapply market_step_reach| |exact H].
      eapply market_step_active; [|done|exact Hrun]. by apply (threads_reach_inv (user := MarketServer_user hash) HN stack_header stack_rsp s0 w0 Run_groups). }
  apply Hgen; [apply tr_start|]. by apply start_market_active.
Qed.

(** *** The number of messages *)

(** What [msg_send_count] holds for the five types. *)
Definition count_of (s : MarketServer) (t : Z) : Z := default 0 (msg_send_count s !! t).
Definition sent_count (s : MarketServer) : Z :=
  count_of s 5 + count_of s 6 + count_of s 7 + count_of s 8 + count_of s 9.

Record sender_ok (m : market) : Prop := {
  so_total : 0 ≤ m_total_sent m ≤ max_msgs_to_send;
  so_more : match m_sender m with SenderAt _ | SenderSend _ _ => m_total_sent m < max_msgs_to_send | _ => True end;
  so_count : 0 ≤ sent_count (m_server m) ≤ m_total_sent m
}.

Lemma sent_count_sent s t : sent_count s ≤ sent_count (count_sent s t) ≤ sent_count s + 1.
Proof.
  assert (∀ k, count_of (count_sent s t) k = count_of s k + (if decide (t = k) then 1 else 0)) as Hk.
  { intros k. unfold count_of, count_sent. simpl. case_decide as Hd; [subst; rewrite lookup_insert_eq|rewrite lookup_insert_ne by done; lia].
    done. }
  unfold sent_count. rewrite !Hk. repeat case_decide; lia.
Qed.

(** A send counts at most one message. *)
Lemma send_data_count s c n d (w : W) s' c' w' :
  send_data s c n d w = Ret (s', c', w') → sent_count s ≤ sent_count s' ≤ sent_count s + 1.
Proof.
  unfold send_data. repeat case_match; intros H'; [..|run H'; lia].
  1: unfold SendMarketDepthMsg in H'. 2: unfold SendTradeMsg in H'. 3: unfold SendVolatilityMsg in H'.
  4: unfold SendKLineMsg in H'. 5: unfold SendTickerMsg in H'.
  all: run H'; destruct r as [[p|] c1]; run H'; [|lia]; run H'; destruct r0 as [c3 w3]; run H'; run H';
    apply sent_count_sent || apply (sent_count_sent (set_last_trade_id s _)).
Qed.

(** The list and the counts are apart. *)
Lemma sent_count_same s s' : msg_send_count s' = msg_send_count s → sent_count s' = sent_count s.
Proof. unfold sent_count, count_of. by intros ->. Qed.

Lemma ctl_callback_count t t' s s' : ctl_callback (los := los) t t' s = Ret s' → msg_send_count s' = msg_send_count s.
Proof.
  unfold ctl_callback. intros H. repeat case_match; try by run H. run H. run H. by run H.
Qed.

Lemma market_step_sender tn m (w : W) m' w' : sender_ok m → mstep tn m w = Ret (m', w') → sender_ok m'.
Proof.
  intros Hok H. destruct tn as [now|n now reload|d|]; simpl in H.
  - unfold market_ctl in H.
    assert (m' = m ∨ ∃ t' s', msg_send_count s' = msg_send_count (m_server m) ∧ m' = set_server (set_threads m t') s')
      as [->|(t' & s' & Hs & ->)]; [|done|].
    { destruct (t_ctl (m_threads m)), (m_stopped m); (left; by run H) ||
        (right; run H; destruct r as [t' w1]; run H; run H; exists t', r; split; [by eapply ctl_callback_count|done]). }
    destruct Hok as [H1 H2 H3]. constructor; simpl; try done. by rewrite (sent_count_same _ _ Hs).
  - unfold market_poll in H.
    assert (m' = m ∨ ∃ t', m' = set_threads m t') as [->|(t' & ->)]; [|done|by destruct Hok].
    destruct (p_pc <$> t_poll (m_threads m) !! n) as [[]|], (m_stopped m);
        (left; by run H) || (right; run H; destruct r as [t' w1]; run H; by exists t').
  - destruct Hok as [H1 H2 H3]. unfold sender_step in H. destruct (m_sender m) as [|[|cid l]|cid l|] eqn:Hpc.
    + destruct (m_stopped m || _) eqn:Hb; [by run H|]. apply orb_false_iff in Hb as [_ Hb%Z.leb_gt].
      destruct (active_connections _); run H; constructor; simpl; rewrite ?Hpc; done.
    + by run H.
    + run H. run H. constructor; simpl; try done. by destruct (IsClosed r).
    + run H. run H. destruct r0 as [[ms c'] w1]. run H. run H. apply send_data_count in Hrun0.
      constructor; simpl; [lia| |lia]. destruct (Z.leb_spec max_msgs_to_send (m_total_sent m + 1)); [done|]. lia.
    + run H. constructor; try done. by rewrite Hpc.
  - run H. by destruct Hok.
Qed.

Lemma run_market_sender l : ∀ m (w : W) m' w', sender_ok m → mrun l m w = Ret (m', w') → sender_ok m'.
Proof.
  induction l as [|tn l IH]; intros m w m' w' Hr H; simpl in H; [by run H|]. run H. destruct r as [m1 w1].
  eapply IH; [|exact H]. by eapply market_step_sender.
Qed.

Lemma start_market_sender s : sender_ok (start_market s).
Proof. by constructor. Qed.
End inv.
