(* ===== verification/MarketThreadsProps.v ===== *)
(** * Properties of the market data server with its threads *)

From stdpp Require Import gmap.
From S2P Require Import Prelude.
From S2P Require Import Arrays.
From S2P Require Import MsgHeader.
From S2P Require Import PtcpQueue.
From S2P Require SpscQueue.
From S2P Require Import Platform.
From S2P Require PtcpConn.
From S2P Require Import Scripted.
From S2P Require Import TcpShmConn.
From S2P Require Import Login.
From S2P Require Import Server.
From S2P Require Import Descriptors.
From S2P Require Import ServerTable.
From S2P Require Import ServerInv.
From S2P Require Import ServerThreads.
From S2P Require Import ThreadsInv.
From S2P Require Import ServerListen.
From S2P Require Import ScriptedNet.
From S2P Require ServerProps.
From S2P Require Import ServerRun.
From S2P Require Import ServerRunProps.
From S2P Require Import Market.
From S2P Require Import MarketThreads.
From S2P Require Import MarketThreadsInv.

Section props.
Context {conf : Conf} {ud : UserData} {W : Type} {os : Os W}.
Context {mmq : MmapOs W PTCPQueue} {mms : MmapOs W SpscQueue.SPSCVarQueue}.
Context {los : LoginOs W}.
Context {fv : FdView W} {laws : FdLaws W} {llaws : LoginFdLaws W}.
Context {qlaws : MmapFdLaws W PTCPQueue} {slaws : MmapFdLaws W SpscQueue.SPSCVarQueue}.
Context (HN : 1 < NameSize) (Hconf : ServerConf_ok).
Context (hash : list Z → Z) (stack_header : MsgHeader) (stack_rsp : LoginRspMsg).
#[local] Existing Instance MarketServer_user.
#[local] Instance ulaws : @ServerUserLaws W conf ud los (MarketServer_user hash) os mmq mms fv := MarketServer_laws hash.
Implicit Types (s : TcpShmServer) (w : W) (m : market).

Abbreviation started := (ServerRunProps.started (user := MarketServer_user hash) stack_header stack_rsp).

Lemma started_live s w : started s w → live_conns s = [].
Proof.
  intros [_ Hl _ _]. unfold live_conns. induction Hl as [|grp l H0 _ IH]; [done|].
  rewrite bind_cons, IH. unfold live. by rewrite H0.
Qed.

Lemma joined_todo m : joined m = true → t_todo (m_threads m) = [].
Proof. unfold joined, threads_idle. by destruct (m_sender m), (m_stopped m), (t_ctl (m_threads m)), (t_todo (m_threads m)). Qed.

(** ** The composition *)

(** Whatever the order of its turns, a run of the market data server is a
    run of the threads of [tcpshm_server.h] with its groups: the sending thread
    only makes public calls on connections, so that all that holds of those
    threads holds here. *)
Theorem market_threads_refine s0 w0 l m w :
  run_market hash stack_header stack_rsp l (start_market s0) w0 = Ret (m, w) →
  threads_reach (user := MarketServer_user hash) stack_header stack_rsp s0 w0 Run_groups (m_threads m) w.
Proof. apply run_market_reach, tr_start. Qed.

Lemma live_elem s cid :
  cid ∈ live_conns s ↔
  ∃ shm g grp i, get (grps s shm) g = Ret grp ∧ get (conns grp) i = Ret cid ∧ i < live_cnt grp.
Proof.
  unfold live_conns, live. rewrite list_elem_of_bind. split.
  - intros (grp & [i Hi]%list_elem_of_lookup & Hgrp).
    apply lookup_take_Some in Hi as [Hi Hlt].
    assert (∃ shm, grp ∈ grps s shm) as [shm [g Hg]%list_elem_of_lookup].
    { apply elem_of_app in Hgrp as [?|?]; [by exists true|by exists false]. }
    exists shm, (Z.of_nat g), grp, (Z.of_nat i). split_and!; [apply get_Ret; rewrite Nat2Z.id; by split; [lia|]..|lia].
  - intros (shm & g & grp & i & [Hg0 Hg]%get_lookup & [Hi0 Hi]%get_lookup & Hlt). exists grp. split.
    + apply list_elem_of_lookup. exists (Z.to_nat i). apply lookup_take_Some. split; [done|lia].
    + unfold all_grps. apply elem_of_app. apply list_elem_of_lookup_2 in Hg. destruct shm; auto.
Qed.

Lemma live_NoDup P G : table_ok P G → NoDup (G ≫= live).
Proof.
  intros Ht%table_NoDup. eapply sublist_NoDup; [exact Ht|]. clear Ht.
  induction G as [|grp G IH]; [done|]. rewrite !bind_cons. apply sublist_app; [|done]. apply sublist_take.
Qed.

(** C35: under every interleaving, [active_connections] lists no connection
    twice, and it lists exactly the connections that are live when the control
    thread has done the stores it is at ([t_todo]), except the one that is
    logging on and that [OnClientLogon] has not announced yet.  So between the
    stores of a login or a logout and the callback the list and the groups
    differ by that connection, and at all other times the list is that of the
    live connections of all groups. *)
Theorem market_active_live s0 w0 l m w :
  started s0 w0 → run_market hash stack_header stack_rsp l (start_market s0) w0 = Ret (m, w) →
  NoDup (active_connections (m_server m)) ∧
  (∃ s, do_stores (t_todo (m_threads m)) (t_srv (m_threads m)) = Ret s ∧
     ∀ cid, cid ∈ active_connections (m_server m) ↔
       (cid ∉ unannounced (t_ctl (m_threads m))) ∧
       ∃ shm g grp i, get (grps s shm) g = Ret grp ∧ get (conns grp) i = Ret cid ∧ i < live_cnt grp) ∧
  (t_todo (m_threads m) = [] → unannounced (t_ctl (m_threads m)) = [] →
   ∀ cid, cid ∈ active_connections (m_server m) ↔
     ∃ shm g grp i, get (grps (t_srv (m_threads m)) shm) g = Ret grp ∧ get (conns grp) i = Ret cid ∧ i < live_cnt grp).
Proof.
  intros Hs H. destruct (run_market_active HN hash stack_header stack_rsp s0 w0 l m w) as [Ht (s & Hst & Ha)];
    [by eapply (started_inv (user := MarketServer_user hash) HN)|by destruct Hs|by eapply started_live|done|].
  assert (NoDup (unannounced (t_ctl (m_threads m)) ++ active_connections (m_server m))) as Hd.
  { destruct (ti_server _ _ _ Ht) as (s' & Hst' & Hinv & _). rewrite Hst in Hst'. injection Hst' as <-.
    pose proof (live_NoDup _ _ (inv_table _ _ Hinv)) as Hd. fold (live_conns s) in Hd. by rewrite <-Ha in Hd. }
  apply NoDup_app in Hd as (_ & Hap & Hd).
  assert (∀ cid, cid ∈ active_connections (m_server m) ↔ (cid ∉ unannounced (t_ctl (m_threads m))) ∧
     ∃ shm g grp i, get (grps s shm) g = Ret grp ∧ get (conns grp) i = Ret cid ∧ i < live_cnt grp) as Hl.
  { intros cid. rewrite <-live_elem, <-Ha, elem_of_app. specialize (Hap cid). tauto. }
  split; [done|]. split; [by exists s|]. intros Hto Hu cid. rewrite Hto in Hst. simpl in Hst. injection Hst as <-.
  specialize (Hl cid). rewrite Hu in Hl. pose proof (not_elem_of_nil cid). tauto.
Qed.

(** C36: when [main] returns, whatever the threads did meanwhile and whether
    or not [Start] succeeded, no socket is open; when it did, every connection
    is closed and forgotten, and the sending thread went at most 10000 times
    through its [switch], and counted no more messages than that. *)
Theorem market_main_stops junk_name junk_conn l w r s w' :
  open_fds w = ∅ → main hash stack_header stack_rsp junk_name junk_conn l w = Ret (r, s, w') →
  open_fds w' = ∅ ∧
  match r with
  | None => True
  | Some m => Forall (grp_stopped (conn_pool_ s)) (all_grps s) ∧
      0 ≤ sent_count (m_server m) ≤ m_total_sent m ∧ m_total_sent m ≤ max_msgs_to_send
  end.
Proof.
  intros Hw H.
  destruct (main_stops (user := MarketServer_user hash) HN Hconf stack_header stack_rsp start_market m_threads
    (run_market hash stack_header stack_rsp l) joined (λ s0 w0, market_threads_refine s0 w0 l)
    joined_todo _ _ _ _ _ _ Hw H) as [Hfd Hg].
  split; [done|]. destruct r as [m|]; [|done]. split; [by apply Hg; eexists|].
  destruct (main_started (user := MarketServer_user hash) Hconf stack_header stack_rsp start_market m_threads
    (run_market hash stack_header stack_rsp l) joined _ _ _ _ _ _ Hw H) as (s0 & w0 & w1 & _ & _ & _ & Hrun & _).
  destruct (run_market_sender hash stack_header stack_rsp l _ _ _ _ (start_market_sender s0) Hrun) as [H1 _ H2]. lia.
Qed.

(** ** The sending thread alone *)

(** [m] with another pool, and what the sending thread keeps. *)
Definition sender_at m pool ms pc n : market :=
  let t := m_threads m in
  mkMarket (mkThreads (set_conn_pool (t_srv t) pool) (t_ctl t) (t_now t) (t_todo t) (t_poll t)) ms pc n (m_stopped m).

Definition pool_of m : list TcpShmConnection := conn_pool_ (t_srv (m_threads m)).

Lemma sender_at_same m pc : sender_at m (pool_of m) (m_server m) pc (m_total_sent m) = set_sender m pc.
Proof. unfold sender_at, set_sender, pool_of. by destruct m as [[[] ? ? ? ?] ? ? ? ?]. Qed.

Abbreviation mrun := (run_market hash stack_header stack_rsp).

Lemma run_market_app l1 l2 m w m' w' :
  mrun l1 m w = Ret (m', w') → mrun (l1 ++ l2) m w = mrun l2 m' w'.
Proof.
  revert m w. induction l1 as [|tn l1 IH]; intros m w H; simpl in *; [by run H|]. run H. destruct r as [m1 w1].
  rewrite Hrun, outcome_bind_Ret. by apply IH.
Qed.

(** The [for] over the connections, turn by turn. *)
Lemma sender_pass connections : ∀ m ds w ms pool n w',
  m_total_sent m < max_msgs_to_send → m_sender m = SenderAt connections →
  send_pass connections (m_server m) (pool_of m) (m_total_sent m) ds w = Ret (ms, pool, n, w') →
  ∃ l, mrun (MSend <$> l) m w = Ret (sender_at m pool ms SenderTop n, w').
Proof.
  induction connections as [|cid connections IH]; intros m ds w ms pool n w' Hn Hpc H; cbn [send_pass] in H.
  { run H. exists [ds 0]. simpl. unfold sender_step. rewrite Hpc. simpl. by rewrite sender_at_same. }
  run H. rename r into conn, Hrun into Hget. unfold pool_of in Hget.
  destruct (IsClosed conn) eqn:Hc.
  - destruct (IH (set_sender m (SenderAt connections)) ds w ms pool n w') as [l Hl]; [done|done|exact H|].
    exists (ds 0 :: l). rewrite fmap_cons. cbn [run_market market_step]. unfold sender_step. rewrite Hpc, Hget, outcome_bind_Ret, Hc.
    rewrite outcome_bind_Ret. exact Hl.
  - run H. destruct r as [[ms1 conn1] w1]. run H. rename r into pool1, Hrun0 into Hput, Hrun into Hsend.
    assert (mrun (MSend <$> [ds 0; ds (m_total_sent m)]) m w =
      Ret (sender_at m pool1 ms1 (if max_msgs_to_send <=? m_total_sent m + 1 then SenderTop else SenderAt connections)
             (m_total_sent m + 1), w1)) as H2.
    { assert (sender_step (ds 0) m w = Ret (set_sender m (SenderSend cid connections), w)) as E1.
      { unfold sender_step. by rewrite Hpc, Hget, outcome_bind_Ret, Hc. }
      cbn [fmap list_fmap run_market market_step]. rewrite E1, outcome_bind_Ret. unfold sender_step. simpl.
      rewrite Hget, outcome_bind_Ret, Hsend, outcome_bind_Ret. unfold put_conn.
      unfold pool_of in Hput. by rewrite Hput, !outcome_bind_Ret. }
    destruct (Z.leb_spec max_msgs_to_send (m_total_sent m + 1)) as [Hle|Hlt].
    + run H. by exists [ds 0; ds (m_total_sent m)].
    + destruct (IH (sender_at m pool1 ms1 (SenderAt connections) (m_total_sent m + 1)) ds w1 ms pool n w')
        as [l Hl]; [done|done|exact H|].
      exists ([ds 0; ds (m_total_sent m)] ++ l). rewrite fmap_app, (run_market_app _ _ _ _ _ _ H2). exact Hl.
Qed.

Lemma send_pass_active connections : ∀ (s : MarketServer) pool n ds w (s' : MarketServer) pool' n' w',
  send_pass connections s pool n ds w = Ret (s', pool', n', w') → active_connections s' = active_connections s.
Proof.
  induction connections as [|cid l IH]; intros s pool n ds w s' pool' n' w' H; cbn [send_pass] in H; [by run H|].
  run H. destruct (IsClosed r); [by eapply IH|]. run H. destruct r0 as [[s1 c1] w1]. run H.
  apply send_data_active in Hrun0. destruct (_ <=? _); [by run H|]. apply IH in H. congruence.
Qed.

(** The sending thread, when the others wait, runs
    [SendMarketDataPeriodically] as it is written: turns of it lead from the
    head of the loop to where the function is after as many iterations. *)
Theorem market_sender_alone k m ds w ms pool n w' :
  m_sender m = SenderTop → m_stopped m = false →
  SendMarketDataPeriodically (repeat (active_connections (m_server m)) k) (m_server m) (pool_of m) (m_total_sent m) ds w =
    Ret (ms, pool, n, w') →
  ∃ l, mrun (MSend <$> l) m w = Ret (sender_at m pool ms SenderTop n, w').
Proof.
  revert m w. induction k as [|k IH]; intros m w Hpc Hst H; cbn [repeat SendMarketDataPeriodically] in H.
  { run H. exists []. simpl. rewrite sender_at_same, <-Hpc. by destruct m. }
  destruct (Z.leb_spec max_msgs_to_send (m_total_sent m)) as [|Hn].
  { run H. exists []. simpl. rewrite sender_at_same, <-Hpc. by destruct m. }
  run H. destruct r as [[[ms1 pool1] n1] w1].
  assert (∃ l, mrun (MSend <$> l) m w = Ret (sender_at m pool1 ms1 SenderTop n1, w1)) as [l1 Hl1].
  { destruct (active_connections (m_server m)) as [|cid l] eqn:Ha.
    - cbn [send_pass] in Hrun. run Hrun. exists []. simpl. rewrite sender_at_same, <-Hpc. by destruct m.
    - destruct (sender_pass (cid :: l) (set_sender m (SenderAt (cid :: l))) ds w ms1 pool1 n1 w1) as [l1 Hl1]; [done|done|exact Hrun|].
      exists (ds 0 :: l1). rewrite fmap_cons. cbn [run_market market_step].
      assert (sender_step (ds 0) m w = Ret (set_sender m (SenderAt (cid :: l)), w)) as ->.
      { unfold sender_step. by rewrite Hpc, Hst, Ha, (proj2 (Z.leb_gt _ _)) by done. }
      rewrite outcome_bind_Ret. exact Hl1. }
  destruct (IH (sender_at m pool1 ms1 SenderTop n1) w1) as [l Hl]; [done|done| |].
  { simpl. rewrite (send_pass_active _ _ _ _ _ _ _ _ _ _ Hrun). exact H. }
  exists (l1 ++ l). rewrite fmap_app, (run_market_app _ _ _ _ _ _ Hl1). exact Hl.
Qed.
End props.

(** ** A run

    "bob" logs on, the sending thread sends him what fits into his queue, and
    the process gets its signal. *)

#[local] Existing Instance ex_conf.

Definition ex_hash (name : list Z) : Z := foldr Z.add 0 name.
Definition ex_draws : draws := mkDraws (λ _, repeat 0 8) (λ _, 50) 7.

Definition ex_logon : list market_turn := replicate 14 (MCtl 5).
Definition ex_sends : list market_turn := replicate 8 (MSend ex_draws).
Definition ex_polls : list market_turn := replicate 5 (MPoll 0 6 false) ++ replicate 4 (MPoll 1 6 true).
Definition ex_end : list market_turn := [MSignal; MCtl 7; MSend ex_draws].
Definition ex_turns : list market_turn := ex_logon ++ ex_sends ++ ex_polls ++ ex_end.

Definition ex_main (l : list market_turn) : outcome (option market * TcpShmServer * net) :=
  main ex_hash ServerProps.ex_header ServerProps.ex_rsp (ServerProps.zeros 16) ServerProps.ex_new_conn l ServerProps.ex_net.

(** Two sends were tried, the shorter message fits. *)
Definition ex_sent (m : market) : bool :=
  bool_decide (active_connections (m_server m) = [2]) && (sent_count (m_server m) =? 1) && (m_total_sent m =? 2).

Lemma ex_main_returns : ∃ m s w, ex_main ex_turns = Ret (Some m, s, w) ∧ ex_sent m = true.
Proof.
  assert (match ex_main ex_turns with Ret (Some m, _, _) => ex_sent m | _ => false end = true) as Hc
    by (vm_compute; reflexivity).
  destruct (ex_main ex_turns) as [[[[m|] s] w]| |]; try discriminate Hc. exists m, s, w. split; [reflexivity|exact Hc].
Qed.

Lemma ex_sent_spec m : ex_sent m = true →
  active_connections (m_server m) = [2] ∧ sent_count (m_server m) = 1 ∧ m_total_sent m = 2.
Proof.
  unfold ex_sent. intros [[H1%bool_decide_eq_true H2%Z.eqb_eq]%andb_true_iff H3%Z.eqb_eq]%andb_true_iff. auto.
Qed.

Abbreviation ex_started := (started (user := MarketServer_user ex_hash) ServerProps.ex_header ServerProps.ex_rsp).
Abbreviation ex_run := (run_market ex_hash ServerProps.ex_header ServerProps.ex_rsp).

Lemma ex_market_run_returns :
  ∃ s0 w0 m w, ex_started s0 w0 ∧ ex_run ex_turns (start_market s0) w0 = Ret (m, w) ∧ ex_sent m = true ∧ joined m = true.
Proof.
  destruct ex_main_returns as (m & s & w & Hm & Hs).
  destruct (main_started (user := MarketServer_user ex_hash) ServerProps.ex_conf_server ServerProps.ex_header ServerProps.ex_rsp
    start_market m_threads (ex_run ex_turns) joined _ _ ServerProps.ex_net _ _ _ eq_refl Hm)
    as (s0 & w0 & w1 & s1 & w2 & H0 & Hr & Hj & _).
  exists s0, w0, m, w1. split; [exact H0|]. split; [exact Hr|]. split; assumption.
Qed.

Lemma market_main_stops_witness :
  ∃ m s w', ex_main ex_turns = Ret (Some m, s, w') ∧ sent_count (m_server m) = 1 ∧ m_total_sent m = 2 ∧ open_fds w' = ∅.
Proof.
  destruct ex_main_returns as (m & s & w & Hm & Hs). exists m, s, w. split; [exact Hm|].
  pose proof (ex_sent_spec m Hs) as (_ & H1 & H2). split; [exact H1|]. split; [exact H2|].
  exact (proj1 (market_main_stops ex_name_size ServerProps.ex_conf_server ex_hash ServerProps.ex_header ServerProps.ex_rsp
    _ _ ex_turns ServerProps.ex_net (Some m) s w eq_refl Hm)).
Defined.

Lemma market_threads_refine_witness :
  ∃ s0 w0 m w, sent_count (m_server m) = 1 ∧
    threads_reach (user := MarketServer_user ex_hash) ServerProps.ex_header ServerProps.ex_rsp s0 w0 Run_groups (m_threads m) w.
Proof.
  destruct ex_market_run_returns as (s0 & w0 & m & w & _ & Hr & Hs & _). exists s0, w0, m, w.
  split; [exact (proj1 (proj2 (ex_sent_spec m Hs)))|].
  exact (market_threads_refine ex_hash ServerProps.ex_header ServerProps.ex_rsp s0 w0 ex_turns m w Hr).
Defined.

Lemma joined_idle m : joined m = true → t_todo (m_threads m) = [] ∧ unannounced (t_ctl (m_threads m)) = [].
Proof.
  unfold joined, threads_idle. by destruct (m_sender m), (m_stopped m), (t_ctl (m_threads m)), (t_todo (m_threads m)).
Qed.

Lemma market_active_live_witness :
  ∃ s0 w0 m w, ex_run ex_turns (start_market s0) w0 = Ret (m, w) ∧ active_connections (m_server m) = [2] ∧
    NoDup (active_connections (m_server m)) ∧
    ∃ shm g grp i, get (grps (t_srv (m_threads m)) shm) g = Ret grp ∧ get (conns grp) i = Ret 2 ∧ i < live_cnt grp.
Proof.
  destruct ex_market_run_returns as (s0 & w0 & m & w & H0 & Hr & Hs & Hj). exists s0, w0, m, w. split; [exact Hr|].
  pose proof (ex_sent_spec m Hs) as (Ha & _ & _). split; [exact Ha|].
  destruct (market_active_live ex_name_size ServerProps.ex_conf_server ex_hash ServerProps.ex_header ServerProps.ex_rsp
    s0 w0 ex_turns m w H0 Hr) as (Hd & _ & Hl). split; [exact Hd|].
  destruct (joined_idle m Hj) as [Hto Hu]. apply (Hl Hto Hu 2). rewrite Ha. by left.
Defined.

(** The server after the login, and two iterations. *)
Lemma ex_loop_returns :
  ∃ m w ms pool n w', m_sender m = SenderTop ∧ m_stopped m = false ∧
    SendMarketDataPeriodically (repeat (active_connections (m_server m)) 2) (m_server m) (pool_of m) (m_total_sent m)
      (λ _, ex_draws) w = Ret (ms, pool, n, w') ∧ n = 2.
Proof.
  set (r := '(s, w) ← new_TcpShmServer (chars "server") (chars "server") (ServerProps.zeros 16) ServerProps.ex_new_conn ServerProps.ex_net;
    let '(_, s, w) := Start (user := MarketServer_user ex_hash) s (chars "0.0.0.0") 12345 w in
    ex_run ex_logon (start_market s) w).
  set (next := λ (m : market) (w : net), SendMarketDataPeriodically (repeat (active_connections (m_server m)) 2) (m_server m) (pool_of m)
    (m_total_sent m) (λ _, ex_draws) w).
  assert (match r with
          | Ret (m, w) => match m_sender m, m_stopped m, next m w with SenderTop, false, Ret (_, _, n, _) => n =? 2 | _, _, _ => false end
          | _ => false end = true) as Hc by (vm_compute; reflexivity).
  destruct r as [[m w]| |]; try discriminate Hc.
  destruct (m_sender m) eqn:Hpc, (m_stopped m) eqn:Hst; try discriminate Hc.
  destruct (next m w) as [[[[ms pool] n] w']| |] eqn:Hn; try discriminate Hc. apply Z.eqb_eq in Hc.
  exists m, w, ms, pool, n, w'. split; [exact Hpc|]. split; [exact Hst|]. split; [exact Hn|exact Hc].
Qed.

Lemma market_sender_alone_witness :
  ∃ m w ms pool w' l, ex_run (MSend <$> l) m w = Ret (sender_at m pool ms SenderTop 2, w').
Proof.
  destruct ex_loop_returns as (m & w & ms & pool & n & w' & Hpc & Hst & Hr & Hn). exists m, w, ms, pool, w'.
  rewrite <-Hn. exact (market_sender_alone ex_hash ServerProps.ex_header ServerProps.ex_rsp 2 m _ w ms pool n w' Hpc Hst Hr).
Defined.
