(* ===== verification/ClientRun.v ===== *)
(** * The process of a client program

    What [Run] and [main] of the class [EchoClient] of [test/] and of the one
    of [crypto_market_example/] have in common: [Connect], the two numbers
    that are mapped to files, the loops of one thread for TCP and of two for
    shared memory, [Stop].  The members of the object, of type [E], and
    whether a handler has ended the process, are in the world ([Process]),
    where the callbacks of [TcpShmClient] reach them.  The loops take the
    times [now()] gives, and for two threads whose turn it is; a turn is one
    iteration.  What the programs do differently is [PollNum], and [start],
    what [Run] does to the members once it has mapped the numbers. *)

From stdpp Require Import gmap.
From S2P Require Import Prelude.
From S2P Require Import Arrays.
From S2P Require Import MsgHeader.
From S2P Require Import PtcpQueue.
From S2P Require SpscQueue.
From S2P Require Import Platform.
From S2P Require PtcpConn.
From S2P Require Import TcpShmConn.
From S2P Require Import Login.
From S2P Require Import Client.
From S2P Require Import Descriptors.
From S2P Require Import ClientInv.
From S2P Require Import EchoClient.

(** [exit(code)] and a failed [assert] end the process. *)
Inductive ended := Running | Exited (code : Z) | Aborted.

Record process (E : Type) := mkProcess { pr_client : E; pr_end : ended }.
Arguments mkProcess {E} pr_client pr_end.
Arguments pr_client {E} p.
Arguments pr_end {E} p.

Class Process (E W : Type) := {
  the_process : W → process E;
  set_process : process E → W → W;
  clock : W → Z;                      (* now() *)
  set_login_time : W → Z * W          (* now() in OnLoginSuccess *)
}.

Class ProcessLaws (E W : Type) `{Process E W, FdView W} : Prop := {
  process_fds p w : open_fds (set_process p w) = open_fds w;
  login_time_fds w : open_fds (set_login_time w).2 = open_fds w
}.

(** How [Run] returns. *)
Inductive run_end := RunNotConnected | RunNoFiles | RunStopped.

(** Whose turn it is when shared memory is used. *)
Inductive client_turn := CTcp (now : Z) | CShm.

Section client.
Context {conf : Conf} {ud : UserData} {W : Type} {os : Os W}.
Context {mmq : MmapOs W PTCPQueue} {mms : MmapOs W SpscQueue.SPSCVarQueue}.
Context {mmn : MmapOs W (list Z)} {mmi : MmapOs W Z}.
Context {los : LoginOs W} {E : Type} {proc : Process E W} {user : ClientUser W}.
Context (PollNum : E → TcpShmConnection → W → outcome (bool * E * TcpShmConnection * W)).
Context (start : E → Z → Z → E).

(** What a callback makes of the result of a handler. *)
Definition handled (r : control (E * TcpShmConnection)) (conn : TcpShmConnection) (w : W) : TcpShmConnection * W :=
  let e := pr_client (the_process w) in
  match r with
  | Continue (e, conn) => (conn, set_process (mkProcess e Running) w)
  | Exit code => (conn, set_process (mkProcess e (Exited code)) w)
  | Abort => (conn, set_process (mkProcess e Aborted) w)
  end.

(** After a call that may have called back: the process goes on, or not. *)
Definition alive {A} (a : A) (w : W) : control (A * W) :=
  match pr_end (the_process w) with
  | Running => Continue (a, w)
  | Exited code => Exit code
  | Aborted => Abort
  end.

(** An iteration of [while(!conn.IsClosed()) { if(PollNum()) ...; poll(); }];
    [true]: the loop is left. *)
Definition num_turn (poll : TcpShmClient → W → outcome (TcpShmClient * W)) (c : TcpShmClient) (w : W)
    : outcome (control (bool * TcpShmClient * W)) :=
  if IsClosed (conn_ c) then Ret (Continue (true, c, w))
  else
    '(enough, e, conn, w) ← PollNum (pr_client (the_process w)) (conn_ c) w;
    let c := set_conn c conn in
    let w := set_process (mkProcess e Running) w in
    if enough : bool then Ret (Continue (true, set_conn c (Close (conn_ c)), w))
    else '(c, w) ← poll c w; Ret (alive (false, c) w).

(** An iteration of [while(!conn.IsClosed()) PollTcp(now())]. *)
Definition tcp_turn (now : Z) (c : TcpShmClient) (w : W) : outcome (control (bool * TcpShmClient * W)) :=
  if IsClosed (conn_ c) then Ret (Continue (true, c, w))
  else '(c, w) ← PollTcp c now w; Ret (alive (false, c) w).

Fixpoint loop_tcp (times : list Z) (c : TcpShmClient) (w : W) : outcome (control (TcpShmClient * W)) :=
  match times with
  | [] => NoFuel
  | now :: times =>
      r ← num_turn (λ c w, PollTcp c now w) c w;
      match r with
      | Continue (leave, c, w) => if leave : bool then Ret (Continue (c, w)) else loop_tcp times c w
      | Exit code => Ret (Exit code)
      | Abort => Ret Abort
      end
  end.

(** The thread [shm_thr] and the main thread, until both have left their
    loops. *)
Fixpoint loop_shm (turns : list client_turn) (tcp_left shm_left : bool) (c : TcpShmClient) (w : W)
    : outcome (control (TcpShmClient * W)) :=
  if tcp_left && shm_left then Ret (Continue (c, w)) else
  match turns with
  | [] => NoFuel
  | turn :: turns =>
      r ← match turn with
          | CTcp now => if tcp_left then Ret (Continue (true, c, w)) else tcp_turn now c w
          | CShm => if shm_left then Ret (Continue (true, c, w)) else num_turn (λ c w, PollShm c w) c w
          end;
      match r with
      | Continue (leave, c, w) =>
          match turn with
          | CTcp _ => loop_shm turns leave shm_left c w
          | CShm => loop_shm turns tcp_left leave c w
          end
      | Exit code => Ret (Exit code)
      | Abort => Ret Abort
      end
  end.

(** [string(conn.GetPtcpDir()) + "/" + local + "_" + remote + ext] *)
Definition num_file (conn : TcpShmConnection) (ext : string) : list Z :=
  GetPtcpDir conn ++ chars "/" ++ c_str (GetLocalName conn) ++ chars "_" ++ c_str (GetRemoteName conn) ++ chars ext.

Definition sizeof_int : Z := 4.

Definition Run (stack_login : LoginMsg) (login_user_data : LoginUserData)
    (use_shm : bool) (server_ipv4 : list Z) (server_port : Z) (times : list Z) (turns : list client_turn)
    (c : TcpShmClient) (w : W) : outcome (control (run_end * TcpShmClient * W)) :=
  '(ok, c, w) ← Connect stack_login c use_shm server_ipv4 server_port login_user_data w;
  if negb ok then Ret (Continue (RunNotConnected, c, w)) else
  let '(send_num, w) := my_mmap sizeof_int (num_file (conn_ c) ".send_num") false w in
  let '(recv_num, w) := my_mmap sizeof_int (num_file (conn_ c) ".recv_num") false w in
  match send_num, recv_num with
  | inl send_num, inl recv_num =>
      let w := set_process (mkProcess (start (pr_client (the_process w)) send_num recv_num) Running) w in
      r ← (if use_shm then loop_shm turns false false c w else loop_tcp times c w);
      match r with
      | Continue (c, w) => '(c, w) ← Stop c w; Ret (Continue (RunStopped, c, w))
      | Exit code => Ret (Exit code)
      | Abort => Ret Abort
      end
  | _, _ => Ret (Continue (RunNoFiles, c, w))
  end.

(** [main]; [junk_name] and [junk_remote] are uninitialised memory.  At its
    end [~TcpShmClient] stops the client once more. *)
Definition main (stack_login : LoginMsg) (login_user_data : LoginUserData)
    (argv : list (list Z)) (junk_name junk_remote : list Z) (times : list Z) (turns : list client_turn) (w : W)
    : outcome (control (run_end * TcpShmClient * W)) :=
  match argv with
  | [_; name; server_ip; use_shm] =>
      '(c, w) ← new_TcpShmClient name name junk_name junk_remote w;
      r ← Run stack_login login_user_data (negb (default 0 (head use_shm) =? 48)) server_ip 12345 times turns c w;
      match r with
      | Continue (e, c, w) => '(c, w) ← Stop c w; Ret (Continue (e, c, w))
      | Exit code => Ret (Exit code)
      | Abort => Ret Abort
      end
  | _ => Ret (Exit 1)
  end.
End client.
