(* ===== verification/ClientRunProps.v ===== *)
(** * What a client program leaves

    Every turn of the loops of [ClientRun] keeps the invariant of the client,
    so [Run] and [main] leave no socket open whatever arrives and whatever the
    order of the threads ([Run_leaves], [main_leaves]): for every program
    whose [PollNum] only makes public calls on its connection.  The instance
    of the two programs runs on a pair of a world and the members of the
    object. *)

From stdpp Require Import gmap.
From S2P Require Import Prelude.
From S2P Require Import Arrays.
From S2P Require Import MsgHeader.
From S2P Require Import PtcpQueue.
From S2P Require SpscQueue.
From S2P Require Import Platform.
From S2P Require PtcpConn.
From S2P Require Import TcpShmConn.
From S2P Require Import Login.
From S2P Require Import Client.
From S2P Require Import Descriptors.
From S2P Require Import ClientInv.
From S2P Require Import EchoClient.
From S2P Require Import ClientRun.

Section props.
Context {conf : Conf} {ud : UserData} {W : Type} {os : Os W}.
Context {mmq : MmapOs W PTCPQueue} {mms : MmapOs W SpscQueue.SPSCVarQueue}.
Context {mmn : MmapOs W (list Z)} {mmi : MmapOs W Z}.
Context {los : LoginOs W} {E : Type} {proc : Process E W} {user : ClientUser W}.
Context {fv : FdView W} {laws : FdLaws W} {llaws : LoginFdLaws W} {plaws : ProcessLaws E W}.
Context {qlaws : MmapFdLaws W PTCPQueue} {slaws : MmapFdLaws W SpscQueue.SPSCVarQueue}.
Context {nlaws : MmapFdLaws W (list Z)} {ilaws : MmapFdLaws W Z}.
Context {ulaws : ClientUserLaws W}.
Context (HN : 1 < NameSize).
Context (stack_login : LoginMsg) (login_user_data : LoginUserData).
Context (PollNum : E → TcpShmConnection → W → outcome (bool * E * TcpShmConnection * W)).
Context (start : E → Z → Z → E).
Context (HPoll : ∀ e conn w r e' conn' w', PollNum e conn w = Ret (r, e', conn', w') → user_calls conn w conn' w').
Abbreviation loop_tcp := (ClientRun.loop_tcp PollNum).
Abbreviation loop_shm := (ClientRun.loop_shm PollNum).
Abbreviation num_turn := (ClientRun.num_turn PollNum).
Abbreviation Run := (ClientRun.Run PollNum start stack_login login_user_data).
Abbreviation main := (ClientRun.main PollNum start stack_login login_user_data).

(** Every turn keeps the invariant of the client. *)
Lemma set_process_inv (c : TcpShmClient) (p : process E) (w : W) : client_inv c w → client_inv c (set_process p w).
Proof. intros [Ho Hs]. constructor; [by rewrite process_fds|done]. Qed.

Lemma num_turn_inv poll (c : TcpShmClient) (w : W) b c' w' :
  (∀ c1 w1 c2 w2, client_inv c1 w1 → poll c1 w1 = Ret (c2, w2) → client_inv c2 w2) → client_inv c w →
  num_turn poll c w = Ret (Continue (b, c', w')) → client_inv c' w'.
Proof.
  unfold ClientRun.num_turn. intros Hpoll Hinv H. destruct (IsClosed _); [by run H|]. run H.
  destruct r as [[[enough e] conn] w1].
  apply HPoll, user_calls_kept in Hrun as [Hk Hw].
  assert (client_inv (set_conn c conn) (set_process (mkProcess e Running) w1)) as Hinv1 by by apply set_process_inv, (client_kept _ _ _ _ Hinv).
  destruct enough.
  - run H. eapply client_kept; [done| |done]. by apply Close_kept.
  - run H. destruct r as [c1 w2]. unfold alive in H. destruct (pr_end _); [|by run H..]. run H. simplify_eq. by eapply Hpoll.
Qed.

Lemma tcp_turn_inv now (c : TcpShmClient) (w : W) b c' w' :
  client_inv c w → tcp_turn now c w = Ret (Continue (b, c', w')) → client_inv c' w'.
Proof.
  unfold tcp_turn. intros Hinv H. destruct (IsClosed _); [by run H|].
  run H. destruct r as [c1 w1]. unfold alive in H. destruct (pr_end _); [|by run H..]. run H. simplify_eq. by eapply client_PollTcp_inv.
Qed.

Lemma loop_tcp_inv times : ∀ (c : TcpShmClient) (w : W) c' w',
  client_inv c w → loop_tcp times c w = Ret (Continue (c', w')) → client_inv c' w'.
Proof.
  induction times as [|now times IH]; intros c w c' w' Hinv H; cbn [ClientRun.loop_tcp] in H; [done|].
  run H. destruct r as [[[b c1] w1]|code|]; [|by run H..].
  assert (client_inv c1 w1).
  { eapply num_turn_inv; [|exact Hinv|exact Hrun]. intros *. by apply client_PollTcp_inv. }
  destruct b; [by run H|by eapply IH].
Qed.

Lemma loop_shm_inv turns : ∀ b1 b2 (c : TcpShmClient) (w : W) c' w',
  client_inv c w → loop_shm turns b1 b2 c w = Ret (Continue (c', w')) → client_inv c' w'.
Proof.
  induction turns as [|turn turns IH]; intros b1 b2 c w c' w' Hinv H; cbn [ClientRun.loop_shm] in H;
    (destruct (b1 && b2); [by run H|]); [done|].
  run H. destruct r as [[[b c1] w1]|code|]; [|by run H..].
  assert (client_inv c1 w1); [|destruct turn; by eapply IH].
  destruct turn.
  - destruct b1; [by run Hrun|by eapply tcp_turn_inv].
  - destruct b2; [by run Hrun|]. eapply num_turn_inv; [|exact Hinv|exact Hrun]. intros *. by apply client_PollShm_inv.
Qed.

(** When [Run] returns, then after its loops no socket is open and the name
    of the last server is unmapped; when it could not connect no socket is
    open either; but when a file of a number cannot be mapped it returns with
    the socket of the new connection still open, which is then closed by
    [~TcpShmClient]. *)
Lemma Run_leaves b ip port times turns (c : TcpShmClient) (w : W) e c' w' :
  client_inv c w → IsClosed (conn_ c) = true →
  Run b ip port times turns c w = Ret (Continue (e, c', w')) →
  client_inv c' w' ∧
  match e with
  | RunStopped => no_socket c' w' ∧ server_name_ c' = None
  | RunNotConnected => no_socket c' w'
  | RunNoFiles => 0 ≤ conn_fd (conn_ c') ∧ open_fds w' = {[conn_fd (conn_ c')]}
  end.
Proof.
  intros Hinv Hcl H. unfold ClientRun.Run in H. run H. destruct r as [[ok c1] w1].
  destruct (Connect_ok HN stack_login _ _ _ _ _ _ _ _ _ Hinv Hrun) as [Hinv1 Hok].
  destruct ok; simpl in H; [|run H; split; [done|by rewrite Hcl in Hok]]. destruct Hok as (Hfd & Hw1 & _).
  pose proof (my_mmap_fds (T := Z) sizeof_int (num_file (conn_ c1) ".send_num") false w1) as Hs.
  destruct (my_mmap _ (num_file (conn_ c1) ".send_num") _ _) as [send w2]. simpl in Hs.
  pose proof (my_mmap_fds (T := Z) sizeof_int (num_file (conn_ c1) ".recv_num") false w2) as Hr.
  destruct (my_mmap _ (num_file (conn_ c1) ".recv_num") _ _) as [recv w3]. simpl in Hr.
  assert (match send, recv with inl _, inl _ => True | _, _ => e = RunNoFiles ∧ c' = c1 ∧ w' = w3 end) as Hf.
  { destruct send, recv; try done; run H; by simplify_eq. }
  assert (client_inv c1 w3) as Hinv3.
  { destruct Hinv1 as [Ho Hso]. constructor; [|done]. by rewrite Hr, Hs. }
  destruct send as [n|], recv as [n'|]; [|destruct Hf as (-> & -> & ->); split; [done|]; rewrite Hr, Hs; by split..]. clear Hf.
  run H. destruct r as [[c2 w4]|code|]; [|by run H..]. run H. destruct r as [c3 w5]. run H.
  assert (no_socket c' w' ∧ server_name_ c' = None) as Hst; [|split; [by apply no_socket_inv, Hst|done]].
  eapply client_Stop_ok; [|exact Hrun1].
  pose proof (set_process_inv c1 (mkProcess (start (pr_client (the_process w3)) n n') Running) w3 Hinv3) as Hinv2.
  destruct b; [by eapply loop_shm_inv|by eapply loop_tcp_inv].
Qed.

Lemma main_leaves argv junk_name junk_remote times turns (w : W) e c' w' :
  open_fds w = ∅ → main argv junk_name junk_remote times turns w = Ret (Continue (e, c', w')) →
  no_socket c' w' ∧ server_name_ c' = None.
Proof.
  intros Hw H. unfold ClientRun.main in H. destruct argv as [|? [|name [|ip [|use [|]]]]]; try by run H.
  run H. destruct r as [c w1]. run H. destruct r as [[[e1 c2] w2]|code|]; [|by run H..]. run H. destruct r as [c3 w3]. run H.
  eapply client_Stop_ok; [|exact Hrun1]. eapply Run_leaves; [| |exact Hrun0].
  - by eapply new_TcpShmClient_inv.
  - unfold new_TcpShmClient in Hrun. run Hrun. run Hrun. run Hrun. reflexivity.
Qed.
End props.

(** What a callback makes of a handler that has made calls on its
    connection. *)
Lemma handled_calls `{Conf} {W E} `{Os W, MmapOs W PTCPQueue, MmapOs W SpscQueue.SPSCVarQueue, FdView W}
    `{!Process E W, !ProcessLaws E W} (r : control (E * TcpShmConnection)) conn (w : W) :
  match r with Continue (_, conn') => user_calls conn w conn' w | _ => True end →
  user_calls conn w (handled r conn w).1 (handled r conn w).2.
Proof.
  assert (∀ c0 w0 p0, user_calls c0 w0 c0 (set_process p0 w0)) as Hset.
  { intros c0 w0 p0. eapply calls_next; [apply elsewhere, process_fds|apply calls_done]. }
  destruct r as [[e conn']|code|]; simpl; intros Hc; [|apply Hset..]. by eapply user_calls_trans, Hset.
Qed.

(** ** A world with the members of the object *)

Section pair.
Context {conf : Conf} {ud : UserData} {W E : Type} {os : Os W} {los : LoginOs W}.

(** A call of the system does not reach the members. *)
Definition lift {A} (f : W → A * W) (w : W * process E) : A * (W * process E) :=
  let '(r, w1) := f w.1 in (r, (w1, w.2)).
Definition lift_ (f : W → W) (w : W * process E) : W * process E := (f w.1, w.2).

#[export] Instance pair_os : Os (W * process E) := {
  os_send fd bs := lift (os_send fd bs);
  os_readv fd lens := lift (os_readv fd lens);
  os_close fd := lift_ (os_close fd)
}.

#[export] Instance pair_mmap {T} {mm : MmapOs W T} : MmapOs (W * process E) T := {
  os_open f b := lift (os_open (T := T) f b);
  os_ftruncate fd n := lift (os_ftruncate (T := T) fd n);
  os_mmap fd := lift (os_mmap fd);
  os_close_file fd := lift_ (os_close_file (T := T) fd);
  os_munmap t := lift_ (os_munmap t)
}.

#[export] Instance pair_login : LoginOs (W * process E) := {
  sizeof_LoginMsg := sizeof_LoginMsg;
  sizeof_LoginRspMsg := sizeof_LoginRspMsg;
  sockaddr := sockaddr;
  os_socket := lift os_socket;
  os_setsockopt fd o := lift (os_setsockopt fd o);
  os_bind fd a p := lift (os_bind fd a p);
  os_listen fd := lift (os_listen fd);
  os_accept fd := lift (os_accept fd);
  os_connect fd a p := lift (os_connect fd a p);
  os_set_nonblock fd := lift_ (os_set_nonblock fd);
  os_send_login fd m := lift (os_send_login fd m);
  os_recv_login fd := lift (os_recv_login fd);
  os_send_rsp fd m := lift (os_send_rsp fd m);
  os_recv_rsp fd := lift (os_recv_rsp fd);
  os_mkdir d := lift_ (os_mkdir d);
  os_errno w := os_errno w.1
}.

#[export] Instance pair_log {log : OsLog W} : OsLog (W * process E) := {
  os_sent fd w := os_sent fd w.1;
  os_received fd w := os_received fd w.1
}.

Lemma lift_inv {A} (f : W → A * W) w r w' : lift f w = (r, w') → f w.1 = (r, w'.1).
Proof. unfold lift. destruct (f w.1). by intros [= <- <-]. Qed.

Lemma lift_snd {A} (f : W → A * W) w : (lift f w).2.1 = (f w.1).2.
Proof. unfold lift. by destruct (f w.1). Qed.

#[export] Instance pair_laws {log : OsLog W} {laws : OsLaws W} : OsLaws (W * process E).
Proof.
  constructor; simpl; intros *; rewrite ?lift_snd.
  - intros H%lift_inv. by eapply os_send_range.
  - intros H%lift_inv. by apply os_send_sent.
  - apply os_send_received.
  - apply os_send_other.
  - intros Hfd. destruct (os_send_closed fd bs w.1 Hfd) as (e & H & He). exists e. unfold lift. rewrite H. by destruct w.
  - intros H%lift_inv. by eapply os_readv_range.
  - intros H%lift_inv. by eapply os_readv_received.
  - apply os_readv_sent.
  - apply os_readv_other.
  - intros Hfd. destruct (os_readv_closed fd lens w.1 Hfd) as (e & H & He). exists e. unfold lift. rewrite H. by destruct w.
Qed.

Context {fv : FdView W}.
#[export] Instance pair_fds : FdView (W * process E) := λ w, open_fds w.1.

Lemma lift_fds {A} (f : W → A * W) w : open_fds (f w.1).2 = open_fds w.1 → open_fds (lift f w).2 = open_fds w.
Proof. unfold lift. by destruct (f w.1). Qed.

#[export] Instance pair_fd_laws {laws : FdLaws W} : FdLaws (W * process E).
Proof.
  constructor; intros; [apply lift_fds, fd_send|apply lift_fds, fd_readv|exact (fd_close _ w.1)].
Qed.

#[export] Instance pair_mmap_laws {T} {mm : MmapOs W T} {mlaws : MmapFdLaws W T} : MmapFdLaws (W * process E) T.
Proof.
  constructor; intros; [apply lift_fds, fd_open|apply lift_fds, fd_ftruncate|apply lift_fds, fd_mmap|..].
  - exact (fd_close_file _ w.1).
  - exact (fd_munmap t w.1).
Qed.

#[export] Instance pair_login_laws {llaws : LoginFdLaws W} : LoginFdLaws (W * process E).
Proof.
  constructor; intros; try apply lift_fds.
  - simpl in H. unfold lift in H. destruct (os_socket w.1) as [r1 w1] eqn:Hs. injection H as <- <-. exact (fd_socket w.1 _ _ Hs).
  - simpl in H. unfold lift in H. destruct (os_accept fd w.1) as [r1 w1] eqn:Hs. injection H as <- <-. exact (fd_accept fd w.1 _ _ Hs).
  - apply fd_setsockopt.
  - apply fd_bind.
  - apply fd_listen.
  - apply fd_connect.
  - exact (fd_set_nonblock fd w.1).
  - apply fd_send_login.
  - apply fd_recv_login.
  - apply fd_send_rsp.
  - apply fd_recv_rsp.
  - exact (fd_mkdir d w.1).
Qed.

#[export] Instance pair_process : Process E (W * process E) := {
  the_process w := w.2;
  set_process p w := (w.1, p);
  clock _ := 7;
  set_login_time w := (100, w)
}.

#[export] Instance pair_process_laws : ProcessLaws E (W * process E).
Proof. by constructor. Qed.
End pair.

