(* ===== verification/ClientEnd.v ===== *)
(** * A client whose server falls silent

    The loop of a client program over TCP ends when the server is silent for
    longer than [ConnectionTimeout] ([loop_tcp_ends]), for every program whose
    [PollNum] leaves a waiting connection waiting. *)

From S2P Require Import Prelude.
From S2P Require Import Arrays.
From S2P Require Import MsgHeader.
From S2P Require Import PtcpQueue.
From S2P Require SpscQueue.
From S2P Require Import Platform.
From S2P Require PtcpConn.
From S2P Require Import Silence.
From S2P Require Import TcpShmConn.
From S2P Require Import Login.
From S2P Require Import Client.
From S2P Require Import EchoClient.
From S2P Require Import ClientRun.

(** Nothing comes in, and the process is running. *)
Class QuietProcess {E W : Type} {os : Os W} {proc : Process E W} (quiet : W → Prop) : Prop := {
  quiet_silent :: Silent quiet;
  quiet_running w : quiet w → pr_end (the_process w) = Running;
  quiet_set e w : quiet w → quiet (set_process (mkProcess e Running) w)
}.

Section ends.
Context {conf : Conf} {ud : UserData} {W : Type} {os : Os W} {log : OsLog W} {laws : OsLaws W}.
Context {los : LoginOs W} {E : Type} {proc : Process E W} {user : ClientUser W}.
Context (HC : Conf_ok) (quiet : W → Prop) {qp : QuietProcess quiet}.
Context (Hdis : ∀ reason e w, quiet w → quiet (OnDisconnected reason e w)).
Context (PollNum : E → TcpShmConnection → W → outcome (bool * E * TcpShmConnection * W)).

(** A connection over TCP that waits. *)
Definition waits (R : Z) (c : TcpShmConnection) : Prop := shm_sendq_ c = None ∧ waiting true R (ptcp_conn_ c).

Context (Hpoll : ∀ e c w R, waits R c → quiet w →
  ∃ r e' c' w', PollNum e c w = Ret (r, e', c', w') ∧ waits R c' ∧ quiet w').

Lemma PollTcp_tail R c t w :
  waits R t → quiet w →
  ∃ c' w', (let '(closed, t, w) := TryCloseFd t w in
            let c := set_conn c t in
            if closed : bool then let '(reason, sys_errno) := GetCloseReason t in Ret (c, OnDisconnected reason sys_errno w)
            else Ret (c, w)) = Ret (c', w') ∧
    waits R (conn_ c') ∧ quiet w' ∧ IsClosed (conn_ c') = IsClosed t.
Proof.
  intros [Hs Hc] Hw. unfold TryCloseFd. destruct (PtcpConn.TryCloseFd _ _) as [[b t1] w1] eqn:Ht.
  destruct (TryCloseFd_waiting quiet true R _ _ _ _ _ Ht Hc Hw) as (Hc1 & Hw1 & Hcl). destruct b.
  - destruct (GetCloseReason (set_ptcp_conn t t1)) as [reason e]. eexists _, _. split; [done|].
    split_and!; [by split|by apply Hdis|done].
  - eexists _, _. split; [done|]. by split_and!.
Qed.

Lemma PollTcp_waits R c now w :
  waits R (conn_ c) → quiet w →
  ∃ c' w', PollTcp c now w = Ret (c', w') ∧ waits R (conn_ c') ∧ quiet w' ∧
    (IsClosed (conn_ c) = true ∨ ConnectionTimeout < now - R → IsClosed (conn_ c') = true).
Proof.
  intros [Hs Hc] Hw. unfold PollTcp. destruct (IsClosed (conn_ c)) eqn:Hcl; simpl.
  - destruct (PollTcp_tail R c (conn_ c) w) as (c' & w' & H & Hc' & Hw' & Hcl'); [done..|].
    exists c', w'. split; [exact H|]. split_and!; [apply Hc'..|done|by rewrite Hcl'].
  - destruct (TcpFront_waiting HC quiet true R (conn_ c) now w Hc Hw) as (t & w1 & -> & Hc1 & Hw1 & Hto).
    rewrite !outcome_bind_Ret. destruct (PollTcp_tail R c (set_ptcp_conn (conn_ c) t) w1) as (c' & w' & H & Hc' & Hw' & Hcl'); [done..|].
    exists c', w'. split; [exact H|]. split_and!; [apply Hc'..|done|]. rewrite Hcl'. intros [?|Ht]; [done|]. by apply Hto.
Qed.

Lemma Close_waits R c : waits R c → waits R (Close c) ∧ IsClosed (Close c) = true.
Proof.
  intros [Hs Hc]. split; [split; [done|by apply waiting_Close]|]. apply PtcpConnSend.IsClosed_Close.
Qed.

(** An iteration: the loop is left with the connection closed, or goes on, and
    is left in the next one when the time is up. *)
Lemma num_turn_waits R c now w :
  waits R (conn_ c) → quiet w →
  ∃ b c' w', num_turn PollNum (λ c w, PollTcp c now w) c w = Ret (Continue (b, c', w')) ∧ waits R (conn_ c') ∧ quiet w' ∧
    (b = true → IsClosed (conn_ c') = true) ∧ (ConnectionTimeout < now - R → IsClosed (conn_ c') = true).
Proof.
  intros Hc Hw. unfold num_turn. destruct (IsClosed (conn_ c)) eqn:Hcl; [by exists true, c, w|].
  destruct (Hpoll (pr_client (the_process w)) (conn_ c) w R Hc Hw) as (r & e' & conn & w1 & -> & Hc1 & Hw1).
  rewrite outcome_bind_Ret. pose proof (quiet_set e' w1 Hw1) as Hw2. destruct r.
  { eexists true, _, _. split; [done|]. by destruct (Close_waits R conn Hc1) as [? ?]. }
  destruct (PollTcp_waits R (set_conn c conn) now _ Hc1 Hw2) as (c2 & w3 & -> & Hc2 & Hw3 & Hto). rewrite outcome_bind_Ret.
  unfold alive. rewrite (quiet_running _ Hw3). eexists false, _, _. split; [done|]. split_and!; [apply Hc2..|done|done|].
  intros Ht. apply Hto. by right.
Qed.

Lemma loop_tcp_closed now times c w : IsClosed (conn_ c) = true → loop_tcp PollNum (now :: times) c w = Ret (Continue (c, w)).
Proof. intros Hcl. cbn [loop_tcp]. unfold num_turn. by rewrite Hcl. Qed.

(** [R]: when the last bytes came; the clock is read at the times [times],
    one of which is late enough, and once more. *)
Lemma loop_tcp_ends R times last : ∀ c w,
  waits R (conn_ c) → quiet w → Exists (λ now, ConnectionTimeout < now - R) times →
  ∃ c' w', loop_tcp PollNum (times ++ [last]) c w = Ret (Continue (c', w')) ∧ IsClosed (conn_ c') = true ∧ quiet w'.
Proof.
  induction times as [|now times IH]; intros c w Hc Hw Ht; [by apply Exists_nil in Ht|].
  destruct (num_turn_waits R c now w Hc Hw) as (b & c1 & w1 & Hturn & Hc1 & Hw1 & Hb & Hto).
  simpl. rewrite Hturn, outcome_bind_Ret. destruct b; [by exists c1, w1; auto|].
  apply Exists_cons in Ht as [Ht|Ht]; [|by apply IH]. exists c1, w1. specialize (Hto Ht).
  split; [|by split]. destruct times; by apply loop_tcp_closed.
Qed.
End ends.
