(* ===== verification/EchoServerRun.v ===== *)
(** * The process of the echo server ([test/echo_server.cpp])

    [serving] is the object [EchoServer] with its threads: the control and
    polling threads of [ServerThreads], each in a loop that looks at
    [stopped] before it calls [PollCtl], [PollTcp] or [PollShm] again.  [Run]
    and [main] are those of [ServerRun] with these threads. *)

From S2P Require Import Prelude.
From S2P Require Import Arrays.
From S2P Require Import MsgHeader.
From S2P Require Import PtcpQueue.
From S2P Require SpscQueue.
From S2P Require Import Platform.
From S2P Require PtcpConn.
From S2P Require Import TcpShmConn.
From S2P Require Import Login.
From S2P Require Import Server.
From S2P Require Import ServerThreads.
From S2P Require Import ServerRun.
From S2P Require Import EchoServer.

(** Whose turn it is; [SSignal]: [SignalHandler] runs. *)
Inductive serving_turn := STurn (tn : turn) | SSignal.

Section serving.
Context {conf : Conf} {ud : UserData} {W : Type} {os : Os W}.
Context {mmq : MmapOs W PTCPQueue} {mms : MmapOs W SpscQueue.SPSCVarQueue}.
Context {los : LoginOs W}.
Context (hash : list Z → Z).  (* std::hash<std::string>, a size_t *)
Context (stack_header : MsgHeader) (stack_rsp : LoginRspMsg).

Record serving := mkServing { sv_threads : threads; sv_stopped : bool }.

#[local] Instance user : ServerUser W := EchoServer_user hash.

(** The thread is at the condition of its [while(!stopped)]. *)
Definition at_while (tn : turn) (t : threads) : bool :=
  match tn with
  | TurnCtl _ => match t_ctl t with CtlIdle => true | _ => false end
  | TurnPoll n _ _ => match p_pc <$> t_poll t !! n with Some PollIdle => true | _ => false end
  end.

Definition serving_step (tn : serving_turn) (m : serving) (w : W) : outcome (serving * W) :=
  match tn with
  | STurn tn =>
      if at_while tn (sv_threads m) && sv_stopped m then Ret (m, w)
      else
        '(t, w) ← turn_step stack_header stack_rsp tn (sv_threads m) w;
        Ret (mkServing t (sv_stopped m), w)
  | SSignal => Ret (mkServing (sv_threads m) true, w)
  end.

Fixpoint run_serving (l : list serving_turn) (m : serving) (w : W) : outcome (serving * W) :=
  match l with
  | [] => Ret (m, w)
  | tn :: l => '(m, w) ← serving_step tn m w; run_serving l m w
  end.

Definition start_serving (s : TcpShmServer) : serving := mkServing (start_threads s Run_groups) false.

(** Every thread has left its loop. *)
Definition joined (m : serving) : bool := sv_stopped m && threads_idle (sv_threads m).

Definition Run (listen_ipv4 : list Z) (listen_port : Z) (l : list serving_turn) :=
  ServerRun.Run start_serving sv_threads (run_serving l) joined listen_ipv4 listen_port.

Definition main (junk_name : list Z) (junk_conn : NewConn) (l : list serving_turn) :=
  ServerRun.main start_serving sv_threads (run_serving l) joined junk_name junk_conn.
End serving.
