(* ===== verification/EchoServerProps.v ===== *)
(** * Properties of the echo server's process

    Its threads are those of [tcpshm_server.h] ([serving_refine]); [main]
    leaves no socket ([echo_server_main]). *)

From stdpp Require Import gmap.
From S2P Require Import Prelude.
From S2P Require Import Arrays.
From S2P Require Import MsgHeader.
From S2P Require Import PtcpQueue.
From S2P Require SpscQueue.
From S2P Require Import Platform.
From S2P Require PtcpConn.
From S2P Require Import Scripted.
From S2P Require Import TcpShmConn.
From S2P Require Import Login.
From S2P Require Import Server.
From S2P Require Import Descriptors.
From S2P Require Import ServerTable.
From S2P Require Import ServerInv.
From S2P Require Import ServerThreads.
From S2P Require Import ThreadsInv.
From S2P Require Import ThreadsEnd.
From S2P Require Import ThreadsCalls.
From S2P Require Import ServerListen.
From S2P Require Import ScriptedNet.
From S2P Require ServerProps.
From S2P Require Import ServerRun.
From S2P Require Import ServerRunProps.
From S2P Require Import EchoServer.
From S2P Require Import EchoServerRun.

Section props.
Context {conf : Conf} {ud : UserData} {W : Type} {os : Os W}.
Context {mmq : MmapOs W PTCPQueue} {mms : MmapOs W SpscQueue.SPSCVarQueue}.
Context {los : LoginOs W}.
Context {fv : FdView W} {laws : FdLaws W} {llaws : LoginFdLaws W}.
Context {qlaws : MmapFdLaws W PTCPQueue} {slaws : MmapFdLaws W SpscQueue.SPSCVarQueue}.
Context (HN : 1 < NameSize) (Hconf : ServerConf_ok).
Context (hash : list Z → Z) (stack_header : MsgHeader) (stack_rsp : LoginRspMsg).
#[local] Existing Instance EchoServer_user.
#[local] Instance ulaws : @ServerUserLaws W conf ud los (EchoServer_user hash) os mmq mms fv := EchoServer_laws hash.
Implicit Types (s : TcpShmServer) (w : W) (m : serving).
Abbreviation sreach := (threads_reach (user := EchoServer_user hash) stack_header stack_rsp).
Abbreviation run := (run_serving hash stack_header stack_rsp).

Lemma serving_step_reach s0 w0 groups tn m w m' w' :
  sreach s0 w0 groups (sv_threads m) w → serving_step hash stack_header stack_rsp tn m w = Ret (m', w') →
  sreach s0 w0 groups (sv_threads m') w'.
Proof.
  intros Hr H. destruct tn as [tn|]; simpl in H; [|by run H].
  destruct (_ && _); [by run H|]. run H. destruct r as [t w1]. run H.
  eapply tr_step; [exact Hr|]. by eapply ts_turn.
Qed.

(** Whatever the order of its turns, a run of the echo server is a run of
    the threads of [tcpshm_server.h] with its groups. *)
Lemma serving_refine s0 w0 l : ∀ m w, run l (start_serving s0) w0 = Ret (m, w) → sreach s0 w0 Run_groups (sv_threads m) w.
Proof.
  assert (∀ m0 w1 m w, sreach s0 w0 Run_groups (sv_threads m0) w1 → run l m0 w1 = Ret (m, w) →
    sreach s0 w0 Run_groups (sv_threads m) w) as Hgen; [|intros m w; apply Hgen, tr_start].
  induction l as [|tn l IH]; intros m0 w1 m w Hr H; simpl in H; [by run H|]. run H. destruct r as [m1 w2].
  eapply IH; [|exact H]. by eapply serving_step_reach.
Qed.

Lemma serving_joined_todo m : joined m = true → t_todo (sv_threads m) = [].
Proof. unfold joined, threads_idle. by destruct (sv_stopped m), (t_ctl (sv_threads m)), (t_todo (sv_threads m)). Qed.

(** When [main] of the echo server returns, whatever its threads did
    meanwhile and whether or not [Start] succeeded, no socket is open; when it
    did, every connection is closed and forgotten. *)
Theorem echo_server_main junk_name junk_conn l w r s w' :
  open_fds w = ∅ → main hash stack_header stack_rsp junk_name junk_conn l w = Ret (r, s, w') →
  open_fds w' = ∅ ∧ (is_Some r → Forall (grp_stopped (conn_pool_ s)) (all_grps s)).
Proof.
  apply (main_stops (user := EchoServer_user hash) HN Hconf stack_header stack_rsp start_serving sv_threads (run l) joined).
  - intros s0 w0. apply serving_refine.
  - apply serving_joined_todo.
Qed.
(** ** The end of the process *)

(** The turns of the threads. *)
Definition turns_of (l : list serving_turn) : list turn := omap (λ tn, match tn with STurn tn => Some tn | SSignal => None end) l.

Lemma at_while_outside tn (t : threads) x : turn_of x tn = true → at_while tn t = true → outside x t.
Proof.
  destruct x as [n|], tn as [now|n' now reload]; simpl; try done.
  - intros <-%bool_decide_eq_true. destruct (t_poll t !! n) as [p|]; simpl; [|done]. by destruct (p_pc p).
  - by destruct (t_ctl t).
Qed.

Lemma all_outside (s0 : TcpShmServer) m :
  turns_ok (members s0) (sv_threads m) → sv_stopped m = true → (∀ x, outside x (sv_threads m)) → joined m = true.
Proof.
  intros [Hi _ _] Hst Hout. unfold joined, threads_idle. rewrite Hst. pose proof (Hout None) as Hc. simpl in Hc.
  rewrite Hc, (Hi Hc). simpl. apply forallb_forall. intros p Hp. apply list_elem_of_In, list_elem_of_lookup in Hp as [n Hn].
  specialize (Hout (Some n)). simpl in Hout. rewrite Hn in Hout. by rewrite Hout.
Qed.

(** From [m] on, in the turns [l], a thread comes to a call that is stuck. *)
Definition serving_stuck l m w : Prop :=
  ∃ l1 tn l2 m1 w1, l = l1 ++ STurn tn :: l2 ∧ run l1 m w = Ret (m1, w1) ∧
    call_stuck (user := EchoServer_user hash) stack_header stack_rsp tn (sv_threads m1) w1.

Lemma serving_stuck_turn tn l m w m1 w1 :
  serving_step hash stack_header stack_rsp tn m w = Ret (m1, w1) → serving_stuck l m1 w1 → serving_stuck (tn :: l) m w.
Proof.
  intros H (l1 & tn' & l2 & m2 & w2 & -> & Hr & Hst). exists (tn :: l1), tn', l2, m2, w2. split_and!; [done| |done].
  simpl. by rewrite H, outcome_bind_Ret.
Qed.

(** A turn behind the signal: the thread stays outside, or its call is stuck,
    or the turn ends and brings the thread nearer to its end. *)
Lemma serving_turn_leaves s0 w0 tn m w :
  server_inv s0 w0 → groups_ok s0 Run_groups → sreach s0 w0 Run_groups (sv_threads m) w → sv_stopped m = true →
  call_stuck (user := EchoServer_user hash) stack_header stack_rsp tn (sv_threads m) w ∨
  ∃ m1 w1, serving_step hash stack_header stack_rsp (STurn tn) m w = Ret (m1, w1) ∧ sv_stopped m1 = true ∧
    ∀ x, turns_left (members s0) x (sv_threads m1) ≤
         Z.max 0 (turns_left (members s0) x (sv_threads m) - if turn_of x tn then 1 else 0).
Proof.
  intros Hs0 Hg Hr Hst. pose proof (threads_reach_turns HN _ _ _ _ _ _ _ Hs0 Hg Hr) as Hok.
  pose proof (threads_reach_pc HN _ _ _ _ _ _ _ Hs0 Hg Hr) as Hpc.
  assert (threads_inv (members s0) (sv_threads m) w) as Ht by by apply (threads_reach_inv (user := EchoServer_user hash) HN stack_header stack_rsp s0 w0 Run_groups).
  simpl. rewrite Hst. destruct (at_while tn (sv_threads m)) eqn:Ha; simpl.
  { right. exists m, w. do 2 (split; [done|]). intros x. destruct (turn_of x tn) eqn:Hx; [|lia].
    rewrite (outside_turns_left _ _ _ Hok (at_while_outside _ _ _ Hx Ha)). lia. }
  destruct (turn_returns (user := EchoServer_user hash) HN stack_header stack_rsp (members s0) tn _ _ Ht Hpc) as [?|(t1 & w1 & Hrun & _)]; [by left|right].
  unfold user. rewrite Hrun, outcome_bind_Ret. eexists _, w1. do 2 (split; [done|]). intros x. cbn [sv_threads].
  destruct (turn_left _ _ _ _ _ _ _ _ Ht Hok Hrun) as [Hok1 Hx]. specialize (Hx x).
  destruct (turn_of x tn) eqn:Htx; [|lia]. destruct Hx as [Hout|Hx]; [|lia].
  destruct x as [n|], tn as [now|n' now reload]; simpl in *; try done; [|by rewrite Hout in Ha].
  apply bool_decide_eq_true in Htx as <-. destruct (t_poll (sv_threads m) !! n) as [p|] eqn:Hn; [by simpl in Ha; rewrite Hout in Ha|].
  run Hrun. rewrite Hn. lia.
Qed.

(** Behind the signal a thread that is outside stays there, and the others
    use up the turns of the calls they are in. *)
Lemma serving_leaves s0 w0 l : ∀ m w,
  server_inv s0 w0 → groups_ok s0 Run_groups → sreach s0 w0 Run_groups (sv_threads m) w → sv_stopped m = true →
  (∀ x, turns_left (members s0) x (sv_threads m) ≤ own_turns x (turns_of l)) →
  (∃ m' w', run l m w = Ret (m', w') ∧ joined m' = true) ∨ serving_stuck l m w.
Proof.
  induction l as [|tn l IH]; intros m w Hs0 Hg Hr Hst Hle.
  { left. exists m, w. split; [done|]. pose proof (threads_reach_turns HN _ _ _ _ _ _ _ Hs0 Hg Hr) as Hok.
    eapply all_outside; [exact Hok|done|]. intros x. eapply turns_left_outside; [exact Hok|apply Hle]. }
  assert (∀ m1 w1, serving_step hash stack_header stack_rsp tn m w = Ret (m1, w1) → sv_stopped m1 = true →
    (∀ x, turns_left (members s0) x (sv_threads m1) ≤ own_turns x (turns_of l)) →
    (∃ m' w', run (tn :: l) m w = Ret (m', w') ∧ joined m' = true) ∨ serving_stuck (tn :: l) m w) as Hnext.
  { intros m1 w1 Hs Hst1 Hle1. destruct (IH m1 w1) as [(m' & w' & H & Hj)|H]; [done..|by eapply serving_step_reach|done|done| |].
    - left. exists m', w'. split; [|done]. simpl. by rewrite Hs, outcome_bind_Ret.
    - right. by eapply serving_stuck_turn. }
  destruct tn as [tn|]; [|by eapply Hnext].
  destruct (serving_turn_leaves _ _ tn _ _ Hs0 Hg Hr Hst) as [?|(m1 & w1 & Hs & Hst1 & Hl)]; [by right; exists [], tn, l, m, w|].
  eapply Hnext; [exact Hs|done|]. intros x. specialize (Hle x). specialize (Hl x). pose proof (own_turns_pos x (turns_of l)).
  change (turns_of (STurn tn :: l)) with (tn :: turns_of l) in Hle. simpl in Hle. lia.
Qed.

Lemma run_serving_app l1 l2 : ∀ m w m1 w1,
  run l1 m w = Ret (m1, w1) → run (l1 ++ l2) m w = run l2 m1 w1.
Proof.
  induction l1 as [|tn l1 IH]; intros m w m1 w1 H; simpl in *; [by run H|]. run H. destruct r as [m2 w2].
  rewrite Hrun, outcome_bind_Ret. by apply IH.
Qed.

Lemma stuck_at_while tn (t : threads) w :
  call_stuck (user := EchoServer_user hash) stack_header stack_rsp tn t w → at_while tn t = false.
Proof.
  destruct tn as [now|n now reload]; simpl; [by destruct (t_ctl t); [intros [_ []]|..]|].
  intros (p & -> & H). simpl. by destruct (p_pc p).
Qed.

(** In a run to the end no call is stuck. *)
Lemma returned_not_stuck l1 tn l2 m w m1 w1 r :
  run (l1 ++ STurn tn :: l2) m w = Ret r → run l1 m w = Ret (m1, w1) →
  ¬ call_stuck (user := EchoServer_user hash) stack_header stack_rsp tn (sv_threads m1) w1.
Proof.
  intros H H1 Hst. rewrite (run_serving_app _ _ _ _ _ _ H1) in H. simpl in H. rewrite (stuck_at_while _ _ _ Hst) in H. simpl in H.
  apply stuck_no_result in Hst. unfold user in H. by destruct (turn_step _ _ _ _ _).
Qed.

(** C14: [Run] of the echo server returns after the signal, unless something
    that a thread calls does not return: [l] brings the started server to any
    point, the handler of the signal runs, and then in any order of turns [l']
    in which each thread gets as many turns as its longest call has
    ([call_turns]) every thread leaves its loop, [Stop] returns and no socket is
    left open; or [l'] comes to a turn in which [HandleLogin] of a login that
    arrived, [TcpFront] or [ShmFront] of a connection, or a callback has no
    result ([call_stuck]). *)
Theorem echo_server_returns s w ip port s0 w0 l l' m w' :
  started (user := EchoServer_user hash) stack_header stack_rsp s0 w0 →
  Start (user := EchoServer_user hash) s ip port w = (true, s0, w0) →
  run l (start_serving s0) w0 = Ret (m, w') →
  (∀ x, call_turns (members s0) Run_groups x ≤ own_turns x (turns_of l')) →
  (∃ m' s' w'', Run hash stack_header stack_rsp ip port (l ++ SSignal :: l') s w = Ret (Some m', s', w'') ∧ open_fds w'' = ∅) ∨
  (∃ l1 tn l2 m1 w1, l' = l1 ++ STurn tn :: l2 ∧ run (l ++ SSignal :: l1) (start_serving s0) w0 = Ret (m1, w1) ∧
     call_stuck (user := EchoServer_user hash) stack_header stack_rsp tn (sv_threads m1) w1).
Proof.
  intros Hs Hst H Hle. pose proof (started_inv (user := EchoServer_user hash) HN Hconf _ _ _ _ Hs) as Hinv.
  pose proof (st_groups _ _ _ _ Hs) as Hg. pose proof (serving_refine _ _ _ _ _ H) as Hr0.
  destruct (serving_leaves s0 w0 l' (mkServing (sv_threads m) true) w') as [(m1 & w1 & H1 & Hj)|Hno]; try done.
  { intros x. simpl. pose proof (threads_reach_turns HN _ _ _ _ _ _ _ Hinv Hg Hr0) as Hok.
    pose proof (turns_left_le _ x _ Hok) as Hl. rewrite (threads_reach_groups _ _ _ _ _ _ _ Hr0) in Hl. specialize (Hle x). lia. }
  2: { right. destruct Hno as (l1 & tn & l2 & m1 & w1 & -> & H1 & Hno). exists l1, tn, l2, m1, w1. split_and!; [done| |done].
       by rewrite (run_serving_app _ _ _ _ _ _ H). }
  left. assert (run (l ++ SSignal :: l') (start_serving s0) w0 = Ret (m1, w1)) as Hrun
    by by rewrite (run_serving_app _ _ _ _ _ _ H).
  pose proof (serving_refine _ _ _ _ _ Hrun) as Hr.
  assert (threads_inv (members s0) (sv_threads m1) w1) as Ht
    by by apply (threads_reach_inv (user := EchoServer_user hash) HN stack_header stack_rsp s0 w0 Run_groups).
  destruct (inv_no_todo _ _ _ Ht (serving_joined_todo _ Hj)) as [Hi _]. destruct (Stop_total _ _ Hi) as (s' & w'' & Hstop).
  exists m1, s', w''. split; [unfold Run, ServerRun.Run, user; rewrite Hst; simpl; by rewrite Hrun, outcome_bind_Ret, Hj, Hstop|].
  destruct (Stop_ok _ _ _ _ Hi Hstop) as [_ Hok]. apply Hok.
  rewrite (thread_listenfd _ _ _ _ _ _ _ Hr). by destruct Hs.
Qed.
End props.

(** ** A run

    "bob" is in the middle of his login when the process gets its signal. *)

#[local] Existing Instance ex_conf.

Definition ex_hash (name : list Z) : Z := foldr Z.add 0 name.
Definition ex_before : list serving_turn := STurn <$> replicate 3 (TurnCtl 5) ++ replicate 2 (TurnPoll 0 6 false).
Definition ex_after : list serving_turn :=
  STurn <$> concat (replicate 7 (replicate 5 (TurnCtl 7) ++ [TurnPoll 0 7 true; TurnPoll 1 7 false])).

Abbreviation ex_new := (new_TcpShmServer (chars "server") (chars "server") (ServerProps.zeros 16) ServerProps.ex_new_conn ServerProps.ex_net).
Abbreviation ex_main l := (main ex_hash ServerProps.ex_header ServerProps.ex_rsp (ServerProps.zeros 16) ServerProps.ex_new_conn l ServerProps.ex_net).
Abbreviation ex_Start s w := (Start (user := EchoServer_user ex_hash) s (chars "0.0.0.0") 12345 w).
Abbreviation ex_run l s w := (run_serving ex_hash ServerProps.ex_header ServerProps.ex_rsp l (start_serving s) w).

Lemma ex_echo_main_returns : ∃ m s w, ex_main (ex_before ++ SSignal :: ex_after) = Ret (Some m, s, w) ∧ live_cnt <$> tcp_grps_ (t_srv (sv_threads m)) = [1].
Proof.
  assert (match ex_main (ex_before ++ SSignal :: ex_after) with
          | Ret (Some m, _, _) => bool_decide (live_cnt <$> tcp_grps_ (t_srv (sv_threads m)) = [1]) | _ => false end = true) as Hc
    by (vm_compute; reflexivity).
  destruct (ex_main _) as [[[[m|] s] w]| |]; try discriminate Hc. apply bool_decide_eq_true in Hc.
  exists m, s, w. split; [reflexivity|exact Hc].
Qed.

Lemma echo_server_main_witness :
  ∃ m s w', ex_main (ex_before ++ SSignal :: ex_after) = Ret (Some m, s, w') ∧ live_cnt <$> tcp_grps_ (t_srv (sv_threads m)) = [1] ∧
    open_fds w' = ∅.
Proof.
  destruct ex_echo_main_returns as (m & s & w & Hm & Hl). exists m, s, w. split; [exact Hm|]. split; [exact Hl|].
  exact (proj1 (echo_server_main ex_name_size ServerProps.ex_conf_server ex_hash ServerProps.ex_header ServerProps.ex_rsp
    _ _ _ ServerProps.ex_net (Some m) s w eq_refl Hm)).
Defined.

Lemma ex_started_returns :
  ∃ s w s0 w0 m w' m1 w1, started (user := EchoServer_user ex_hash) ServerProps.ex_header ServerProps.ex_rsp s0 w0 ∧
    ex_Start s w = (true, s0, w0) ∧ ex_run ex_before s0 w0 = Ret (m1, w1) ∧ ex_run (ex_before ++ SSignal :: ex_after) s0 w0 = Ret (m, w') ∧
    bool_decide (ctl_turns (members s0) ≤ 35 ∧ poll_turns (members s0) false 0 ≤ 7 ∧ poll_turns (members s0) true 0 ≤ 7) = true.
Proof.
  set (r := '(s, w) ← ex_new; let '(b, s0, w0) := ex_Start s w in
    '(m1, w1) ← ex_run ex_before s0 w0; '(m, w') ← ex_run (ex_before ++ SSignal :: ex_after) s0 w0; Ret (b, s0, m)).
  assert (match r with Ret (b, s0, _) => b && bool_decide (ctl_turns (members s0) ≤ 35 ∧ poll_turns (members s0) false 0 ≤ 7 ∧
    poll_turns (members s0) true 0 ≤ 7) | _ => false end = true) as Hc by (vm_compute; reflexivity).
  destruct r as [[[b s0] m]| |] eqn:Hr; [|discriminate Hc..]. apply andb_true_iff in Hc as [-> Hc].
  unfold r in Hr. destruct ex_new as [[s w]| |] eqn:Hn; [|discriminate Hr..]. rewrite outcome_bind_Ret in Hr.
  destruct (ex_Start s w) as [[b s1] w1] eqn:Hst. run Hr. destruct r0 as [m1 w2]. run Hr. destruct r0 as [m2 w3]. run Hr.
  exists s, w, s0, w1, m, w3, m1, w2. split; [|split; [exact Hst|split; [exact Hrun|split; [exact Hrun0|exact Hc]]]].
  exact (new_started (user := EchoServer_user ex_hash) ServerProps.ex_conf_server ServerProps.ex_header ServerProps.ex_rsp
    _ _ _ _ ServerProps.ex_net s w _ _ s0 w1 eq_refl Hn Hst).
Qed.

Lemma ex_after_enough M x :
  ctl_turns M ≤ 35 ∧ poll_turns M false 0 ≤ 7 ∧ poll_turns M true 0 ≤ 7 → call_turns M Run_groups x ≤ own_turns x (turns_of ex_after).
Proof.
  intros (H1 & H2 & H3). destruct x as [[|[|n]]|].
  - etrans; [exact H2|]. vm_compute. discriminate.
  - etrans; [exact H3|]. vm_compute. discriminate.
  - apply own_turns_pos.
  - etrans; [exact H1|]. vm_compute. discriminate.
Qed.

Lemma echo_server_returns_witness :
  ∃ s w m s' w'', Run ex_hash ServerProps.ex_header ServerProps.ex_rsp (chars "0.0.0.0") 12345 (ex_before ++ SSignal :: ex_after) s w =
    Ret (Some m, s', w'') ∧ open_fds w'' = ∅.
Proof.
  destruct ex_started_returns as (s & w & s0 & w0 & m & w' & m1 & w1 & Hs & Hst & Hr1 & Hr & Hb). apply bool_decide_eq_true in Hb.
  exists s, w.
  destruct (echo_server_returns ex_name_size ServerProps.ex_conf_server ex_hash ServerProps.ex_header ServerProps.ex_rsp
    s w (chars "0.0.0.0") 12345 s0 w0 ex_before ex_after m1 w1 Hs Hst Hr1 (λ x, ex_after_enough _ x Hb))
    as [H|(l1 & tn & l2 & m2 & w2 & He & H2 & Hno)]; [exact H|exfalso].
  refine (returned_not_stuck ex_hash _ _ (ex_before ++ SSignal :: l1) tn l2 _ _ _ _ _ _ H2 Hno).
  rewrite <-app_assoc. simpl. rewrite <-He. exact Hr.
Defined.
