(* ===== verification/EchoClientRun.v ===== *)
(** * The process of the echo client ([test/echo_client.cpp])

    [ClientRun] with the callbacks and the [PollNum] of the class [EchoClient]
    of [test/].  The numbers go on from what the mapped files hold; [PollNum]
    sends the next number. *)

From stdpp Require Import gmap.
From S2P Require Import Prelude.
From S2P Require Import Arrays.
From S2P Require Import MsgHeader.
From S2P Require Import PtcpQueue.
From S2P Require SpscQueue.
From S2P Require Import Platform.
From S2P Require PtcpConn.
From S2P Require Import TcpShmConn.
From S2P Require Import Login.
From S2P Require Import Client.
From S2P Require Import UserMem.
From S2P Require Import EchoClient.
From S2P Require Import ClientRun.

Section client.
Context {conf : Conf} {ud : UserData} {W : Type} {os : Os W}.
Context {mmq : MmapOs W PTCPQueue} {mms : MmapOs W SpscQueue.SPSCVarQueue}.
Context {mmn : MmapOs W (list Z)} {mmi : MmapOs W Z}.
Context {los : LoginOs W} {proc : Process EchoClient W}.
Context (stack_login : LoginMsg) (login_user_data : LoginUserData).
Context (price : bool → Z → list Z).

Definition OnServerMsg (conn : TcpShmConnection) (p : Z) (w : W) : outcome (TcpShmConnection * W) :=
  r ← EchoClient.OnServerMsg (pr_client (the_process w)) conn p;
  Ret (handled r conn w).

(** The other callbacks print. *)
Definition EchoClient_user : ClientUser W := {|
  OnSystemError _ _ w := w;
  OnLoginReject _ w := w;
  OnLoginSuccess _ w := set_login_time w;
  OnSeqNumberMismatch _ _ w := w;
  Client.OnServerMsg := OnServerMsg;
  OnDisconnected _ _ w := w
|}.

#[local] Existing Instance EchoClient_user.

(** The numbers in the files are taken up. *)
Definition start (e : EchoClient) (send_num recv_num : Z) : EchoClient :=
  mkEchoClient (msg_sent e) (slow e) send_num recv_num.

Definition Run := ClientRun.Run (PollNum price) start stack_login login_user_data.

Definition main := ClientRun.main (PollNum price) start stack_login login_user_data.
End client.
