(* ===== verification/EchoClientProps.v ===== *)
(** * Properties of the echo client's process *)

From stdpp Require Import gmap.
From S2P Require Import Prelude.
From S2P Require Import Arrays.
From S2P Require Import MsgHeader.
From S2P Require Import PtcpQueue.
From S2P Require SpscQueue.
From S2P Require Import Platform.
From S2P Require PtcpConn.
From S2P Require Import PtcpQueueInv.
From S2P Require Import PtcpQueueSpec.
From S2P Require Import Framing.
From S2P Require Import PtcpConnRecv.
From S2P Require Import Silence.
From S2P Require Link.
From S2P Require LinkStep.
From S2P Require Import Scripted.
From S2P Require Import TcpShmConn.
From S2P Require Import Login.
From S2P Require Import Client.
From S2P Require Import Descriptors.
From S2P Require Import ClientInv.
From S2P Require Import ScriptedNet.
From S2P Require PtcpConnProps.
From S2P Require ClientProps.
From S2P Require Import UserMem.
From S2P Require EchoServer.
From S2P Require Import EchoClient.
From S2P Require Import ClientRun.
From S2P Require Import ClientRunProps.
From S2P Require Import ClientEnd.
From S2P Require Import EchoLink.
From S2P Require Import EchoClientRun.

Section props.
Context {conf : Conf} {ud : UserData} {W : Type} {os : Os W}.
Context {mmq : MmapOs W PTCPQueue} {mms : MmapOs W SpscQueue.SPSCVarQueue}.
Context {mmn : MmapOs W (list Z)} {mmi : MmapOs W Z}.
Context {los : LoginOs W} {proc : Process EchoClient W}.
Context {fv : FdView W} {laws : FdLaws W} {llaws : LoginFdLaws W} {plaws : ProcessLaws EchoClient W}.
Context {qlaws : MmapFdLaws W PTCPQueue} {slaws : MmapFdLaws W SpscQueue.SPSCVarQueue}.
Context {nlaws : MmapFdLaws W (list Z)} {ilaws : MmapFdLaws W Z}.
Context (HN : 1 < NameSize).
Context (stack_login : LoginMsg) (login_user_data : LoginUserData).
Context (price : bool → Z → list Z).
#[local] Existing Instance EchoClient_user.

Lemma PollNum_calls (e : EchoClient) (c : TcpShmConnection) (w : W) r e' c' w' :
  PollNum price e c w = Ret (r, e', c', w') → user_calls c w c' w'.
Proof.
  unfold PollNum, TrySendMarketDepthMsg. intros H. destruct (_ <? _); [|run H; apply calls_done].
  destruct (_ && _); [run H; apply calls_done|]. run H. destruct r0 as [[[r0 e0] c0] w0]. run H.
  run Hrun. match goal with Ha : Alloc _ _ = Ret ?x |- _ => destruct x as [[p|] c1] end; [|run Hrun; eapply calls_next; [by eapply call_Alloc|apply calls_done]].
  run Hrun. run Hrun. match goal with Hp : Push _ _ = Ret ?x |- _ => destruct x as [c3 w3] end. run Hrun. by eapply EchoServer.send_calls.
Qed.

Lemma echo_OnServerMsg_calls (c : TcpShmConnection) p (w : W) c' w' : OnServerMsg c p w = Ret (c', w') → user_calls c w c' w'.
Proof.
  unfold OnServerMsg, EchoClient.OnServerMsg. intros H. run H. injection H as H. revert H.
  pose proof (handled_calls (E := EchoClient) r c w) as Hc. destruct (handled r c w) as [c1 w1]. intros [= <- <-]. apply Hc.
  destruct r as [[e t]|code|]; [|done..].
  run Hrun. run Hrun. destruct r0 as [e1|code|]; [|by run Hrun..]. run Hrun. run Hrun.
  eapply calls_next; [by apply call_Pop|apply calls_done].
Qed.

#[local] Instance EchoClient_laws : @ClientUserLaws W conf ud los EchoClient_user os mmq mms fv.
Proof.
  constructor; simpl; try done; [|apply echo_OnServerMsg_calls].
  intros r w. apply login_time_fds.
Qed.

(** When [main] of the echo client returns, whatever arrived and
    whatever the order of its threads, whether or not it connected and could
    map its files, no socket is open and the name of the last server is
    unmapped. *)
Theorem echo_client_main argv junk_name junk_remote times turns (w : W) e c' w' :
  open_fds w = ∅ →
  main stack_login login_user_data price argv junk_name junk_remote times turns w = Ret (Continue (e, c', w')) →
  no_socket c' w' ∧ server_name_ c' = None.
Proof.
  apply (main_leaves HN stack_login login_user_data (PollNum price) start), PollNum_calls.
Qed.
End props.

(** ** A silent server *)

Section silence.
Context {conf : Conf} {ud : UserData} {W : Type} {os : Os W} {log : OsLog W} {laws : OsLaws W}.
Context {los : LoginOs W} {proc : Process EchoClient W}.
Context (HC : Conf_ok) (quiet : W → Prop) {qp : QuietProcess quiet}.
Context (price : bool → Z → list Z).
Context (Hprice : ∀ b i, zlen (price b i) = 8 ∧ Forall byte_ok (price b i)).
#[local] Existing Instance EchoClient_user.

(** What a push changes is the queue. *)
Lemma waiting_set_q m R t q msgs :
  waiting m R t → queue_rep TcpQueueSize ToLittleEndian is_little_endian q msgs → waiting true R (PtcpConn.set_q t (Some q)).
Proof.
  intros [[u Hu] _ Hh Ht] Hrep. constructor; [|by exists q, msgs|done|done]. exists u. by eapply recv_rep_same.
Qed.

Lemma PollNum_waits (e : EchoClient) c w R :
  waits R c → quiet w → ∃ r e' c' w', PollNum price e c w = Ret (r, e', c', w') ∧ waits R c' ∧ quiet w'.
Proof.
  intros Hc Hw. unfold PollNum. destruct (_ <? _); [|by eexists _, _, _, _].
  destruct (_ && _); [by eexists _, _, _, _|]. unfold TrySendMarketDepthMsg.
  pose proof Hc as [Hs Hwt]. destruct (wt_q _ _ _ Hwt) as (q & msgs & Hq & Hrep).
  destruct (send_tcp HC c q msgs sizeof_MarketDepthMsg MarketDepthMsg_msg_type (market_depth_fields price (send_num e)) Hs Hq Hrep)
    as [[_ ->]|(i & c1 & c2 & body & old & t2 & -> & _ & Hw1 & Hz & _ & _ & Hp & Hpush)];
    [done|done|by apply market_depth_fit|..]; rewrite outcome_bind_Ret; [by eexists _, _, _, _|].
  rewrite Hw1, outcome_bind_Ret.
  destruct (LinkStep.user_push_ok HC (ptcp_conn_ c) q msgs MarketDepthMsg_msg_type sizeof_MarketDepthMsg body Hq Hrep)
    as (b & q2 & Hp2 & _ & _ & Hrep2); [done|done|by rewrite Hz|]. rewrite Hp in Hp2. injection Hp2 as <- ->.
  destruct Hrep2 as [Hrep2 _]. pose proof (waiting_set_q _ _ _ _ _ Hwt Hrep2) as Hwt2.
  destruct (SendPending_waiting HC quiet R _ w Hwt2 Hw) as (r & t3 & w' & Hsp & Hwt3 & Hw').
  rewrite Hpush, Hsp, !outcome_bind_Ret. by eexists _, _, _, _.
Qed.

(** C15: when the server falls silent the loop of the echo client over TCP
    ends: from any state in which its connection waits, whatever it still sends,
    whatever the socket takes of it and whenever it looks at the clock, the loop
    is left with the connection closed once [ConnectionTimeout] has passed since
    the last bytes came. *)
Theorem echo_client_times_out R c w times last :
  waits R (conn_ c) → quiet w → Exists (λ now, ConnectionTimeout < now - R) times →
  ∃ c' w', loop_tcp (PollNum price) (times ++ [last]) c w = Ret (Continue (c', w')) ∧ IsClosed (conn_ c') = true.
Proof.
  intros Hc Hw Ht.
  destruct (loop_tcp_ends (user := EchoClient_user) HC quiet (λ _ _ w H, H) (PollNum price) PollNum_waits R times last c w Hc Hw Ht) as (c' & w' & H & Hcl & _).
  by exists c', w'.
Qed.
End silence.

(** ** A run

    The numbers of the last run are 3; the queue of the instance has no room
    for a message, so the client sends nothing; it is given the message with
    the number 3, and then loses its connection. *)

#[local] Existing Instance ex_conf.
#[local] Instance net_ints : MmapOs net Z := net_mmap (λ _, 3).
#[local] Instance net_ints_laws : MmapFdLaws net Z.
Proof. by constructor. Qed.

Definition ex_echo_net : net :=
  mkNet (ex_script [] [SysOk (header_bytes true (mkMsgHeader 16 5 0) ++ [3; 0; 0; 0; 0; 0; 0; 0]); SysErr 104]) ∅ 0 []
    [RecvFull (mkMsgHeader 72 2 0) ClientProps.ex_reply] [] (ClientProps.zeros 16).
Definition ex_process : process EchoClient := mkProcess (mkEchoClient 0 false 0 0) Running.
Definition ex_argv : list (list Z) := [chars "echo_client"; chars "bob"; chars "127.0.0.1"; chars "0"].
Definition ex_price (b : bool) (i : Z) : list Z := repeat 0 8.
Abbreviation ex_client_main :=
  (main ClientProps.ex_login tt ex_price ex_argv (ClientProps.zeros 16) (ClientProps.zeros 16) [5; 6; 7] [] (ex_echo_net, ex_process)).

Lemma ex_echo_client_returns :
  ∃ c' w', ex_client_main = Ret (Continue (RunStopped, c', w')) ∧ recv_num (pr_client w'.2) = 4.
Proof.
  assert (match ex_client_main with
          | Ret (Continue (RunStopped, _, w')) => recv_num (pr_client w'.2) =? 4 | _ => false end = true) as Hc
    by (vm_compute; reflexivity).
  destruct ex_client_main as [[[[e c'] w']|code|]| |]; try discriminate Hc.
  destruct e; try discriminate Hc. exists c', w'. split; [reflexivity|]. by apply Z.eqb_eq.
Qed.

Lemma echo_client_main_witness :
  ∃ c' w', ex_client_main = Ret (Continue (RunStopped, c', w')) ∧ recv_num (pr_client w'.2) = 4 ∧
    no_socket c' w' ∧ server_name_ c' = None.
Proof.
  destruct ex_echo_client_returns as (c' & w' & Hr & H1). exists c', w'. split; [exact Hr|]. split; [exact H1|].
  refine (echo_client_main ex_name_size ClientProps.ex_login tt ex_price ex_argv (ClientProps.zeros 16) (ClientProps.zeros 16)
    [5; 6; 7] [] (ex_echo_net, ex_process) RunStopped c' w' _ Hr). reflexivity.
Defined.

(** Nothing comes in any more; the socket takes nothing either. *)
Definition ex_silent (w : net * process EchoClient) : Prop := s_reads (n_script w.1) = [] ∧ pr_end w.2 = Running.

#[local] Existing Instance EchoClient_user.
#[local] Instance ex_silent_process : QuietProcess (E := EchoClient) ex_silent.
Proof.
  constructor; [constructor| |]; unfold ex_silent; simpl.
  - intros fd lens [w p] [Hr Hp] Hfd Hsum. unfold lift. simpl in *. unfold script_readv.
    rewrite (proj2 (Z.ltb_ge _ _) Hfd), (proj2 (Z.ltb_ge _ _) Hsum), Hr. by eexists.
  - intros fd bs [w p] [Hr Hp]. unfold lift. simpl in *. unfold script_send.
    destruct (_ <? _); [done|]. by destruct (s_sends (n_script w)) as [|[n|e] l].
  - done.
  - by intros w [_ H].
  - by intros e w [Hr _].
Qed.

(** Connected, with a queue and nothing received yet. *)
Definition ex_waiting_conn : TcpShmConnection := set_ptcp_conn (new_TcpShmConnection []) PtcpConnProps.ex_open.
Definition ex_waiting_client : TcpShmClient := mkClient [] None [] ex_waiting_conn.
Definition ex_silent_net : net * process EchoClient := (mkNet (ex_script [] []) ∅ 0 [] [] [] [], ex_process).

Lemma echo_client_times_out_witness :
  ∃ c' w', loop_tcp (PollNum ex_price) ([105; 111] ++ [112]) ex_waiting_client ex_silent_net = Ret (Continue (c', w')) ∧
    IsClosed (conn_ c') = true.
Proof.
  refine (echo_client_times_out ex_conf_ok ex_silent ex_price _ 100 ex_waiting_client ex_silent_net [105; 111] 112 _ _ _).
  - intros b i. split; [done|]. repeat constructor; done.
  - split; [done|]. constructor; [exists []; exact PtcpConnProps.ex_open_rep| |done|done].
    exists PtcpConnProps.ex_q, []. split; [done|exact PtcpConnProps.ex_q_rep].
  - done.
  - apply Exists_cons_tl, Exists_cons_hd. reflexivity.
Defined.
