(* ===== verification/MarketClientRun.v ===== *)
(** * The process of the market data client ([crypto_market_example/echo_client.cpp])

    [ClientRun] with the callbacks and the [PollNum] of the class [EchoClient]
    of the example.  [Run] starts the two numbers from 0 again; [PollNum] only
    looks at what was received. *)

From stdpp Require Import gmap.
From S2P Require Import Prelude.
From S2P Require Import Arrays.
From S2P Require Import MsgHeader.
From S2P Require Import PtcpQueue.
From S2P Require SpscQueue.
From S2P Require Import Platform.
From S2P Require PtcpConn.
From S2P Require Import TcpShmConn.
From S2P Require Import Login.
From S2P Require Import Client.
From S2P Require Import UserMem.
From S2P Require Import EchoClient.
From S2P Require Import Market.
From S2P Require Import ClientRun.

Section client.
Context {conf : Conf} {ud : UserData} {W : Type} {os : Os W}.
Context {mmq : MmapOs W PTCPQueue} {mms : MmapOs W SpscQueue.SPSCVarQueue}.
Context {mmn : MmapOs W (list Z)} {mmi : MmapOs W Z}.
Context {los : LoginOs W} {proc : Process MarketClient W}.
Context (stack_login : LoginMsg) (login_user_data : LoginUserData).

Definition OnServerMsg (conn : TcpShmConnection) (p : Z) (w : W) : outcome (TcpShmConnection * W) :=
  r ← Market.OnServerMsg (pr_client (the_process w)) conn p (clock w);
  Ret (handled r conn w).

(** The other callbacks log. *)
Definition MarketClient_user : ClientUser W := {|
  OnSystemError _ _ w := w;
  OnLoginReject _ w := w;
  OnLoginSuccess _ w := set_login_time w;
  OnSeqNumberMismatch _ _ w := w;
  Client.OnServerMsg := OnServerMsg;
  OnDisconnected _ _ w := w
|}.

#[local] Existing Instance MarketClient_user.

Definition PollNum (e : MarketClient) (conn : TcpShmConnection) (w : W)
    : outcome (bool * MarketClient * TcpShmConnection * W) :=
  Ret (Market_PollNum e, e, conn, w).

(** The numbers in the files are overwritten. *)
Definition start (e : MarketClient) (send_num recv_num : Z) : MarketClient := start_client e.

Definition Run := ClientRun.Run PollNum start stack_login login_user_data.

Definition main := ClientRun.main PollNum start stack_login login_user_data.
End client.
