(* ===== verification/MarketClientProps.v ===== *)
(** * Properties of the market data client's process *)

From stdpp Require Import gmap.
From S2P Require Import Prelude.
From S2P Require Import Arrays.
From S2P Require Import MsgHeader.
From S2P Require Import PtcpQueue.
From S2P Require SpscQueue.
From S2P Require Import Platform.
From S2P Require PtcpConn.
From S2P Require Import Scripted.
From S2P Require Import TcpShmConn.
From S2P Require Import Login.
From S2P Require Import Client.
From S2P Require Import Descriptors.
From S2P Require Import ClientInv.
From S2P Require Import ScriptedNet.
From S2P Require ClientProps.
From S2P Require Import UserMem.
From S2P Require Import EchoClient.
From S2P Require Import Market.
From S2P Require Import ClientRun.
From S2P Require Import ClientRunProps.
From S2P Require Import MarketClientRun.

(** ** What [main] leaves *)

Section props.
Context {conf : Conf} {ud : UserData} {W : Type} {os : Os W}.
Context {mmq : MmapOs W PTCPQueue} {mms : MmapOs W SpscQueue.SPSCVarQueue}.
Context {mmn : MmapOs W (list Z)} {mmi : MmapOs W Z}.
Context {los : LoginOs W} {proc : Process MarketClient W}.
Context {fv : FdView W} {laws : FdLaws W} {llaws : LoginFdLaws W} {plaws : ProcessLaws MarketClient W}.
Context {qlaws : MmapFdLaws W PTCPQueue} {slaws : MmapFdLaws W SpscQueue.SPSCVarQueue}.
Context {nlaws : MmapFdLaws W (list Z)} {ilaws : MmapFdLaws W Z}.
Context (HN : 1 < NameSize).
Context (stack_login : LoginMsg) (login_user_data : LoginUserData).
#[local] Existing Instance MarketClient_user.

Lemma OnServerMsg_calls (c : TcpShmConnection) p (w : W) c' w' : OnServerMsg c p w = Ret (c', w') → user_calls c w c' w'.
Proof.
  unfold OnServerMsg, Market.OnServerMsg. intros H. run H. injection H as H. revert H.
  pose proof (handled_calls (E := MarketClient) r c w) as Hc. destruct (handled r c w) as [c1 w1]. intros [= <- <-]. apply Hc.
  destruct r as [[e t]|code|]; [|done..].
  run Hrun. run Hrun. destruct r0 as [e1|code|]; [|by run Hrun..]. run Hrun. run Hrun.
  eapply calls_next; [by apply call_Pop|apply calls_done].
Qed.

#[local] Instance MarketClient_laws : @ClientUserLaws W conf ud los MarketClient_user os mmq mms fv.
Proof.
  constructor; simpl; try done; [|apply OnServerMsg_calls].
  intros r w. apply login_time_fds.
Qed.

(** C37: when [main] of the market data client returns, whatever arrived and
    whatever the order of its threads, whether or not it connected and could
    map its files, no socket is open and the name of the last server is
    unmapped. *)
Theorem market_client_main argv junk_name junk_remote times turns (w : W) e c' w' :
  open_fds w = ∅ →
  main stack_login login_user_data argv junk_name junk_remote times turns w = Ret (Continue (e, c', w')) →
  no_socket c' w' ∧ server_name_ c' = None.
Proof.
  apply (main_leaves HN stack_login login_user_data PollNum start).
  intros *. unfold PollNum. intros [= _ _ <- <-]. apply calls_done.
Qed.
End props.

(** ** A run

    The client connects, is given the message with the first instrument, and
    then loses its connection. *)

#[local] Existing Instance ex_conf.
#[local] Instance net_ints : MmapOs net Z := net_mmap (λ _, 3).
#[local] Instance net_ints_laws : MmapFdLaws net Z.
Proof. by constructor. Qed.

Definition ex_market_net : net :=
  mkNet (ex_script [] [SysOk (header_bytes true (mkMsgHeader 16 6 0) ++ repeat 0 8); SysErr 104]) ∅ 0 []
    [RecvFull (mkMsgHeader 72 2 0) ClientProps.ex_reply] [] (ClientProps.zeros 16).
Definition ex_process : process MarketClient := mkProcess (mkMarketClient 0 0 ∅ ∅) Running.
Definition ex_argv : list (list Z) := [chars "echo_client"; chars "bob"; chars "127.0.0.1"; chars "0"].
Abbreviation ex_client_main :=
  (main ClientProps.ex_login tt ex_argv (ClientProps.zeros 16) (ClientProps.zeros 16) [5; 6; 7] [] (ex_market_net, ex_process)).

Lemma ex_client_main_returns :
  ∃ c' w', ex_client_main = Ret (Continue (RunStopped, c', w')) ∧ mc_recv_num (pr_client w'.2) = 1.
Proof.
  assert (match ex_client_main with
          | Ret (Continue (RunStopped, _, w')) => mc_recv_num (pr_client w'.2) =? 1 | _ => false end = true) as Hc
    by (vm_compute; reflexivity).
  destruct ex_client_main as [[[[e c'] w']|code|]| |]; try discriminate Hc.
  destruct e; try discriminate Hc. exists c', w'. split; [reflexivity|]. by apply Z.eqb_eq.
Qed.

Lemma market_client_main_witness :
  ∃ c' w', ex_client_main = Ret (Continue (RunStopped, c', w')) ∧ mc_recv_num (pr_client w'.2) = 1 ∧
    no_socket c' w' ∧ server_name_ c' = None.
Proof.
  destruct ex_client_main_returns as (c' & w' & Hr & H1). exists c', w'. split; [exact Hr|]. split; [exact H1|].
  refine (market_client_main ex_name_size ClientProps.ex_login tt ex_argv (ClientProps.zeros 16) (ClientProps.zeros 16)
    [5; 6; 7] [] (ex_market_net, ex_process) RunStopped c' w' _ Hr). reflexivity.
Defined.
