(* ===== verification/PairedNet.v ===== *)
(** * A network of paired sockets

    An instance of the interface [Os] with the laws of TCP: the sockets [2k]
    and [2k + 1] are the ends of a connection, a read returns what was
    written at the other end and not yet read.  A script says how much the
    next sends accept; behind it they accept everything.  [link_run] runs two
    hosts on it, from a list of commands; what it returns is reachable
    ([link_run_reachable]). *)

From S2P Require Import Prelude.
From S2P Require Import Arrays.
From S2P Require Import MsgHeader.
From S2P Require Import PtcpQueue.
From S2P Require Import Platform.
From S2P Require Import PtcpConn.
From S2P Require Import Wire.
From S2P Require Import Link.
From S2P Require Import Scripted.

Record pairs := mkPairs {
  p_sends : list (sysret Z);
  p_sent : list (Z * list Z);
  p_received : list (Z * list Z)
}.

(** The other end. *)
Definition pair_of (fd : Z) : Z := Z.lxor fd 1.

Lemma pair_of_pair fd : pair_of (pair_of fd) = fd.
Proof. unfold pair_of. by rewrite Z.lxor_assoc, Z.lxor_nilpotent, Z.lxor_0_r. Qed.

Definition pair_send (fd : Z) (bs : list Z) (w : pairs) : sysret Z * pairs :=
  if fd <? 0 then (SysErr 9, w) else
  match p_sends w with
  | [] => (SysOk (zlen bs), mkPairs [] (p_sent w ++ [(fd, bs)]) (p_received w))
  | SysErr e :: r => (SysErr e, mkPairs r (p_sent w) (p_received w))
  | SysOk n :: r =>
      let n := Z.max (Z.min 1 (zlen bs)) (Z.min n (zlen bs)) in
      (SysOk n, mkPairs r (p_sent w ++ [(fd, slice 0 n bs)]) (p_received w))
  end.

(** What was written at the other end and not yet read. *)
Definition in_flight (fd : Z) (w : pairs) : list Z :=
  drop (length (log_of fd (p_received w))) (log_of (pair_of fd) (p_sent w)).

Definition pair_readv (fd : Z) (lens : list Z) (w : pairs) : sysret (list Z) * pairs :=
  let n := foldr Z.add 0 lens in
  let data := slice 0 n (in_flight fd w) in
  if (fd <? 0) || (n <? 0) then (SysErr 9, w) else
  if bool_decide (log_of fd (p_received w) `prefix_of` log_of (pair_of fd) (p_sent w) ∧ Forall byte_ok data) then
    match data with
    | [] => (SysErr EAGAIN, w)
    | _ => (SysOk data, mkPairs (p_sends w) (p_sent w) (p_received w ++ [(fd, data)]))
    end
  else (SysErr 5, w).

#[export] Instance pair_os : Os pairs := {
  os_send := pair_send;
  os_readv := pair_readv;
  os_close _ w := w
}.

#[export] Instance pair_log : OsLog pairs := {
  os_sent fd w := log_of fd (p_sent w);
  os_received fd w := log_of fd (p_received w)
}.

Inductive pair_readv_spec (fd : Z) (lens : list Z) (w : pairs) : sysret (list Z) * pairs → Prop :=
  | pair_read_error e : (fd < 0 → e ≠ EAGAIN) → pair_readv_spec fd lens w (SysErr e, w)
  | pair_read_data data :
      0 ≤ fd → data = slice 0 (foldr Z.add 0 lens) (in_flight fd w) → zlen data ≤ foldr Z.add 0 lens →
      log_of fd (p_received w) `prefix_of` log_of (pair_of fd) (p_sent w) → Forall byte_ok data →
      pair_readv_spec fd lens w (SysOk data, mkPairs (p_sends w) (p_sent w) (p_received w ++ [(fd, data)])).

Lemma pair_readv_ok fd lens w : pair_readv_spec fd lens w (pair_readv fd lens w).
Proof.
  unfold pair_readv. cbv zeta. destruct (Z.ltb_spec fd 0); [by apply pair_read_error|].
  destruct (Z.ltb_spec (foldr Z.add 0 lens) 0) as [|Hn]; [by apply pair_read_error|]. simpl.
  case_bool_decide as Hd; [destruct Hd as [Hp Hb]|by apply pair_read_error].
  pose proof (slice_zlen_le 0 (foldr Z.add 0 lens) (in_flight fd w)) as Hz.
  destruct (slice 0 _ _) as [|b bs] eqn:Hs; [apply pair_read_error; lia|].
  rewrite <-Hs in *. apply pair_read_data; try done. lia.
Qed.

#[export] Instance pair_laws : OsLaws pairs.
Proof.
  constructor; simpl.
  - intros fd bs w n w'. unfold pair_send. destruct (fd <? 0); [done|].
    intros H Hne. assert (0 < zlen bs) by (destruct bs; [done|unfold zlen; simpl; lia]).
    destruct (p_sends w) as [|[n'|e] r]; simplify_eq; lia.
  - intros fd bs w r w'. unfold pair_send. destruct (fd <? 0); [by intros [= <- <-]; rewrite app_nil_r|].
    destruct (p_sends w) as [|[n'|e] l]; intros [= <- <-]; simpl; rewrite ?app_nil_r; try done.
    all: by rewrite log_of_snoc, Z.eqb_refl, ?slice_full.
  - intros fd bs w fd'. unfold pair_send. destruct (fd <? 0); [done|].
    by destruct (p_sends w) as [|[n'|e] l].
  - intros fd bs w fd' Hne. unfold pair_send. destruct (fd <? 0); [done|].
    destruct (p_sends w) as [|[n'|e] l]; simpl; try done.
    all: by rewrite log_of_snoc, (proj2 (Z.eqb_neq _ _)), app_nil_r by congruence.
  - intros fd bs w Hfd. unfold pair_send. rewrite (proj2 (Z.ltb_lt _ _)) by done. by exists 9.
  - intros fd lens w bs w' H. pose proof (pair_readv_ok fd lens w) as Hr. rewrite H in Hr. by inversion Hr.
  - intros fd lens w r w' H. pose proof (pair_readv_ok fd lens w) as Hr. rewrite H in Hr.
    inversion Hr; simpl; [by rewrite app_nil_r|]. by rewrite log_of_snoc, Z.eqb_refl.
  - intros fd lens w fd'. by destruct (pair_readv_ok fd lens w).
  - intros fd lens w fd' Hne. destruct (pair_readv_ok fd lens w); [done|]. simpl.
    by rewrite log_of_snoc, (proj2 (Z.eqb_neq _ _)), app_nil_r by congruence.
  - intros fd lens w Hfd. destruct (pair_readv_ok fd lens w) as [e He|]; [|lia]. exists e. by split; [|apply He].
Qed.

#[export] Instance pair_tcp : TcpLaws pairs pair_os pair_log pair_of.
Proof.
  constructor; simpl; try done; [apply pair_of_pair|].
  intros fd lens w data w' H. pose proof (pair_readv_ok fd lens w) as Hr. rewrite H in Hr.
  inversion Hr as [|? _ -> _ [k Hk] _]; subst. unfold in_flight. rewrite Hk, drop_app_length.
  apply prefix_app. unfold slice. rewrite drop_0. apply prefix_take.
Qed.

(** ** Runs *)

(** What the hosts do, with what the environment chooses. *)
Inductive command :=
  | CPush (b : bool) (t size : Z) (body : list MsgHeader)
  | CFlush (b : bool)
  | CHeartbeat (b : bool) (now : Z)
  | CFront (b : bool)
  | CPop (b : bool)
  | CClose (b : bool) (reason : string) (errno : Z)
  | CCloseFd (b : bool)
  | CCrash (b : bool)
  | CAccept (b : bool) (fd now : Z)
  | CConnected (now : Z)
  | CRefused.

Section runs.
Context (conf : bool → Conf).
Abbreviation link_step := (link_step conf pair_of).
Abbreviation link_reachable := (link_reachable conf pair_of).

#[export] Instance push_ok_dec l b t size body : Decision (push_ok conf l b t size body).
Proof. unfold push_ok. apply _. Defined.

(** The sockets [fd] and [pair_of fd] are new. *)
Definition fresh_pair (fd : Z) (w : pairs) : bool :=
  (0 <=? fd) && (0 <=? pair_of fd) && negb (pair_of fd =? fd) &&
  bool_decide (os_sent fd w = [] ∧ os_received fd w = [] ∧ os_sent (pair_of fd) w = [] ∧ os_received (pair_of fd) w = []).

Definition run_command (k : command) (l : link) (w : pairs) : option (link * pairs) :=
  match k with
  | CPush b t size body =>
      if connecting l b || negb (bool_decide (push_ok conf l b t size body)) then None else
      match user_push (conf := conf b) (l_conn l b) t size body with
      | Ret (true, c) => Some (add_pushed (set_conn l b c) b (mkMsg (conn_ack (l_conn l b)) t size body), w)
      | Ret (false, c) => Some (set_conn l b c, w)
      | _ => None
      end
  | CFlush b =>
      if connecting l b then None else
      match SendPending (conf := conf b) (l_conn l b) w with
      | Ret (_, c, w) => Some (set_conn l b c, w) | _ => None
      end
  | CHeartbeat b now =>
      if connecting l b then None else
      match SendHB (conf := conf b) (l_conn l b) now w with
      | Ret (c, w) => Some (set_conn l b c, w) | _ => None
      end
  | CFront b =>
      if connecting l b then None else
      match Front (conf := conf b) (l_conn l b) w with
      | Ret (r, c, w) => Some (set_head (set_conn l b c) b r, w) | _ => None
      end
  | CPop b =>
      if connecting l b then None else
      match l_head l b with
      | None => None
      | Some p =>
          match message_at (conf := conf b) (l_conn l b) p, Pop (conf := conf b) (l_conn l b) with
          | Ret m, Ret c => Some (add_popped (set_head (set_conn l b c) b None) b m, w)
          | _, _ => None
          end
      end
  | CClose b reason errno => Some (set_conn l b (Close (l_conn l b) reason errno), w)
  | CCloseFd b => let '(_, c, w) := TryCloseFd (l_conn l b) w in Some (set_conn l b c, w)
  | CCrash b =>
      Some (set_login (set_head (set_conn l b (restart (conf := conf b) (l_conn l b))) b None)
              (if connecting l b then None else l_login l), w)
  | CAccept b fd now =>
      if IsClosed (l_conn l b) && IsClosed (l_conn l (negb b)) && fresh_pair fd w then
        match Open (conf := conf b) (l_conn l b) fd (conn_ack (l_conn l (negb b))) now w with
        | Ret (c, w) =>
            Some (mkLink (<[b := c]> (l_conn l)) no_head (Some (negb b, pair_of fd, conn_ack (l_conn l b)))
                    (l_pushed l) (l_popped l), w)
        | _ => None
        end
      else None
  | CConnected now =>
      match l_login l with
      | None => None
      | Some (b, fd, ack) =>
          match Open (conf := conf b) (l_conn l b) fd ack now w with
          | Ret (c, w) => Some (set_login (set_head (set_conn l b c) b None) None, w)
          | _ => None
          end
      end
  | CRefused => match l_login l with None => None | Some _ => Some (set_login l None, w) end
  end.

Lemma run_command_step k l w l' w' : run_command k l w = Some (l', w') → link_step l w l' w'.
Proof.
  destruct k as [b t size body|b|b now|b|b|b reason errno|b|b|b fd now|now|]; simpl.
  - destruct (connecting l b) eqn:Hc; [done|]. case_bool_decide as Hok; [|done]. simpl.
    destruct (user_push _ _ _ _) as [[[] c]| |] eqn:Hp; [..|done|done]; intros [= <- <-].
    + by eapply step_push.
    + by eapply step_full.
  - destruct (connecting l b) eqn:Hc; [done|].
    destruct (SendPending _ _) as [[[r c] w1]| |] eqn:Hp; [|done..]. intros [= <- <-]. by eapply step_flush.
  - destruct (connecting l b) eqn:Hc; [done|].
    destruct (SendHB _ _ _) as [[c w1]| |] eqn:Hp; [|done..]. intros [= <- <-]. by eapply step_heartbeat.
  - destruct (connecting l b) eqn:Hc; [done|].
    destruct (Front _ _) as [[[r c] w1]| |] eqn:Hp; [|done..]. intros [= <- <-]. by eapply step_front.
  - destruct (connecting l b) eqn:Hc; [done|]. destruct (l_head l b) as [p|] eqn:Hh; [|done].
    destruct (message_at _ _) as [m| |] eqn:Hm; [|done..].
    destruct (Pop _) as [c| |] eqn:Hp; [|done..]. intros [= <- <-]. by eapply step_pop.
  - intros [= <- <-]. apply step_close.
  - destruct (TryCloseFd _ _) as [[r c] w1] eqn:Ht. intros [= <- <-]. by eapply step_close_fd.
  - intros [= <- <-]. apply step_crash.
  - destruct (IsClosed (l_conn l b)) eqn:Hb; [|done]. destruct (IsClosed (l_conn l (negb b))) eqn:Hn; [|done].
    destruct (fresh_pair fd w) eqn:Hf; [|done]. simpl. unfold fresh_pair in Hf.
    rewrite !andb_true_iff, !Z.leb_le, negb_true_iff, Z.eqb_neq, bool_decide_eq_true in Hf.
    destruct Hf as [[[? ?] ?] (? & ? & ? & ?)].
    destruct (Open _ _ _ _ _) as [[c w1]| |] eqn:Ho; [|done..]. intros [= <- <-]. by eapply step_accept.
  - destruct (l_login l) as [[[b fd] ack]|] eqn:El; [|done].
    destruct (Open _ _ _ _ _) as [[c w1]| |] eqn:Ho; [|done..]. intros [= <- <-]. by eapply step_connected.
  - destruct (l_login l) as [[[b fd] ack]|] eqn:El; [|done]. intros [= <- <-]. by eapply step_refused.
Qed.

Fixpoint link_run (ks : list command) (l : link) (w : pairs) : option (link * pairs) :=
  match ks with
  | [] => Some (l, w)
  | k :: ks => match run_command k l w with Some (l, w) => link_run ks l w | None => None end
  end.

Lemma link_run_reachable ks : ∀ l w l' w', link_reachable l w → link_run ks l w = Some (l', w') → link_reachable l' w'.
Proof.
  induction ks as [|k ks IH]; simpl; intros l w l' w' Hl; [by intros [= <- <-]|].
  destruct (run_command k l w) as [[l1 w1]|] eqn:Hk; [|done]. apply IH.
  eapply link_next; [done|]. by eapply run_command_step.
Qed.
End runs.

(** ** Two hosts of different byte order, and a message that is resent *)

Definition ex_hosts (b : bool) : Conf :=
  {|
    NameSize := 16; ShmQueueSize := 512; ToLittleEndian := true; TcpQueueSize := 64;
    TcpRecvBufInitSize := 32; TcpRecvBufMaxSize := 64; TcpNoDelay := true; ConnectionTimeout := 10;
    HeartBeatInverval := 3; NewConnectionTimeout := 3; MaxNewConnections := 2; MaxShmConnsPerGrp := 2;
    MaxShmGrps := 1; MaxTcpConnsPerGrp := 2; MaxTcpGrps := 1; is_little_endian := b
  |}.

Lemma ex_hosts_ok b : @Conf_ok (ex_hosts b).
Proof. constructor; simpl; try lia; [by split; [lia|]|by split; [lia|exists 3]|done|done]. Qed.

(** [false] sends two messages; the socket takes the first 20 of their 32
    bytes and is closed; [true] pops one message and its process ends; then
    both connect again, and [true] gets the second. *)
Definition ex_commands : list command :=
  [CAccept true 4 0; CConnected 0;
   CPush false 5 8 [mkMsgHeader 1 2 3]; CPush false 6 8 [mkMsgHeader 4 5 6]; CFlush false;
   CFront true; CPop true; CCrash true; CCloseFd false;
   CAccept true 6 9; CConnected 9; CFront true].

Definition ex_pairs : pairs := mkPairs [SysOk 20; SysErr EAGAIN; SysOk 16] [] [].
Definition ex_link : option (link * pairs) := link_run ex_hosts ex_commands (new_link ex_hosts) ex_pairs.

Lemma ex_link_returns :
  ∃ l w, ex_link = Some (l, w) ∧ length (l_popped l true) = 1%nat ∧ l_head l true = Some 0.
Proof.
  assert (match ex_link with
          | Some (l, _) => bool_decide (length (l_popped l true) = 1%nat ∧ l_head l true = Some 0)
          | None => false
          end = true) as Hc by (vm_compute; reflexivity).
  destruct ex_link as [[l w]|]; [|discriminate Hc]. apply bool_decide_eq_true in Hc. by exists l, w.
Qed.

Lemma ex_link_reachable l w : ex_link = Some (l, w) → link_reachable ex_hosts pair_of l w.
Proof. apply link_run_reachable, link_new. Qed.
