(* ===== verification/LinkProps.v ===== *)
(** * Properties of two hosts

    What holds in every state that two hosts can reach ([link_reachable]), by
    the invariant of [LinkStep]: delivery, the logins that resume a
    connection, and that no operation is undefined.  A network of paired
    sockets and the runs of [link_run] give the instances. *)

From S2P Require Import Prelude.
From S2P Require Import Arrays.
From S2P Require Import MsgHeader.
From S2P Require Import PtcpQueue.
From S2P Require Import PtcpQueueInv.
From S2P Require Import PtcpQueueSpec.
From S2P Require Import Platform.
From S2P Require Import PtcpConn.
From S2P Require Import Framing.
From S2P Require Import PtcpConnRecv.
From S2P Require Import PtcpConnSend.
From S2P Require Import Wire.
From S2P Require Import Link.
From S2P Require Import LinkInv.
From S2P Require Import LinkOpen.
From S2P Require Import LinkStep.
From S2P Require Import LinkRun.
From S2P Require Import PairedNet.
From S2P Require Server.
From S2P Require ServerLogin.

(** ** The numbers in a login *)

Section numbers.
Context {cs cr : Conf}.
Context (HCs : @Conf_ok cs) (Hle : @ToLittleEndian cs = @ToLittleEndian cr).

(** The ack of a message in the queue is not newer than the last one. *)
Lemma um_fresh q m d :
  um_ok (cr := cr) m → um_ack m ≤ Z.of_nat d → ack_seq_num_ q = Z.of_nat d → Z.of_nat d < 2147483648 →
  msg_fresh (@ToLittleEndian cs) (@is_little_endian cs) q (um_words (cs := cs) m) = true.
Proof.
  intros Hm Ha Hq Hd. unfold msg_fresh, um_words, wire_msg, ack_fresh.
  change (mkMsgHeader (um_size m + 8) (um_type m) (um_ack m)) with (um_header m).
  rewrite ConvertByteOrder_involutive by by apply (um_header_ok (cr := cr)).
  simpl. rewrite Hq. destruct Hm. apply Z.leb_le. rewrite i32_u32; lia.
Qed.

(** [GetSeq] finds the range of a direction; what the reader's user has
    popped is in it. *)
Lemma dir_GetSeq c r head H P d' sent recvd fr g :
  dir (cs := cs) (cr := cr) c r head H P d' sent recvd fr g →
  GetSeq (conf := cs) c = Ret (Z.of_nat d', Some (Z.of_nat (g_n g), Z.of_nat (length H))) ∧
  Server.CheckAckInQueue (Z.of_nat (length P)) (Z.of_nat (g_n g)) (Z.of_nat (length H)) = true.
Proof.
  intros [Hq Hrep Hseq Hack _ Hmsgs Hn (Hlen & HH & Hd') _ _ _ _ _ _ _ _ _]. split.
  - unfold GetSeq. rewrite Hq, (SanityCheck_correct _ _ _ (conf_queue HCs) _ _ (proj1 Hrep)), outcome_bind_Ret.
    unfold MyAck. rewrite Hack, Hseq, length_fmap, length_drop, u32_small by lia.
    assert (forallb (msg_fresh (@ToLittleEndian cs) (@is_little_endian cs) (g_q g))
      (um_words (cs := cs) <$> drop (g_n g) H) = true) as ->.
    { apply forallb_forall. intros x Hx%list_elem_of_In. apply list_elem_of_fmap in Hx as (m & -> & Hm).
      apply (Forall_drop _ (g_n g)) in Hmsgs. rewrite Forall_forall in Hmsgs.
      destruct (Hmsgs m (proj1 (list_elem_of_In _ _) Hm)). by eapply um_fresh. }
    do 4 f_equal. lia.
  - replace (Z.of_nat (length H)) with (u32 (Z.of_nat (g_n g) + Z.of_nat (length H - g_n g))) by word_lia.
    apply ServerLogin.CheckAck_spec; [lia..|]. exists (Z.of_nat (length P - g_n g)). split; [lia|]. word_lia.
Qed.
End numbers.

(** ** No operation is undefined *)

Section total.
Context (conf : bool → Conf) {W : Type} {os : Os W} {log : OsLog W} {laws : OsLaws W}.
Context (peer : Z → Z) {tcp : TcpLaws W os log peer}.
Context (HC : ∀ b, @Conf_ok (conf b)) (Hle : ∀ b, @ToLittleEndian (conf b) = @ToLittleEndian (conf (negb b))).
Abbreviation link_inv := (link_inv conf peer).

Lemma inv_Front_returns l w g y : link_inv l w g → ∃ r, Front (conf := conf y) (l_conn l y) w = Ret r.
Proof.
  intros Hi. pose proof (inv_dir _ _ _ _ _ y Hi) as Hd. pose proof (inv_dir_back _ _ _ _ _ y Hi) as Hdn.
  pose proof (dr_q _ _ _ _ _ _ _ _ _ _ Hd) as Hq.
  destruct (dr_buf _ _ _ _ _ _ _ _ _ _ Hdn) as [Hrep|[Hu _]].
  - assert (conn_fd (l_conn l y) (g_sock (g y))) as Hfd.
    { destruct (Z.leb_spec 0 (sockfd_ (l_conn l y))) as [Hop|]; [left|by right]. by eapply conn_socket. }
    destruct (Front_ok (conf := conf y) (HC y) _ (g_sock (g y)) _ _ _ w Hrep Hq Hfd
      (inv_reads_frames _ _ HC _ _ _ y Hi)) as (? & ? & ? & ? & ? & ? & ? & -> & _). by eexists.
  - rewrite (Front_unopened _ _ _ Hu Hq). by eexists.
Qed.

Lemma inv_pop_returns l w g y p :
  link_inv l w g → l_head l y = Some p →
  ∃ m c', message_at (conf := conf y) (l_conn l y) p = Ret m ∧ Pop (conf := conf y) (l_conn l y) = Ret c'.
Proof.
  intros Hi Hh. pose proof (inv_dir_back _ _ _ _ _ y Hi) as Hdn. rewrite Hh in Hdn.
  destruct (dir_pop (eq_sym (Hle y)) _ _ (l_conn l y) _ _ _ _ _ _ _ _ Hdn) as (m & fs & _ & Hrep & Hm & _).
  destruct (Pop_ok (conf := conf y) (HC y) _ _ _ _ _ Hrep (dr_q _ _ _ _ _ _ _ _ _ _ (inv_dir _ _ _ _ _ y Hi)))
    as (c' & Hp & _). by eexists _, _.
Qed.

(** [Open] of an end that is logged on. *)
Lemma inv_Open_returns l w g b fd ack now :
  link_inv l w g → l_login l = Some (b, fd, ack) → ∃ r, Open (conf := conf b) (l_conn l b) fd ack now w = Ret r.
Proof.
  intros Hi El. pose proof (li_login _ _ _ _ _ Hi) as Hl. rewrite El in Hl.
  destruct Hl as [-> Hf _ Hse _ -> Hst HFS _ _]. pose proof (inv_dir _ _ _ _ _ b Hi) as Hd. unfold dir_at in Hd.
  assert (sent_on (g_sock (g b)) w = []) as Hso by (unfold sent_on; by rewrite Hse, (proj2 (Z.ltb_ge _ _))).
  rewrite Hso in Hd.
  destruct (dir_open_sender (HC b) (Hle b) _ _ _ _ _ _ _ _ _ now w Hd Hst HFS Hf Hse)
    as (? & ? & ? & ? & ? & ? & ? & ? & -> & _). by eexists.
Qed.

(** [Open] of the end that takes a login on a new socket. *)
Lemma inv_accept_returns l w g b fd now :
  link_inv l w g → sockfd_ (l_conn l b) < 0 → sockfd_ (l_conn l (negb b)) < 0 → 0 ≤ fd → os_sent fd w = [] →
  ∃ r, Open (conf := conf b) (l_conn l b) fd (conn_ack (l_conn l (negb b))) now w = Ret r.
Proof.
  intros Hi Hb Hn Hfd Hs. rewrite (inv_conn_ack _ _ _ _ _ (negb b) Hi).
  pose proof (dir_new_stream _ _ _ _ _ _ _ _ _ _ fd (peer fd) (inv_dir _ _ _ _ _ b Hi) Hb Hn) as Hd.
  destruct (dir_open_sender (HC b) (Hle b) _ _ _ _ _ _ _ _ _ now w Hd eq_refl eq_refl Hfd Hs)
    as (? & ? & ? & ? & ? & ? & ? & ? & Ho & _). simpl in Ho. rewrite Ho. by eexists.
Qed.
End total.

(** ** The theorems *)

Section props.
Context (conf : bool → Conf) {W : Type} {os : Os W} {log : OsLog W} {laws : OsLaws W}.
Context (peer : Z → Z) {tcp : TcpLaws W os log peer}.
Context (HC : ∀ b, @Conf_ok (conf b)) (Hle : ∀ b, @ToLittleEndian (conf b) = @ToLittleEndian (conf (negb b))).

(** C1: whatever happens to the sockets and to the processes, what the user
    of an end has popped is what the user of the other end has pushed, in the
    same order, none missing and none twice; and what was pushed and not yet
    popped is in the queue of the sender. *)
Theorem link_delivery l w y :
  link_reachable conf peer l w →
  l_popped l (negb y) =
    um_delivered (cs := conf y) (cr := conf (negb y)) <$> take (length (l_popped l (negb y))) (l_pushed l y) ∧
  ∃ q n, q_ (l_conn l y) = Some q ∧ (n ≤ length (l_popped l (negb y)) ≤ length (l_pushed l y))%nat ∧
    queue_rep (@TcpQueueSize (conf y)) (@ToLittleEndian (conf y)) (@is_little_endian (conf y)) q
      (um_words (cs := conf y) <$> drop n (l_pushed l y)).
Proof.
  intros [g Hi]%(link_reachable_inv conf peer HC Hle).
  destruct (inv_dir _ _ _ _ _ y Hi) as [Hq Hrep _ _ _ _ Hn [Hlen _] _ _ _ _ Hpop _ _ _ _].
  split; [done|]. by exists (g_q (g y)), (g_n (g y)).
Qed.

(** C7: in every reachable state the files of both ends pass the check of a
    login, whatever was lost: [GetSeq] succeeds, and the ack of each end is
    in the queue of the other. *)
Theorem link_login_agrees l w y :
  link_reachable conf peer l w →
  ∃ s e, GetSeq (conf := conf y) (l_conn l y) = Ret (conn_ack (l_conn l y), Some (s, e)) ∧
    Server.CheckAckInQueue (conn_ack (l_conn l (negb y))) s e = true.
Proof.
  intros [g Hi]%(link_reachable_inv conf peer HC Hle).
  destruct (dir_GetSeq (HC y) _ _ _ _ _ _ _ _ _ _ (inv_dir _ _ _ _ _ y Hi)) as [Hget Hchk].
  rewrite !(inv_conn_ack _ _ _ _ _ _ Hi). by eexists _, _.
Qed.

(** C10: in every reachable state every operation of either end that may be
    called returns: no access is out of bounds and every loop ends. *)
Theorem link_total l w y :
  link_reachable conf peer l w →
  (∀ t size body, push_ok conf l y t size body →
     ∃ r c', user_push (conf := conf y) (l_conn l y) t size body = Ret (r, c')) ∧
  (∃ r, SendPending (conf := conf y) (l_conn l y) w = Ret r) ∧
  (∀ now, ∃ r, SendHB (conf := conf y) (l_conn l y) now w = Ret r) ∧
  (∃ r, Front (conf := conf y) (l_conn l y) w = Ret r) ∧
  (∀ p, l_head l y = Some p →
     ∃ m c', message_at (conf := conf y) (l_conn l y) p = Ret m ∧ Pop (conf := conf y) (l_conn l y) = Ret c') ∧
  (∀ fd ack now, l_login l = Some (y, fd, ack) → ∃ r, Open (conf := conf y) (l_conn l y) fd ack now w = Ret r) ∧
  (∀ fd now, IsClosed (l_conn l y) = true → IsClosed (l_conn l (negb y)) = true → 0 ≤ fd → os_sent fd w = [] →
     ∃ r, Open (conf := conf y) (l_conn l y) fd (conn_ack (l_conn l (negb y))) now w = Ret r).
Proof.
  intros [g Hi]%(link_reachable_inv conf peer HC Hle).
  destruct (inv_dir _ _ _ _ _ y Hi) as [Hq Hrep _ _ Hhb _ _ _ _ _ _ _ _ _ _ _ _]. split_and!.
  - intros t size body (Ht & Hsize & Hb & _).
    destruct (user_push_ok (HC y) _ _ _ t size body Hq Hrep) as (r & q' & -> & _); [done|lia|done|].
    by eexists _, _.
  - destruct (SendPending_ok (HC y) _ _ _ w Hq Hrep) as (? & ? & ? & -> & _). by eexists.
  - intros now. destruct (SendHB_ok (HC y) _ now w _ _ Hq Hrep Hhb) as (? & ? & -> & _). by eexists.
  - by eapply inv_Front_returns.
  - intros p. by eapply inv_pop_returns.
  - intros fd ack now. by eapply inv_Open_returns.
  - intros fd now Hb%Z.ltb_lt Hn%Z.ltb_lt. by eapply inv_accept_returns.
Qed.
End props.

(** ** Instances: the run of [PairedNet] *)

Lemma ex_hosts_wire b : @ToLittleEndian (ex_hosts b) = @ToLittleEndian (ex_hosts (negb b)).
Proof. done. Qed.

Lemma link_delivery_witness :
  ∃ l w, length (l_popped l true) = 1%nat ∧ link_reachable ex_hosts pair_of l w ∧
    l_popped l true =
      um_delivered (cs := ex_hosts false) (cr := ex_hosts true) <$> take (length (l_popped l true)) (l_pushed l false) ∧
    ∃ q n, q_ (l_conn l false) = Some q ∧ (n ≤ length (l_popped l true) ≤ length (l_pushed l false))%nat ∧
      queue_rep (@TcpQueueSize (ex_hosts false)) (@ToLittleEndian (ex_hosts false)) (@is_little_endian (ex_hosts false)) q
        (um_words (cs := ex_hosts false) <$> drop n (l_pushed l false)).
Proof.
  destruct ex_link_returns as (l & w & Hl & Hp & _). exists l, w. split; [exact Hp|].
  split; [exact (ex_link_reachable l w Hl)|].
  exact (link_delivery ex_hosts pair_of ex_hosts_ok ex_hosts_wire l w false (ex_link_reachable l w Hl)).
Defined.

Lemma link_login_agrees_witness :
  ∃ l w, link_reachable ex_hosts pair_of l w ∧
    ∃ s e, GetSeq (conf := ex_hosts false) (l_conn l false) = Ret (conn_ack (l_conn l false), Some (s, e)) ∧
      Server.CheckAckInQueue (conn_ack (l_conn l true)) s e = true.
Proof.
  destruct ex_link_returns as (l & w & Hl & _ & _). exists l, w. split; [exact (ex_link_reachable l w Hl)|].
  exact (link_login_agrees ex_hosts pair_of ex_hosts_ok ex_hosts_wire l w false (ex_link_reachable l w Hl)).
Defined.

Lemma link_total_witness :
  ∃ l w, link_reachable ex_hosts pair_of l w ∧
    ∃ m c', message_at (conf := ex_hosts true) (l_conn l true) 0 = Ret m ∧
            Pop (conf := ex_hosts true) (l_conn l true) = Ret c'.
Proof.
  destruct ex_link_returns as (l & w & Hl & _ & Hh). exists l, w. split; [exact (ex_link_reachable l w Hl)|].
  destruct (link_total ex_hosts pair_of ex_hosts_ok ex_hosts_wire l w true (ex_link_reachable l w Hl))
    as (_ & _ & _ & _ & H & _).
  exact (H 0 Hh).
Defined.
