(* ===== verification/LinkDrain.v ===== *)
(** * Two hosts whose network works

    [Cooperative]: from some time on the sockets take what they are given and
    return what has arrived.  Then a connection that is open on both sides
    delivers: the sender flushes its queue, and the reader polls and pops
    ([poll]) until it has every message ([poll_all]). *)

From stdpp Require Import relations.
From S2P Require Import Prelude.
From S2P Require Import Arrays.
From S2P Require Import MsgHeader.
From S2P Require Import PtcpQueue.
From S2P Require Import PtcpQueueInv.
From S2P Require Import PtcpQueueSpec.
From S2P Require Import Platform.
From S2P Require Import PtcpConn.
From S2P Require Import Framing.
From S2P Require Import PtcpConnRecv.
From S2P Require Import PtcpConnSend.
From S2P Require Import Wire.
From S2P Require Import Link.
From S2P Require Import LinkInv.
From S2P Require Import LinkOpen.
From S2P Require Import LinkStep.
From S2P Require Import LinkRun.
From S2P Require Import LinkProps.

(** A socket takes some of what it is given, and [readv] into a buffer with
    room returns some of what has arrived. *)
Class Cooperative {W : Type} {os : Os W} {log : OsLog W} (peer : Z → Z) (good : W → Prop) : Prop := {
  good_send fd bs w : good w → 0 ≤ fd → bs ≠ [] → Forall byte_ok bs → ∃ n w', os_send fd bs w = (SysOk n, w') ∧ good w';
  good_readv fd lens w :
    good w → 0 ≤ fd → 0 < foldr Z.add 0 lens → os_received fd w ≠ os_sent (peer fd) w →
    ∃ data w', os_readv fd lens w = (SysOk data, w') ∧ data ≠ [];
  good_read fd lens w : good w → good (os_readv fd lens w).2
}.

(** There is always another pair of sockets. *)
Class FreshSockets {W : Type} {log : OsLog W} (peer : Z → Z) (good : W → Prop) : Prop := {
  good_fresh w : good w → ∃ fd, 0 ≤ fd ∧ 0 ≤ peer fd ∧ peer fd ≠ fd ∧
    os_sent fd w = [] ∧ os_received fd w = [] ∧ os_sent (peer fd) w = [] ∧ os_received (peer fd) w = []
}.

(** ** An end *)

Section conn.
Context {conf : Conf} {W : Type} {os : Os W} {log : OsLog W} {laws : OsLaws W}.
Context (HC : Conf_ok) (peer : Z → Z) (good : W → Prop) {coop : Cooperative peer good}.
Abbreviation queue_rep := (queue_rep TcpQueueSize ToLittleEndian is_little_endian).

Lemma SendPending_loop_all fuel : ∀ fd p size w,
  zlen p = size → Forall byte_ok p → 0 ≤ fd → 0 < size < 4294967296 → size < Z.of_nat fuel → good w →
  ∃ w', SendPending_loop fuel fd p size w = Ret (None, 0, w') ∧ good w'.
Proof.
  induction fuel as [|fuel IH]; intros fd p size w Hp Hb Hfd Hsize Hfuel Hg; [lia|]. cbn [SendPending_loop].
  rewrite <-Hp, slice_full. assert (p ≠ []) as Hne by (intros ->; rewrite <-Hp in Hsize; unfold zlen in Hsize; simpl in Hsize; lia).
  destruct (good_send fd p w Hg Hfd Hne Hb) as (n & w1 & Hs & Hg1). rewrite Hs.
  pose proof (os_send_range _ _ _ _ _ Hs Hne) as Hn. rewrite Hp in *. rewrite (u32_small (size - n)) by lia.
  destruct (Z.ltb_spec 0 (size - n)).
  - destruct (IH fd (slice n size p) (size - n) w1) as (w' & Hw' & Hg'); try done; try lia.
    + rewrite slice_zlen; lia.
    + by apply slice_bytes.
    + by exists w'.
  - exists w1. split; [|done]. replace (size - n) with 0 by lia. done.
Qed.

Lemma SendPending_all c q msgs w :
  q_ c = Some q → queue_rep q msgs → 0 ≤ sockfd_ c → good w →
  ∃ r c' w' q', SendPending c w = Ret (r, c', w') ∧ sockfd_ c' = sockfd_ c ∧ q_ c' = Some q' ∧ unsent q' = [] ∧ good w'.
Proof.
  intros Hq Hrep Hop Hg. unfold SendPending, IsClosed. rewrite (proj2 (Z.ltb_ge _ _)), Hq by done.
  destruct (GetSendable_correct _ _ _ (conf_queue HC) q msgs Hrep) as (-> & _ & _). pose proof (unsent_range HC q msgs Hrep) as Hur.
  destruct (Z.eqb_spec (zlen (unsent q)) 0) as [H0|H0]; [apply zlen_nil_inv in H0; by eexists false, c, w, q|].
  destruct (Hrep) as [[Hlen Hread Hwrite _ _ _ _] Hsi].
  pose proof (slice_zlen (send_idx_ q) (write_idx_ q) (blk_ q) ltac:(lia) ltac:(lia)) as Hz.
  change (slice (send_idx_ q) (write_idx_ q) (blk_ q)) with (unsent q) in Hz.
  unfold sendable_bytes. rewrite decide_True by lia. rewrite outcome_bind_Ret.
  replace (send_idx_ q + zlen (unsent q)) with (write_idx_ q) by lia. fold (unsent q). fold (words_bytes (unsent q)).
  pose proof (words_bytes_zlen (unsent q)) as Hbz.
  assert (u32 (Z.shiftl (zlen (unsent q)) 3) = zlen (words_bytes (unsent q))) as ->.
  { rewrite Hbz, Z.shiftl_mul_pow2 by lia. change (2 ^ 3) with 8. u32_simpl. lia. }
  edestruct (SendPending_loop_all (S (Z.to_nat (zlen (words_bytes (unsent q))))) (sockfd_ c) (words_bytes (unsent q)) _ w eq_refl)
    as (w' & -> & Hg'); [apply words_bytes_bytes|done|lia..|done|]. rewrite outcome_bind_Ret.
  rewrite Z.shiftr_div_pow2 by lia. change (0 / 2 ^ 3) with 0. rewrite Z.sub_0_r, i32_u32 by lia.
  rewrite (proj2 (Z.ltb_lt _ _)) by lia.
  destruct (Sendout_correct TcpQueueSize ToLittleEndian is_little_endian (conf_queue HC) q msgs (zlen (unsent q))) as [_ Hun]; [done|lia|].
  rewrite slice_full in Hun. eexists true, _, w', _. do 3 (split; [done|]). split; [|done].
  apply (app_inv_head (unsent q)). by rewrite app_nil_r.
Qed.

(** [Open] sends all that the other end does not have. *)
Lemma Open_all c fd ack now w q ms1 ms2 c' w' :
  q_ c = Some q → live_rep TcpQueueSize ToLittleEndian is_little_endian q (ms1 ++ ms2) → 0 ≤ ack < 4294967296 → 0 ≤ fd →
  ack_dist q ack = Z.of_nat (length ms1) → good w → Open c fd ack now w = Ret (c', w') →
  sockfd_ c' = fd ∧ good w' ∧ ∃ q', q_ c' = Some q' ∧ unsent q' = [].
Proof.
  intros Hq Hl Hack Hfd Hd Hg H. unfold Open in H. cbv zeta in H. set (c0 := set_times _ now now now) in H.
  change (q_ c0) with (q_ c) in H. rewrite Hq in H.
  destruct (LoginAck_correct _ _ _ (conf_queue HC) q ms1 ms2 ack Hl Hack Hd) as (q1 & Hq1 & Hrep1 & _).
  rewrite Hq1, outcome_bind_Ret in H.
  destruct (SendPending_all (set_q c0 (Some q1)) q1 ms2 w eq_refl Hrep1 Hfd Hg) as (r & c2 & w2 & q2 & Hsp & Hs & Hq2 & Hu & Hg2).
  rewrite Hsp, !outcome_bind_Ret in H. destruct (_ =? 0); injection H as <- <-; by split_and!; [..|exists q2].
Qed.

Lemma DoRecv_good c w n c' w' : DoRecv c w = Ret (n, c', w') → good w → good w'.
Proof.
  unfold DoRecv. intros H Hg. destruct (_ =? 0); [by run H|].
  match type of H with context [os_readv ?f ?x w] => pose proof (good_read f x w Hg) as Hr; destruct (os_readv f x w) as [r w1] end.
  simpl in Hr. destruct r as [data|e]; [|by run H]. destruct (_ =? 0); [by run H|]. run H. destruct (_ <=? _); run H; [done|by run H].
Qed.

(** Something has arrived. *)
Lemma DoRecv_available c fs t w (data : list Z) c' w' :
  recv_rep c fs t → 0 ≤ sockfd_ c → good w → os_received (sockfd_ c) w ≠ os_sent (peer (sockfd_ c)) w →
  DoRecv c w = Ret (zlen data, c', w') → sockfd_ c' = sockfd_ c ∧ (fs = [] → data ≠ []).
Proof.
  intros Hrep Hop Hg Hne H. destruct (DoRecv_ok HC c w (rp_buf _ _ _ Hrep)) as (data1 & c1 & w1 & H1 & Hrc).
  rewrite H in H1. injection H1 as Hz <- <-.
  destruct (decide (data1 = [])) as [->|Hd]; [|split; [by apply (l_sock _ _ _ (rc_data _ _ _ _ _ Hrc Hd))|]].
  2:{ intros _ ->. change (zlen []) with 0 in Hz. symmetry in Hz. by apply zlen_nil_inv in Hz. }
  apply zlen_nil_inv in Hz as ->. pose proof (restarted_sockfd c) as Hs.
  unfold DoRecv in H. fold (restarted c) in H. set (c0 := restarted c) in *. cbv zeta in H.
  fold (recv_extra c0) in H. fold (recv_lens c0) in H. destruct (u32 _ =? 0) eqn:Hroom.
  - injection H as <- <-. split; [done|]. intros ->. pose proof (recv_room HC c t Hrep) as Hr. cbv zeta in Hr. fold c0 in Hr.
    apply Z.eqb_eq in Hroom. rewrite u32_small in Hroom; lia.
  - exfalso. apply Z.eqb_neq in Hroom. pose proof (recv_extra_range c0). pose proof (u32_range (recvbuf_size_ c0 - writeidx_ c0)).
    destruct (good_readv (sockfd_ c) (recv_lens c0) w) as (d & w2 & Hrd & Hdn); try done.
    { rewrite recv_lens_sum. destruct (Z.eq_dec (u32 (recvbuf_size_ c0 - writeidx_ c0) + recv_extra c0) 0) as [He|]; [|lia].
      by rewrite He in Hroom. }
    rewrite Hs, Hrd in H. destruct (Z.eqb_spec (zlen d) 0) as [Hd0|Hd0]; [by apply zlen_nil_inv in Hd0|].
    run H. destruct (_ <=? _); run H; [|run H]; by rewrite zlen_nil in *.
Qed.

Lemma Front_good c fd fs t q w c' w' q' ms data t' : fronted fd c c' w w' q q' fs ms t data t' → good w → good w'.
Proof.
  intros Hfr. destruct (fr_how _ _ _ _ _ _ _ _ _ _ _ _ Hfr) as [(_ & _ & -> & _)|(c0 & c1 & _ & _ & Hdr & _)]; [done|].
  by eapply DoRecv_good.
Qed.

Lemma Front_available c fd fs t q w c' w' q' ms data t' :
  recv_rep c fs t → 0 ≤ sockfd_ c → good w → os_received (sockfd_ c) w ≠ os_sent (peer (sockfd_ c)) w →
  fronted fd c c' w w' q q' fs ms t data t' →
  sockfd_ c' = sockfd_ c ∧ good w' ∧ (skip_hb fs = [] → data ≠ []).
Proof.
  intros Hrep Hop Hg Hne Hfr. destruct (fr_how _ _ _ _ _ _ _ _ _ _ _ _ Hfr) as [(? & _ & -> & ?)|(c0 & c1 & Hr0 & Hs0 & Hdr & Hs1)]; [done|].
  rewrite <-Hs0 in Hop, Hne. destruct (DoRecv_available _ _ _ _ _ _ _ Hr0 Hop Hg Hne Hdr) as [Hs Hd].
  split; [congruence|]. split; [by eapply DoRecv_good|done].
Qed.
End conn.

(** ** The reader polls *)

Section polls.
Context (conf : bool → Conf) {W : Type} {os : Os W}.

(** What the thread of an end does with [Front] and its user with the message
    that it returns. *)
Definition poll_turn (y : bool) (l : link) (w : W) : outcome (link * W) :=
  '(r, c, w) ← Front (conf := conf y) (l_conn l y) w;
  let l := set_head (set_conn l y c) y r in
  match r with
  | None => Ret (l, w)
  | Some p =>
      m ← message_at (conf := conf y) c p;
      c ← Pop (conf := conf y) c;
      Ret (add_popped (set_head (set_conn l y c) y None) y m, w)
  end.

Fixpoint poll (n : nat) (y : bool) (l : link) (w : W) : outcome (link * W) :=
  match n with
  | O => Ret (l, w)
  | S n => '(l, w) ← poll_turn y l w; poll n y l w
  end.
End polls.

Section drain.
Context (conf : bool → Conf) {W : Type} {os : Os W} {log : OsLog W} {laws : OsLaws W}.
Context (peer : Z → Z) {tcp : TcpLaws W os log peer}.
Context (HC : ∀ b, @Conf_ok (conf b)) (Hle : ∀ b, @ToLittleEndian (conf b) = @ToLittleEndian (conf (negb b))).
Context (good : W → Prop) {coop : Cooperative peer good}.
Implicit Types (l : link) (w : W).
Abbreviation link_reachable := (link_reachable conf peer).

(** A run of the two hosts. *)
Definition link_steps : link * W → link * W → Prop := rtc (λ a b, link_step conf peer a.1 a.2 b.1 b.2).

Lemma steps_reach a b : link_steps a b → link_reachable a.1 a.2 → link_reachable b.1 b.2.
Proof. induction 1 as [a|a b c Hs _ IH]; [done|]. intros Hr. by eapply IH, link_next. Qed.

Lemma poll_turn_steps y l w l' w' :
  connecting l y = false → poll_turn conf y l w = Ret (l', w') → link_steps (l, w) (l', w').
Proof.
  intros Hc H. unfold poll_turn in H. run H. destruct r as [[r c] w1].
  eapply (rtc_l _ _ (set_head (set_conn l y c) y r, w1)); [by apply step_front|].
  destruct r as [p|]; [|run H; apply rtc_refl]. run H. run H. run H. apply rtc_once. simpl.
  eapply (step_pop _ _ _ _ y p r r0); side; try done; by rewrite ?upd_same.
Qed.

Lemma poll_turn_reach y l w l' w' :
  link_reachable l w → connecting l y = false → poll_turn conf y l w = Ret (l', w') → link_reachable l' w'.
Proof. intros Hr Hc H. by apply (steps_reach _ _ (poll_turn_steps _ _ _ _ _ Hc H)). Qed.

Lemma poll_turn_returns y l w :
  link_reachable l w → connecting l y = false → ∃ l' w', poll_turn conf y l w = Ret (l', w').
Proof.
  intros Hr Hc. destruct (link_reachable_inv conf peer HC Hle l w Hr) as [g Hi].
  destruct (inv_Front_returns conf peer HC l w g y Hi) as [[[r c] w1] Hf]. unfold poll_turn. rewrite Hf, outcome_bind_Ret.
  destruct r as [p|]; [|by eexists _, _].
  assert (link_reachable (set_head (set_conn l y c) y (Some p)) w1) as Hr1 by by eapply link_next, step_front.
  destruct (link_reachable_inv conf peer HC Hle _ _ Hr1) as [g1 Hi1].
  destruct (inv_pop_returns conf peer HC Hle _ _ g1 y p Hi1) as (m & c' & Hm & Hp); [by side|].
  revert Hm Hp. side. intros Hm Hp. rewrite Hm, outcome_bind_Ret, Hp, outcome_bind_Ret. by eexists _, _.
Qed.

Abbreviation sock l y := (sockfd_ (l_conn l y)).

(** The sender [negb y] is connected, and all it has is on its way. *)
Definition flushed (y : bool) l : Prop :=
  l_login l = None ∧ 0 ≤ sock l (negb y) ∧ ∃ q, q_ (l_conn l (negb y)) = Some q ∧ unsent q = [].

(** [y] has read every message that it has not popped, and no more comes. *)
Definition holds_all (y : bool) l w : Prop :=
  (∃ fs t, recv_rep (conf := conf y) (l_conn l y) fs t ∧
     user_frames (conf := conf y) fs =
       um_bytes (cs := conf (negb y)) <$> drop (length (l_popped l y)) (l_pushed l (negb y))) ∧
  (0 ≤ sock l y → os_received (sock l y) w = os_sent (peer (sock l y)) w).

(** The two logs of an open connection. *)
Lemma inv_logs l w g y :
  link_inv conf peer l w g → 0 ≤ sock l y →
  recv_on (g_sock (g y)) w = os_received (sock l y) w ∧
  sent_on (g_sock (g (negb y))) w = os_sent (peer (sock l y)) w ∧
  os_received (sock l y) w `prefix_of` os_sent (peer (sock l y)) w.
Proof.
  intros Hi Hop. destruct (dr_read _ _ _ _ _ _ _ _ _ _ (inv_dir_back _ _ _ _ _ y Hi) Hop) as (_ & Hs & _ & _ & _ & Hp).
  pose proof (li_socks _ _ _ _ _ Hi y) as Hsk. unfold recv_on, sent_on in *. rewrite <-!Hs in *.
  destruct Hsk as [[? _]|(_ & Hn & Hpe & _)]; [lia|]. rewrite <-Hpe in *.
  rewrite (proj2 (Z.ltb_ge _ _) Hop), (proj2 (Z.ltb_ge _ _) Hn) in *. by rewrite Hs in *.
Qed.

Lemma all_received l w g y :
  link_inv conf peer l w g → 0 ≤ sock l y → flushed y l →
  os_received (sock l y) w = os_sent (peer (sock l y)) w → holds_all y l w.
Proof.
  intros Hi Hop (_ & Hsop & q & Hq & Hun) Heq. split; [|done].
  destruct (inv_logs _ _ _ _ Hi Hop) as (Hrl & Hsl & _). pose proof (inv_dir_back _ _ _ _ _ y Hi) as Hd.
  rewrite Hrl, Hsl, Heq in Hd. set (s := os_sent _ w) in Hd. destruct Hd.
  destruct (dr_read Hop) as (Hrep & _ & Hlog & HRS & Hu & _). destruct (dr_open Hsop) as (_ & Hgo & Hrest).
  rewrite dr_q in Hq. injection Hq as <-. rewrite Hrest, Hun in dr_stream. change (words_bytes []) with (@nil Z) in dr_stream.
  destruct (stream_rest_nil _ _ _ _ _ dr_stream) as [Hpart Htail]. rewrite Hpart, Htail in dr_stream. rewrite Htail in Hgo.
  destruct dr_stream as [Hsent _ _ Hok Hpre]. rewrite app_nil_r in Hok, Hpre, Hsent.
  rewrite Hsent in Hlog. destruct (frames_strip _ _ _ HRS Hok Hlog) as (G & HG & Hcat).
  rewrite HG in Hok. apply Forall_app in Hok as [_ HGok].
  destruct (partial_whole _ _ (rp_part _ _ _ Hrep) HGok (eq_sym Hcat)) as [_ ->]. rewrite app_nil_r in HG.
  eexists _, _. split; [exact Hrep|]. destruct Hpre as [k Hk]. unfold stream_goes_on in Hgo.
  rewrite Hk, drop_app_length in Hgo. subst k. rewrite app_nil_r, HG, Hu in Hk.
  pose proof (f_equal (fmap (um_bytes (cs := conf (negb y)))) (take_drop_split (l_pushed l (negb y)) _ _ dr_start)) as Hsplit.
  rewrite fmap_app, Hk in Hsplit. by apply app_inv_head in Hsplit.
Qed.

(** How much is still to be done. *)
Definition to_read y l w : nat := (length (os_sent (peer (sock l y)) w) - length (os_received (sock l y) w))%nat.
Definition to_pop y l : nat := (length (l_pushed l (negb y)) - length (l_popped l y))%nat.

Lemma Pop_sockfd {cf : Conf} c c' : Pop c = Ret c' → sockfd_ c' = sockfd_ c.
Proof. unfold Pop. intros H. run H. destruct (q_ c); by run H. Qed.

Lemma arrive_nil {cf : Conf} ms : ∀ fs, arrive fs ms = [] → fs = [].
Proof.
  induction ms as [|m ms IH]; intros fs H; [done|]. apply IH in H. unfold enqueue in H.
  destruct (_ && _) eqn:He; [by apply andb_true_iff in He as [_ ?%bool_decide_eq_true]|]. by apply app_nil in H as [-> _].
Qed.

(** Only the user of [y] has done something. *)
Definition popped_only (y : bool) l l' : Prop :=
  l_pushed l' = l_pushed l ∧ l_popped l' (negb y) = l_popped l (negb y).

(** What a turn does, when [Front] returned [r]. *)
Lemma poll_turn_inv y l w r c w1 l' w' :
  Front (conf := conf y) (l_conn l y) w = Ret (r, c, w1) → poll_turn conf y l w = Ret (l', w') →
  w' = w1 ∧ sock l' y = sockfd_ c ∧ l_conn l' (negb y) = l_conn l (negb y) ∧ l_login l' = l_login l ∧
  popped_only y l l' ∧
  length (l_popped l' y) = match r with Some _ => S (length (l_popped l y)) | None => length (l_popped l y) end ∧
  match r with Some _ => Pop (conf := conf y) c = Ret (l_conn l' y) | None => l_conn l' y = c end.
Proof.
  intros Hf H. unfold poll_turn in H. rewrite Hf, outcome_bind_Ret in H. destruct r as [p|].
  - run H. run H. run H. unfold popped_only. side. pose proof (Pop_sockfd _ _ Hrun0). split_and!; try done. rewrite length_app. simpl. lia.
  - run H. unfold popped_only. by side.
Qed.

(** While something is still to be read: a turn reads or pops. *)
Lemma turn_reads y l w l' w' :
  link_reachable l w → flushed y l → 0 ≤ sock l y → good w →
  os_received (sock l y) w ≠ os_sent (peer (sock l y)) w → poll_turn conf y l w = Ret (l', w') →
  flushed y l' ∧ sock l' y = sock l y ∧ good w' ∧ popped_only y l l' ∧
  (to_read y l' w' + to_pop y l' < to_read y l w + to_pop y l)%nat.
Proof.
  intros Hr Hf Hop Hg Hne H. pose proof Hf as [Hlg [Hsop Hq0]].
  assert (connecting l y = false) as Hcon by (unfold connecting; by rewrite Hlg).
  pose proof (poll_turn_reach _ _ _ _ _ Hr Hcon H) as Hr'.
  destruct (link_reachable_inv conf peer HC Hle l w Hr) as [g Hi].
  pose proof (inv_dir_back _ _ _ _ _ y Hi) as Hdn. destruct (dr_read _ _ _ _ _ _ _ _ _ _ Hdn Hop) as (Hrep & Hs & _).
  pose proof (dr_q _ _ _ _ _ _ _ _ _ _ (inv_dir _ _ _ _ _ y Hi)) as Hq.
  destruct (Front_ok (conf := conf y) (HC y) _ (sock l y) _ _ _ w Hrep Hq (or_introl eq_refl)
    (inv_reads_frames conf peer HC _ _ _ y Hi)) as (r & c & w1 & q' & ms & data & t' & Hfront & Hfr & Hr1).
  destruct (Front_available (HC y) peer good _ _ _ _ _ _ _ _ _ _ _ _ Hrep Hop Hg Hne Hfr) as (Hsc & Hg1 & Hdata).
  pose proof (fr_log _ _ _ _ _ _ _ _ _ _ _ _ Hfr) as Hlog. pose proof (fr_sent _ _ _ _ _ _ _ _ _ _ _ _ Hfr) as Hsent.
  destruct (poll_turn_inv _ _ _ _ _ _ _ _ Hfront H) as (-> & Hs' & Hn' & Hl' & Hp' & Hpop & _).
  rewrite Hsc in Hs'. split; [unfold flushed; by rewrite Hl', Hn'|]. do 3 (split; [done|]).
  destruct (link_reachable_inv conf peer HC Hle l' w1 Hr') as [g1 Hi1].
  destruct (inv_logs l' w1 g1 y Hi1) as (_ & _ & Hpre); [lia|]. apply prefix_length in Hpre.
  pose proof (dr_len _ _ _ _ _ _ _ _ _ _ (inv_dir_back _ _ _ _ _ y Hi1)) as [Hle' _].
  unfold to_read, to_pop. rewrite Hs', Hsent, Hlog, (proj1 Hp'), Hpop, length_app in *.
  destruct r as [p|]; [lia|]. unfold front_of in Hr1. destruct (arrive _ _) eqn:Ha; [|done].
  apply arrive_nil in Ha. specialize (Hdata Ha). destruct data; [done|]. simpl in *. lia.
Qed.

(** Nothing is left to be read: a turn pops, or everything is popped. *)
Lemma turn_pops y l w l' w' :
  link_reachable l w → l_login l = None → good w → holds_all y l w → poll_turn conf y l w = Ret (l', w') →
  holds_all y l' w' ∧ good w' ∧ popped_only y l l' ∧ l_login l' = None ∧ (to_pop y l' = to_pop y l - 1)%nat.
Proof.
  intros Hr Hlg Hg [(fs & t & Hrep & Huser) Hread] H.
  destruct (link_reachable_inv conf peer HC Hle l w Hr) as [g Hi].
  pose proof (dr_q _ _ _ _ _ _ _ _ _ _ (inv_dir _ _ _ _ _ y Hi)) as Hq.
  assert (∀ lens data w1, os_readv (sock l y) lens w = (SysOk data, w1) → data = []) as Hnone.
  { intros lens data w1 Hrd. destruct (Z.leb_spec 0 (sock l y)) as [Hop|Hcl].
    - apply tcp_readv in Hrd. rewrite (Hread Hop) in Hrd. destruct Hrd as [k Hk].
      rewrite <-(app_nil_r (os_sent _ _)), <-app_assoc in Hk at 1. apply app_inv_head in Hk. by symmetry in Hk; apply app_nil in Hk as [-> _].
    - destruct (os_readv_closed _ lens w Hcl) as (e & He & _). by rewrite He in Hrd. }
  destruct (Front_ok (conf := conf y) (HC y) _ (sock l y) _ _ _ w Hrep Hq (or_introl eq_refl))
    as (r & c & w1 & q' & ms & data & t' & Hfront & Hfr & Hr1).
  { intros lens data w1 Hrd Hne. by rewrite (Hnone _ _ _ Hrd) in Hne. }
  destruct (poll_turn_inv _ _ _ _ _ _ _ _ Hfront H) as (-> & Hs' & Hn' & Hl' & Hp' & Hpop & Hc').
  assert (data = []) as ->.
  { destruct (decide (data = [])) as [|Hne]; [done|]. destruct (fr_read _ _ _ _ _ _ _ _ _ _ _ _ Hfr Hne) as [lens Hrd]. by eapply Hnone. }
  pose proof (Front_good peer good _ _ _ _ _ _ _ _ _ _ _ _ Hfr Hg) as Hg1.
  destruct Hfr as [Hrep1 _ _ Hlog Hq1 Hacks _ Hsent _ Hsk _ _ _].
  destruct Hacks as [(_ & -> & ->)|[? _]]; [|done]. simpl in Hrep1, Hr1. rewrite app_nil_r in Hlog.
  assert (0 ≤ sock l' y → os_received (sock l' y) w1 = os_sent (peer (sock l' y)) w1) as Hread'.
  { rewrite Hs'. intros Hop. destruct Hsk as [Hsk|?]; [|lia]. rewrite Hsk in *. by rewrite Hlog, Hsent, Hread. }
  rewrite <-(user_frames_skip fs) in Huser. pose proof (skip_hb_no_lead (conf := conf y) fs) as Hlead.
  unfold to_pop. rewrite (proj1 Hp'), Hpop. destruct (skip_hb fs) as [|m fs1]; simpl in Hr1; subst r.
  - split_and!; [|done|done|congruence|].
    + split; [|done]. exists [], t'. rewrite Hc', Hpop, (proj1 Hp'). by split.
    + apply (f_equal length) in Huser. rewrite length_fmap, length_drop in Huser. simpl in Huser. lia.
  - destruct (Pop_ok (conf := conf y) (HC y) _ _ _ _ _ Hrep1 Hq1) as (c2 & Hp2 & Hrep2 & _). rewrite Hc' in Hp2. injection Hp2 as <-.
    split_and!; [|done|done|congruence|lia]. split; [|done]. exists fs1, t'. split; [done|].
    rewrite Hpop, (proj1 Hp'). unfold user_frames in *. rewrite filter_cons_True in Huser by done.
    destruct (drop _ _) as [|u H1] eqn:Hd; [done|]. simpl in Huser. injection Huser as _ Hu.
    rewrite Hu, <-(Nat.add_1_r (length _)), <-drop_drop, Hd. done.
Qed.

(** What [n] turns of [y] have brought about. *)
Definition polled (n : nat) (y : bool) l w : Prop :=
  ∃ l' w', poll conf n y l w = Ret (l', w') ∧ link_steps (l, w) (l', w') ∧ good w' ∧ popped_only y l l' ∧ to_pop y l' = 0%nat.

Lemma polled_next n y l w l1 w1 :
  connecting l y = false → poll_turn conf y l w = Ret (l1, w1) → popped_only y l l1 → polled n y l1 w1 → polled (S n) y l w.
Proof.
  intros Hc Ht [Hp1 Hp2] (l' & w' & H & Hr' & Hg & [Hp1' Hp2'] & H0). exists l', w'. simpl. rewrite Ht, outcome_bind_Ret.
  split_and!; try done; [|split; congruence]. unfold link_steps. etrans; [by eapply poll_turn_steps|exact Hr'].
Qed.

Lemma poll_holds n : ∀ y l w,
  link_reachable l w → l_login l = None → good w → holds_all y l w → (to_pop y l ≤ n)%nat → polled n y l w.
Proof.
  induction n as [|n IH]; intros y l w Hr Hlg Hg Hh Hn.
  { exists l, w. split_and!; [done|apply rtc_refl|done|by split|lia]. }
  assert (connecting l y = false) as Hcon by (unfold connecting; by rewrite Hlg).
  destruct (poll_turn_returns y l w Hr Hcon) as (l1 & w1 & Ht). pose proof (poll_turn_reach _ _ _ _ _ Hr Hcon Ht) as Hr1.
  destruct (turn_pops _ _ _ _ _ Hr Hlg Hg Hh Ht) as (Hh1 & Hg1 & Hp1 & Hl1 & Hpop).
  eapply polled_next; [done|exact Ht|done|]. apply IH; [done..|lia].
Qed.

(** [n]: enough turns for each byte on its way and for each message. *)
Lemma poll_all n : ∀ y l w,
  link_reachable l w → flushed y l → 0 ≤ sock l y → good w → (to_read y l w + to_pop y l ≤ n)%nat → polled n y l w.
Proof.
  induction n as [|n IH]; intros y l w Hr Hf Hop Hg Hn.
  all: destruct (link_reachable_inv conf peer HC Hle l w Hr) as [g Hi]; pose proof Hf as [Hlg _].
  all: destruct (decide (os_received (sock l y) w = os_sent (peer (sock l y)) w)) as [Heq|Hne];
    [apply poll_holds; [done|done|done|by eapply all_received|lia]|].
  - destruct (inv_logs l w g y Hi Hop) as (_ & _ & [k Hk]). unfold to_read in Hn. rewrite Hk, length_app in Hn.
    destruct k; [|simpl in Hn; lia]. by rewrite app_nil_r in Hk.
  - assert (connecting l y = false) as Hcon by (unfold connecting; by rewrite Hlg).
    destruct (poll_turn_returns y l w Hr Hcon) as (l1 & w1 & Ht). pose proof (poll_turn_reach _ _ _ _ _ Hr Hcon Ht) as Hr1.
    destruct (turn_reads _ _ _ _ _ Hr Hf Hop Hg Hne Ht) as (Hf1 & Hs1 & Hg1 & Hp1 & Hlt).
    eapply polled_next; [done|exact Ht|done|]. apply IH; [done|done|lia|done|lia].
Qed.

(** Everything is popped. *)
Lemma popped_all y l w :
  link_reachable l w → to_pop y l = 0%nat →
  l_popped l y = um_delivered (cs := conf (negb y)) (cr := conf y) <$> l_pushed l (negb y).
Proof.
  intros Hr H0. destruct (link_reachable_inv conf peer HC Hle l w Hr) as [g Hi].
  pose proof (inv_dir_back _ _ _ _ _ y Hi) as Hdn. unfold to_pop in H0.
  rewrite (dr_popped _ _ _ _ _ _ _ _ _ _ Hdn), take_ge by lia. done.
Qed.

(** The sender flushes its queue. *)
Lemma flush_ok y l w :
  link_reachable l w → l_login l = None → 0 ≤ sock l (negb y) → good w →
  ∃ r c w1, SendPending (conf := conf (negb y)) (l_conn l (negb y)) w = Ret (r, c, w1) ∧
    link_steps (l, w) (set_conn l (negb y) c, w1) ∧ flushed y (set_conn l (negb y) c) ∧ good w1.
Proof.
  intros Hr Hlg Hop Hg. destruct (link_reachable_inv conf peer HC Hle l w Hr) as [g Hi].
  pose proof (inv_dir _ _ _ _ _ (negb y) Hi) as Hd.
  destruct (SendPending_all (HC (negb y)) peer good _ _ _ w (dr_q _ _ _ _ _ _ _ _ _ _ Hd) (dr_rep _ _ _ _ _ _ _ _ _ _ Hd) Hop Hg)
    as (r & c & w1 & q' & H & Hs & Hq & Hu & Hg1).
  exists r, c, w1. split; [done|]. split; [|split; [|done]].
  - apply rtc_once. eapply step_flush; [|done]. unfold connecting. by rewrite Hlg.
  - split; [done|]. side. split; [by rewrite Hs|]. by exists q'.
Qed.

(** ** A new login *)

Lemma inv_Open_all l w g b fd now c' w' :
  link_inv conf peer l w g → 0 ≤ fd → good w →
  Open (conf := conf b) (l_conn l b) fd (Z.of_nat (length (l_popped l (negb b)))) now w = Ret (c', w') →
  sockfd_ c' = fd ∧ good w' ∧ ∃ q', q_ c' = Some q' ∧ unsent q' = [].
Proof.
  intros Hi Hfd Hg H. destruct (inv_dir _ _ _ _ _ b Hi) as [Hq Hrep Hseq _ _ _ Hn Hlen _ _ _ _ _ _ _ _ _].
  rewrite (take_drop_split (l_pushed l b) _ _ Hn), fmap_app in Hrep.
  refine (Open_all (HC b) peer good _ _ _ _ _ _ _ _ _ _ Hq (proj1 Hrep) _ Hfd _ Hg H); [lia|].
  rewrite (small_ack_dist _ (g_n (g b))) by (done || lia). rewrite length_fmap, length_take, length_drop. lia.
Qed.

Context {fresh : FreshSockets (log := log) peer good}.

(** Both ends close the old connection and log in again. *)
Lemma relogin y l w :
  link_reachable l w → good w →
  ∃ l1 w1, link_steps (l, w) (l1, w1) ∧ flushed y l1 ∧ 0 ≤ sock l1 y ∧ good w1 ∧
    l_pushed l1 = l_pushed l ∧ l_popped l1 = l_popped l.
Proof.
  intros Hr Hg. destruct (good_fresh w Hg) as (fd & Hf1 & Hf2 & Hf3 & Hs1 & Hr1 & Hs2 & Hr2).
  set (la := set_conn l y (Close (l_conn l y) "Close" 0)).
  set (l0 := set_conn la (negb y) (Close (l_conn la (negb y)) "Close" 0)).
  assert (link_steps (l, w) (l0, w)) as Hl0.
  { eapply (rtc_l _ _ (la, w)); [apply step_close|]. apply rtc_once, step_close. }
  assert (l_conn l0 y = Close (l_conn l y) "Close" 0) as Hcy.
  { unfold l0, la. side. rewrite fn_lookup_insert_ne by (by destruct y). apply upd_same. }
  assert (link_reachable l0 w) as Hr0 by by apply (steps_reach _ _ Hl0).
  destruct (link_reachable_inv conf peer HC Hle l0 w Hr0) as [g0 Hi0].
  assert (sock l0 y < 0 ∧ sock l0 (negb y) < 0) as [Hc1 Hc2].
  { rewrite Hcy. unfold l0. side. split; apply Close_sockfd. }
  (* the server's end *)
  destruct (inv_accept_returns conf peer HC Hle l0 w g0 y fd 0 Hi0 Hc1 Hc2 Hf1 Hs1) as [[c1 w1] Ho1].
  pose proof (inv_conn_ack _ _ _ _ _ (negb y) Hi0) as Ha. pose proof Ho1 as Ho1'. rewrite Ha in Ho1'.
  destruct (inv_Open_all _ _ _ _ _ _ _ _ Hi0 Hf1 Hg Ho1') as (Hsk1 & Hg1 & q1 & Hq1 & Hu1).
  set (l1 := mkLink (<[y := c1]> (l_conn l0)) no_head (Some (negb y, peer fd, conn_ack (l_conn l0 y))) (l_pushed l0) (l_popped l0)).
  assert (link_steps (l0, w) (l1, w1)) as Hl1.
  { apply rtc_once. apply (step_accept conf peer l0 w y fd 0 c1 w1); try done; by apply Z.ltb_lt. }
  assert (link_reachable l1 w1) as Hr1' by by apply (steps_reach _ _ Hl1).
  destruct (link_reachable_inv conf peer HC Hle l1 w1 Hr1') as [g1 Hi1].
  (* the client's end *)
  destruct (inv_Open_returns conf peer HC Hle l1 w1 g1 _ _ _ 0 Hi1 eq_refl) as [[c2 w2] Ho2].
  pose proof Ho2 as Ho2'. rewrite (inv_conn_ack _ _ _ _ _ y Hi0) in Ho2'.
  assert (length (l_popped l0 y) = length (l_popped l1 (negb (negb y)))) as Hp by by rewrite negb_involutive.
  rewrite Hp in Ho2'. destruct (inv_Open_all _ _ _ _ _ _ _ _ Hi1 Hf2 Hg1 Ho2') as (Hsk2 & Hg2 & q2 & Hq2 & Hu2).
  eexists _, w2. split; [|split; [|split; [|split; [exact Hg2|]]]].
  - unfold link_steps. etrans; [exact Hl0|]. etrans; [exact Hl1|]. apply rtc_once. by eapply (step_connected conf peer l1 w1).
  - split; [done|]. side. split; [lia|]. by exists q2.
  - side. rewrite fn_lookup_insert_ne by (by destruct y). simpl. rewrite upd_same. lia.
  - done.
Qed.
End drain.
