(* ===== verification/LinkDrainProps.v ===== *)
(** * Delivery when the network works again

    A connection that is open on both sides delivers all that was pushed
    ([link_drains]); from every state, whatever broke before, there is a run
    in which both users get everything ([link_recovers]).  The paired sockets
    of [PairedNet] are such a network once their script is used up. *)

From stdpp Require Import relations.
From S2P Require Import Prelude.
From S2P Require Import Arrays.
From S2P Require Import MsgHeader.
From S2P Require Import PtcpQueue.
From S2P Require Import Platform.
From S2P Require Import PtcpConn.
From S2P Require Import Wire.
From S2P Require Import Link.
From S2P Require Import Scripted.
From S2P Require Import PairedNet.
From S2P Require Import LinkProps.
From S2P Require Import LinkDrain.

Section props.
Context (conf : bool → Conf) {W : Type} {os : Os W} {log : OsLog W} {laws : OsLaws W}.
Context (peer : Z → Z) {tcp : TcpLaws W os log peer}.
Context (HC : ∀ b, @Conf_ok (conf b)) (Hle : ∀ b, @ToLittleEndian (conf b) = @ToLittleEndian (conf (negb b))).
Context (good : W → Prop) {coop : Cooperative peer good}.

(** C11: in every state in which both ends are connected, and whatever was
    lost before, once the network works the connection delivers: the sender
    flushes its queue, and when the reader has polled as many times as there are
    bytes on their way and messages it has not popped, its user has popped
    everything that was pushed. *)
Theorem link_drains y l w :
  link_reachable conf peer l w → l_login l = None → IsClosed (l_conn l y) = false →
  IsClosed (l_conn l (negb y)) = false → good w →
  ∃ r c w1, SendPending (conf := conf (negb y)) (l_conn l (negb y)) w = Ret (r, c, w1) ∧
    let l1 := set_conn l (negb y) c in
    ∀ n, (to_read peer y l1 w1 + to_pop y l1 ≤ n)%nat →
    ∃ l' w', poll conf n y l1 w1 = Ret (l', w') ∧ l_pushed l' = l_pushed l ∧
      l_popped l' y = um_delivered (cs := conf (negb y)) (cr := conf y) <$> l_pushed l (negb y).
Proof.
  intros Hr Hlg Ho1%Z.ltb_ge Ho2%Z.ltb_ge Hg.
  destruct (flush_ok conf peer HC Hle good y l w Hr Hlg Ho2 Hg) as (r & c & w1 & H & Hst & Hf & Hg1).
  exists r, c, w1. split; [done|]. intros l1 n Hn. pose proof (steps_reach _ _ _ _ Hst Hr) as Hr1.
  destruct (poll_all conf peer HC Hle good n y l1 w1 Hr1 Hf) as (l' & w' & Hp & Hst' & _ & [Hp1 _] & H0); [|done..|].
  { unfold l1. simpl. rewrite fn_lookup_insert_ne by (by destruct y). done. }
  exists l', w'. split; [done|]. split; [done|].
  rewrite (popped_all conf peer HC Hle y l' w'), Hp1; [done| |done]. by apply (steps_reach _ _ _ _ Hst').
Qed.

Context {fresh : FreshSockets (log := log) peer good}.

Lemma recover_one y l w :
  link_reachable conf peer l w → good w →
  ∃ l' w', link_steps conf peer (l, w) (l', w') ∧ good w' ∧ popped_only y l l' ∧ to_pop y l' = 0%nat.
Proof.
  intros Hr Hg. destruct (relogin conf peer HC Hle good y l w Hr Hg) as (l1 & w1 & Hst & Hf & Hop & Hg1 & Hp1 & Hp2).
  destruct (poll_all conf peer HC Hle good _ y l1 w1 (steps_reach _ _ _ _ Hst Hr) Hf Hop Hg1 (le_n _))
    as (l' & w' & _ & Hst' & Hg' & [Hp1' Hp2'] & H0).
  exists l', w'. split; [unfold link_steps; etrans; [exact Hst|exact Hst']|]. split; [done|]. split; [|done]. split; congruence.
Qed.

(** C12: delivery is never out of reach: from every state that two hosts can
    reach, whatever broke and crashed on the way, there is, once the network
    works, a run (a login and polling) at the end of which each user has popped
    everything that the other has pushed. *)
Theorem link_recovers l w :
  link_reachable conf peer l w → good w →
  ∃ l' w', link_steps conf peer (l, w) (l', w') ∧ l_pushed l' = l_pushed l ∧
    ∀ y, l_popped l' y = um_delivered (cs := conf (negb y)) (cr := conf y) <$> l_pushed l (negb y).
Proof.
  intros Hr Hg. destruct (recover_one true l w Hr Hg) as (l1 & w1 & Hst1 & Hg1 & [Hp1 _] & H1).
  pose proof (steps_reach _ _ _ _ Hst1 Hr) as Hr1.
  destruct (recover_one false l1 w1 Hr1 Hg1) as (l2 & w2 & Hst2 & _ & [Hp2 Hq2] & H2).
  exists l2, w2. split; [unfold link_steps; etrans; [exact Hst1|exact Hst2]|]. split; [congruence|].
  pose proof (steps_reach _ _ _ _ Hst2 Hr1) as Hr2.
  assert (∀ y, to_pop y l2 = 0%nat) as H0.
  { intros [|]; [|done]. unfold to_pop in *. simpl in *. by rewrite Hq2, Hp2. }
  intros y. by rewrite (popped_all conf peer HC Hle y l2 w2 Hr2 (H0 y)), Hp2, Hp1.
Qed.
End props.

(** ** Paired sockets whose script is used up *)

Definition pairs_good (w : pairs) : Prop :=
  p_sends w = [] ∧ (∀ fd, log_of fd (p_received w) `prefix_of` log_of (pair_of fd) (p_sent w)) ∧
  Forall (λ e, Forall byte_ok e.2) (p_sent w).

Lemma log_of_bytes fd l : Forall (λ e, Forall byte_ok e.2) l → Forall byte_ok (log_of fd l).
Proof.
  induction 1 as [|e l He _ IH]; [done|]. unfold log_of in *. simpl. apply Forall_app. split; [by destruct (_ =? _)|done].
Qed.

#[export] Instance pairs_cooperative : Cooperative pair_of pairs_good.
Proof.
  constructor.
  - intros fd bs [sends sent received] (Hs & Hp & Hb) Hfd _ Hbs. simpl in *. subst sends. unfold pair_send.
    rewrite (proj2 (Z.ltb_ge _ _) Hfd). eexists _, _. split; [done|]. split; [done|]. simpl. split.
    + intros fd'. rewrite log_of_snoc. by apply prefix_app_r.
    + apply Forall_app. split; [done|]. by apply Forall_singleton.
  - intros fd lens w (Hs & Hp & Hb) Hfd Hsum Hne. simpl. unfold pair_readv. cbv zeta.
    rewrite (proj2 (Z.ltb_ge _ _) Hfd), (proj2 (Z.ltb_ge _ 0)) by lia. simpl in *.
    destruct (Hp fd) as [k Hk]. assert (in_flight fd w = k) as Hin by (unfold in_flight; by rewrite Hk, drop_app_length).
    rewrite bool_decide_true.
    + rewrite Hin. destruct k as [|b k]; [by rewrite app_nil_r in Hk; rewrite Hk in Hne|].
      destruct (slice 0 _ (b :: k)) as [|d ds] eqn:Hd; [|by eexists _, _].
      unfold slice in Hd. rewrite drop_0 in Hd. apply (f_equal length) in Hd. rewrite length_take in Hd. simpl in Hd. lia.
    + split; [by exists k|]. unfold slice. apply Forall_take, Forall_drop. unfold in_flight. by apply Forall_drop, log_of_bytes.
  - intros fd lens w Hg. pose proof (pair_readv_ok fd lens w) as Hr. simpl. destruct Hr as [|data Hfd Hdata _ [k Hk] Hb]; [done|].
    destruct Hg as (Hs & Hp & Hb'). split; [done|]. split; [|done]. intros fd'. simpl. rewrite log_of_snoc.
    destruct (Z.eqb_spec fd fd') as [<-|]; [|by rewrite app_nil_r]. rewrite Hk. apply prefix_app.
    rewrite Hdata. unfold in_flight. rewrite Hk, drop_app_length. unfold slice. rewrite drop_0. apply prefix_take.
Qed.

(** The sockets with larger numbers are new. *)
Definition max_fd (l : list (Z * list Z)) : Z := foldr (λ e m, Z.max (Z.abs e.1) m) 0 l.

Lemma max_fd_fresh l fd : max_fd l < fd → log_of fd l = [].
Proof.
  induction l as [|e l IH]; [done|]. unfold log_of in *. simpl. intros H. rewrite (proj2 (Z.eqb_neq _ _)) by lia. apply IH. lia.
Qed.

Lemma pair_of_even k : pair_of (2 * k) = 2 * k + 1.
Proof.
  unfold pair_of. symmetry. apply Z.add_nocarry_lxor. change 1 with (Z.ones 1). rewrite Z.land_ones by lia.
  change (2 ^ 1) with 2. rewrite Z.mul_comm. by apply Z.mod_mul.
Qed.

#[export] Instance pairs_fresh : FreshSockets pair_of pairs_good.
Proof.
  constructor. intros w _. set (m := Z.max (max_fd (p_sent w)) (max_fd (p_received w))).
  assert (0 ≤ m) as Hm.
  { assert (∀ l, 0 ≤ max_fd l) as Hl by (induction l as [|e l IH]; simpl; lia). pose proof (Hl (p_sent w)). lia. }
  exists (2 * (m + 1)). rewrite pair_of_even. simpl.
  split_and!; try lia; apply max_fd_fresh; lia.
Qed.

(** ** Instances *)

Definition pairs_goodb (w : pairs) : bool :=
  bool_decide (p_sends w = []) &&
  forallb (λ e, bool_decide (log_of e.1 (p_received w) `prefix_of` log_of (pair_of e.1) (p_sent w))) (p_received w) &&
  forallb (λ e, forallb (λ b, (0 <=? b) && (b <? 256)) e.2) (p_sent w).

Lemma log_of_in fd l : log_of fd l = [] ∨ ∃ e, e ∈ l ∧ e.1 = fd.
Proof.
  induction l as [|e l IH]; [by left|]. destruct (Z.eqb_spec e.1 fd) as [He|He]; [right; exists e; by split; [left|]|].
  destruct IH as [IH|(e' & ? & ?)]; [left|right; exists e'; by split; [right|]].
  unfold log_of in *. simpl. rewrite (proj2 (Z.eqb_neq _ _) He). exact IH.
Qed.

Lemma pairs_goodb_ok w : pairs_goodb w = true → pairs_good w.
Proof.
  unfold pairs_goodb. rewrite !andb_true_iff, bool_decide_eq_true, !forallb_forall. intros [[Hs Hp] Hb].
  split; [done|]. split.
  - intros fd. destruct (log_of_in fd (p_received w)) as [->|(e & He%list_elem_of_In & <-)]; [apply prefix_nil|].
    specialize (Hp e He). by apply bool_decide_eq_true in Hp.
  - apply Forall_forall. intros e He. specialize (Hb e He). apply Forall_forall. intros b Hin.
    rewrite forallb_forall in Hb. specialize (Hb b Hin). unfold byte_ok. lia.
Qed.

(** Both ends are connected; [false] has pushed two messages and sent none. *)
Definition ex_pushes : list command :=
  [CAccept true 4 0; CConnected 0; CPush false 5 8 [mkMsgHeader 1 2 3]; CPush false 6 8 [mkMsgHeader 4 5 6]].
(** Each has pushed to the other; [true] has popped one message of two and
    its process has ended, and [false] has closed. *)
Definition ex_broken : list command :=
  ex_pushes ++ [CPush true 7 8 [mkMsgHeader 7 8 9]; CFlush false; CFront true; CPop true; CCrash true;
                CClose false "Timeout" 0; CCloseFd false].

Abbreviation ex_run ks := (link_run ex_hosts ks (new_link ex_hosts) (mkPairs [] [] [])).

Lemma ex_pushes_run :
  ∃ l w, ex_run ex_pushes = Some (l, w) ∧ l_login l = None ∧ IsClosed (l_conn l true) = false ∧
    IsClosed (l_conn l false) = false ∧ length (l_pushed l false) = 2%nat ∧ pairs_goodb w = true.
Proof.
  assert (match ex_run ex_pushes with
          | Some (l, w) => (match l_login l with None => true | _ => false end) && negb (IsClosed (l_conn l true)) &&
              negb (IsClosed (l_conn l false)) && bool_decide (length (l_pushed l false) = 2%nat) && pairs_goodb w
          | None => false end = true) as Hc by (vm_compute; reflexivity).
  destruct (ex_run ex_pushes) as [[l w]|]; [|discriminate Hc]. exists l, w.
  rewrite !andb_true_iff, !negb_true_iff, bool_decide_eq_true in Hc. destruct Hc as [[[[H1 H2] H3] H4] H5].
  split; [reflexivity|]. split; [by destruct (l_login l)|]. by split_and!.
Qed.

Lemma link_drains_witness :
  ∃ l w r c w1, ex_run ex_pushes = Some (l, w) ∧ length (l_pushed l false) = 2%nat ∧
    SendPending (conf := ex_hosts false) (l_conn l false) w = Ret (r, c, w1) ∧
    ∃ n l' w', poll ex_hosts n true (set_conn l false c) w1 = Ret (l', w') ∧
      l_popped l' true = um_delivered (cs := ex_hosts false) (cr := ex_hosts true) <$> l_pushed l false.
Proof.
  destruct ex_pushes_run as (l & w & Hrun & Hlg & H1 & H2 & Hlen & Hg). exists l, w.
  destruct (link_drains ex_hosts pair_of ex_hosts_ok ex_hosts_wire pairs_good true l w
    (link_run_reachable ex_hosts _ _ _ _ _ (link_new _ _ _) Hrun) Hlg H1 H2 (pairs_goodb_ok w Hg)) as (r & c & w1 & Hs & Hall).
  exists r, c, w1. split; [exact Hrun|]. split; [exact Hlen|]. split; [exact Hs|].
  destruct (Hall _ (le_n _)) as (l' & w' & Hp & _ & Hpop). eexists _, l', w'. split; [exact Hp|exact Hpop].
Defined.

Lemma ex_broken_run :
  ∃ l w, ex_run ex_broken = Some (l, w) ∧ IsClosed (l_conn l true) = true ∧ IsClosed (l_conn l false) = true ∧
    length (l_popped l true) = 1%nat ∧ length (l_pushed l false) = 2%nat ∧ length (l_pushed l true) = 1%nat ∧
    pairs_goodb w = true.
Proof.
  assert (match ex_run ex_broken with
          | Some (l, w) => IsClosed (l_conn l true) && IsClosed (l_conn l false) && bool_decide (length (l_popped l true) = 1%nat) &&
              bool_decide (length (l_pushed l false) = 2%nat) && bool_decide (length (l_pushed l true) = 1%nat) && pairs_goodb w
          | None => false end = true) as Hc by (vm_compute; reflexivity).
  destruct (ex_run ex_broken) as [[l w]|]; [|discriminate Hc]. exists l, w.
  rewrite !andb_true_iff, !bool_decide_eq_true in Hc. destruct Hc as [[[[[H1 H2] H3] H4] H5] H6]. by split_and!.
Qed.

Lemma link_recovers_witness :
  ∃ l w l' w', ex_run ex_broken = Some (l, w) ∧ IsClosed (l_conn l true) = true ∧ length (l_popped l true) = 1%nat ∧
    link_steps ex_hosts pair_of (l, w) (l', w') ∧ length (l_popped l' true) = 2%nat ∧ length (l_popped l' false) = 1%nat.
Proof.
  destruct ex_broken_run as (l & w & Hrun & H1 & _ & H3 & H4 & H5 & Hg). exists l, w.
  destruct (link_recovers ex_hosts pair_of ex_hosts_ok ex_hosts_wire pairs_good l w
    (link_run_reachable ex_hosts _ _ _ _ _ (link_new _ _ _) Hrun) (pairs_goodb_ok w Hg)) as (l' & w' & Hs & _ & Hall).
  exists l', w'. split; [exact Hrun|]. split; [exact H1|]. split; [exact H3|]. split; [exact Hs|].
  rewrite !Hall, !length_fmap. split; [exact H4|exact H5].
Defined.
