(* ===== verification/EchoProps.v ===== *)
(** * Properties of the echo programs

    The client never ends the process because of a number it gets, unless a
    process ended inside a handler ([echo_exact]).  [echo_run] runs the two programs on the network of
    [PairedNet]. *)

From S2P Require Import Prelude.
From S2P Require Import Arrays.
From S2P Require Import MsgHeader.
From S2P Require Import PtcpQueue.
From S2P Require Import PtcpQueueInv.
From S2P Require Import PtcpQueueSpec.
From S2P Require Import Platform.
From S2P Require Import PtcpConn.
From S2P Require Import PtcpConnSend.
From S2P Require Import Link.
From S2P Require Import LinkInv.
From S2P Require Import LinkStep.
From S2P Require TcpShmConn.
From S2P Require Import UserMem.
From S2P Require EchoServer.
From S2P Require Import EchoClient.
From S2P Require Import EchoLink.
From S2P Require Import PairedNet.

Section props.
Context (little : bool → bool).
Context {W : Type} {os : Os W} {log : OsLog W} {laws : OsLaws W} (peer : Z → Z) {tcp : TcpLaws W os log peer}.
Context (price : bool → Z → list Z).
Context (Hprice : ∀ b i, zlen (price b i) = 8 ∧ Forall byte_ok (price b i)).

(** C13: the echo client and the echo server, on hosts of any byte order and
    whatever happens to their socket, when a process that ends does so between
    two of its handlers: the client never gets a number other than the next
    one, so it never ends with an error; its numbers stay in order; and no
    handler of either program is undefined.  A process that ends inside a
    handler is not covered: between [recv_num++] and [Pop] of the client, or
    [Push] and [Pop] of the server, a number is read or answered twice. *)
Theorem echo_exact slow e w :
  echo_reachable little peer price slow e w →
  0 ≤ recv_num (e_client e) ≤ send_num (e_client e) ∧ send_num (e_client e) ≤ MaxNum ∧
  (connecting (ends e) false = false →
     (∃ r, PollNum (conf := conf little false) price (e_client e) (over_tcp (e_conn e false)) w = Ret r) ∧
     ∀ p, e_head e false = Some p →
       ∃ s c, OnServerMsg (conf := conf little false) (e_client e) (over_tcp (e_conn e false)) p = Ret (Continue (s, c))) ∧
  (connecting (ends e) true = false →
     ∀ p, e_head e true = Some p →
       ∃ r, EchoServer.OnClientMsg (conf := conf little true) (over_tcp (e_conn e true)) p w = Ret r).
Proof.
  intros (l & g & Hr & Hi)%(echo_reachable_inv little peer price Hprice).
  pose proof (echo_lengths _ _ _ _ _ Hi). pose proof Hr as [_ _ _ _ Hs Hm Hv He].
  rewrite <-!(rel_connecting _ _ _ _ Hr). split; [lia|]. split; [done|]. split.
  - intros Hcon. split.
    + destruct (poll_ok _ _ price Hprice _ _ _ _ Hr Hi Hcon) as (? & ? & ? & ? & -> & _). by eexists.
    + intros p Hp. destruct (server_msg_ok _ _ _ _ _ _ _ Hr Hi Hcon Hp) as (s & c & -> & _). by eexists _, _.
  - intros Hcon p Hp. destruct (client_msg_ok _ _ _ _ _ _ _ Hr Hi Hcon Hp) as (? & ? & -> & _). by eexists.
Qed.
End props.

(** ** A run *)

Inductive echo_command :=
  | RPoll
  | RServerMsg
  | RClientMsg
  | RFront (b : bool)
  | RCrash (b : bool)
  | RCloseFd (b : bool)
  | RAccept (fd now : Z)
  | RConnected (now : Z).

Section runs.
Context (little : bool → bool) (price : bool → Z → list Z).
Abbreviation conf := (conf little).

Definition run_echo_command (k : echo_command) (e : echo) (w : pairs) : option (echo * pairs) :=
  match k with
  | RPoll =>
      if connecting (ends e) false then None else
      match PollNum (conf := conf false) price (e_client e) (over_tcp (e_conn e false)) w with
      | Ret (r, s, c, w) =>
          let c := if r then TcpShmConn.Close c else c in
          Some (e_set_client (e_set_conn e false (TcpShmConn.ptcp_conn_ c)) s, w)
      | _ => None
      end
  | RServerMsg =>
      if connecting (ends e) false then None else
      match e_head e false with
      | None => None
      | Some p =>
          match OnServerMsg (conf := conf false) (e_client e) (over_tcp (e_conn e false)) p with
          | Ret (Continue (s, c)) =>
              Some (e_set_client (e_set_head (e_set_conn e false (TcpShmConn.ptcp_conn_ c)) false None) s, w)
          | _ => None
          end
      end
  | RClientMsg =>
      if connecting (ends e) true then None else
      match e_head e true with
      | None => None
      | Some p =>
          match EchoServer.OnClientMsg (conf := conf true) (over_tcp (e_conn e true)) p w with
          | Ret (c, w) => Some (e_set_head (e_set_conn e true (TcpShmConn.ptcp_conn_ c)) true None, w)
          | _ => None
          end
      end
  | RFront b =>
      if connecting (ends e) b then None else
      match Front (conf := conf b) (e_conn e b) w with
      | Ret (r, c, w) => Some (e_set_head (e_set_conn e b c) b r, w)
      | _ => None
      end
  | RCrash b =>
      Some (e_set_login (e_set_head (e_set_conn e b (restart (conf := conf b) (e_conn e b))) b None)
              (if connecting (ends e) b then None else e_login e), w)
  | RCloseFd b => let '(_, c, w) := TryCloseFd (e_conn e b) w in Some (e_set_conn e b c, w)
  | RAccept fd now =>
      if IsClosed (e_conn e true) && IsClosed (e_conn e false) && fresh_pair fd w then
        match Open (conf := conf true) (e_conn e true) fd (conn_ack (e_conn e false)) now w with
        | Ret (c, w) =>
            Some (mkEcho (<[true := c]> (e_conn e)) no_head (Some (false, pair_of fd, conn_ack (e_conn e true)))
                    (e_client e), w)
        | _ => None
        end
      else None
  | RConnected now =>
      match e_login e with
      | None => None
      | Some (b, fd, ack) =>
          match Open (conf := conf b) (e_conn e b) fd ack now w with
          | Ret (c, w) => Some (e_set_login (e_set_head (e_set_conn e b c) b None) None, w)
          | _ => None
          end
      end
  end.

Lemma run_echo_step k e w e' w' :
  run_echo_command k e w = Some (e', w') → echo_step little pair_of price e w e' w'.
Proof.
  destruct k as [| | |b|b|b|fd now|now]; simpl.
  - destruct (connecting (ends e) false) eqn:Hc; [done|].
    destruct (PollNum _ _ _ _) as [[[[r s] c] w1]| |] eqn:Hp; [|done..]. intros [= <- <-]. by eapply es_poll.
  - destruct (connecting (ends e) false) eqn:Hc; [done|]. destruct (e_head e false) as [p|] eqn:Hh; [|done].
    destruct (OnServerMsg _ _ _) as [[[s c]| |]| |] eqn:Hp; [|done..]. intros [= <- <-]. by eapply es_server_msg.
  - destruct (connecting (ends e) true) eqn:Hc; [done|]. destruct (e_head e true) as [p|] eqn:Hh; [|done].
    destruct (EchoServer.OnClientMsg _ _ _) as [[c w1]| |] eqn:Hp; [|done..]. intros [= <- <-]. by eapply es_client_msg.
  - destruct (connecting (ends e) b) eqn:Hc; [done|].
    destruct (Front _ _) as [[[r c] w1]| |] eqn:Hp; [|done..]. intros [= <- <-]. by eapply es_front.
  - intros [= <- <-]. apply es_crash.
  - destruct (TryCloseFd _ _) as [[r c] w1] eqn:Ht. intros [= <- <-]. by eapply es_close_fd.
  - destruct (IsClosed (e_conn e true)) eqn:Hb; [|done]. destruct (IsClosed (e_conn e false)) eqn:Hn; [|done].
    destruct (fresh_pair fd w) eqn:Hf; [|done]. simpl. unfold fresh_pair in Hf.
    rewrite !andb_true_iff, !Z.leb_le, negb_true_iff, Z.eqb_neq, bool_decide_eq_true in Hf.
    destruct Hf as [[[? ?] ?] (? & ? & ? & ?)].
    destruct (Open _ _ _ _ _) as [[c w1]| |] eqn:Ho; [|done..]. intros [= <- <-]. by eapply es_accept.
  - destruct (e_login e) as [[[b fd] ack]|] eqn:El; [|done].
    destruct (Open _ _ _ _ _) as [[c w1]| |] eqn:Ho; [|done..]. intros [= <- <-]. by eapply es_connected.
Qed.

Fixpoint echo_run (ks : list echo_command) (e : echo) (w : pairs) : option (echo * pairs) :=
  match ks with
  | [] => Some (e, w)
  | k :: ks => match run_echo_command k e w with Some (e, w) => echo_run ks e w | None => None end
  end.

Lemma echo_run_reachable slow ks : ∀ e w e' w',
  echo_reachable little pair_of price slow e w → echo_run ks e w = Some (e', w') →
  echo_reachable little pair_of price slow e' w'.
Proof.
  induction ks as [|k ks IH]; simpl; intros e w e' w' He; [by intros [= <- <-]|].
  destruct (run_echo_command k e w) as [[e1 w1]|] eqn:Hk; [|done]. apply IH.
  eapply echo_next; [done|]. by eapply run_echo_step.
Qed.
End runs.

(** The client sends 0 and gets it back; its socket takes a part of 1 and is
    closed, and the server's process ends; both connect again and the server
    gets 1, replies and the client has the reply in hand. *)
Definition ex_price (b : bool) (i : Z) : list Z := repeat 0 8.
Definition ex_little (b : bool) : bool := b.
Definition ex_echo_commands : list echo_command :=
  [RAccept 4 0; RConnected 0; RPoll; RFront true; RClientMsg; RFront false; RServerMsg;
   RPoll; RCrash true; RCloseFd false; RAccept 6 9; RConnected 9; RFront true; RClientMsg; RFront false].
Definition ex_echo_pairs : pairs :=
  mkPairs [SysOk 176; SysOk 176; SysOk 52; SysErr EAGAIN; SysOk 176; SysOk 176] [] [].
Definition ex_echo : option (echo * pairs) :=
  echo_run ex_little ex_price ex_echo_commands (new_echo ex_little false) ex_echo_pairs.

Lemma ex_echo_returns :
  ∃ e w, ex_echo = Some (e, w) ∧ e_head e false = Some 0 ∧ connecting (ends e) false = false ∧
    recv_num (e_client e) = 1.
Proof.
  assert (match ex_echo with
          | Some (e, _) => bool_decide (e_head e false = Some 0 ∧ connecting (ends e) false = false ∧
                                        recv_num (e_client e) = 1)
          | None => false
          end = true) as Hc by (vm_compute; reflexivity).
  destruct ex_echo as [[e w]|]; [|discriminate Hc]. apply bool_decide_eq_true in Hc. by exists e, w.
Qed.

Lemma ex_echo_reachable e w :
  ex_echo = Some (e, w) → echo_reachable ex_little pair_of ex_price false e w.
Proof. apply echo_run_reachable, echo_new. Qed.

Lemma ex_price_ok b i : zlen (ex_price b i) = 8 ∧ Forall byte_ok (ex_price b i).
Proof. by split; [|repeat constructor]. Qed.

(** The client takes the echo of its second number. *)
Lemma echo_exact_witness :
  ∃ e w, echo_reachable ex_little pair_of ex_price false e w ∧ recv_num (e_client e) = 1 ∧
    ∃ s c, OnServerMsg (conf := conf ex_little false) (e_client e) (over_tcp (e_conn e false)) 0 =
             Ret (Continue (s, c)).
Proof.
  destruct ex_echo_returns as (e & w & He & Hh & Hc & Hr). exists e, w.
  split; [exact (ex_echo_reachable e w He)|]. split; [exact Hr|].
  destruct (echo_exact ex_little pair_of ex_price ex_price_ok false e w (ex_echo_reachable e w He))
    as (_ & _ & H & _).
  exact (proj2 (H Hc) 0 Hh).
Defined.
