(* ===== verification/MarketProps.v ===== *)
(** * Properties of the market data example

    The names of the instruments, and one send of the server with what the
    client makes of it ([market_send_step]): the client goes on when the
    number of sends agrees with the number of messages it has received, and
    ends otherwise, as it does after a send that found no room or that went
    to another connection ([market_two_clients]). *)

From stdpp Require Import gmap strings.
From S2P Require Import Prelude.
From S2P Require Import Arrays.
From S2P Require Import MsgHeader.
From S2P Require Import PtcpQueue.
From S2P Require Import PtcpQueueInv.
From S2P Require Import PtcpQueueSpec.
From S2P Require Import Platform.
From S2P Require Import PtcpConn.
From S2P Require Import PtcpConnSend.
From S2P Require Import Link.
From S2P Require Import LinkStep.
From S2P Require Import TcpShmConn.
From S2P Require Import UserMem.
From S2P Require Import EchoClient.
From S2P Require Import EchoLink.
From S2P Require EchoServer.
From S2P Require Import Market.
From S2P Require Import Scripted.

(** ** The instruments *)

(** A name for every [int], also a negative one from the network. *)
Lemma GetSymbolName_total id : ∃ name, GetSymbolName id = Ret name.
Proof.
  unfold GetSymbolName.
  destruct (get_in_range base_currencies (u64 id mod zlen base_currencies)) as [b ->]; [by apply Z.mod_pos_bound|].
  destruct (get_in_range quote_currencies (u64 id / zlen base_currencies mod zlen quote_currencies)) as [q ->];
    [by apply Z.mod_pos_bound|]. by eexists.
Qed.

(** The 120 instruments have 120 names. *)
Lemma GetSymbolName_inj i j :
  0 ≤ i < 120 → 0 ≤ j < 120 → GetSymbolName i = GetSymbolName j → i = j.
Proof.
  assert (NoDup (GetSymbolName <$> seqZ 0 120)) as Hnd.
  { apply (bool_decide_unpack _). vm_compute. exact I. }
  intros Hi Hj Heq. assert (∀ k, 0 ≤ k < 120 → (GetSymbolName <$> seqZ 0 120) !! Z.to_nat k = Some (GetSymbolName k)) as Hk.
  { intros k Hk. rewrite list_lookup_fmap, lookup_seqZ_lt by lia. simpl. do 2 f_equal. lia. }
  assert (Z.to_nat i = Z.to_nat j); [|lia].
  eapply NoDup_lookup; [exact Hnd|by apply Hk|]. rewrite Heq. by apply Hk.
Qed.

(** ** The fields of the messages *)

Definition draws_ok (d : draws) : Prop := ∀ k, zlen (d_double d k) = 8 ∧ Forall byte_ok (d_double d k).

(** The first field is the instrument, the others lie behind it. *)
Definition fields_after {conf : Conf} (size id : Z) (fs : list (Z * list Z)) : Prop :=
  ∃ rest, fs = (0, store_int id) :: rest ∧ Forall (λ f, 4 ≤ f.1 ∧ f.1 + zlen f.2 ≤ size ∧ Forall byte_ok f.2) rest.

Section fields.
Context {conf : Conf}.
Implicit Types (d : draws).

Lemma store_int64_zlen v : zlen (store_int64 v) = 8.
Proof. unfold store_int64, zlen. by rewrite store_uint_length. Qed.
Lemma store_int64_bytes v : Forall byte_ok (store_int64 v).
Proof. apply store_uint_bytes. Qed.

Ltac field_list Hd :=
  repeat constructor; simpl; rewrite ?store_int_zlen, ?store_int64_zlen, ?(proj1 (Hd _));
  first [lia|apply Hd|apply store_int_bytes|apply store_int64_bytes|idtac].

Lemma depth_fields_ok id d : draws_ok d → fields_after sizeof_MarketDepthMsg id (depth_fields id d).
Proof.
  intros Hd. eexists. split; [done|]. apply Forall_flat_map.
  repeat (constructor; [unfold sizeof_MarketDepthMsg, level_size, bid_price, ask_price; field_list Hd|]). constructor.
Qed.
Lemma trade_fields_ok id n d : draws_ok d → fields_after sizeof_TradeMsg id (trade_fields id n d).
Proof.
  intros Hd. eexists. split; [done|]. unfold sizeof_TradeMsg. field_list Hd.
  all: unfold byte_ok, zlen; simpl; try case_match; simpl; lia.
Qed.
Lemma volatility_fields_ok id d : draws_ok d → fields_after sizeof_VolatilityMsg id (volatility_fields id d).
Proof. intros Hd. eexists. split; [done|]. unfold sizeof_VolatilityMsg. field_list Hd. Qed.
Lemma kline_fields_ok id d : draws_ok d → fields_after sizeof_KLineMsg id (kline_fields id d).
Proof. intros Hd. eexists. split; [done|]. unfold sizeof_KLineMsg. field_list Hd. Qed.
Lemma ticker_fields_ok id d : draws_ok d → fields_after sizeof_TickerMsg id (ticker_fields id d).
Proof. intros Hd. eexists. split; [done|]. unfold sizeof_TickerMsg. field_list Hd. Qed.

Lemma fields_after_fit size id fs : fields_after size id fs → 4 ≤ size ≤ 8 * blocks size → fields_fit (blocks size) fs.
Proof.
  intros (rest & -> & Hrest) Hs. constructor.
  - simpl. rewrite store_int_zlen. split_and!; [lia|lia|apply store_int_bytes].
  - revert Hrest. apply Forall_impl. intros f (? & ? & ?). split_and!; [lia|lia|done].
Qed.

Lemma fields_after_number size id fs old :
  fields_after size id fs → 4 ≤ size ≤ zlen old → slice 0 4 (fields_bytes fs old) = store_int id.
Proof.
  intros (rest & -> & Hrest) Hs. rewrite fields_bytes_cons, fields_before; [|lia|].
  - rewrite <-(store_int_zlen id) at 1. apply (blit_slice_same 0). lia.
  - rewrite blit_zlen by (rewrite ?store_int_zlen; lia).
    revert Hrest. apply Forall_impl. intros f (? & ? & ?). lia.
Qed.
End fields.

(** ** One send *)

Section send.
Context {conf : Conf} {W : Type} {os : Os W} {log : OsLog W} {laws : OsLaws W}.
Context (HC : Conf_ok).
Abbreviation queue_rep := (queue_rep TcpQueueSize ToLittleEndian is_little_endian).

(** What all five functions do; [s1] is the server with the trade counted. *)
Definition send_fields (s s1 : MarketServer) (c : TcpShmConnection) (size t : Z) (fs : list (Z * list Z)) (w : W)
    : outcome (MarketServer * TcpShmConnection * W) :=
  '(header, c) ← Alloc c size;
  match header with
  | None => Ret (s, c, w)
  | Some p =>
      c ← write_msg c p t fs;
      '(c, w) ← Push c w;
      ty ← sent_type c p;
      Ret (count_sent s1 ty, c, w)
  end.

(** A send that found room: a message whose body has the fields [fs]. *)
Definition sends (s1 : MarketServer) (c : TcpShmConnection) (size t : Z) (fs : list (Z * list Z)) (w : W)
    (r : outcome (MarketServer * TcpShmConnection * W)) : Prop :=
  ∃ body old t2 b t3 w' ty,
    user_push (ptcp_conn_ c) t size body = Ret (true, t2) ∧ SendPending t2 w = Ret (b, t3, w') ∧
    size ≤ zlen old ∧ words_bytes body = fields_bytes fs old ∧ zlen body = blocks (size + 8) - 1 ∧ r = Ret (count_sent s1 ty, set_ptcp_conn c t3, w').

(** Sending leaves the messages in the queue. *)
Lemma SendPending_queue c q msgs w b c' w' :
  q_ c = Some q → queue_rep q msgs → SendPending c w = Ret (b, c', w') → ∃ q', q_ c' = Some q' ∧ queue_rep q' msgs.
Proof.
  intros Hq Hrep H. destruct (SendPending_ok HC c q msgs w Hq Hrep) as (r & c1 & w1 & Hsp & _ & Hcase).
  rewrite H in Hsp. injection Hsp as <- <- <-.
  destruct Hcase as [(_ & _ & -> & _)|[(_ & _ & _ & -> & _)|[(_ & _ & _ & q' & ws & [])|(_ & _ & _ & e & bs & rest & -> & _)]]].
  - by exists q.
  - by exists q.
  - by exists q'.
  - rewrite Close_q. by exists q.
Qed.

(** A message that was pushed and perhaps sent is the last of the queue. *)
Lemma sent_queue c q msgs t size body t2 w b t3 w' :
  q_ c = Some q → queue_rep q msgs → 0 ≤ size ≤ 65527 → 0 ≤ t < 65536 → zlen body = blocks (size + 8) - 1 →
  user_push c t size body = Ret (true, t2) → SendPending t2 w = Ret (b, t3, w') →
  ∃ q', q_ t3 = Some q' ∧
    queue_rep q' (msgs ++ [wire_msg ToLittleEndian is_little_endian (ack_seq_num_ q) t size body]).
Proof.
  intros Hq Hrep Hsize Ht Hz Hp. destruct (user_push_ok HC c q msgs t size body Hq Hrep Hsize Ht Hz) as (r & q2 & Hp' & _ & _ & Hcase).
  rewrite Hp in Hp'. injection Hp' as <- ->. destruct Hcase as [Hrep2 _]. by apply SendPending_queue with (q := q2).
Qed.

Lemma send_fields_ok s s1 c q msgs size t id fs w :
  shm_sendq_ c = None → q_ (ptcp_conn_ c) = Some q → queue_rep q msgs → 4 ≤ size ≤ 65527 → 0 ≤ t < 65536 →
  fields_after size id fs →
  ¬ fits TcpQueueSize q size ∧ send_fields s s1 c size t fs w = Ret (s, c, w) ∨
  sends s1 c size t fs w (send_fields s s1 c size t fs w).
Proof.
  intros Hs Hq Hrep Hsize Ht Hfs. destruct (blocks_body size) as (_ & _ & Hbl); [lia|].
  unfold send_fields. destruct (send_tcp HC c q msgs size t fs Hs Hq Hrep) as
    [[Hf ->]|(i & c1 & c2 & body & old & t2 & -> & Hi & Hw & Hz & Hzo & Hb & Hp & Hpush)];
    [lia|done|eapply fields_after_fit; [done|lia]|left; by rewrite outcome_bind_Ret|right].
  rewrite outcome_bind_Ret, Hw, outcome_bind_Ret, Hpush.
  destruct (user_push_ok HC _ _ _ t size body Hq Hrep) as (r & q2 & Hp' & _ & _ & Hcase);
    [lia|done|destruct (blocks_body size); lia|].
  rewrite Hp in Hp'. injection Hp' as <- ->. destruct Hcase as [Hrep2 _].
  destruct (SendPending_ok HC (set_q (ptcp_conn_ c) (Some q2)) q2 _ w eq_refl Hrep2) as (b & t3 & w' & Hsp & _ & _).
  destruct (SendPending_queue (set_q (ptcp_conn_ c) (Some q2)) q2 _ w b t3 w' eq_refl Hrep2 Hsp) as (q3 & Hq3 & Hrep3).
  rewrite Hsp, !outcome_bind_Ret. unfold sent_type. simpl. rewrite Hs, Hq3.
  assert (zlen (blk_ q3) = BLK_CNT TcpQueueSize) as Hlen by (destruct Hrep3 as [[] _]; done).
  destruct (get_in_range (blk_ q3) i) as [h ->]; [lia|]. rewrite !outcome_bind_Ret.
  eexists body, old, _, b, t3, w', _. split_and!; try done; [lia|destruct (blocks_body size); lia].
Qed.

(** The message that is sent when the counter is [total]; of the server only
    a trade changes something. *)
Definition data_size (total : Z) : Z :=
  if total mod 5 =? 0 then sizeof_MarketDepthMsg else if total mod 5 =? 1 then sizeof_TradeMsg
  else if total mod 5 =? 2 then sizeof_VolatilityMsg else if total mod 5 =? 3 then sizeof_KLineMsg
  else sizeof_TickerMsg.

Definition data_server (s : MarketServer) (total : Z) : MarketServer :=
  if total mod 5 =? 1 then set_last_trade_id s (i32 (u32 (last_trade_id s + 1))) else s.

Definition data_fields (s : MarketServer) (total : Z) (d : draws) : list (Z * list Z) :=
  let id := total mod 120 in
  if total mod 5 =? 0 then depth_fields id d
  else if total mod 5 =? 1 then trade_fields id (last_trade_id (data_server s total)) d
  else if total mod 5 =? 2 then volatility_fields id d
  else if total mod 5 =? 3 then kline_fields id d
  else ticker_fields id d.

Lemma data_fields_ok s total d :
  draws_ok d → fields_after (data_size total) (total mod 120) (data_fields s total d).
Proof.
  intros Hd. unfold data_fields, data_size. repeat case_match.
  all: first [by apply depth_fields_ok|by apply trade_fields_ok|by apply volatility_fields_ok
             |by apply kline_fields_ok|by apply ticker_fields_ok].
Qed.

Lemma data_size_range total : 40 ≤ data_size total ≤ 168.
Proof. unfold data_size. repeat case_match; done. Qed.

Lemma send_data_fields s c total d w :
  0 ≤ total →
  send_data s c total d w =
    send_fields s (data_server s total) c (data_size total) (5 + total mod 5) (data_fields s total d) w.
Proof.
  intros Ht. unfold send_data, data_size, data_fields, data_server. rewrite !Z.rem_mod_nonneg by lia.
  assert (0 ≤ total mod 5 < 5) as Hm by (apply Z.mod_pos_bound; lia).
  assert (Z.rem (total mod 120) 120 = total mod 120) as Hr.
  { pose proof (Z.mod_pos_bound total 120). rewrite Z.rem_small; lia. }
  assert (total mod 5 = 0 ∨ total mod 5 = 1 ∨ total mod 5 = 2 ∨ total mod 5 = 3 ∨ total mod 5 = 4)
    as [E|[E|[E|[E|E]]]] by lia; rewrite E;
    unfold SendMarketDepthMsg, SendTradeMsg, SendVolatilityMsg, SendKLineMsg, SendTickerMsg; rewrite !Hr; reflexivity.
Qed.

Lemma send_data_ok s c q msgs total d w :
  shm_sendq_ c = None → q_ (ptcp_conn_ c) = Some q → queue_rep q msgs → 0 ≤ total → draws_ok d →
  ¬ fits TcpQueueSize q (data_size total) ∧ send_data s c total d w = Ret (s, c, w) ∨
  sends (data_server s total) c (data_size total) (5 + total mod 5) (data_fields s total d) w (send_data s c total d w).
Proof.
  intros Hs Hq Hrep Ht Hd. rewrite send_data_fields by done. pose proof (data_size_range total).
  pose proof (Z.mod_pos_bound total 5 ltac:(lia)).
  eapply send_fields_ok; [done|done|done|lia|lia|by apply data_fields_ok].
Qed.

(** The client at a message with the instrument [id]. *)
Lemma handle_instrument_ok (e : MarketClient) (c : TcpShmConnection) p now id :
  msg_bytes c p sizeof_MsgHeader 4 = Ret (store_int id) → 0 ≤ id < 120 →
  handle_instrument e c p now =
    Ret (if id =? Z.rem (mc_recv_num e) 120
         then Continue (set_mc_recv_num (record_latency e now) (mc_recv_num (record_latency e now) + 1)) else Exit 1).
Proof.
  intros Hb Hid. unfold handle_instrument. rewrite Hb, outcome_bind_Ret, load_store_int by lia.
  by destruct (id =? _).
Qed.
End send.

(** ** The theorems *)

Section props.
Context {conf : Conf} {W : Type} {os : Os W} {log : OsLog W} {laws : OsLaws W}.
Context (HC : Conf_ok).

(** One send of the market data server on a TCP connection, for every
    value of its counter: without room it does nothing, otherwise it pushes
    the message of the next type, with the instrument after the last, and
    sends.  A client on a host of the same byte order that gets the message
    goes on when it has received as many messages, modulo 120, as the
    counter says, and ends its process otherwise. *)
Theorem market_send_step s c q msgs total d w :
  shm_sendq_ c = None → q_ (ptcp_conn_ c) = Some q →
  queue_rep TcpQueueSize ToLittleEndian is_little_endian q msgs → 0 ≤ total < max_msgs_to_send → draws_ok d →
  ¬ fits TcpQueueSize q (data_size total) ∧ send_data s c total d w = Ret (s, c, w) ∨
  ∃ body t2 b t3 w' s',
    user_push (ptcp_conn_ c) (5 + total mod 5) (data_size total) body = Ret (true, t2) ∧
    SendPending t2 w = Ret (b, t3, w') ∧ send_data s c total d w = Ret (s', set_ptcp_conn c t3, w') ∧
    ∀ (e : MarketClient) c' p now,
      msg_bytes c' p sizeof_MsgHeader 4 = Ret (slice 0 4 (words_bytes body)) → 0 ≤ mc_recv_num e →
      handle_instrument e c' p now =
        Ret (if total mod 120 =? mc_recv_num e mod 120
             then Continue (set_mc_recv_num (record_latency e now) (mc_recv_num (record_latency e now) + 1))
             else Exit 1).
Proof.
  intros Hs Hq Hrep Ht Hd.
  destruct (send_data_ok HC s c q msgs total d w Hs Hq Hrep ltac:(lia) Hd) as
    [?|(body & old & t2 & b & t3 & w' & ty & Hp & Hsp & Hold & Hbody & _ & Hr)]; [by left|right].
  pose proof (data_size_range total).
  pose proof (fields_after_number _ _ _ old (data_fields_ok s total d Hd) ltac:(lia)) as Hid. rewrite <-Hbody in Hid.
  eexists body, t2, b, t3, w', _. split_and!; [done|done|exact Hr|].
  intros e c' p now Hb He. rewrite Hid in Hb. pose proof (Z.mod_pos_bound total 120 ltac:(lia)).
  rewrite (handle_instrument_ok _ _ _ _ _ Hb) by lia. by rewrite Z.rem_mod_nonneg by lia.
Qed.
End props.

(** [msg_sent_time] is never written: no latency is ever recorded. *)
Lemma no_latency e now : msg_sent_time e = ∅ → record_latency e now = e.
Proof. intros He. unfold record_latency. by rewrite He, lookup_empty. Qed.

Lemma handle_instrument_no_latency {conf : Conf} e c p now e' :
  msg_sent_time e = ∅ → handle_instrument e c p now = Ret (Continue e') →
  latency_stats e' = latency_stats e ∧ msg_sent_time e' = ∅.
Proof.
  intros He. unfold handle_instrument. destruct (msg_bytes _ _ _ _); simpl; [|done..].
  destruct (negb _); [done|]. rewrite no_latency by done. by intros [= <-].
Qed.

(** ** Instances *)

Definition ex_server_conf : Conf := EchoServer.ServerConf true.
Definition ex_open_conn (fd : Z) : TcpShmConnection :=
  over_tcp (set_fds (set_q (new_PTCPConnection (conf := ex_server_conf)) (Some (new_PTCPQueue 4000))) fd fd).
Definition ex_draws (n : Z) : draws := mkDraws (λ _, repeat 0 8) (λ _, 7) 1000.

Lemma ex_draws_ok n : draws_ok (ex_draws n).
Proof. intros k. by split; [|repeat constructor]. Qed.

Lemma market_send_step_witness :
  ∃ body t2 b t3 w' s',
    user_push (conf := ex_server_conf) (ptcp_conn_ (ex_open_conn 4)) 8 56 body = Ret (true, t2) ∧
    SendPending (conf := ex_server_conf) t2 (ex_script [] []) = Ret (b, t3, w') ∧
    send_data (conf := ex_server_conf) new_MarketServer (ex_open_conn 4) 123 (ex_draws 0) (ex_script [] []) =
      Ret (s', set_ptcp_conn (ex_open_conn 4) t3, w').
Proof.
  destruct (market_send_step (conf := ex_server_conf) (EchoServer.ServerConf_conf_ok true) new_MarketServer (ex_open_conn 4)
    (new_PTCPQueue 4000) [] 123 (ex_draws 0) (ex_script [] []) eq_refl eq_refl) as
    [[Hf _]|(body & t2 & b & t3 & w' & s' & Hp & Hsp & Hr & _)].
  - apply new_PTCPQueue_rep. apply (conf_queue (EchoServer.ServerConf_conf_ok true)).
  - done.
  - apply ex_draws_ok.
  - destruct Hf. vm_compute. discriminate.
  - exists body, t2, b, t3, w', s'. split; [exact Hp|]. split; [exact Hsp|exact Hr].
Defined.

(** Two clients are connected.  The server sends to them in turn; the first
    client gets the messages of its own connection, as they lie in its
    receive buffer, until it ends. *)
Definition two_passes : outcome (MarketServer * list TcpShmConnection * Z * script) :=
  SendMarketDataPeriodically (conf := ex_server_conf) [[0; 1]; [0; 1]] new_MarketServer
    [ex_open_conn 4; ex_open_conn 6] 0 ex_draws (ex_script [] []).

(** The client with the bytes [bs] in its buffer, at the message at [p]. *)
Definition client_conn (bs : list Z) (p : Z) : TcpShmConnection :=
  over_tcp (set_readidx (set_recvbuf (set_q (new_PTCPConnection (conf := ClientConf true))
    (Some (new_PTCPQueue 2000))) bs (zlen bs)) p).

Definition first_client : outcome (control (MarketClient * TcpShmConnection)) :=
  '(_, pool, _, _) ← two_passes;
  c ← get pool 0;
  match q_ (ptcp_conn_ c) with
  | None => Undef
  | Some q =>
      let bs := words_bytes (conf := ex_server_conf) (slice 0 (write_idx_ q) (blk_ q)) in
      r ← OnServerMsg (conf := ClientConf true) (start_client (mkMarketClient 0 0 ∅ ∅)) (client_conn bs 0) 0 0;
      match r with
      | Continue (e, c) => OnServerMsg (conf := ClientConf true) e c (readidx_ (ptcp_conn_ c)) 0
      | _ => Ret r
      end
  end.

(** With two clients the first one ends at its second message: the counter
    of the server is one for all connections. *)
Theorem market_two_clients : first_client = Ret (Exit 1).
Proof. vm_compute. reflexivity. Qed.
