(* ===== verification/MarketTypesProps.v ===== *)
(** * Properties of the messages of the market data example

    Every message the server puts into a queue is an object of the structure of its type
    ([market_messages_typed]), and what the two programs print at their end
    ([market_no_latency]). *)

From stdpp Require Import gmap strings sorting.
From S2P Require Import Prelude.
From S2P Require Import Arrays.
From S2P Require Import MsgHeader.
From S2P Require Import PtcpQueue.
From S2P Require Import PtcpQueueInv.
From S2P Require Import PtcpQueueSpec.
From S2P Require Import Platform.
From S2P Require Import PtcpConn.
From S2P Require Import PtcpConnSend.
From S2P Require Import Link.
From S2P Require Import LinkStep.
From S2P Require Import TcpShmConn.
From S2P Require Import UserMem.
From S2P Require Import EchoClient.
From S2P Require Import Descriptors.
From S2P Require Import EchoLink.
From S2P Require EchoServer.
From S2P Require Import Market.
From S2P Require Import MarketTypes.
From S2P Require Import MarketProps.
From S2P Require Import Scripted.

(** ** The configurations *)

(** Both programs keep the rules of the library, and agree on what must be
    the same. *)
Lemma market_confs_ok l1 l2 :
  @Conf_ok (ServerConf l1) ∧ @Conf_ok (ClientConf l2) ∧
  @NameSize (ServerConf l1) = @NameSize (ClientConf l2) ∧
  @ShmQueueSize (ServerConf l1) = @ShmQueueSize (ClientConf l2) ∧
  @ToLittleEndian (ServerConf l1) = @ToLittleEndian (ClientConf l2).
Proof. split_and!; [apply (EchoServer.ServerConf_conf_ok l1)|apply (ClientConf_conf_ok l2)|done..]. Qed.

(** ** Fields that do not overlap *)

Definition apart (a b : Z * Z) : bool := (a.1 + a.2 <=? b.1) || (b.1 + b.2 <=? a.1).

Fixpoint layout (size : Z) (shape : list (Z * Z)) : bool :=
  match shape with
  | [] => true
  | a :: shape => (0 <=? a.1) && (0 <=? a.2) && (a.1 + a.2 <=? size) && forallb (apart a) shape && layout size shape
  end.

Definition shape (fs : list (Z * list Z)) : list (Z * Z) := (λ f, (f.1, zlen f.2)) <$> fs.

Section members.
Implicit Types (fs : list (Z * list Z)) (mem bs : list Z).

Lemma layout_cons size off bs fs :
  layout size (shape ((off, bs) :: fs)) = true →
  0 ≤ off ∧ off + zlen bs ≤ size ∧ Forall (λ a, apart (off, zlen bs) a = true) (shape fs) ∧ layout size (shape fs) = true.
Proof.
  simpl. rewrite !andb_true_iff, !Z.leb_le, forallb_forall, Forall_forall. intros ((((? & ?) & ?) & Hap) & ?).
  by split_and!.
Qed.

Lemma fields_apart size off n fs : ∀ mem,
  0 ≤ off → 0 ≤ n → size ≤ zlen mem → layout size (shape fs) = true →
  Forall (λ a, apart (off, n) a = true) (shape fs) → slice off (off + n) (fields_bytes fs mem) = slice off (off + n) mem.
Proof.
  induction fs as [|[o bs] fs IH]; intros mem Ho Hn Hm Hl Hap; [done|].
  destruct (layout_cons _ _ _ _ Hl) as (Ho1 & Hs1 & _ & Hl1). apply Forall_cons_1 in Hap as [Ha Hap].
  pose proof (zlen_nonneg bs). rewrite fields_bytes_cons, IH; [|done|done|rewrite blit_zlen; lia|done|done].
  unfold apart in Ha. simpl in Ha. apply orb_true_iff in Ha as [Ha|Ha]; apply Z.leb_le in Ha.
  - apply blit_slice_before; lia.
  - apply blit_slice_after; lia.
Qed.

(** A field is what is read at its place. *)
Lemma fields_member size off bs fs : ∀ mem,
  size ≤ zlen mem → layout size (shape fs) = true → (off, bs) ∈ fs → member off (zlen bs) (fields_bytes fs mem) = bs.
Proof.
  induction fs as [|[o b] fs IH]; intros mem Hm Hl Hin; [by apply not_elem_of_nil in Hin|].
  destruct (layout_cons _ _ _ _ Hl) as (Ho1 & Hs1 & Hap & Hl1). pose proof (zlen_nonneg b).
  rewrite fields_bytes_cons. apply elem_of_cons in Hin as [[= -> ->]|Hin].
  - unfold member. rewrite (fields_apart size) by (rewrite ?blit_zlen; first [lia|done]).
    apply blit_slice_same. lia.
  - apply IH; [rewrite blit_zlen; lia|done|done].
Qed.
End members.

(** ** The members of a structure *)

Section typed.
Context {conf : Conf}.
Implicit Types (fs : list (Z * list Z)) (mem bs : list Z) (d : draws).

Section fields.
Context (size : Z) (fs : list (Z * list Z)) (mem : list Z).
Context (Hsize : size ≤ zlen mem) (Hl : layout size (shape fs) = true).

Lemma field_int off v : (off, store_int v) ∈ fs → -2147483648 ≤ v < 2147483648 → read_int off (fields_bytes fs mem) = v.
Proof.
  intros Hin Hv. unfold read_int. rewrite <-(store_int_zlen v).
  rewrite (fields_member size) by done. by apply load_store_int.
Qed.

Lemma field_double off x : (off, x) ∈ fs → zlen x = 8 → read_double off (fields_bytes fs mem) = x.
Proof. intros Hin Hz. unfold read_double. rewrite <-Hz. by apply (fields_member size). Qed.

Lemma field_int64 off v :
  (off, store_int64 v) ∈ fs → - 2 ^ 63 ≤ v < 2 ^ 63 → read_int64 off (fields_bytes fs mem) = v.
Proof.
  intros Hin Hv. unfold read_int64. rewrite <-(store_int64_zlen v), (fields_member size) by done.
  unfold load_int64, store_int64.
  assert (0 ≤ u64 v < 2 ^ 64) by (unfold u64; apply Z.mod_pos_bound; lia).
  rewrite load_store_uint by (simpl; lia). unfold u64. change 18446744073709551616 with (2 ^ 64).
  rewrite Z.add_mod_idemp_l, Z.mod_small by lia. lia.
Qed.

Lemma field_bool off (b : bool) : (off, [if b then 1 else 0]) ∈ fs → read_bool off (fields_bytes fs mem) = Some b.
Proof.
  intros Hin. unfold read_bool. change 1 with (zlen [if b then 1 else 0]) at 1. rewrite (fields_member size) by done.
  unfold load_uint. by destruct b, is_little_endian.
Qed.

Lemma field_Period off v :
  (off, store_int v) ∈ fs → 0 ≤ v < 8 → ∃ p, Period_of v = Some p ∧ read_Period off (fields_bytes fs mem) = Some p.
Proof.
  intros Hin Hv. unfold read_Period. rewrite (field_int off v) by (try done; lia).
  destruct (Z.ltb_spec v 0); [lia|]. unfold Period_of.
  destruct (lookup_lt_is_Some_2 [MIN_1; MIN_5; MIN_15; MIN_30; HOUR_1; HOUR_4; DAY_1; WEEK_1] (Z.to_nat v)) as [p Hp];
    [simpl; lia|]. rewrite Hp. by eexists.
Qed.
End fields.

(** ** The layouts of the five structures *)

Ltac field_shape Hd :=
  unfold shape; cbn -[zlen store_int store_int64];
  rewrite ?store_int_zlen, ?store_int64_zlen, ?(proj1 (Hd _)); vm_compute; reflexivity.

Lemma depth_layout id d : draws_ok d → layout sizeof_MarketDepthMsg (shape (depth_fields id d)) = true.
Proof. intros Hd. field_shape Hd. Qed.
Lemma trade_layout id n d : draws_ok d → layout sizeof_TradeMsg (shape (trade_fields id n d)) = true.
Proof. intros Hd. field_shape Hd. Qed.
Lemma volatility_layout id d : draws_ok d → layout sizeof_VolatilityMsg (shape (volatility_fields id d)) = true.
Proof. intros Hd. field_shape Hd. Qed.
Lemma kline_layout id d : draws_ok d → layout sizeof_KLineMsg (shape (kline_fields id d)) = true.
Proof. intros Hd. field_shape Hd. Qed.
Lemma ticker_layout id d : draws_ok d → layout sizeof_TickerMsg (shape (ticker_fields id d)) = true.
Proof. intros Hd. field_shape Hd. Qed.

(** ** What the server means to send *)

(** What the generator and the clock can give: [RandomSize()] is between 1
    and 100, a time fits an [int64_t]. *)
Record draws_typed (d : draws) : Prop := {
  typed_doubles : draws_ok d;
  typed_size k : 1 ≤ d_size d k ≤ 100;
  typed_now : 0 ≤ d_now d < 2 ^ 63
}.

Definition data_level (d : draws) (i k : Z) : PriceLevel := mkPriceLevel (d_double d k) (100 + i * 10 + d_size d k).

(** The object that is filled when the counter is [total]; nothing when the
    period is none of the eight. *)
Definition data_msg (s : MarketServer) (total : Z) (d : draws) : option MarketMsg :=
  let id := total mod 120 in
  if total mod 5 =? 0 then
    Some (Depth (mkMarketDepthMsg id ((λ i, data_level d i (2 * i)) <$> [0; 1; 2; 3; 4])
                   ((λ i, data_level d i (2 * i + 1)) <$> [0; 1; 2; 3; 4])))
  else if total mod 5 =? 1 then
    Some (Trade (mkTradeMsg id (d_double d 0) (100 + d_size d 0) (last_trade_id (data_server s total))
                   (d_size d 1 mod 2 =? 0) (d_now d)))
  else if total mod 5 =? 2 then
    Some (Volatility (mkVolatilityMsg id (d_double d 0) (d_double d 1) (d_double d 2) (d_now d)))
  else if total mod 5 =? 3 then
    period ← Period_of (d_size d 0 mod 8);
    Some (KLine (mkKLineMsg id period (d_double d 1) (d_double d 2) (d_double d 3) (d_double d 0)
                   (1000 + d_size d 1 * 10) (d_now d)))
  else
    Some (Ticker (mkTickerMsg id (d_double d 0) (d_double d 1) (d_double d 2) (d_double d 3) (d_double d 4)
                    (10000 + d_size d 0 * 100) (d_now d))).

(** A member of the structure, or a list of levels, read where it was
    stored. *)
Ltac read_member Hd :=
  match goal with
  | |- read_double _ _ = _ => eapply field_double; [eassumption|eassumption|by repeat constructor|apply (typed_doubles _ Hd)]
  | |- read_int _ _ = _ => eapply field_int; [eassumption|eassumption|by repeat constructor|]
  | |- read_int64 _ _ = _ =>
      eapply field_int64; [eassumption|eassumption|by repeat constructor|pose proof (typed_now _ Hd); lia]
  end.

Section objects.
Context (mem : list Z) (id : Z) (d : draws) (Hid : 0 ≤ id < 120) (Hd : draws_typed d).

Lemma trade_object n :
  sizeof_TradeMsg ≤ zlen mem → -2147483648 ≤ n < 2147483648 →
  read_TradeMsg (fields_bytes (trade_fields id n d) mem) =
    Some (mkTradeMsg id (d_double d 0) (100 + d_size d 0) n (d_size d 1 mod 2 =? 0) (d_now d)).
Proof.
  intros Hm Hn. pose proof (trade_layout id n d (typed_doubles _ Hd)) as Hl.
  unfold read_TradeMsg. rewrite (field_bool sizeof_TradeMsg _ _ Hm Hl 24 (d_size d 1 mod 2 =? 0)) by by repeat constructor.
  pose proof (typed_size _ Hd 0). change (mbind ?f (Some ?x)) with (f x); cbv beta. f_equal. f_equal; read_member Hd; lia.
Qed.

Lemma depth_object :
  sizeof_MarketDepthMsg ≤ zlen mem →
  read_MarketDepthMsg (fields_bytes (depth_fields id d) mem) =
    mkMarketDepthMsg id ((λ i, data_level d i (2 * i)) <$> [0; 1; 2; 3; 4]) ((λ i, data_level d i (2 * i + 1)) <$> [0; 1; 2; 3; 4]).
Proof.
  intros Hm. pose proof (depth_layout id d (typed_doubles _ Hd)) as Hl.
  unfold read_MarketDepthMsg, data_level, read_PriceLevel. pose proof (typed_size _ Hd) as Hs.
  f_equal; [read_member Hd; lia|..]; cbn [fmap list_fmap];
    repeat (apply (f_equal2 cons); [|try done]);
    (f_equal; read_member Hd; match goal with |- context [d_size d ?k] => pose proof (Hs k) end; lia).
Qed.

Lemma volatility_object :
  sizeof_VolatilityMsg ≤ zlen mem →
  read_VolatilityMsg (fields_bytes (volatility_fields id d) mem) =
    mkVolatilityMsg id (d_double d 0) (d_double d 1) (d_double d 2) (d_now d).
Proof.
  intros Hm. pose proof (volatility_layout id d (typed_doubles _ Hd)) as Hl.
  unfold read_VolatilityMsg. f_equal; read_member Hd; lia.
Qed.

Lemma kline_object :
  sizeof_KLineMsg ≤ zlen mem →
  ∃ p, Period_of (d_size d 0 mod 8) = Some p ∧
    read_KLineMsg (fields_bytes (kline_fields id d) mem) =
      Some (mkKLineMsg id p (d_double d 1) (d_double d 2) (d_double d 3) (d_double d 0) (1000 + d_size d 1 * 10) (d_now d)).
Proof.
  intros Hm. pose proof (kline_layout id d (typed_doubles _ Hd)) as Hl.
  destruct (field_Period sizeof_KLineMsg (kline_fields id d) mem Hm Hl 4 (d_size d 0 mod 8)) as (p & Hp & Hr);
    [by repeat constructor|by apply Z.mod_pos_bound|].
  exists p. split; [done|]. unfold read_KLineMsg. rewrite Hr. change (mbind ?f (Some ?x)) with (f x); cbv beta.
  pose proof (typed_size _ Hd 1). f_equal. f_equal; read_member Hd; lia.
Qed.

Lemma ticker_object :
  sizeof_TickerMsg ≤ zlen mem →
  read_TickerMsg (fields_bytes (ticker_fields id d) mem) =
    mkTickerMsg id (d_double d 0) (d_double d 1) (d_double d 2) (d_double d 3) (d_double d 4) (10000 + d_size d 0 * 100) (d_now d).
Proof.
  intros Hm. pose proof (ticker_layout id d (typed_doubles _ Hd)) as Hl. pose proof (typed_size _ Hd 0).
  unfold read_TickerMsg. f_equal; read_member Hd; lia.
Qed.
End objects.

Lemma data_object s total d mem :
  data_size total ≤ zlen mem → draws_typed d → -2147483648 ≤ last_trade_id (data_server s total) < 2147483648 →
  ∃ m, data_msg s total d = Some m ∧
    read_MarketMsg (5 + total mod 5) (fields_bytes (data_fields s total d) mem) = Some m.
Proof.
  intros Hm Hd Hn. pose proof (Z.mod_pos_bound total 120 ltac:(lia)) as Hid.
  pose proof (Z.mod_pos_bound total 5 ltac:(lia)) as H5. revert Hm. unfold data_size, data_msg, data_fields.
  assert (total mod 5 = 0 ∨ total mod 5 = 1 ∨ total mod 5 = 2 ∨ total mod 5 = 3 ∨ total mod 5 = 4)
    as [E|[E|[E|[E|E]]]] by lia; rewrite E; intros Hm.
  - eexists. split; [done|]. exact (f_equal (λ r, Some (Depth r)) (depth_object mem _ d Hid Hd Hm)).
  - eexists. split; [done|]. exact (f_equal (fmap Trade) (trade_object mem _ d Hid Hd _ Hm Hn)).
  - eexists. split; [done|]. exact (f_equal (λ r, Some (Volatility r)) (volatility_object mem _ d Hid Hd Hm)).
  - destruct (kline_object mem (total mod 120) d Hid Hd Hm) as (p & Hp & Hr).
    eexists. split; [by rewrite Hp|]. exact (f_equal (fmap KLine) Hr).
  - eexists. split; [done|]. exact (f_equal (λ r, Some (Ticker r)) (ticker_object mem _ d Hid Hd Hm)).
Qed.

(** Each fits the buffer that the client starts with, so the buffer never
    grows. *)
Lemma data_size_fits little total : sizeof_MsgHeader + data_size total ≤ @TcpRecvBufInitSize (ClientConf little).
Proof. pose proof (data_size_range total). unfold sizeof_MsgHeader. simpl. lia. Qed.

Lemma data_msg_id s total d m : data_msg s total d = Some m → msg_instrument_id m = Some (total mod 120).
Proof.
  unfold data_msg. repeat case_match; try by intros [= <-].
  destruct (Period_of _); simpl; [by intros [= <-]|done].
Qed.
End typed.

(** ** The theorems *)

Section props.
Context {conf : Conf} {W : Type} {os : Os W} {log : OsLog W} {laws : OsLaws W}.
Context (HC : Conf_ok).

(** C34: a call of the market data server to send on a TCP connection does
    nothing, when there is no room, or leaves in the connection's queue, behind
    the messages that were there, one message of the next of the five types:
    its body, as the client gets it, is an object of the structure of that type,
    with exactly the members that were computed for it.  No two members
    overlap, the period is one of the eight, the side of a trade is a [bool],
    every number fits its member, and the instrument is one of the 120; so
    reading it through the pointer of its type, as the client does, finds this
    object. *)
Theorem market_messages_typed s c q msgs total d w s' c' w' :
  shm_sendq_ c = None → q_ (ptcp_conn_ c) = Some q →
  queue_rep TcpQueueSize ToLittleEndian is_little_endian q msgs → 0 ≤ total → draws_typed d →
  -2147483648 ≤ last_trade_id s < 2147483648 →
  send_data s c total d w = Ret (s', c', w') →
  -2147483648 ≤ last_trade_id s' < 2147483648 ∧
  (¬ fits TcpQueueSize q (data_size total) ∧ s' = s ∧ c' = c ∧ w' = w ∨
   ∃ m body q',
     q_ (ptcp_conn_ c') = Some q' ∧
     queue_rep TcpQueueSize ToLittleEndian is_little_endian q'
       (msgs ++ [wire_msg ToLittleEndian is_little_endian (ack_seq_num_ q) (5 + total mod 5) (data_size total) body]) ∧
     data_msg s total d = Some m ∧ msg_instrument_id m = Some (total mod 120) ∧
     read_MarketMsg (5 + total mod 5) (words_bytes body) = Some m).
Proof.
  intros Hs Hq Hrep Ht Hd Hid H.
  assert (-2147483648 ≤ last_trade_id (data_server s total) < 2147483648) as Hn.
  { unfold data_server. case_match; [|done]. simpl. unfold i32. pose proof (Z.mod_pos_bound (u32 (last_trade_id s + 1) + 2147483648) 4294967296). lia. }
  destruct (send_data_ok HC s c q msgs total d w Hs Hq Hrep Ht (typed_doubles _ Hd)) as
    [[Hf Hr]|(body & old & t2 & b & t3 & w1 & ty & Hp & Hsp & Hold & Hbody & Hz & Hr)]; rewrite H in Hr; simplify_eq.
  - split; [done|by left].
  - split; [done|]. right. destruct (data_object s total d old Hold Hd Hn) as (m & Hm & Hread).
    pose proof (data_size_range total). pose proof (Z.mod_pos_bound total 5 ltac:(lia)).
    destruct (sent_queue HC _ q msgs (5 + total mod 5) (data_size total) body t2 w b t3 _ Hq Hrep ltac:(lia) ltac:(lia) Hz Hp Hsp) as (q' & Hq' & Hrep').
    exists m, body, q'. rewrite Hbody. split_and!; try done. by eapply data_msg_id.
Qed.
End props.

(** A candle. *)
Lemma market_messages_typed_witness :
  ∃ s' c' w' m body q',
    send_data (conf := ServerConf true) new_MarketServer (ex_open_conn 4) 123 (ex_draws 0) (ex_script [] []) = Ret (s', c', w') ∧
    q_ (ptcp_conn_ c') = Some q' ∧ queue_rep 4000 true true q' [wire_msg true true 0 8 56 body] ∧
    data_msg new_MarketServer 123 (ex_draws 0) = Some m ∧
    read_MarketMsg (conf := ServerConf true) 8 (words_bytes (conf := ServerConf true) body) = Some m.
Proof.
  assert (match send_data (conf := ServerConf true) new_MarketServer (ex_open_conn 4) 123 (ex_draws 0) (ex_script [] []) with
          | Ret (s', _, _) => bool_decide (msg_send_count s' !! 8 = Some 1) | _ => false end = true) as Hc by (vm_compute; reflexivity).
  destruct (send_data _ _ _ _ _) as [[[s' c'] w']| |] eqn:Hr; [|discriminate Hc..]. apply bool_decide_eq_true in Hc.
  destruct (market_messages_typed (conf := ServerConf true) (EchoServer.ServerConf_conf_ok true) new_MarketServer (ex_open_conn 4)
    (new_PTCPQueue 4000) [] 123 (ex_draws 0) (ex_script [] []) s' c' w' eq_refl eq_refl) as
    [_ [(_ & -> & _)|(m & body & q' & Hq & Hp & Hm & _ & Hread)]].
  - apply new_PTCPQueue_rep. apply (conf_queue (EchoServer.ServerConf_conf_ok true)).
  - done.
  - split; [apply ex_draws_ok|done|done].
  - done.
  - exact Hr.
  - discriminate Hc.
  - exists s', c', w', m, body, q'. split_and!; [reflexivity|exact Hq|exact Hp|exact Hm|exact Hread].
Defined.

(** ** What the client prints at its end *)

(** The messages that the client handles, one after the other; for each the
    connection, the pointer and the time. *)
Fixpoint handle_msgs {conf : Conf} (e : MarketClient) (msgs : list (TcpShmConnection * Z * Z))
    : outcome (control MarketClient) :=
  match msgs with
  | [] => Ret (Continue e)
  | (c, p, now) :: msgs =>
      r ← OnServerMsg e c p now;
      match r with
      | Continue (e, _) => handle_msgs e msgs
      | Exit code => Ret (Exit code)
      | Abort => Ret Abort
      end
  end.

(** No latency was recorded, and none can be. *)
Definition no_latencies (e : MarketClient) : Prop :=
  msg_sent_time e = ∅ ∧ ∀ t s, latency_stats e !! t = Some s → ls_count s = 0.

Lemma stats_lines_none l : (∀ t s, (t, s) ∈ l → ls_count s = 0) → stats_lines l = Continue [].
Proof.
  induction l as [|[t s] l IH]; intros Hl; [done|]. simpl. rewrite (Hl t s) by by left.
  apply IH. intros t1 s1 Hin. apply (Hl t1). by right.
Qed.

Lemma by_key_elem {A} (m : gmap Z A) t x : (t, x) ∈ by_key m ↔ m !! t = Some x.
Proof. unfold by_key. rewrite (merge_sort_Permutation key_le), elem_of_map_to_list. done. Qed.

Lemma no_latencies_printed e : no_latencies e → PrintLatencyStats e = Continue [].
Proof. intros [_ He]. apply stats_lines_none. intros t s. rewrite by_key_elem. apply He. Qed.

Section latency.
Context {conf : Conf}.

Lemma handle_values_no_latencies n : ∀ k e c p e',
  no_latencies e → handle_values n k e c p = Ret (Continue e') → no_latencies e'.
Proof.
  induction n as [|n IH]; intros k e c p e' He H; simpl in H; [by injection H as <-|].
  run H. destruct (negb _); [done|]. eapply IH; [|exact H]. exact He.
Qed.

Lemma handle_instrument_no_latencies e c p now e' :
  no_latencies e → handle_instrument e c p now = Ret (Continue e') → no_latencies e'.
Proof.
  intros [Hs Hl] H. destruct (handle_instrument_no_latency e c p now e' Hs H) as [H1 H2]. split; [done|]. by rewrite H1.
Qed.

Lemma OnServerMsg_no_latencies e c p now e' c' :
  no_latencies e → OnServerMsg e c p now = Ret (Continue (e', c')) → no_latencies e'.
Proof.
  intros He H. unfold OnServerMsg in H. run H. run H. destruct r0 as [e1|code|]; [|by run H..]. run H. run H.
  repeat case_match; first [by apply (handle_values_no_latencies _ _ _ _ _ _ He Hrun0)|by apply (handle_instrument_no_latencies _ _ _ _ _ He Hrun0)|done].
Qed.

Lemma start_client_no_latencies e : no_latencies (start_client e).
Proof.
  split; [done|]. intros t s H. apply elem_of_list_to_map_2 in H. simpl in H.
  repeat (apply elem_of_cons in H as [[= -> ->]|H]; [done|]). by apply not_elem_of_nil in H.
Qed.

(** [PrintLatencyStats] prints not a single line about a type of
    message, whatever the client received: nothing stores the time at which
    a message was sent, so no latency is ever recorded. *)
Theorem market_no_latency e0 msgs e :
  handle_msgs (start_client e0) msgs = Ret (Continue e) → PrintLatencyStats e = Continue [].
Proof.
  intros H. apply no_latencies_printed. revert H. generalize (start_client_no_latencies e0).
  generalize (start_client e0). induction msgs as [|[[c p] now] msgs IH]; intros e1 He1 H; simpl in H.
  - by injection H as <-.
  - run H. destruct r as [[e2 c2]|code|]; [|done..]. eapply IH; [|exact H]. by eapply OnServerMsg_no_latencies.
Qed.
End latency.

(** One trade is received. *)
Definition ex_trade : TcpShmConnection * Z * Z :=
  (client_conn (header_bytes true (mkMsgHeader 48 6 0) ++ repeat 0 40) 0, 0, 17).

Lemma market_no_latency_witness :
  ∃ e, handle_msgs (conf := ClientConf true) (start_client (mkMarketClient 0 0 ∅ ∅)) [ex_trade] = Ret (Continue e) ∧
    mc_recv_num e = 1 ∧ PrintLatencyStats e = Continue [].
Proof.
  assert (match handle_msgs (conf := ClientConf true) (start_client (mkMarketClient 0 0 ∅ ∅)) [ex_trade] with
          | Ret (Continue e) => mc_recv_num e =? 1 | _ => false end = true) as Hc by (vm_compute; reflexivity).
  destruct (handle_msgs _ _) as [[e|code|]| |] eqn:Hr; try discriminate Hc. apply Z.eqb_eq in Hc.
  exists e. split; [reflexivity|]. split; [exact Hc|]. exact (market_no_latency _ _ e Hr).
Defined.
