(* ===== verification/Handshake.v ===== *)
(** * The login of the client and the server

    [link_step] has the steps of a login: one end takes the login of the
    other ([step_accept]), the other gets the reply ([step_connected]).
    They are what [HandleLogin] and [Connect] do: the number that each side
    passes to [Open] is the ack in the file of the other, whatever the byte
    orders of the hosts. *)

From S2P Require Import Prelude.
From S2P Require Import Arrays.
From S2P Require Import MsgHeader.
From S2P Require Import PtcpQueue.
From S2P Require Import PtcpQueueInv.
From S2P Require Import SpscQueue.
From S2P Require Import Platform.
From S2P Require Import PtcpConn.
From S2P Require Import Link.
From S2P Require Import LinkInv.
From S2P Require Import LinkStep.
From S2P Require Import LinkRun.
From S2P Require TcpShmConn.
From S2P Require Import Login.
From S2P Require Import Server.
From S2P Require Import Descriptors.
From S2P Require Import ServerLogin.
From S2P Require Client.
From S2P Require Import PairedNet.

(** What the host [r] loads where the host [s] stored an integer of [n]
    bytes. *)
Definition reread (s r : bool) (n : nat) (x : Z) : Z := load_uint r (store_uint s n x).

Lemma Convert_reread s r ToLE n x :
  swapped_width n → 0 ≤ x < 256 ^ Z.of_nat n →
  Convert r ToLE (Z.of_nat n) (reread s r n (Convert s ToLE (Z.of_nat n) x)) = x.
Proof.
  intros Hn Hx. unfold reread. rewrite !store_Convert by done.
  rewrite <-(store_Convert r ToLE n x), load_store_uint by (try apply Convert_range; done).
  by apply Convert_involutive.
Qed.

(** The number that the client puts into its login. *)
Lemma Connect_message_ack {conf : Conf} {ud : UserData} {W} {mmq : MmapOs W PTCPQueue} {mms : MmapOs W SPSCVarQueue}
    {los : LoginOs W} {user : Client.ClientUser W} stack_login c data w server ch h login c' w' q :
  Client.server_name_ c = Some server → TcpShmConn.first_char server = Ret ch → ch ≠ 0 →
  Client.Connect_message stack_login c false data w = Ret (Some (h, login), c', w') →
  TcpShmConn.shm_sendq_ (Client.conn_ c') = None → q_ (TcpShmConn.ptcp_conn_ (Client.conn_ c')) = Some q →
  mh_ack_seq h = ack_seq_num_ q ∧ Client.server_name_ c' = Some server.
Proof.
  intros Hs Hch Hne H Hshm Hq. unfold Client.Connect_message in H. rewrite Hs in H. run H. run H.
  rewrite Hch, outcome_bind_Ret, (proj2 (Z.eqb_neq _ _)) in H by done.
  destruct (TcpShmConn.OpenFile _ _ _) as [[err t] w1]. destruct err; [done|]. run H. destruct r1 as [[] local]; [|done].
  injection H as <- <- <- <-. simpl in *. split; [|done]. by eapply GetSeq_ack.
Qed.

(** An accepted login of a client that was logged on here before: the file is
    as it was, and [Open] gets the number of the login. *)
Lemma login_opened_same {conf : Conf} {ud : UserData} {W} {os : Os W} {mmq : MmapOs W PTCPQueue}
    {mms : MmapOs W SPSCVarQueue} {los : LoginOs W} {fv : FdView W} server nc c now c' co cc c1 ra la header rsp w2 w3 q :
  login_opened server nc c now c' co cc c1 ra la header rsp w2 w3 →
  TcpShmConn.strncmp_eq (last_server_name (nc_login nc)) server NameSize = true →
  TcpShmConn.shm_sendq_ co = None → q_ (TcpShmConn.ptcp_conn_ co) = Some q →
  ra = mh_ack_seq (nc_header nc) ∧
  mh_ack_seq header = Convert is_little_endian ToLittleEndian 4 (ack_seq_num_ q) ∧
  PtcpConn.Open (TcpShmConn.ptcp_conn_ co) (nc_fd nc) ra now w2 = Ret (TcpShmConn.ptcp_conn_ c1, w3).
Proof.
  intros [_ Hchk _ _ Hack Hopen _] Hsame Hshm Hq. destruct Hchk as [|local _ Hseq _ _]; [congruence|].
  split; [done|]. rewrite Hack. split; [by rewrite (GetSeq_ack _ _ _ Hshm Hq Hseq)|].
  unfold TcpShmConn.Open in Hopen. run Hopen. destruct r as [t w]. by injection Hopen as <- <-.
Qed.

(** The end of [Connect] at the server it was connected to before. *)
Lemma Connect_success_same {conf : Conf} {ud : UserData} {W} {os : Os W} {mmq : MmapOs W PTCPQueue}
    {mms : MmapOs W SPSCVarQueue} {los : LoginOs W} {user : Client.ClientUser W} c server use_shm fd header rsp sname c' w w' :
  Client.server_name_ c = Some server → put (server_name rsp) (NameSize - 1) 0 = Ret sname →
  TcpShmConn.strncmp_eq server sname NameSize = true →
  Client.Connect_success c use_shm fd header rsp w = Ret (true, c', w') →
  ∃ now w1, PtcpConn.Open (TcpShmConn.ptcp_conn_ (Client.conn_ c)) fd (mh_ack_seq header) now w1 =
    Ret (TcpShmConn.ptcp_conn_ (Client.conn_ c'), w').
Proof.
  intros Hs Hput Hsame H. unfold Client.Connect_success in H. rewrite Hs, Hput, outcome_bind_Ret in H. cbv zeta in H.
  rewrite Hsame in H. simpl in H. destruct (Client.OnLoginSuccess _ _) as [now w1]. run H. destruct r as [t w2].
  injection H as <- <-. unfold TcpShmConn.Open in Hrun. run Hrun. destruct r as [t' w3]. injection Hrun as <- <-.
  by exists now, w1.
Qed.

Section handshake.
Context (conf : bool → Conf) {ud : UserData} {W : Type} {os : Os W} {log : OsLog W} {laws : OsLaws W}.
Context (peer : Z → Z) {tcp : TcpLaws W os log peer}.
Context (HC : ∀ b, @Conf_ok (conf b)) (Hle : ∀ b, @ToLittleEndian (conf b) = @ToLittleEndian (conf (negb b))).
Context {mmq : MmapOs W PTCPQueue} {mms : MmapOs W SPSCVarQueue} {fv : FdView W}.
Context {slos : @LoginOs W (conf true) ud} {clos : @LoginOs W (conf false) ud}.
Context {cuser : @Client.ClientUser W (conf false) ud clos}.

(** The client's [Connect] has made the message with the header [h] and goes
    on as [cl]; its file is that of the end [false]. *)
Definition client_login (l : link) (h : MsgHeader) (cl : Client.TcpShmClient) : Prop :=
  ∃ stack_login cl0 data wa server ch login wb,
    Client.server_name_ cl0 = Some server ∧ TcpShmConn.first_char server = Ret ch ∧ ch ≠ 0 ∧
    Client.Connect_message (conf := conf false) stack_login cl0 false data wa = Ret (Some (h, login), cl, wb) ∧
    TcpShmConn.shm_sendq_ (Client.conn_ cl) = None ∧ TcpShmConn.ptcp_conn_ (Client.conn_ cl) = l_conn l false.

(** The server has accepted the login on [nc] for a connection whose file is
    that of the end [true]: it has sent [header] and opened [c1]. *)
Definition server_login (l : link) (nc : @NewConn (conf true) ud W slos) (now : Z) (header : MsgHeader)
    (c1 : TcpShmConn.TcpShmConnection) (w2 w3 : W) : Prop :=
  ∃ server c c' co cc ra la rsp,
    login_opened (conf := conf true) server nc c now c' co cc c1 ra la header rsp w2 w3 ∧
    TcpShmConn.strncmp_eq (last_server_name (nc_login nc)) server (@NameSize (conf true)) = true ∧
    TcpShmConn.shm_sendq_ co = None ∧ TcpShmConn.ptcp_conn_ co = l_conn l true.

(** A number in a login that [y] has stored as [x], as the other end loads and
    converts it. *)
Definition received (y : bool) (x : Z) : Z :=
  Convert (@is_little_endian (conf (negb y))) (@ToLittleEndian (conf (negb y))) 4
    (reread (@is_little_endian (conf y)) (@is_little_endian (conf (negb y))) 4 x).

Lemma received_same y x :
  0 ≤ x < 4294967296 → received y (Convert (@is_little_endian (conf y)) (@ToLittleEndian (conf y)) 4 x) = x.
Proof. intros Hx. unfold received. rewrite (Hle y). apply (Convert_reread _ _ _ 4); [apply swapped_4|done]. Qed.

(** C8: a client and a server that were connected before log in again, in
    any state of their files that two hosts can reach: the number in the
    login is read by the server, and that in the reply by the client, as it
    was sent, whatever the byte orders; and [HandleLogin] and [Connect] open
    the two ends as the steps of a login of [link_step] do, so that what holds
    of two hosts holds of this client and this server. *)
Theorem login_handshake l w0 h cl (nc : @NewConn (conf true) ud W slos) now header c1 w2 w3 :
  link_reachable conf peer l w0 → client_login l h cl → server_login l nc now header c1 w2 w3 →
  mh_ack_seq (nc_header nc) =
    received false (Convert (@is_little_endian (conf false)) (@ToLittleEndian (conf false)) 4 (mh_ack_seq h)) →
  IsClosed (l_conn l true) = true → IsClosed (l_conn l false) = true →
  let fd := nc_fd nc in
  0 ≤ fd → 0 ≤ peer fd → peer fd ≠ fd →
  os_sent fd w2 = [] → os_received fd w2 = [] → os_sent (peer fd) w2 = [] → os_received (peer fd) w2 = [] →
  let l1 := mkLink (<[true := TcpShmConn.ptcp_conn_ c1]> (l_conn l)) no_head
              (Some (false, peer fd, conn_ack (l_conn l true))) (l_pushed l) (l_popped l) in
  link_step conf peer l w2 l1 w3 ∧
  ∀ l' use_shm reply rsp server sname cl' w4 w5,
    l_login l' = l_login l1 → l_conn l' false = TcpShmConn.ptcp_conn_ (Client.conn_ cl) →
    mh_ack_seq reply = received true (mh_ack_seq header) →
    Client.server_name_ cl = Some server → put (server_name rsp) (@NameSize (conf false) - 1) 0 = Ret sname →
    TcpShmConn.strncmp_eq server sname (@NameSize (conf false)) = true →
    Client.Connect_success (conf := conf false) cl use_shm (peer fd) reply rsp w4 = Ret (true, cl', w5) →
    ∃ w, link_step conf peer l' w
           (set_login (set_head (set_conn l' false (TcpShmConn.ptcp_conn_ (Client.conn_ cl'))) false None) None) w5.
Proof.
  intros [g Hi]%(link_reachable_inv conf peer HC Hle)
    (sl & cl0 & data & wa & srv & ch & login & wb & Hn & Hch & Hne & Hmsg & Hshm & Hcl)
    (server & c & c' & co & cc & ra & la & rsp & Hopened & Hsame & Hshms & Hco) Hsent Hct Hcf fd Hfd Hp Hpn
    Hs1 Hr1 Hs2 Hr2 l1.
  pose proof (inv_dir _ _ _ _ _ true Hi) as Hdt. pose proof (inv_dir _ _ _ _ _ false Hi) as Hdf.
  pose proof (dr_q _ _ _ _ _ _ _ _ _ _ Hdt) as Hqt. pose proof (dr_q _ _ _ _ _ _ _ _ _ _ Hdf) as Hqf.
  rewrite <-Hco in Hqt. rewrite <-Hcl in Hqf.
  destruct (login_opened_same _ _ _ _ _ _ _ _ _ _ _ _ _ _ _ Hopened Hsame Hshms Hqt) as (-> & Hack & Hopen).
  destruct (Connect_message_ack _ _ _ _ _ _ _ _ _ _ _ Hn Hch Hne Hmsg Hshm Hqf) as [Hh _].
  assert (∀ b, 0 ≤ conn_ack (l_conn l b) < 4294967296) as Hrange.
  { intros b. pose proof (inv_dir _ _ _ _ _ b Hi) as Hd. rewrite (inv_conn_ack _ _ _ _ _ b Hi).
    destruct (dr_len _ _ _ _ _ _ _ _ _ _ Hd) as (_ & _ & ?). lia. }
  assert (mh_ack_seq (nc_header nc) = conn_ack (l_conn l false)) as Hra.
  { rewrite Hsent, Hh. unfold conn_ack. rewrite <-Hcl, Hqf. apply received_same.
    specialize (Hrange false). unfold conn_ack in Hrange. by rewrite <-Hcl, Hqf in Hrange. }
  rewrite Hra, Hco in Hopen. split.
  { exact (step_accept conf peer l w2 true fd now _ w3 Hct Hcf Hfd Hp Hpn Hs1 Hr1 Hs2 Hr2 Hopen). }
  intros l' use_shm reply rsp' server' sname cl' w4 w5 El Ec Hreply Hsn Hput Hcmp Hsucc.
  assert (conn_ack (l_conn l true) = ack_seq_num_ (g_q (g true))) as Hackt by (unfold conn_ack; by rewrite <-Hco, Hqt).
  rewrite Hack, <-Hackt, received_same in Hreply by done.
  destruct (Connect_success_same _ _ _ _ _ _ _ _ _ _ Hsn Hput Hcmp Hsucc) as (now' & w & Ho).
  rewrite Hreply, <-Ec in Ho. exists w.
  exact (step_connected conf peer l' w false (peer fd) _ now' _ w5 El Ho).
Qed.
End handshake.

(** ** An instance: two hosts of different byte order log in again *)

#[local] Instance pair_user_data : UserData := {| LoginUserData := unit; LoginRspUserData := unit |}.
#[local] Instance pair_fds : FdView pairs := λ _, ∅.
#[local] Instance pair_mmap T : MmapOs pairs T := {|
  os_open _ _ w := (SysErr 2, w);
  os_ftruncate _ _ w := (true, w);
  os_mmap _ w := (None, w);
  os_close_file _ w := w;
  os_munmap _ w := w
|}.
#[local] Instance pair_login (c : Conf) : LoginOs pairs := {
  sizeof_LoginMsg := 48;
  sizeof_LoginRspMsg := 64;
  sockaddr := unit;
  os_socket w := (SysErr 24, w);
  os_setsockopt _ _ w := (SysOk 0, w);
  os_bind _ _ _ w := (SysOk 0, w);
  os_listen _ w := (SysOk 0, w);
  os_accept _ w := (SysErr EAGAIN, w);
  os_connect _ _ _ w := (SysOk 0, w);
  os_set_nonblock _ w := w;
  os_send_login _ _ w := (SysOk 56, w);
  os_recv_login _ w := (RecvErr EAGAIN, w);
  os_send_rsp _ _ w := (SysOk 72, w);
  os_recv_rsp _ w := (RecvErr EAGAIN, w);
  os_mkdir _ w := w;
  os_errno _ := 0
}.
#[local] Instance pair_client : @Client.ClientUser pairs (ex_hosts false) pair_user_data (pair_login _) := {|
  Client.OnSystemError _ _ w := w;
  Client.OnLoginReject _ w := w;
  Client.OnLoginSuccess _ w := (9, w);
  Client.OnSeqNumberMismatch _ _ w := w;
  Client.OnServerMsg c _ w := Ret (c, w);
  Client.OnDisconnected _ _ w := w
|}.

(** The hosts after the run [ex_commands] up to the first crash: the client
    has sent two messages, the server has popped one. *)
Definition ex_again_commands : list command := take 9 ex_commands.
Definition ex_again : option (link * pairs) := link_run ex_hosts ex_again_commands (new_link ex_hosts) ex_pairs.

Definition name16 (s : string) : list Z := TcpShmConn.chars s ++ repeat 0 (16 - String.length s).
Definition ex_tcp (l : link) (b : bool) : TcpShmConn.TcpShmConnection :=
  TcpShmConn.set_ptcp_conn (TcpShmConn.new_TcpShmConnection (conf := ex_hosts b) (name16 "")) (l_conn l b).
Definition ex_client (l : link) : Client.TcpShmClient :=
  Client.mkClient (name16 "bob") (Some (name16 "srv")) [] (ex_tcp l false).
Definition ex_login_msg (st e : Z) : LoginMsg := mkLoginMsg st e tt 0 (name16 "bob") (name16 "srv").
Definition ex_nc : @NewConn (ex_hosts true) pair_user_data pairs (pair_login _) :=
  mkNewConn (conf := ex_hosts true) 9 6 tt (mkMsgHeader 56 1 0) (ex_login_msg 0 2).
Definition ex_rsp : LoginRspMsg := mkLoginRspMsg 0 0 tt 0 (name16 "srv") [].

Definition ex_open (l : link) (b : bool) (fd ack now : Z) (w : pairs) : TcpShmConn.TcpShmConnection * pairs :=
  match TcpShmConn.Open (conf := ex_hosts b) (ex_tcp l b) fd ack now w with
  | Ret r => r
  | _ => (ex_tcp l b, w)
  end.


Definition ex_state : link * pairs := default (new_link ex_hosts, ex_pairs) ex_again.
Definition ex_l : link := ex_state.1.
Definition ex_w : pairs := ex_state.2.

Lemma ex_tcp_conn l b : TcpShmConn.shm_sendq_ (ex_tcp l b) = None ∧ TcpShmConn.ptcp_conn_ (ex_tcp l b) = l_conn l b.
Proof. done. Qed.

(** The server opens its end, then the client. *)
Definition ex_opened : TcpShmConn.TcpShmConnection * pairs := ex_open ex_l true 6 0 9 ex_w.
Definition ex_header : MsgHeader := mkMsgHeader 72 2 (Convert true true 4 1).
Definition ex_reply : MsgHeader := mkMsgHeader 72 2 1.

Lemma ex_again_returns : ex_again = Some ex_state.
Proof.
  assert (match ex_again with Some _ => true | None => false end = true) as H by (vm_compute; reflexivity).
  unfold ex_state. destruct ex_again as [p|]; [reflexivity|discriminate H].
Qed.

Lemma ex_again_reachable l w : ex_again = Some (l, w) → link_reachable ex_hosts pair_of l w.
Proof. apply link_run_reachable, link_new. Qed.

Lemma ex_state_reachable : link_reachable ex_hosts pair_of ex_l ex_w.
Proof. apply ex_again_reachable. rewrite ex_again_returns. unfold ex_l, ex_w. by rewrite <-surjective_pairing. Qed.

Lemma ex_client_login : client_login ex_hosts ex_l (mkMsgHeader 56 1 0) (ex_client ex_l).
Proof.
  exists (ex_login_msg 0 0), (ex_client ex_l), tt, ex_w, (name16 "srv"), 115, (ex_login_msg 0 2), ex_w.
  split; [reflexivity|]. split; [reflexivity|]. split; [done|]. split; [vm_compute; reflexivity|].
  apply ex_tcp_conn.
Qed.

Lemma ex_server_login : server_login ex_hosts ex_l ex_nc 9 ex_header ex_opened.1 ex_w ex_opened.2.
Proof.
  exists (name16 "srv"), (ex_tcp ex_l true), ex_opened.1, (ex_tcp ex_l true), (ex_tcp ex_l true), 0, 1, ex_rsp.
  split; [|split; [reflexivity|apply ex_tcp_conn]].
  constructor.
  - exists ex_w, ex_w. vm_compute. reflexivity.
  - apply (login_agreed (name16 "srv") ex_nc (ex_tcp ex_l true) (TcpShmConn.mkSeqs 1 0 0)); vm_compute; reflexivity.
  - exists ex_w. reflexivity.
  - reflexivity.
  - reflexivity.
  - vm_compute. reflexivity.
  - eexists. apply calls_done.
Qed.

Lemma ex_state_fresh :
  IsClosed (l_conn ex_l true) = true ∧ IsClosed (l_conn ex_l false) = true ∧
  os_sent 6 ex_w = [] ∧ os_received 6 ex_w = [] ∧ os_sent (pair_of 6) ex_w = [] ∧ os_received (pair_of 6) ex_w = [].
Proof. vm_compute. by split_and!. Qed.

(** What the client has when [Connect] returns, on the world [ex_opened.2]. *)
Definition ex_connected : Client.TcpShmClient * pairs :=
  match Client.Connect_success (conf := ex_hosts false) (ex_client ex_l) false 7 ex_reply ex_rsp ex_opened.2 with
  | Ret (true, c, w) => (c, w)
  | _ => (ex_client ex_l, ex_opened.2)
  end.

Lemma ex_connected_returns :
  Client.Connect_success (conf := ex_hosts false) (ex_client ex_l) false 7 ex_reply ex_rsp ex_opened.2 =
    Ret (true, ex_connected.1, ex_connected.2).
Proof.
  assert (match Client.Connect_success (conf := ex_hosts false) (ex_client ex_l) false 7 ex_reply ex_rsp ex_opened.2 with
          | Ret (b, _, _) => b | _ => false end = true) as H by (vm_compute; reflexivity).
  unfold ex_connected. destruct (Client.Connect_success _ _ _ _ _ _) as [[[[] c] w]| |]; [reflexivity|discriminate H..].
Qed.

Lemma ex_conn_ack : conn_ack (l_conn ex_l true) = 1.
Proof. vm_compute. reflexivity. Qed.

Definition ex_l1 : link :=
  mkLink (<[true := TcpShmConn.ptcp_conn_ ex_opened.1]> (l_conn ex_l)) no_head
    (Some (false, pair_of 6, conn_ack (l_conn ex_l true))) (l_pushed ex_l) (l_popped ex_l).

Lemma ex_l1_conn : l_conn ex_l1 false = TcpShmConn.ptcp_conn_ (Client.conn_ (ex_client ex_l)).
Proof.
  assert (∀ c f h a pu po, l_conn (mkLink (<[true := c]> f) h a pu po) false = f false) as H by done.
  unfold ex_l1. rewrite H. exact (eq_sym (proj2 (ex_tcp_conn ex_l false))).
Qed.

Lemma login_handshake_witness :
  ∃ l1 l2 w, conn_ack (l_conn ex_l true) = 1 ∧
    l_login l1 = Some (false, pair_of 6, conn_ack (l_conn ex_l true)) ∧
    link_step ex_hosts pair_of ex_l ex_w l1 ex_opened.2 ∧ link_step ex_hosts pair_of l1 w l2 ex_connected.2.
Proof.
  destruct ex_state_fresh as (Hct & Hcf & Hs1 & Hr1 & Hs2 & Hr2).
  destruct (login_handshake ex_hosts pair_of ex_hosts_ok (λ _, eq_refl) ex_l ex_w (mkMsgHeader 56 1 0)
    (ex_client ex_l) ex_nc 9 ex_header ex_opened.1 ex_w ex_opened.2 ex_state_reachable ex_client_login
    ex_server_login eq_refl Hct Hcf) as [Hstep Hconn]; [by vm_compute|by vm_compute|by vm_compute|done..|].
  destruct (Hconn ex_l1 false ex_reply ex_rsp (name16 "srv") (name16 "srv") ex_connected.1 ex_opened.2 ex_connected.2)
    as [w Hw]; [reflexivity|apply ex_l1_conn|by vm_compute|reflexivity|by vm_compute|by vm_compute
               |exact ex_connected_returns|].
  eexists ex_l1, _, w. split; [exact ex_conn_ack|]. split; [reflexivity|]. split; [exact Hstep|exact Hw].
Defined.
